(** * smartshare: the relay runtime of [server.js], embedded and verified

  The development follows [src/server.js].  Strings are sequences of 8-bit
  code units (Node decodes HTTP header values as Latin-1, and every literal
  of the source is ASCII); JavaScript numbers that the code uses as integers
  are [Z]; a JavaScript [Map] is an association list in insertion order,
  because the handlers iterate over it and stop at the first match. *)

From Stdlib Require Import List String Ascii ZArith NArith Bool Lia Arith Permutation.
From Stdlib Require DecimalString.
Import ListNotations.
Local Open Scope string_scope.
Local Open Scope Z_scope.

(** ** JavaScript string primitives used by the server *)

Module JS.

(** [s.charCodeAt(i)] for every position of [s], in order. *)
Fixpoint charCodes (s : string) : list Z :=
  match s with
  | EmptyString => []
  | String c r => Z.of_N (N_of_ascii c) :: charCodes r
  end.

(** Case mapping of one code unit under [String.prototype.toLowerCase]:
    A-Z, and the Latin-1 capitals U+00C0..U+00DE except the sign U+00D7. *)
Definition lowerCode (c : N) : N :=
  if ((65 <=? c) && (c <=? 90))%N then (c + 32)%N
  else if ((192 <=? c) && (c <=? 222) && negb (c =? 215))%N then (c + 32)%N
  else c.

Definition lowerChar (c : ascii) : ascii := ascii_of_N (lowerCode (N_of_ascii c)).

Fixpoint toLowerCase (s : string) : string :=
  match s with
  | EmptyString => EmptyString
  | String c r => String (lowerChar c) (toLowerCase r)
  end.

(** [s.startsWith(p)] *)
Fixpoint startsWith (p s : string) : bool :=
  match p, s with
  | EmptyString, _ => true
  | String a p', String b s' => Ascii.eqb a b && startsWith p' s'
  | String _ _, EmptyString => false
  end.

(** [s.includes(p)] *)
Fixpoint includes (p s : string) : bool :=
  startsWith p s ||
  match s with
  | EmptyString => false
  | String _ r => includes p r
  end.

(** WhiteSpace and LineTerminator code units below 256: TAB, LF, VT, FF, CR,
    SP and NBSP. *)
Definition isSpace (c : ascii) : bool :=
  let n := N_of_ascii c in
  (((9 <=? n) && (n <=? 13)) || (n =? 32) || (n =? 160))%N.

Fixpoint trimStart (s : string) : string :=
  match s with
  | EmptyString => EmptyString
  | String c r => if isSpace c then trimStart r else s
  end.

(** Removes trailing white space; the result is empty when [s] is all
    white space. *)
Fixpoint trimEnd (s : string) : string :=
  match s with
  | EmptyString => EmptyString
  | String c r =>
      match trimEnd r with
      | EmptyString => if isSpace c then EmptyString else String c EmptyString
      | r' => String c r'
      end
  end.

(** [s.trim()] *)
Definition trim (s : string) : string := trimEnd (trimStart s).

(** Truthiness of a string value: only the empty string is falsy. *)
Definition truthy (s : string) : bool :=
  match s with EmptyString => false | _ => true end.

(** [a || b] on a possibly absent ([undefined]/[null]) string. *)
Definition orElse (a : option string) (b : string) : string :=
  match a with
  | Some s => if truthy s then s else b
  | None => b
  end.

(** [a || b] where both sides may be absent. *)
Definition orOpt (a b : option string) : option string :=
  match a with
  | Some s => if truthy s then a else b
  | None => b
  end.

(** Truthiness of a possibly absent string. *)
Definition truthyOpt (a : option string) : bool :=
  match a with Some s => truthy s | None => false end.

(** [ToInt32]: the value of a number after a 32-bit bitwise operator. *)
Definition ToInt32 (z : Z) : Z := (z + 2 ^ 31) mod 2 ^ 32 - 2 ^ 31.

(** [a << n] *)
Definition shl (a n : Z) : Z := ToInt32 (Z.shiftl (ToInt32 a) n).

(** [a & b] *)
Definition band (a b : Z) : Z := ToInt32 (Z.land (ToInt32 a) (ToInt32 b)).

(** One digit of [Number.prototype.toString(36)]. *)
Definition digit36 (d : Z) : ascii :=
  if d <? 10 then ascii_of_N (Z.to_N (48 + d)) else ascii_of_N (Z.to_N (87 + d)).

Fixpoint toString36_loop (fuel : nat) (n : Z) (acc : string) : string :=
  let acc' := String (digit36 (n mod 36)) acc in
  match fuel with
  | O => acc'
  | S f => if n / 36 =? 0 then acc' else toString36_loop f (n / 36) acc'
  end.

(** [n.toString(36)] for an integer [n >= 0].  The loop divides by 36, so
    the binary length of [n] bounds the number of digits. *)
Definition toString36 (n : Z) : string :=
  toString36_loop (Z.to_nat (Z.log2 n)) n EmptyString.

(** The value a base-36 digit stands for. *)
Definition digitValue (c : ascii) : Z :=
  let n := Z.of_N (N_of_ascii c) in
  if n <? 58 then n - 48 else n - 87.

(** Reads a base-36 numeral back, most significant digit first. *)
Fixpoint parse36_from (v : Z) (s : string) : Z :=
  match s with
  | EmptyString => v
  | String c r => parse36_from (v * 36 + digitValue c) r
  end.

Definition parse36 (s : string) : Z := parse36_from 0 s.

End JS.

(** ** Identity hasher ([generateStableDeviceId]) *)

Module Identity.

(** What the hasher reads of the upgrade request.  [req.connection] is
    Node's alias of [req.socket], and a plain socket has no [socket]
    property of its own, so the last alternative of the source is [null]. *)
Record Request := {
  user_agent : option string;
  accept_language : option string;
  x_forwarded_for : option string;
  remoteAddress : option string
}.

(** The loop body: [hash = ((hash << 5) - hash) + char; hash = hash & hash]. *)
Definition hashStep (hash char : Z) : Z :=
  let hash1 := (JS.shl hash 5 - hash) + char in
  JS.band hash1 hash1.

Definition hashSeed (seed : string) : Z :=
  fold_left hashStep (JS.charCodes seed) 0.

(** [ua.includes('iphone') || ua.includes('ipad') || ua.includes('ipod')] *)
Definition isIOS (userAgent : string) : bool :=
  let ua := JS.toLowerCase userAgent in
  JS.includes "iphone" ua || JS.includes "ipad" ua || JS.includes "ipod" ua.

(** The client address the non-iOS branch reads. *)
Definition clientAddress (req : Request) : option string :=
  JS.orOpt (x_forwarded_for req)
    (JS.orOpt (remoteAddress req) (JS.orOpt (remoteAddress req) None)).

Definition iosSeed (userAgent : string) (req : Request) : string :=
  userAgent ++ JS.orElse (accept_language req) "".

Definition deviceSeed (userAgent : string) (req : Request) : string :=
  userAgent ++ JS.orElse (clientAddress req) "" ++ JS.orElse (accept_language req) "".

Definition generateStableDeviceId (userAgent : string) (req : Request) : string :=
  if isIOS userAgent then
    "ios-" ++ JS.toString36 (Z.abs (hashSeed (iosSeed userAgent req)))
  else
    "device-" ++ JS.toString36 (Z.abs (hashSeed (deviceSeed userAgent req))).

(** The test [/iPhone|iPad|iPod/.test(userAgent)] of the connection handler. *)
Definition matchesIPhoneIPadIPod (userAgent : string) : bool :=
  JS.includes "iPhone" userAgent || JS.includes "iPad" userAgent
  || JS.includes "iPod" userAgent.

(** A request whose address is [ip] and nothing else changed. *)
Definition withAddress (req : Request) (ip : string) : Request :=
  {| user_agent := user_agent req;
     accept_language := accept_language req;
     x_forwarded_for := None;
     remoteAddress := Some ip |}.

End Identity.

(** ** Device naming ([detectPlatform], [detectBrowser], [generateDeviceName],
    [getDeviceType]) *)

Module Platform.

Definition detectPlatform (userAgent : string) : string * string :=
  let ua := JS.toLowerCase userAgent in
  let platform :=
    if JS.includes "iphone" ua || JS.includes "ipod" ua then "iOS"
    else if JS.includes "ipad" ua then "iPadOS"
    else if JS.includes "android" ua then "Android"
    else if JS.includes "windows" ua then "Windows"
    else if JS.includes "mac os" ua || JS.includes "macos" ua then "macOS"
    else if JS.includes "linux" ua then "Linux"
    else "Unknown" in
  let browser :=
    if JS.includes "safari" ua && negb (JS.includes "chrome" ua)
       && negb (JS.includes "crios" ua) then "Safari"
    else if JS.includes "chrome" ua && negb (JS.includes "edg" ua) then "Chrome"
    else if JS.includes "firefox" ua then "Firefox"
    else if JS.includes "edge" ua then "Edge"
    else if JS.includes "opera" ua then "Opera"
    else if JS.includes "samsung" ua then "Samsung Internet"
    else "Unknown" in
  (platform, browser).

Definition detectBrowser (userAgent : string) : string :=
  let ua := JS.toLowerCase userAgent in
  if JS.includes "chrome" ua && negb (JS.includes "edg" ua) then "Chrome"
  else if JS.includes "firefox" ua then "Firefox"
  else if JS.includes "safari" ua && negb (JS.includes "chrome" ua) then "Safari"
  else if JS.includes "edge" ua then "Edge"
  else if JS.includes "opera" ua then "Opera"
  else if JS.includes "samsung" ua then "Samsung Internet"
  else "Unbekannt".

(** The table [platformNames]; message and label texts are spelled as the
    source file spells them. *)
Definition platformNames : list (string * string) :=
  [("Windows", "Windows PC"); ("macOS", "Mac"); ("Linux", "Linux PC");
   ("Android", "Android Gerät"); ("iOS", "iPhone"); ("iPadOS", "iPad");
   ("Unbekannt", "Unbekanntes Gerät")].

Fixpoint tableGet (k : string) (t : list (string * string)) : option string :=
  match t with
  | [] => None
  | (k', v) :: r => if String.eqb k k' then Some v else tableGet k r
  end.

Definition generateDeviceName (platform browser : string) : string :=
  let baseName := JS.orElse (tableGet platform platformNames) platform in
  baseName ++ " (" ++ browser ++ ")".

Definition getDeviceType (platform : string) : string :=
  if existsb (String.eqb platform) ["Android"; "iOS"] then "mobile"
  else if existsb (String.eqb platform) ["iPadOS"] then "tablet"
  else if existsb (String.eqb platform) ["Windows"; "macOS"; "Linux"] then "desktop"
  else "unknown".

End Platform.

(** ** The relay state *)

(** A channel is named by a number; its [readyState] lives in the state. *)
Definition Ws := nat.

Inductive ReadyState := CONNECTING | OPEN | CLOSING | CLOSED.

Definition isOpen (r : ReadyState) : bool :=
  match r with OPEN => true | _ => false end.

(** A device record.  Its [id] is the key it is stored under in [devices]
    (the source always stores a device under its own id). *)
Record Device := mkDevice {
  d_ws : option Ws;
  d_name : string;
  d_customName : option string;
  d_type : string;
  d_platform : string;
  d_browser : string;
  d_userAgent : string;
  d_pinned : bool;
  d_online : bool;
  d_lastSeen : Z;
  d_roomId : option string;
  d_connectionStrength : string;
  d_ip : option string;
  d_clientId : option string;
  d_sessionId : option string;
  d_language : option string
}.

(** A room record, stored under its [id]; [r_devices] is the member [Set]
    in insertion order. *)
Record Room := mkRoom {
  r_name : string;
  r_created : Z;
  r_createdBy : string;
  r_devices : list string
}.

Record FileMeta := mkFile {
  f_name : string;
  f_size : Z;
  f_type : option string
}.

(** The only values the source ever writes to [transfer.status]. *)
Inductive TransferStatus := Pending | Completed.

(** A transfer record.  [t_chunks] is [None] when the property is absent or
    falsy; a present array is a list of slots, [None] being a hole. *)
Record Transfer := mkTransfer {
  t_files : list FileMeta;
  t_fromDevice : string;
  t_fromDeviceId : string;
  t_targetDeviceId : string;
  t_timestamp : Z;
  t_totalSize : Z;
  t_status : TransferStatus;
  t_chunks : option (list (option string));
  t_receivedChunks : nat;
  t_startTime : option Z;
  t_endTime : option Z
}.

(** The value kept per channel in [activeConnections]. *)
Record ConnInfo := mkConnInfo {
  ci_deviceId : string;
  ci_connectedAt : Z;
  ci_lastActivity : Z;
  ci_userAgent : string;
  ci_platform : string;
  ci_browser : string;
  ci_ip : option string;
  ci_isIOS : bool
}.

(** One entry of a [deviceList] frame. *)
Record DeviceEntry := mkEntry {
  e_id : string;
  e_name : string;
  e_originalName : string;
  e_type : string;
  e_platform : string;
  e_browser : string;
  e_pinned : bool;
  e_online : bool;
  e_lastSeen : Z;
  e_connectionStrength : string;
  e_hasCustomName : bool
}.

(** The [serverInfo] of a [welcome] frame; [maxFileSize] is always ['500MB']
    and [supportsProgress] always [true]. *)
Record ServerInfo := mkServerInfo {
  si_chunkSize : string;
  si_browser : option string;
  si_platform : option string;
  si_safariOptimized : bool;
  si_connection : option string;
  si_serverVersion : option string
}.

(** Outbound frames.  [uploadProgress] also carries [progress], a
    floating-point rounding of [receivedChunks / totalChunks]; it is a
    function of the two counts kept here.  [CloseFrame] stands for
    [ws.close(code, reason)]. *)
Inductive Frame :=
| Welcome (deviceId : string) (serverInfo : ServerInfo) (timestamp : option Z)
| Ping (timestamp : Z) (ios_heartbeat : bool)
| Pong (timestamp : Z)
| ErrorFrame (message : string)
| DuplicateConnection (message : string) (keepThisConnection : bool)
| FileChunkOut (targetDeviceId transferId : string) (fileIndex : Z)
    (chunkIndex totalChunks : nat) (data : string) (fileSize : Z)
| UploadProgress (transferId : string) (receivedChunks totalChunks : nat)
| FileComplete (transferId fileName fileType : string) (fileSize : Z)
    (fileData fromDevice : string)
| TransferComplete (transferId fileName targetDevice : string)
| TransferError (transferId : option string) (message : string)
| TransferProgress (transferId : string) (progress fileIndex : Z)
| IncomingFile (files : list FileMeta) (fromDevice fromDeviceId transferId : string)
    (totalSize : Z)
| TransferStarted (targetDevice transferId : string)
| SendFileData (targetDeviceId transferId : string) (fileIndex chunkSize : Z)
| DownloadError (message : string)
| TransferRejected (message : string)
| TransferAccepted (message : string)
| DeviceNameUpdated (name : string)
| RoomError (message : string)
| RoomJoined (roomId roomName : string) (deviceCount : nat)
| RoomCreated (roomId roomName : string)
| RoomLeft
| DeviceList (entries : list DeviceEntry) (roomId roomName : string) (deviceCount : nat)
| DeviceJoined (deviceId deviceName : string) (deviceCount : nat)
| DeviceLeft (deviceId deviceName : string) (deviceCount : Z) (reason : option string)
| CloseFrame (code : option Z) (reason : string).

(** The frame types ['desktop'], ['mobile'] and ['tablet'] of old clients. *)
Inductive LegacyKind := Desktop | Mobile | Tablet.

(** Inbound frames after [JSON.parse], with the field types the client
    protocol uses: identifiers and names are strings, chunk indices and
    counts are non-negative integers, sizes are integers; an optional field
    may be absent.  [UnknownType] is a frame whose [type] is none of the
    cases of the router's [switch]. *)
Inductive Msg :=
| ClientIdentify (clientId sessionId userAgent language previousSession : option string)
| LegacyDeviceType (type : LegacyKind) (name customName : option string)
| DeviceInfo (name customName type : option string)
| FileTransfer (targetDeviceId : string) (files : list FileMeta) (transferId : option string)
| FileChunk (transferId : string) (chunkIndex totalChunks : nat) (data : string) (fileSize : Z)
| FileCompleteMsg (transferId : string)
| UpdateDeviceName (name : string)
| FileProgress (targetDeviceId transferId : string) (progress fileIndex : Z)
| PingMsg (connectionStrength : option string) (timestamp : option Z)
| TransferCompleteMsg (transferId : string)
| RequestFileDownload (transferId : string) (fileIndex : Z) (chunkSize : option Z)
| RequestMissingChunks (transferId : string) (missingChunks : list nat) (totalChunks : nat)
| TransferRejectedMsg (fromDeviceId transferId : string)
| TransferAcceptedMsg (fromDeviceId transferId : string)
| TogglePinDevice (targetDeviceId : string)
| JoinRoom (roomName roomId : option string)
| CreateRoom (roomName roomId : option string)
| LeaveRoom
| FileCancel (transferId : string)
| UnknownType (type : string).

(** What a timer runs when it fires. *)
Inductive Task :=
| TaskWelcome (ws : Ws) (deviceId : string) (serverInfo : ServerInfo)
| TaskIOSHeartbeat (ws : Ws)
| TaskCloseDuplicate (ws : Ws).

Record Timer := mkTimer {
  tm_delay : Z;
  tm_repeat : bool;
  tm_task : Task
}.

(** An entry of [data/devices.json]: the fields [saveDevices] writes, the
    constant [online: false] apart. *)
Record SavedDevice := mkSavedDevice {
  sd_id : string;
  sd_name : string;
  sd_type : string;
  sd_platform : string;
  sd_browser : string;
  sd_userAgent : string;
  sd_pinned : bool;
  sd_lastSeen : Z;
  sd_roomId : option string;
  sd_customName : option string
}.

(** An entry of [data/rooms.json]. *)
Record SavedRoom := mkSavedRoom {
  sr_id : string;
  sr_name : string;
  sr_created : Z;
  sr_createdBy : string;
  sr_devices : list string
}.

(** The process state: the module-level maps and counters of [server.js],
    the channels' ready states, what has been written to each channel, and
    the pending timers; and with them the two catalogs on disk.
    [wsSendThrows] is the behaviour of the [ws] library's [send] on a channel
    that is not OPEN, which differs between its versions: it either throws
    or drops the frame. *)
Record State := mkState {
  rooms : list (string * Room);
  devices : list (string * Device);
  connections : list (Ws * string);
  activeConnections : list (Ws * ConnInfo);
  fileTransfers : list (string * Transfer);
  currentMemoryUsage : Z;
  activeTransferCount : Z;
  sockets : list (Ws * ReadyState);
  wsSendThrows : bool;
  outbox : list (Ws * Frame);
  timers : list Timer;
  devicesFile : list SavedDevice;
  roomsFile : list SavedRoom
}.

(** *** JavaScript [Map] and [Set] in insertion order *)

Section Assoc.
Context {K V : Type} (eqb : K -> K -> bool).

(** [m.get(k)] *)
Fixpoint mapGet (k : K) (m : list (K * V)) : option V :=
  match m with
  | [] => None
  | (k', v) :: r => if eqb k k' then Some v else mapGet k r
  end.

(** [m.set(k, v)]: an existing key keeps its place. *)
Fixpoint mapSet (k : K) (v : V) (m : list (K * V)) : list (K * V) :=
  match m with
  | [] => [(k, v)]
  | (k', v') :: r => if eqb k k' then (k, v) :: r else (k', v') :: mapSet k v r
  end.

(** [m.delete(k)] *)
Definition mapDelete (k : K) (m : list (K * V)) : list (K * V) :=
  filter (fun kv => negb (eqb k (fst kv))) m.

End Assoc.

(** [s.add(x)] *)
Definition setAdd (x : string) (s : list string) : list string :=
  if existsb (String.eqb x) s then s else s ++ [x].

(** [s.delete(x)] *)
Definition setDelete (x : string) (s : list string) : list string :=
  filter (fun y => negb (String.eqb x y)) s.

Abbreviation sget := (mapGet String.eqb).
Abbreviation sset := (mapSet String.eqb).
Abbreviation sdelete := (mapDelete String.eqb).
Abbreviation wget := (mapGet Nat.eqb).
Abbreviation wset := (mapSet Nat.eqb).
Abbreviation wdelete := (mapDelete Nat.eqb).

(** *** Field updates (an assignment [o.f = x]) *)

Definition set_d_ws (x : option Ws) (r : Device) : Device :=
  mkDevice x (d_name r) (d_customName r) (d_type r) (d_platform r) (d_browser r) (d_userAgent r) (d_pinned r) (d_online r) (d_lastSeen r) (d_roomId r) (d_connectionStrength r) (d_ip r) (d_clientId r) (d_sessionId r) (d_language r).

Definition set_d_name (x : string) (r : Device) : Device :=
  mkDevice (d_ws r) x (d_customName r) (d_type r) (d_platform r) (d_browser r) (d_userAgent r) (d_pinned r) (d_online r) (d_lastSeen r) (d_roomId r) (d_connectionStrength r) (d_ip r) (d_clientId r) (d_sessionId r) (d_language r).

Definition set_d_customName (x : option string) (r : Device) : Device :=
  mkDevice (d_ws r) (d_name r) x (d_type r) (d_platform r) (d_browser r) (d_userAgent r) (d_pinned r) (d_online r) (d_lastSeen r) (d_roomId r) (d_connectionStrength r) (d_ip r) (d_clientId r) (d_sessionId r) (d_language r).

Definition set_d_type (x : string) (r : Device) : Device :=
  mkDevice (d_ws r) (d_name r) (d_customName r) x (d_platform r) (d_browser r) (d_userAgent r) (d_pinned r) (d_online r) (d_lastSeen r) (d_roomId r) (d_connectionStrength r) (d_ip r) (d_clientId r) (d_sessionId r) (d_language r).

Definition set_d_platform (x : string) (r : Device) : Device :=
  mkDevice (d_ws r) (d_name r) (d_customName r) (d_type r) x (d_browser r) (d_userAgent r) (d_pinned r) (d_online r) (d_lastSeen r) (d_roomId r) (d_connectionStrength r) (d_ip r) (d_clientId r) (d_sessionId r) (d_language r).

Definition set_d_browser (x : string) (r : Device) : Device :=
  mkDevice (d_ws r) (d_name r) (d_customName r) (d_type r) (d_platform r) x (d_userAgent r) (d_pinned r) (d_online r) (d_lastSeen r) (d_roomId r) (d_connectionStrength r) (d_ip r) (d_clientId r) (d_sessionId r) (d_language r).

Definition set_d_userAgent (x : string) (r : Device) : Device :=
  mkDevice (d_ws r) (d_name r) (d_customName r) (d_type r) (d_platform r) (d_browser r) x (d_pinned r) (d_online r) (d_lastSeen r) (d_roomId r) (d_connectionStrength r) (d_ip r) (d_clientId r) (d_sessionId r) (d_language r).

Definition set_d_pinned (x : bool) (r : Device) : Device :=
  mkDevice (d_ws r) (d_name r) (d_customName r) (d_type r) (d_platform r) (d_browser r) (d_userAgent r) x (d_online r) (d_lastSeen r) (d_roomId r) (d_connectionStrength r) (d_ip r) (d_clientId r) (d_sessionId r) (d_language r).

Definition set_d_online (x : bool) (r : Device) : Device :=
  mkDevice (d_ws r) (d_name r) (d_customName r) (d_type r) (d_platform r) (d_browser r) (d_userAgent r) (d_pinned r) x (d_lastSeen r) (d_roomId r) (d_connectionStrength r) (d_ip r) (d_clientId r) (d_sessionId r) (d_language r).

Definition set_d_lastSeen (x : Z) (r : Device) : Device :=
  mkDevice (d_ws r) (d_name r) (d_customName r) (d_type r) (d_platform r) (d_browser r) (d_userAgent r) (d_pinned r) (d_online r) x (d_roomId r) (d_connectionStrength r) (d_ip r) (d_clientId r) (d_sessionId r) (d_language r).

Definition set_d_roomId (x : option string) (r : Device) : Device :=
  mkDevice (d_ws r) (d_name r) (d_customName r) (d_type r) (d_platform r) (d_browser r) (d_userAgent r) (d_pinned r) (d_online r) (d_lastSeen r) x (d_connectionStrength r) (d_ip r) (d_clientId r) (d_sessionId r) (d_language r).

Definition set_d_connectionStrength (x : string) (r : Device) : Device :=
  mkDevice (d_ws r) (d_name r) (d_customName r) (d_type r) (d_platform r) (d_browser r) (d_userAgent r) (d_pinned r) (d_online r) (d_lastSeen r) (d_roomId r) x (d_ip r) (d_clientId r) (d_sessionId r) (d_language r).

Definition set_d_ip (x : option string) (r : Device) : Device :=
  mkDevice (d_ws r) (d_name r) (d_customName r) (d_type r) (d_platform r) (d_browser r) (d_userAgent r) (d_pinned r) (d_online r) (d_lastSeen r) (d_roomId r) (d_connectionStrength r) x (d_clientId r) (d_sessionId r) (d_language r).

Definition set_d_clientId (x : option string) (r : Device) : Device :=
  mkDevice (d_ws r) (d_name r) (d_customName r) (d_type r) (d_platform r) (d_browser r) (d_userAgent r) (d_pinned r) (d_online r) (d_lastSeen r) (d_roomId r) (d_connectionStrength r) (d_ip r) x (d_sessionId r) (d_language r).

Definition set_d_sessionId (x : option string) (r : Device) : Device :=
  mkDevice (d_ws r) (d_name r) (d_customName r) (d_type r) (d_platform r) (d_browser r) (d_userAgent r) (d_pinned r) (d_online r) (d_lastSeen r) (d_roomId r) (d_connectionStrength r) (d_ip r) (d_clientId r) x (d_language r).

Definition set_d_language (x : option string) (r : Device) : Device :=
  mkDevice (d_ws r) (d_name r) (d_customName r) (d_type r) (d_platform r) (d_browser r) (d_userAgent r) (d_pinned r) (d_online r) (d_lastSeen r) (d_roomId r) (d_connectionStrength r) (d_ip r) (d_clientId r) (d_sessionId r) x.

Definition set_r_devices (x : list string) (r : Room) : Room :=
  mkRoom (r_name r) (r_created r) (r_createdBy r) x.

Definition set_t_totalSize (x : Z) (r : Transfer) : Transfer :=
  mkTransfer (t_files r) (t_fromDevice r) (t_fromDeviceId r) (t_targetDeviceId r) (t_timestamp r) x (t_status r) (t_chunks r) (t_receivedChunks r) (t_startTime r) (t_endTime r).

Definition set_t_status (x : TransferStatus) (r : Transfer) : Transfer :=
  mkTransfer (t_files r) (t_fromDevice r) (t_fromDeviceId r) (t_targetDeviceId r) (t_timestamp r) (t_totalSize r) x (t_chunks r) (t_receivedChunks r) (t_startTime r) (t_endTime r).

Definition set_t_chunks (x : option (list (option string))) (r : Transfer) : Transfer :=
  mkTransfer (t_files r) (t_fromDevice r) (t_fromDeviceId r) (t_targetDeviceId r) (t_timestamp r) (t_totalSize r) (t_status r) x (t_receivedChunks r) (t_startTime r) (t_endTime r).

Definition set_t_receivedChunks (x : nat) (r : Transfer) : Transfer :=
  mkTransfer (t_files r) (t_fromDevice r) (t_fromDeviceId r) (t_targetDeviceId r) (t_timestamp r) (t_totalSize r) (t_status r) (t_chunks r) x (t_startTime r) (t_endTime r).

Definition set_t_startTime (x : option Z) (r : Transfer) : Transfer :=
  mkTransfer (t_files r) (t_fromDevice r) (t_fromDeviceId r) (t_targetDeviceId r) (t_timestamp r) (t_totalSize r) (t_status r) (t_chunks r) (t_receivedChunks r) x (t_endTime r).

Definition set_t_endTime (x : option Z) (r : Transfer) : Transfer :=
  mkTransfer (t_files r) (t_fromDevice r) (t_fromDeviceId r) (t_targetDeviceId r) (t_timestamp r) (t_totalSize r) (t_status r) (t_chunks r) (t_receivedChunks r) (t_startTime r) x.

Definition set_ci_lastActivity (x : Z) (r : ConnInfo) : ConnInfo :=
  mkConnInfo (ci_deviceId r) (ci_connectedAt r) x (ci_userAgent r) (ci_platform r) (ci_browser r) (ci_ip r) (ci_isIOS r).

Definition set_rooms (x : list (string * Room)) (r : State) : State :=
  mkState x (devices r) (connections r) (activeConnections r) (fileTransfers r) (currentMemoryUsage r) (activeTransferCount r) (sockets r) (wsSendThrows r) (outbox r) (timers r) (devicesFile r) (roomsFile r).

Definition set_devices (x : list (string * Device)) (r : State) : State :=
  mkState (rooms r) x (connections r) (activeConnections r) (fileTransfers r) (currentMemoryUsage r) (activeTransferCount r) (sockets r) (wsSendThrows r) (outbox r) (timers r) (devicesFile r) (roomsFile r).

Definition set_connections (x : list (Ws * string)) (r : State) : State :=
  mkState (rooms r) (devices r) x (activeConnections r) (fileTransfers r) (currentMemoryUsage r) (activeTransferCount r) (sockets r) (wsSendThrows r) (outbox r) (timers r) (devicesFile r) (roomsFile r).

Definition set_activeConnections (x : list (Ws * ConnInfo)) (r : State) : State :=
  mkState (rooms r) (devices r) (connections r) x (fileTransfers r) (currentMemoryUsage r) (activeTransferCount r) (sockets r) (wsSendThrows r) (outbox r) (timers r) (devicesFile r) (roomsFile r).

Definition set_fileTransfers (x : list (string * Transfer)) (r : State) : State :=
  mkState (rooms r) (devices r) (connections r) (activeConnections r) x (currentMemoryUsage r) (activeTransferCount r) (sockets r) (wsSendThrows r) (outbox r) (timers r) (devicesFile r) (roomsFile r).

Definition set_currentMemoryUsage (x : Z) (r : State) : State :=
  mkState (rooms r) (devices r) (connections r) (activeConnections r) (fileTransfers r) x (activeTransferCount r) (sockets r) (wsSendThrows r) (outbox r) (timers r) (devicesFile r) (roomsFile r).

Definition set_sockets (x : list (Ws * ReadyState)) (r : State) : State :=
  mkState (rooms r) (devices r) (connections r) (activeConnections r) (fileTransfers r) (currentMemoryUsage r) (activeTransferCount r) x (wsSendThrows r) (outbox r) (timers r) (devicesFile r) (roomsFile r).

Definition set_outbox (x : list (Ws * Frame)) (r : State) : State :=
  mkState (rooms r) (devices r) (connections r) (activeConnections r) (fileTransfers r) (currentMemoryUsage r) (activeTransferCount r) (sockets r) (wsSendThrows r) x (timers r) (devicesFile r) (roomsFile r).

Definition set_timers (x : list Timer) (r : State) : State :=
  mkState (rooms r) (devices r) (connections r) (activeConnections r) (fileTransfers r) (currentMemoryUsage r) (activeTransferCount r) (sockets r) (wsSendThrows r) (outbox r) x (devicesFile r) (roomsFile r).

Definition set_devicesFile (x : list SavedDevice) (r : State) : State :=
  mkState (rooms r) (devices r) (connections r) (activeConnections r) (fileTransfers r) (currentMemoryUsage r) (activeTransferCount r) (sockets r) (wsSendThrows r) (outbox r) (timers r) x (roomsFile r).

Definition set_roomsFile (x : list SavedRoom) (r : State) : State :=
  mkState (rooms r) (devices r) (connections r) (activeConnections r) (fileTransfers r) (currentMemoryUsage r) (activeTransferCount r) (sockets r) (wsSendThrows r) (outbox r) (timers r) (devicesFile r) x.

(** ** Handlers as state transformers that may throw

    A JavaScript exception does not undo the assignments made before it, so
    a computation returns the state it reached together with its outcome. *)

Inductive Exn :=
| ReferenceError (name : string)
| TypeError (what : string)
| SendError (ws : Ws)
| RangeError.

Inductive Outcome (A : Type) :=
| Ret (a : A)
| Throw (e : Exn).

Arguments Ret {A} a.
Arguments Throw {A} e.

Definition M (A : Type) : Type := State -> Outcome A * State.

Definition ret {A} (a : A) : M A := fun st => (Ret a, st).

Definition throw {A} (e : Exn) : M A := fun st => (Throw e, st).

Definition bind {A B} (m : M A) (k : A -> M B) : M B :=
  fun st =>
    match m st with
    | (Ret a, st') => k a st'
    | (Throw e, st') => (Throw e, st')
    end.

Declare Scope handler_scope.
Delimit Scope handler_scope with handler.
Notation "x <- m ;; k" := (bind m (fun x => k))
  (at level 61, m at next level, right associativity) : handler_scope.
Notation "m ;; k" := (bind m (fun _ => k))
  (at level 61, right associativity) : handler_scope.
Local Open Scope handler_scope.

Definition gets {A} (f : State -> A) : M A := fun st => (Ret (f st), st).

Definition modify (f : State -> State) : M unit := fun st => (Ret tt, f st).

(** [try { m } catch (e) { h e }] *)
Definition tryCatch {A} (m : M A) (h : Exn -> M A) : M A :=
  fun st =>
    match m st with
    | (Ret a, st') => (Ret a, st')
    | (Throw e, st') => h e st'
    end.

Definition when (b : bool) (m : M unit) : M unit := if b then m else ret tt.

(** [l.forEach(f)] over a list fixed beforehand. *)
Fixpoint forEach {A} (l : list A) (f : A -> M unit) : M unit :=
  match l with
  | [] => ret tt
  | x :: r => f x ;; forEach r f
  end.

(** The state a computation leaves, whatever its outcome. *)
Definition exec {A} (m : M A) (st : State) : State := snd (m st).

(** *** Channels *)

Definition readyStateOf (st : State) (ws : Ws) : ReadyState :=
  match wget ws (sockets st) with
  | Some r => r
  | None => CLOSED
  end.

Definition wsOpen (ws : Ws) : M bool := gets (fun st => isOpen (readyStateOf st ws)).

(** [ws.send(JSON.stringify(frame))] *)
Definition wsSend (ws : Ws) (f : Frame) : M unit :=
  fun st =>
    if isOpen (readyStateOf st ws) then
      (Ret tt, set_outbox (outbox st ++ [(ws, f)]) st)
    else if wsSendThrows st then (Throw (SendError ws), st)
    else (Ret tt, st).

(** [device.ws.send(...)], where [device.ws] may be [null]. *)
Definition sendTo (ws : option Ws) (f : Frame) : M unit :=
  match ws with
  | Some w => wsSend w f
  | None => throw (TypeError "Cannot read properties of null (reading 'send')")
  end.

(** [ws && ws.readyState === WebSocket.OPEN] *)
Definition openOpt (ws : option Ws) : M bool :=
  match ws with
  | Some w => wsOpen w
  | None => ret false
  end.

(** [ws.close(code, reason)]: starts the closing handshake of an OPEN
    channel and does nothing otherwise. *)
Definition wsClose (ws : Ws) (code : option Z) (reason : string) : M unit :=
  fun st =>
    if isOpen (readyStateOf st ws) then
      (Ret tt, set_sockets (wset ws CLOSING (sockets st))
                 (set_outbox (outbox st ++ [(ws, CloseFrame code reason)]) st))
    else (Ret tt, st).

(** *** Registries *)

Definition getDevice (id : string) : M (option Device) :=
  gets (fun st => sget id (devices st)).

Definition getRoom (id : string) : M (option Room) :=
  gets (fun st => sget id (rooms st)).

Definition getTransfer (id : string) : M (option Transfer) :=
  gets (fun st => sget id (fileTransfers st)).

(** An assignment to fields of the device object stored under [id]. *)
Definition updateDevice (id : string) (f : Device -> Device) : M unit :=
  modify (fun st =>
    match sget id (devices st) with
    | Some d => set_devices (sset id (f d) (devices st)) st
    | None => st
    end).

Definition updateRoom (id : string) (f : Room -> Room) : M unit :=
  modify (fun st =>
    match sget id (rooms st) with
    | Some r => set_rooms (sset id (f r) (rooms st)) st
    | None => st
    end).

Definition updateTransfer (id : string) (f : Transfer -> Transfer) : M unit :=
  modify (fun st =>
    match sget id (fileTransfers st) with
    | Some t => set_fileTransfers (sset id (f t) (fileTransfers st)) st
    | None => st
    end).

Definition deleteTransfer (id : string) : M unit :=
  modify (fun st => set_fileTransfers (sdelete id (fileTransfers st)) st).

(** [device.customName || device.name] *)
Definition displayName (d : Device) : string := JS.orElse (d_customName d) (d_name d).

(** *** The catalogs on disk *)

(** What [saveDevices] writes of a device. *)
Definition savedDevice (id : string) (d : Device) : SavedDevice :=
  {| sd_id := id;
     sd_name := d_name d;
     sd_type := d_type d;
     sd_platform := d_platform d;
     sd_browser := d_browser d;
     sd_userAgent := d_userAgent d;
     sd_pinned := d_pinned d;
     sd_lastSeen := d_lastSeen d;
     sd_roomId := d_roomId d;
     sd_customName := d_customName d |}.

(** [saveDevices()]: the devices of the registry, in its order, go to
    [data/devices.json].  The function catches its own errors and changes
    nothing in memory; its asynchronous write is taken to succeed, and the
    writes to land in the order of the calls. *)
Definition saveDevices : M unit :=
  modify (fun st =>
    set_devicesFile (map (fun e => savedDevice (fst e) (snd e)) (devices st)) st).

(** What [saveRooms] writes of a room. *)
Definition savedRoom (id : string) (r : Room) : SavedRoom :=
  {| sr_id := id;
     sr_name := r_name r;
     sr_created := r_created r;
     sr_createdBy := r_createdBy r;
     sr_devices := r_devices r |}.

(** [saveRooms()]: the rooms go to [data/rooms.json], written at once. *)
Definition saveRooms : M unit :=
  modify (fun st =>
    set_roomsFile (map (fun e => savedRoom (fst e) (snd e)) (rooms st)) st).

(** The device object [loadDevices] makes of an entry: offline and without
    channel.  The fields the file does not hold are [undefined] in the
    object; [connectionStrength], which the server only reads as
    [device.connectionStrength || 'good'], is the empty string here. *)
Definition loadedDevice (sd : SavedDevice) : Device :=
  {| d_ws := None;
     d_name := sd_name sd;
     d_customName := sd_customName sd;
     d_type := sd_type sd;
     d_platform := sd_platform sd;
     d_browser := sd_browser sd;
     d_userAgent := sd_userAgent sd;
     d_pinned := sd_pinned sd;
     d_online := false;
     d_lastSeen := sd_lastSeen sd;
     d_roomId := sd_roomId sd;
     d_connectionStrength := "";
     d_ip := None;
     d_clientId := None;
     d_sessionId := None;
     d_language := None |}.

(** [loadDevices()] on the entries of the file: [devices.set(device.id,
    device)] for each, in the order of the file. *)
Definition loadDevices (file : list SavedDevice) : list (string * Device) :=
  fold_left (fun m sd => sset (sd_id sd) (loadedDevice sd) m) file [].

(** The room object [loadRooms] makes of an entry, with
    [room.devices = new Set(room.devices)]. *)
Definition loadedRoom (sr : SavedRoom) : Room :=
  {| r_name := sr_name sr;
     r_created := sr_created sr;
     r_createdBy := sr_createdBy sr;
     r_devices := fold_left (fun s x => setAdd x s) (sr_devices sr) [] |}.

(** [loadRooms()]: [rooms.set(room.id, room)] for each entry. *)
Definition loadRooms (file : list SavedRoom) : list (string * Room) :=
  fold_left (fun m sr => sset (sr_id sr) (loadedRoom sr) m) file [].

(** ** Memory governor *)

Definition MEMORY_LIMITS_MAX_MEMORY_USAGE : Z := 500 * 1024 * 1024.
Definition MEMORY_LIMITS_WARNING_THRESHOLD : Z := 400 * 1024 * 1024.
Definition MEMORY_LIMITS_CHUNK_SIZE : Z := 20 * 1024 * 1024.
Definition MEMORY_LIMITS_MAX_CONCURRENT_TRANSFERS : Z := 5.

(** The numbers bound to a bare name at module level: the two [let]
    counters.  The limits above are properties of the object
    [MEMORY_LIMITS], not names of their own. *)
Definition numericBinding (st : State) (x : string) : option Z :=
  if String.eqb x "currentMemoryUsage" then Some (currentMemoryUsage st)
  else if String.eqb x "activeTransferCount" then Some (activeTransferCount st)
  else None.

(** Evaluating a bare identifier: a [ReferenceError] when nothing binds it. *)
Definition readBinding (x : string) : M Z :=
  fun st =>
    match numericBinding st x with
    | Some v => (Ret v, st)
    | None => (Throw (ReferenceError x), st)
    end.

Definition memoryTimeout : Z := 5 * 60 * 1000.

(** The body of [cleanupMemory], given the function it calls back.  A
    [Map.forEach] skips an entry that was deleted before its turn. *)
Definition cleanupMemoryWith (update : Z -> M unit) (now : Z) : M unit :=
  keys <- gets (fun st => map fst (fileTransfers st)) ;;
  forEach keys (fun transferId =>
    cur <- getTransfer transferId ;;
    match cur with
    | None => ret tt
    | Some transfer =>
        if now - t_timestamp transfer >? memoryTimeout then
          match t_chunks transfer with
          | Some _ => update (- t_totalSize transfer)
          | None => ret tt
          end ;;
          deleteTransfer transferId
        else ret tt
    end).

(** [updateMemoryUsage(delta)].  It and [cleanupMemory] call each other;
    [depth] is the room left on the call stack. *)
Fixpoint updateMemoryUsage (depth : nat) (now : Z) (delta : Z) : M unit :=
  modify (fun st => set_currentMemoryUsage (currentMemoryUsage st + delta) st) ;;
  current <- gets currentMemoryUsage ;;
  limit <- readBinding "MAX_MEMORY_USAGE" ;;
  if current >? limit then
    match depth with
    | O => throw RangeError
    | S d => cleanupMemoryWith (updateMemoryUsage d now) now
    end
  else ret tt.

Definition cleanupMemory (depth : nat) (now : Z) : M unit :=
  cleanupMemoryWith (updateMemoryUsage depth now) now.

(** Room on the call stack when a handler starts. *)
Definition callDepth : nat := 1000.

(** ** Presence broadcaster *)

Definition broadcastToRoom (roomId : string) (message : Frame)
    (excludeDeviceId : option string) : M unit :=
  room <- getRoom roomId ;;
  match room with
  | None => ret tt
  | Some r =>
      forEach (r_devices r) (fun deviceId =>
        if match excludeDeviceId with
           | Some x => String.eqb deviceId x
           | None => false
           end
        then ret tt
        else
          device <- getDevice deviceId ;;
          match device with
          | Some d =>
              o <- openOpt (d_ws d) ;;
              if d_online d && o then
                tryCatch (sendTo (d_ws d) message) (fun _ => ret tt)
              else ret tt
          | None => ret tt
          end)
  end.

Definition deviceEntry (id : string) (d : Device) : DeviceEntry :=
  {| e_id := id;
     e_name := displayName d;
     e_originalName := d_name d;
     e_type := d_type d;
     e_platform := d_platform d;
     e_browser := d_browser d;
     e_pinned := d_pinned d;
     e_online := d_online d;
     e_lastSeen := d_lastSeen d;
     e_connectionStrength := JS.orElse (Some (d_connectionStrength d)) "good";
     e_hasCustomName := JS.truthyOpt (d_customName d) |}.

Fixpoint deviceEntries (devs : list (string * Device)) (ids : list string)
    : list DeviceEntry :=
  match ids with
  | [] => []
  | id :: r =>
      match sget id devs with
      | Some d => deviceEntry id d :: deviceEntries devs r
      | None => deviceEntries devs r
      end
  end.

Definition broadcastDeviceList (roomId : string) : M unit :=
  room <- getRoom roomId ;;
  match room with
  | None => ret tt
  | Some r =>
      deviceList <- gets (fun st => deviceEntries (devices st) (r_devices r)) ;;
      broadcastToRoom roomId
        (DeviceList deviceList roomId (r_name r) (List.length deviceList)) None
  end.

(** [x] when the value is an object, a [TypeError] when it is [undefined]
    and a property of it is read. *)
Definition property {A} (what : string) (o : option A) : M A :=
  match o with
  | Some a => ret a
  | None => throw (TypeError what)
  end.

(** ** Transfer engine *)

(** [Date.now()] in decimal, as string concatenation renders it. *)
Definition decimal (z : Z) : string :=
  DecimalString.NilZero.string_of_int (Z.to_int z).

(** ['transfer-' + Date.now() + '-' + Math.random().toString(36).substr(2, 9)];
    [rnd] is the random suffix. *)
Definition generateTransferId (now : Z) (rnd : string) : string :=
  "transfer-" ++ decimal now ++ "-" ++ rnd.

Definition optEqb (a b : option string) : bool :=
  match a, b with
  | Some x, Some y => String.eqb x y
  | None, None => true
  | _, _ => false
  end.

(** The characters the pattern [[^A-Za-z0-9+/=]] leaves in place. *)
Definition isBase64Char (c : ascii) : bool :=
  let n := N_of_ascii c in
  (((65 <=? n) && (n <=? 90)) || ((97 <=? n) && (n <=? 122))
   || ((48 <=? n) && (n <=? 57)) || (n =? 43) || (n =? 47) || (n =? 61))%N.

(** [s.replace(/[^A-Za-z0-9+/=]/g, '')] *)
Fixpoint keepBase64 (s : string) : string :=
  match s with
  | EmptyString => EmptyString
  | String c r => if isBase64Char c then String c (keepBase64 r) else keepBase64 r
  end.

(** [s.substring(s.indexOf(',') + 1)] when [s] has a comma. *)
Fixpoint afterComma (s : string) : option string :=
  match s with
  | EmptyString => None
  | String c r => if Ascii.eqb c "," then Some r else afterComma r
  end.

(** The clean-up of a chunk's payload in [handleFileChunk]. *)
Definition cleanChunk (chunkData : string) : string :=
  let stripped :=
    if JS.startsWith "data:" chunkData then
      match afterComma chunkData with
      | Some r => r
      | None => chunkData
      end
    else chunkData in
  keepBase64 stripped.

(** [a[i] = x] on an array: a write past the end extends it with holes. *)
Fixpoint arraySet {A} (i : nat) (x : A) (a : list (option A)) : list (option A) :=
  match i, a with
  | O, [] => [Some x]
  | O, _ :: r => Some x :: r
  | S j, [] => None :: arraySet j x []
  | S j, y :: r => y :: arraySet j x r
  end.

(** [a[i]]: [undefined] for a hole and past the end. *)
Definition arrayGet {A} (i : nat) (a : list (option A)) : option A :=
  match nth_error a i with
  | Some (Some x) => Some x
  | _ => None
  end.

(** [a.join('')]: a hole contributes the empty string. *)
Fixpoint arrayJoin (a : list (option string)) : string :=
  match a with
  | [] => EmptyString
  | Some s :: r => s ++ arrayJoin r
  | None :: r => arrayJoin r
  end.

Definition chunksOf (t : Transfer) : list (option string) :=
  match t_chunks t with
  | Some c => c
  | None => []
  end.

(** [if (sender && sender.ws) sender.ws.send(frame)] *)
Definition notify (d : option Device) (f : Frame) : M unit :=
  match d with
  | Some s =>
      match d_ws s with
      | Some w => wsSend w f
      | None => ret tt
      end
  | None => ret tt
  end.

Definition handleFileTransfer (now : Z) (rnd : string) (senderId : string)
    (targetDeviceId : string) (files : list FileMeta) (dataTransferId : option string)
    : M unit :=
  sender <- getDevice senderId ;;
  receiver <- getDevice targetDeviceId ;;
  match receiver with
  | None =>
      s <- property "sender" sender ;;
      sendTo (d_ws s) (TransferError None "Zielgerät nicht gefunden")
  | Some r =>
      s <- property "sender" sender ;;
      if negb (optEqb (d_roomId s) (d_roomId r)) then
        sendTo (d_ws s) (TransferError None "Gerät nicht im selben Raum")
      else
        let transferId := JS.orElse dataTransferId (generateTransferId now rnd) in
        file0 <- property "files[0]" (nth_error files 0) ;;
        modify (fun st =>
          set_fileTransfers
            (sset transferId
               {| t_files := files;
                  t_fromDevice := displayName s;
                  t_fromDeviceId := senderId;
                  t_targetDeviceId := targetDeviceId;
                  t_timestamp := now;
                  t_totalSize := f_size file0;
                  t_status := Pending;
                  t_chunks := Some [];
                  t_receivedChunks := 0;
                  t_startTime := None;
                  t_endTime := None |}
               (fileTransfers st)) st) ;;
        o <- openOpt (d_ws r) ;;
        if d_online r && o then
          sendTo (d_ws r)
            (IncomingFile files (displayName s) senderId transferId (f_size file0)) ;;
          sendTo (d_ws s) (TransferStarted (displayName r) transferId)
        else
          sendTo (d_ws s) (TransferError None "Zielgerät ist offline")
  end.

(** The completion branch of [handleFileChunk], inside its [try]. *)
Definition deliverFile (now : Z) (transferId : string) (transfer : Transfer)
    (sender : option Device) : M unit :=
  let completeFileData := arrayJoin (chunksOf transfer) in
  receiver <- getDevice (t_targetDeviceId transfer) ;;
  o <- openOpt (match receiver with Some r => d_ws r | None => None end) ;;
  match receiver with
  | Some r =>
      if o then
        file0 <- property "files[0]" (nth_error (t_files transfer) 0) ;;
        sendTo (d_ws r)
          (FileComplete transferId (f_name file0)
             (JS.orElse (f_type file0) "application/octet-stream")
             (f_size file0) completeFileData (t_fromDevice transfer)) ;;
        notify sender (TransferComplete transferId (f_name file0) (displayName r)) ;;
        updateTransfer transferId
          (fun t => set_t_endTime (Some now) (set_t_status Completed t))
      else
        notify sender (TransferError (Some transferId) "Empfänger nicht erreichbar")
  | None =>
      notify sender (TransferError (Some transferId) "Empfänger nicht erreichbar")
  end.

(** [handleFileChunk]; the record stays bound in [fileTransfers] from the
    lookup to the last assignment. *)
Definition handleFileChunk (now : Z) (deviceId : string) (transferId : string)
    (chunkIndex totalChunks : nat) (chunkData : string) (fileSize : Z) : M unit :=
  found <- getTransfer transferId ;;
  match found with
  | None => ret tt
  | Some transfer0 =>
      match t_chunks transfer0 with
      | None =>
          updateTransfer transferId
            (fun t => set_t_totalSize fileSize (set_t_startTime (Some now)
                        (set_t_receivedChunks 0%nat (set_t_chunks (Some []) t)))) ;;
          updateMemoryUsage callDepth now fileSize
      | Some _ => ret tt
      end ;;
      let cleanChunkData := cleanChunk chunkData in
      updateTransfer transferId
        (fun t => set_t_receivedChunks (S (t_receivedChunks t))
                    (set_t_chunks (Some (arraySet chunkIndex cleanChunkData (chunksOf t))) t)) ;;
      sender <- getDevice (t_fromDeviceId transfer0) ;;
      current <- getTransfer transferId ;;
      transfer <- property "transfer" current ;;
      notify sender (UploadProgress transferId (t_receivedChunks transfer) totalChunks) ;;
      if Nat.eqb (t_receivedChunks transfer) totalChunks then
        tryCatch (deliverFile now transferId transfer sender)
          (fun _ =>
             sender' <- getDevice (t_fromDeviceId transfer) ;;
             notify sender'
               (TransferError (Some transferId) "Fehler beim Verarbeiten der Datei"))
      else ret tt
  end.

Definition handleRequestMissingChunks (deviceId : string) (transferId : string)
    (missingChunks : list nat) (totalChunks : nat) : M unit :=
  found <- getTransfer transferId ;;
  match found with
  | None => ret tt
  | Some transfer =>
      sender <- getDevice (t_fromDeviceId transfer) ;;
      o <- openOpt (match sender with Some s => d_ws s | None => None end) ;;
      match sender with
      | Some s =>
          if o then
            forEach missingChunks (fun chunkIndex =>
              match arrayGet chunkIndex (chunksOf transfer) with
              | Some data =>
                  if JS.truthy data then
                    file0 <- property "files[0]" (nth_error (t_files transfer) 0) ;;
                    sendTo (d_ws s)
                      (FileChunkOut deviceId transferId 0 chunkIndex totalChunks data
                         (f_size file0))
                  else ret tt
              | None => ret tt
              end)
          else ret tt
      | None => ret tt
      end
  end.

Definition handleFileComplete (now : Z) (deviceId : string) (transferId : string) : M unit :=
  found <- getTransfer transferId ;;
  match found with
  | None => ret tt
  | Some transfer =>
      match t_chunks transfer with
      | Some _ => updateMemoryUsage callDepth now (- t_totalSize transfer)
      | None => ret tt
      end ;;
      deleteTransfer transferId
  end.

(** The [transferComplete] case of [handleMessage]. *)
Definition handleTransferComplete (now : Z) (transferId : string) : M unit :=
  found <- getTransfer transferId ;;
  match found with
  | None => ret tt
  | Some transfer =>
      match t_chunks transfer with
      | Some _ => updateMemoryUsage callDepth now (- t_totalSize transfer)
      | None => ret tt
      end ;;
      deleteTransfer transferId
  end.

Definition handleFileCancel (now : Z) (deviceId : string) (transferId : string) : M unit :=
  found <- getTransfer transferId ;;
  match found with
  | None => ret tt
  | Some transfer =>
      match t_chunks transfer with
      | Some _ => updateMemoryUsage callDepth now (- t_totalSize transfer)
      | None => ret tt
      end ;;
      deleteTransfer transferId
  end.

(** ** Device handlers *)

Definition welcomeInfo : ServerInfo :=
  {| si_chunkSize := "20MB"; si_browser := None; si_platform := None;
     si_safariOptimized := false; si_connection := None;
     si_serverVersion := Some "2.0.0" |}.

Definition handleClientIdentify (now : Z) (deviceId : string)
    (clientId sessionId userAgent language previousSession : option string) : M unit :=
  found <- getDevice deviceId ;;
  match found with
  | None => ret tt
  | Some _ =>
      match userAgent with
      | Some ua =>
          if JS.truthy ua then
            let '(platform, browser) := Platform.detectPlatform ua in
            updateDevice deviceId
              (fun d => set_d_userAgent ua (set_d_browser browser (set_d_platform platform d))) ;;
            device <- getDevice deviceId ;;
            d <- property "device" device ;;
            if negb (String.eqb platform (d_platform d)) then
              updateDevice deviceId
                (fun d => set_d_name (Platform.generateDeviceName platform browser)
                            (set_d_platform platform d))
            else ret tt
          else ret tt
      | None => ret tt
      end ;;
      updateDevice deviceId
        (fun d => set_d_lastSeen now (set_d_language language
                    (set_d_sessionId sessionId (set_d_clientId clientId d)))) ;;
      device <- getDevice deviceId ;;
      d <- property "device" device ;;
      o <- openOpt (d_ws d) ;;
      (if o then sendTo (d_ws d) (Welcome deviceId welcomeInfo None) else ret tt) ;;
      match d_roomId d with
      | Some roomId => if JS.truthy roomId then broadcastDeviceList roomId else ret tt
      | None => ret tt
      end ;;
      saveDevices
  end.

Definition handleDeviceInfo (now : Z) (deviceId : string)
    (name customName type : option string) : M unit :=
  found <- getDevice deviceId ;;
  match found with
  | None => ret tt
  | Some device =>
      updateDevice deviceId
        (fun d => set_d_lastSeen now
                    (set_d_type (JS.orElse type (d_type d))
                       (set_d_customName (JS.orOpt customName (d_customName d))
                          (set_d_name (JS.orElse name (d_name d)) d)))) ;;
      match d_roomId device with
      | Some roomId => if JS.truthy roomId then broadcastDeviceList roomId else ret tt
      | None => ret tt
      end ;;
      saveDevices
  end.

Definition handleUpdateDeviceName (now : Z) (deviceId : string) (name : string) : M unit :=
  found <- getDevice deviceId ;;
  match found with
  | None => ret tt
  | Some device =>
      updateDevice deviceId
        (fun d => set_d_lastSeen now (set_d_customName (Some name) (set_d_name name d))) ;;
      match d_roomId device with
      | Some roomId => if JS.truthy roomId then broadcastDeviceList roomId else ret tt
      | None => ret tt
      end ;;
      saveDevices ;;
      o <- openOpt (d_ws device) ;;
      if o then sendTo (d_ws device) (DeviceNameUpdated name) else ret tt
  end.

Definition handleFileProgress (deviceId : string) (targetDeviceId transferId : string)
    (progress fileIndex : Z) : M unit :=
  targetDevice <- getDevice targetDeviceId ;;
  notify targetDevice (TransferProgress transferId progress fileIndex).

Definition handleFileDownload (deviceId : string) (transferId : string)
    (fileIndex : Z) (chunkSize : option Z) : M unit :=
  device <- getDevice deviceId ;;
  found <- getTransfer transferId ;;
  match found with
  | None =>
      d <- property "device" device ;;
      sendTo (d_ws d) (DownloadError "Datei nicht gefunden")
  | Some transfer =>
      sender <- getDevice (t_fromDeviceId transfer) ;;
      o <- openOpt (match sender with Some s => d_ws s | None => None end) ;;
      match sender with
      | Some s =>
          if d_online s && o then
            sendTo (d_ws s)
              (SendFileData deviceId transferId fileIndex
                 (match chunkSize with
                  | Some c => if c =? 0 then 20 * 1024 * 1024 else c
                  | None => 20 * 1024 * 1024
                  end))
          else
            d <- property "device" device ;;
            sendTo (d_ws d) (DownloadError "Sender nicht verfügbar")
      | None =>
          d <- property "device" device ;;
          sendTo (d_ws d) (DownloadError "Sender nicht verfügbar")
      end
  end.

(** [if (sender && sender.online && sender.ws) sender.ws.send(frame)] *)
Definition notifyOnline (d : option Device) (f : Frame) : M unit :=
  match d with
  | Some s => if d_online s then notify d f else ret tt
  | None => ret tt
  end.

Definition handleTransferRejected (deviceId : string) (fromDeviceId transferId : string)
    : M unit :=
  sender <- getDevice fromDeviceId ;;
  notifyOnline sender (TransferRejected "Empfänger hat die Übertragung abgelehnt") ;;
  deleteTransfer transferId.

Definition handleTransferAccepted (deviceId : string) (fromDeviceId transferId : string)
    : M unit :=
  sender <- getDevice fromDeviceId ;;
  notifyOnline sender (TransferAccepted "Empfänger hat die Übertragung akzeptiert").

Definition handleTogglePinDevice (deviceId : string) (targetDeviceId : string) : M unit :=
  device <- getDevice deviceId ;;
  targetDevice <- getDevice targetDeviceId ;;
  match targetDevice with
  | None => ret tt
  | Some target =>
      d <- property "device" device ;;
      if optEqb (d_roomId d) (d_roomId target) then
        updateDevice targetDeviceId (fun t => set_d_pinned (negb (d_pinned t)) t) ;;
        match d_roomId d with
        | Some roomId => broadcastDeviceList roomId
        | None => ret tt
        end ;;
        saveDevices
      else ret tt
  end.

(** The [ping] case of [handleMessage]. *)
Definition handlePing (now : Z) (deviceId : string)
    (connectionStrength : option string) (timestamp : option Z) : M unit :=
  found <- getDevice deviceId ;;
  match found with
  | None => ret tt
  | Some device =>
      updateDevice deviceId
        (fun d => set_d_connectionStrength (JS.orElse connectionStrength "good")
                    (set_d_lastSeen now d)) ;;
      o <- openOpt (d_ws device) ;;
      if o then
        sendTo (d_ws device)
          (Pong (match timestamp with
                 | Some t => if t =? 0 then now else t
                 | None => now
                 end))
      else ret tt
  end.

(** ** Room registry *)

(** ['room-' + Date.now() + '-' + Math.random().toString(36).substr(2, 9)] *)
Definition generateRoomId (now : Z) (rnd : string) : string :=
  "room-" ++ decimal now ++ "-" ++ rnd.

(** The loop [for (const room of rooms.values())] with its [break]: the
    first room whose lower-cased name is [lowered]. *)
Fixpoint findRoomByName (lowered : string) (rs : list (string * Room))
    : option (string * Room) :=
  match rs with
  | [] => None
  | (id, room) :: rest =>
      if String.eqb (JS.toLowerCase (r_name room)) lowered then Some (id, room)
      else findRoomByName lowered rest
  end.

Definition handleLeaveRoom (deviceId : string) : M unit :=
  found <- getDevice deviceId ;;
  device <- property "device" found ;;
  match d_roomId device with
  | None => ret tt
  | Some roomId =>
      if negb (JS.truthy roomId) then ret tt
      else
        room <- getRoom roomId ;;
        match room with
        | Some r =>
            let members := setDelete deviceId (r_devices r) in
            updateRoom roomId (set_r_devices members) ;;
            match members with
            | [] => modify (fun st => set_rooms (sdelete roomId (rooms st)) st)
            | _ :: _ =>
                broadcastToRoom roomId
                  (DeviceLeft deviceId (displayName device)
                     (Z.of_nat (List.length members)) None)
                  (Some deviceId)
            end
        | None => ret tt
        end ;;
        updateDevice deviceId (set_d_roomId None) ;;
        sendTo (d_ws device) RoomLeft ;;
        saveDevices ;;
        saveRooms
  end.

Definition handleJoinRoom (deviceId : string) (roomName roomId : option string) : M unit :=
  found <- getDevice deviceId ;;
  let requested := JS.orElse (JS.orOpt roomName roomId) "" in
  if negb (JS.truthy requested) || String.eqb (JS.trim requested) "" then
    device <- property "device" found ;;
    sendTo (d_ws device) (RoomError "Raumname darf nicht leer sein")
  else
    let requestedRoomNameLower := JS.trim (JS.toLowerCase requested) in
    foundRoom <- gets (fun st => findRoomByName requestedRoomNameLower (rooms st)) ;;
    match foundRoom with
    | None =>
        device <- property "device" found ;;
        sendTo (d_ws device) (RoomError "Raum nicht gefunden")
    | Some (foundId, room0) =>
        device <- property "device" found ;;
        (if JS.truthyOpt (d_roomId device) then handleLeaveRoom deviceId else ret tt) ;;
        updateDevice deviceId (set_d_roomId (Some foundId)) ;;
        (* [foundRoom] is the object bound under [foundId], unless the leave
           above has just unbound it after removing this device from it. *)
        bound <- getRoom foundId ;;
        let room :=
          match bound with
          | Some r => r
          | None => set_r_devices (setDelete deviceId (r_devices room0)) room0
          end in
        let members := setAdd deviceId (r_devices room) in
        updateRoom foundId (set_r_devices members) ;;
        sendTo (d_ws device) (RoomJoined foundId (r_name room) (List.length members)) ;;
        broadcastDeviceList foundId ;;
        broadcastToRoom foundId
          (DeviceJoined deviceId (displayName device) (List.length members))
          (Some deviceId) ;;
        saveDevices ;;
        saveRooms
    end.

Definition handleCreateRoom (now : Z) (rnd : string) (deviceId : string)
    (dataRoomName dataRoomId : option string) : M unit :=
  found <- getDevice deviceId ;;
  let roomName := JS.orElse (JS.orOpt dataRoomName dataRoomId) "" in
  if negb (JS.truthy roomName) || String.eqb (JS.trim roomName) "" then
    device <- property "device" found ;;
    sendTo (d_ws device) (RoomError "Raumname darf nicht leer sein")
  else
    let roomNameLower := JS.trim (JS.toLowerCase roomName) in
    existing <- gets (fun st => findRoomByName roomNameLower (rooms st)) ;;
    match existing with
    | Some _ =>
        device <- property "device" found ;;
        sendTo (d_ws device) (RoomError "Raum existiert bereits")
    | None =>
        device <- property "device" found ;;
        (if JS.truthyOpt (d_roomId device) then handleLeaveRoom deviceId else ret tt) ;;
        let roomId := generateRoomId now rnd in
        modify (fun st =>
          set_rooms
            (sset roomId
               {| r_name := JS.trim roomName; r_created := now;
                  r_createdBy := deviceId; r_devices := [deviceId] |}
               (rooms st)) st) ;;
        updateDevice deviceId (set_d_roomId (Some roomId)) ;;
        sendTo (d_ws device) (RoomCreated roomId (JS.trim roomName)) ;;
        broadcastDeviceList roomId ;;
        saveDevices ;;
        saveRooms
    end.

(** ** Message router *)

Definition legacyName (k : LegacyKind) : string :=
  match k with
  | Desktop => "desktop"
  | Mobile => "mobile"
  | Tablet => "tablet"
  end.

(** The [switch] of [handleMessage]. *)
Definition dispatch (now : Z) (rnd : string) (deviceId : string) (data : Msg) : M unit :=
  match data with
  | ClientIdentify clientId sessionId userAgent language previousSession =>
      handleClientIdentify now deviceId clientId sessionId userAgent language previousSession
  | LegacyDeviceType type name customName =>
      device <- getDevice deviceId ;;
      name' <- (if JS.truthyOpt name then ret (JS.orElse name "")
                else d <- property "device" device ;; ret (d_name d)) ;;
      handleDeviceInfo now deviceId (Some name') customName (Some (legacyName type))
  | DeviceInfo name customName type => handleDeviceInfo now deviceId name customName type
  | FileTransfer targetDeviceId files transferId =>
      handleFileTransfer now rnd deviceId targetDeviceId files transferId
  | FileChunk transferId chunkIndex totalChunks chunkData fileSize =>
      handleFileChunk now deviceId transferId chunkIndex totalChunks chunkData fileSize
  | FileCompleteMsg transferId => handleFileComplete now deviceId transferId
  | UpdateDeviceName name => handleUpdateDeviceName now deviceId name
  | FileProgress targetDeviceId transferId progress fileIndex =>
      handleFileProgress deviceId targetDeviceId transferId progress fileIndex
  | PingMsg connectionStrength timestamp => handlePing now deviceId connectionStrength timestamp
  | TransferCompleteMsg transferId => handleTransferComplete now transferId
  | RequestFileDownload transferId fileIndex chunkSize =>
      handleFileDownload deviceId transferId fileIndex chunkSize
  | RequestMissingChunks transferId missingChunks totalChunks =>
      handleRequestMissingChunks deviceId transferId missingChunks totalChunks
  | TransferRejectedMsg fromDeviceId transferId =>
      handleTransferRejected deviceId fromDeviceId transferId
  | TransferAcceptedMsg fromDeviceId transferId =>
      handleTransferAccepted deviceId fromDeviceId transferId
  | TogglePinDevice targetDeviceId => handleTogglePinDevice deviceId targetDeviceId
  | JoinRoom roomName roomId => handleJoinRoom deviceId roomName roomId
  | CreateRoom roomName roomId => handleCreateRoom now rnd deviceId roomName roomId
  | LeaveRoom => handleLeaveRoom deviceId
  | FileCancel transferId => handleFileCancel now deviceId transferId
  | UnknownType type =>
      device <- getDevice deviceId ;;
      match device with
      | Some d =>
          o <- openOpt (d_ws d) ;;
          if o then sendTo (d_ws d) (ErrorFrame ("Unbekannter Nachrichtentyp: " ++ type))
          else ret tt
      | None => ret tt
      end
  end.

(** [handleMessage]: the [switch] inside [try], and the [catch] that
    answers with an [error] frame when the device's channel is OPEN. *)
Definition handleMessage (now : Z) (rnd : string) (deviceId : string) (data : Msg) : M unit :=
  tryCatch (dispatch now rnd deviceId data)
    (fun _ =>
       device <- getDevice deviceId ;;
       match device with
       | Some d =>
           o <- openOpt (d_ws d) ;;
           if o then sendTo (d_ws d) (ErrorFrame "Interner Server Fehler") else ret tt
       | None => ret tt
       end).

(** ** Connection manager *)

Definition iosWelcomeInfo : ServerInfo :=
  {| si_chunkSize := "1MB"; si_browser := Some "safari"; si_platform := Some "ios";
     si_safariOptimized := true; si_connection := Some "instant";
     si_serverVersion := None |}.

Definition laterWelcomeInfo (platform browser : string) : ServerInfo :=
  {| si_chunkSize := "20MB"; si_browser := Some (JS.toLowerCase browser);
     si_platform := Some (JS.toLowerCase platform);
     si_safariOptimized := false; si_connection := None;
     si_serverVersion := Some "2.0.0" |}.

Definition addTimer (t : Timer) : M unit :=
  modify (fun st => set_timers (timers st ++ [t]) st).

Definition isHeartbeatOf (ws : Ws) (t : Timer) : bool :=
  match tm_task t with
  | TaskIOSHeartbeat w => Nat.eqb w ws
  | _ => false
  end.

(** [clearInterval(heartbeatInterval)] for the channel's heartbeat. *)
Definition clearHeartbeat (ws : Ws) : M unit :=
  modify (fun st => set_timers (filter (fun t => negb (isHeartbeatOf ws t)) (timers st)) st).

Definition setupIOSHeartbeat (ws : Ws) (deviceId : string) (isIOS : bool) : M unit :=
  if negb isIOS then ret tt
  else addTimer {| tm_delay := 10000; tm_repeat := true; tm_task := TaskIOSHeartbeat ws |}.

(** The handler of [wss.on('connection')]. *)
Definition onConnection (ws : Ws) (req : Identity.Request) (now : Z) : M unit :=
  let userAgent := JS.orElse (Identity.user_agent req) "Unbekannt" in
  let '(platform, browser) := Platform.detectPlatform userAgent in
  let deviceId := Identity.generateStableDeviceId userAgent req in
  let isIOS := Identity.matchesIPhoneIPadIPod userAgent in
  let isSafari := String.eqb browser "Safari" in
  (if isIOS && isSafari then
     tryCatch (wsSend ws (Welcome deviceId iosWelcomeInfo (Some now))) (fun _ => ret tt)
   else ret tt) ;;
  modify (fun st =>
    set_activeConnections
      (wset ws
         {| ci_deviceId := deviceId; ci_connectedAt := now; ci_lastActivity := now;
            ci_userAgent := userAgent; ci_platform := platform; ci_browser := browser;
            ci_ip := Identity.remoteAddress req; ci_isIOS := isIOS && isSafari |}
         (activeConnections st)) st) ;;
  existingDevice <- getDevice deviceId ;;
  match existingDevice with
  | Some _ =>
      updateDevice deviceId
        (fun d => set_d_ip (Identity.remoteAddress req)
                    (set_d_browser browser (set_d_platform platform
                       (set_d_userAgent userAgent (set_d_lastSeen now
                          (set_d_online true (set_d_ws (Some ws) d)))))))
  | None =>
      modify (fun st =>
        set_devices
          (sset deviceId
             {| d_ws := Some ws;
                d_name := Platform.generateDeviceName platform browser;
                d_customName := None;
                d_type := Platform.getDeviceType platform;
                d_platform := platform;
                d_browser := browser;
                d_userAgent := userAgent;
                d_pinned := false;
                d_online := true;
                d_lastSeen := now;
                d_roomId := None;
                d_connectionStrength := "good";
                d_ip := Identity.remoteAddress req;
                d_clientId := None;
                d_sessionId := None;
                d_language := None |}
             (devices st)) st)
  end ;;
  modify (fun st => set_connections (wset ws deviceId (connections st)) st) ;;
  (if negb (isIOS && isSafari) then
     addTimer {| tm_delay := 100; tm_repeat := false;
                 tm_task := TaskWelcome ws deviceId (laterWelcomeInfo platform browser) |}
   else ret tt) ;;
  setupIOSHeartbeat ws deviceId (isIOS && isSafari).

(** [checkForDuplicateConnections]; no statement of [server.js] calls it. *)
Definition checkForDuplicateConnections (deviceId : string) (currentWs : Ws) : M unit :=
  conns <- gets connections ;;
  forEach conns (fun entry =>
    let '(existingWs, existingDeviceId) := entry in
    if String.eqb existingDeviceId deviceId && negb (Nat.eqb existingWs currentWs) then
      o <- wsOpen existingWs ;;
      if o then
        wsSend existingWs
          (DuplicateConnection
             "Neue Verbindung erkannt - diese Verbindung wird geschlossen" false) ;;
        addTimer {| tm_delay := 1000; tm_repeat := false;
                    tm_task := TaskCloseDuplicate existingWs |}
      else ret tt
    else ret tt) ;;
  let duplicateFound :=
    existsb (fun entry =>
      String.eqb (snd entry) deviceId && negb (Nat.eqb (fst entry) currentWs)) conns in
  if duplicateFound then
    o <- wsOpen currentWs ;;
    if o then
      wsSend currentWs (DuplicateConnection "Ältere Verbindung wurde geschlossen" true)
    else ret tt
  else ret tt.

(** The handler of [ws.on('message')] for a channel accepted as [deviceId];
    [message] is [None] when [JSON.parse] rejects the text. *)
Definition onMessage (ws : Ws) (deviceId : string) (message : option Msg)
    (now : Z) (rnd : string) : M unit :=
  tryCatch
    (modify (fun st =>
       match wget ws (activeConnections st) with
       | Some info =>
           set_activeConnections
             (wset ws (set_ci_lastActivity now info) (activeConnections st)) st
       | None => st
       end) ;;
     data <- property "JSON.parse" message ;;
     handleMessage now rnd deviceId data)
    (fun _ =>
       o <- wsOpen ws ;;
       if o then wsSend ws (ErrorFrame "Nachrichtenfehler") else ret tt).

(** The handlers of [ws.on('close')]: the connection's own, then the
    heartbeat's. *)
Definition onClose (ws : Ws) (deviceId : string) (now : Z) : M unit :=
  found <- getDevice deviceId ;;
  match found with
  | Some device =>
      updateDevice deviceId
        (fun d => set_d_ws None (set_d_lastSeen now (set_d_online false d))) ;;
      match d_roomId device with
      | Some roomId =>
          if JS.truthy roomId then
            room <- getRoom roomId ;;
            match room with
            | Some r =>
                broadcastToRoom roomId
                  (DeviceLeft deviceId (displayName device)
                     (Z.of_nat (List.length (r_devices r)) - 1)
                     (Some "Verbindung getrennt"))
                  (Some deviceId) ;;
                broadcastDeviceList roomId
            | None => ret tt
            end
          else ret tt
      | None => ret tt
      end
  | None => ret tt
  end ;;
  modify (fun st => set_activeConnections (wdelete ws (activeConnections st)) st) ;;
  modify (fun st => set_connections (wdelete ws (connections st)) st) ;;
  saveDevices ;;
  clearHeartbeat ws.

(** ** Timers, janitor and the HTTP endpoint that releases a transfer *)

(** What a timer callback does when it fires. *)
Definition runTask (now : Z) (task : Task) : M unit :=
  match task with
  | TaskWelcome ws deviceId info =>
      o <- wsOpen ws ;;
      if o then wsSend ws (Welcome deviceId info (Some now)) else ret tt
  | TaskIOSHeartbeat ws =>
      o <- wsOpen ws ;;
      if o then
        tryCatch (wsSend ws (Ping now true)) (fun _ => clearHeartbeat ws)
      else clearHeartbeat ws
  | TaskCloseDuplicate ws =>
      o <- wsOpen ws ;;
      if o then
        wsClose ws (Some 1000) "Duplicate connection - newer connection available"
      else ret tt
  end.

Fixpoint removeNth {A} (i : nat) (l : list A) : list A :=
  match i, l with
  | _, [] => []
  | O, _ :: r => r
  | S j, x :: r => x :: removeNth j r
  end.

(** The [i]-th pending timer fires; a timeout is spent by it. *)
Definition fireTimer (i : nat) (now : Z) : M unit :=
  pending <- gets timers ;;
  match nth_error pending i with
  | None => ret tt
  | Some t =>
      (if tm_repeat t then ret tt
       else modify (fun st => set_timers (removeNth i (timers st)) st)) ;;
      runTask now (tm_task t)
  end.

Definition deviceTimeout : Z := 30 * 60 * 1000.
Definition pinnedDeviceTimeout : Z := 24 * 60 * 60 * 1000.
Definition transferTimeout : Z := 60 * 60 * 1000.
Definition connectionTimeout : Z := 5 * 60 * 1000.

Definition sweepConnections (now : Z) : M unit :=
  keys <- gets (fun st => map fst (activeConnections st)) ;;
  forEach keys (fun ws =>
    cur <- gets (fun st => wget ws (activeConnections st)) ;;
    match cur with
    | None => ret tt
    | Some info =>
        if now - ci_lastActivity info >? connectionTimeout then
          wsClose ws (Some 1000) "Inaktivität" ;;
          modify (fun st => set_activeConnections (wdelete ws (activeConnections st)) st)
        else ret tt
    end).

Definition sweepDevices (now : Z) : M unit :=
  keys <- gets (fun st => map fst (devices st)) ;;
  forEach keys (fun deviceId =>
    cur <- getDevice deviceId ;;
    match cur with
    | None => ret tt
    | Some device =>
        let timeSinceLastSeen := now - d_lastSeen device in
        let isExpired :=
          if d_pinned device then timeSinceLastSeen >? pinnedDeviceTimeout
          else timeSinceLastSeen >? deviceTimeout in
        if isExpired && negb (d_online device) then
          match d_roomId device with
          | Some roomId =>
              if JS.truthy roomId then
                room <- getRoom roomId ;;
                match room with
                | Some r =>
                    let members := setDelete deviceId (r_devices r) in
                    updateRoom roomId (set_r_devices members) ;;
                    match members with
                    | [] => modify (fun st => set_rooms (sdelete roomId (rooms st)) st)
                    | _ :: _ => ret tt
                    end
                | None => ret tt
                end
              else ret tt
          | None => ret tt
          end ;;
          o <- openOpt (d_ws device) ;;
          match d_ws device with
          | Some w => if o then wsClose w None "" else ret tt
          | None => ret tt
          end ;;
          modify (fun st => set_devices (sdelete deviceId (devices st)) st)
        else ret tt
    end).

Definition sweepTransfers (now : Z) : M unit :=
  keys <- gets (fun st => map fst (fileTransfers st)) ;;
  forEach keys (fun transferId =>
    cur <- getTransfer transferId ;;
    match cur with
    | None => ret tt
    | Some transfer =>
        if now - t_timestamp transfer >? transferTimeout then
          match t_chunks transfer with
          | Some _ => updateMemoryUsage callDepth now (- t_totalSize transfer)
          | None => ret tt
          end ;;
          deleteTransfer transferId
        else ret tt
    end).

(** The sizes of the three maps the janitor sweeps. *)
Definition sweptSizes (st : State) : nat * nat * nat :=
  (List.length (activeConnections st), List.length (devices st),
   List.length (fileTransfers st)).

(** [cleanedDevices > 0 || cleanedTransfers > 0 || cleanedConnections > 0]:
    each counter counts the entries its sweep deleted, so one of them is
    positive exactly when one of the maps is smaller than before. *)
Definition cleaned (before after : nat * nat * nat) : bool :=
  let '(c0, d0, t0) := before in
  let '(c1, d1, t1) := after in
  Nat.ltb d1 d0 || Nat.ltb t1 t0 || Nat.ltb c1 c0.

(** The callback of the 60 s [setInterval].  [cleanupOldFiles] only touches
    the upload directory and catches its own errors. *)
Definition janitor (now : Z) : M unit :=
  before <- gets sweptSizes ;;
  sweepConnections now ;;
  sweepDevices now ;;
  sweepTransfers now ;;
  after <- gets sweptSizes ;;
  if cleaned before after then
    saveDevices ;;
    saveRooms
  else ret tt.

(** [DELETE /api/transfers/:transferId] *)
Definition httpDeleteTransfer (now : Z) (transferId : string) : M unit :=
  found <- getTransfer transferId ;;
  match found with
  | None => ret tt
  | Some transfer =>
      match t_chunks transfer with
      | Some _ => updateMemoryUsage callDepth now (- t_totalSize transfer)
      | None => ret tt
      end ;;
      deleteTransfer transferId
  end.

(** ** The server as a state machine *)

Inductive Event :=
| EvConnection (ws : Ws) (req : Identity.Request) (now : Z)
| EvMessage (ws : Ws) (message : option Msg) (now : Z) (rnd : string)
| EvClose (ws : Ws) (now : Z)
| EvSocketError (ws : Ws)
| EvTimer (i : nat) (now : Z)
| EvJanitor (now : Z)
| EvHttpDeleteTransfer (transferId : string) (now : Z).

(** The handler an event runs.  A channel is accepted once, OPEN; messages
    and the close event reach the handlers of a channel that was accepted
    and has not been closed, with the device id fixed at its acceptance. *)
Definition handle (ev : Event) : M unit :=
  match ev with
  | EvConnection ws req now =>
      known <- gets (fun st => wget ws (sockets st)) ;;
      match known with
      | Some _ => ret tt
      | None =>
          modify (fun st => set_sockets (wset ws OPEN (sockets st)) st) ;;
          onConnection ws req now
      end
  | EvMessage ws message now rnd =>
      owner <- gets (fun st => wget ws (connections st)) ;;
      match owner with
      | Some deviceId => onMessage ws deviceId message now rnd
      | None => ret tt
      end
  | EvClose ws now =>
      owner <- gets (fun st => wget ws (connections st)) ;;
      match owner with
      | Some deviceId =>
          modify (fun st => set_sockets (wset ws CLOSED (sockets st)) st) ;;
          onClose ws deviceId now
      | None => ret tt
      end
  | EvSocketError ws =>
      owner <- gets (fun st => wget ws (connections st)) ;;
      match owner with
      | Some _ => clearHeartbeat ws
      | None => ret tt
      end
  | EvTimer i now => fireTimer i now
  | EvJanitor now => janitor now
  | EvHttpDeleteTransfer transferId now => httpDeleteTransfer now transferId
  end.

(** The state an event leaves behind.  An exception that escapes the
    janitor's callback ends the worker, which has no handler for it: [step]
    gives the state the callback leaves, [restart] of that state is where
    the next worker starts, and the states [run] goes on to from it are
    states the dead worker does not have. *)
Definition step (st : State) (ev : Event) : State := exec (handle ev) st.

Definition run (st : State) (evs : list Event) : State := fold_left step evs st.

(** The state of a worker started on an empty data directory:
    [loadDevices(); loadRooms();] find no file and leave the maps empty. *)
Definition initialState (sendThrows : bool) : State :=
  {| rooms := []; devices := []; connections := []; activeConnections := [];
     fileTransfers := []; currentMemoryUsage := 0; activeTransferCount := 0;
     sockets := []; wsSendThrows := sendThrows; outbox := []; timers := [];
     devicesFile := []; roomsFile := [] |}.

(** The states of one worker, started on an empty data directory, up to its
    stop. *)
Inductive reachable (sendThrows : bool) : State -> Prop :=
| reachable_init : reachable sendThrows (initialState sendThrows)
| reachable_step : forall st ev,
    reachable sendThrows st -> reachable sendThrows (step st ev).

(** ** Stopping and starting a worker *)

(** The [SIGINT] handler: both catalogs are saved, then every client whose
    channel is OPEN is closed with code 1000. *)
Definition onSigint : M unit :=
  saveDevices ;;
  saveRooms ;;
  clients <- gets (fun st => map fst (sockets st)) ;;
  forEach clients (fun ws =>
    o <- wsOpen ws ;;
    if o then wsClose ws (Some 1000) "Server shutdown" else ret tt).

(** The worker that starts where another stopped.  The master forks a new
    worker whenever one exits; the maps of the new worker start empty and
    [loadDevices(); loadRooms();] fill [devices] and [rooms] from the two
    files as the old worker left them.  The channels of the old worker are
    closed, its timers and transfers are gone; the frames already written
    stay written. *)
Definition restart (st : State) : State :=
  {| rooms := loadRooms (roomsFile st);
     devices := loadDevices (devicesFile st);
     connections := []; activeConnections := [];
     fileTransfers := []; currentMemoryUsage := 0; activeTransferCount := 0;
     sockets := map (fun e => (fst e, CLOSED)) (sockets st);
     wsSendThrows := wsSendThrows st; outbox := outbox st; timers := [];
     devicesFile := devicesFile st; roomsFile := roomsFile st |}.

(** The states of the server over any number of workers, each started on
    the files the one before it left. *)
Inductive reachableAcrossRestarts (sendThrows : bool) : State -> Prop :=
| across_init : reachableAcrossRestarts sendThrows (initialState sendThrows)
| across_step : forall st ev,
    reachableAcrossRestarts sendThrows st -> reachableAcrossRestarts sendThrows (step st ev)
| across_restart : forall st,
    reachableAcrossRestarts sendThrows st -> reachableAcrossRestarts sendThrows (restart st).

(** ** Names of uploaded files ([multer.diskStorage] and the download route) *)

Module Upload.

(** The characters the pattern [[^a-zA-Z0-9.\-_]] leaves in place. *)
Definition isSafeChar (c : ascii) : bool :=
  let n := N_of_ascii c in
  (((97 <=? n) && (n <=? 122)) || ((65 <=? n) && (n <=? 90))
   || ((48 <=? n) && (n <=? 57)) || (n =? 46) || (n =? 45) || (n =? 95))%N.

(** [file.originalname.replace(/[^a-zA-Z0-9.\-_]/g, '_')] *)
Fixpoint safeFileName (originalname : string) : string :=
  match originalname with
  | EmptyString => EmptyString
  | String c r => String (if isSafeChar c then c else "_"%char) (safeFileName r)
  end.

(** [uniqueSuffix + '-' + safeFileName], with
    [uniqueSuffix = Date.now() + '-' + Math.round(Math.random() * 1E9)];
    [rnd] is the rounded random number. *)
Definition storedFileName (now rnd : Z) (originalname : string) : string :=
  (decimal now ++ "-" ++ decimal rnd) ++ "-" ++ safeFileName originalname.

(** [s.split(sep)] for a separator of one character; [current] is the piece
    being read. *)
Fixpoint splitFrom (sep : ascii) (current : string) (s : string) : list string :=
  match s with
  | EmptyString => [current]
  | String c r =>
      if Ascii.eqb c sep then current :: splitFrom sep EmptyString r
      else splitFrom sep (current ++ String c EmptyString) r
  end.

Definition split (sep : ascii) (s : string) : list string := splitFrom sep EmptyString s.

(** [a.join(sep)] *)
Fixpoint join (sep : string) (a : list string) : string :=
  match a with
  | [] => EmptyString
  | [x] => x
  | x :: r => x ++ sep ++ join sep r
  end.

(** [filename.split('-').slice(2).join('-')] of the download route. *)
Definition originalNameOf (filename : string) : string :=
  join "-" (skipn 2 (split "-"%char filename)).

End Upload.

(** ** Vocabulary of the properties *)

(** A payload in strict base64: every character is of the base64 alphabet. *)
Fixpoint allBase64 (s : string) : bool :=
  match s with
  | EmptyString => true
  | String c r => isBase64Char c && allBase64 r
  end.

(** One [fileChunk] frame of a sender's stream, and when it arrives. *)
Record ChunkFrame := mkChunkFrame {
  c_index : nat;
  c_data : string;
  c_fileSize : Z;
  c_now : Z
}.

(** The sender's [fileChunk] frames for one transfer, handled in order of
    arrival, all carrying the same [totalChunks]. *)
Definition sendChunks (senderId transferId : string) (totalChunks : nat)
    (cs : list ChunkFrame) : M unit :=
  forEach cs (fun c =>
    handleMessage (c_now c) "" senderId
      (FileChunk transferId (c_index c) totalChunks (c_data c) (c_fileSize c))).




(** Slot [i] of the transfer's chunk array holds a payload. *)
Definition isBuffered (a : list (option string)) (i : nat) : bool :=
  match nth_error a i with
  | Some (Some _) => true
  | _ => false
  end.

(** The number of slots that hold a payload. *)
Fixpoint bufferedCount (a : list (option string)) : nat :=
  match a with
  | [] => 0
  | Some _ :: r => S (bufferedCount r)
  | None :: r => bufferedCount r
  end.

(** The frames [handleRequestMissingChunks] writes for the requested
    indices: one per listed index whose slot holds a non-empty payload. *)
Definition resendFrames (ws : Ws) (requester transferId : string) (totalChunks : nat)
    (fileSize : Z) (a : list (option string)) (missing : list nat) : list (Ws * Frame) :=
  flat_map (fun i =>
    match arrayGet i a with
    | Some data =>
        if JS.truthy data then
          [(ws, FileChunkOut requester transferId 0 i totalChunks data fileSize)]
        else []
    | None => []
    end) missing.

Definition sentTo (ws : Ws) (x : Ws * Frame) : bool := Nat.eqb (fst x) ws.

(** Every member of every room is a registered device whose [roomId] names
    that room, and no room has the empty id. *)
Definition roomsConsistent (st : State) : Prop :=
  (forall rid R d,
      sget rid (rooms st) = Some R -> In d (r_devices R) ->
      exists D, sget d (devices st) = Some D /\ d_roomId D = Some rid)
  /\ sget "" (rooms st) = None.

(** The device is in the member set of no room. *)
Definition inNoRoom (d : string) (st : State) : Prop :=
  forall rid R, sget rid (rooms st) = Some R -> ~ In d (r_devices R).


Definition isRoomLeft (x : Ws * Frame) : bool :=
  match snd x with
  | RoomLeft => true
  | _ => false
  end.

(** [devices.get(id)] is an object. *)
Definition isRegistered (devs : list (string * Device)) (id : string) : bool :=
  match sget id devs with
  | Some _ => true
  | None => false
  end.

Definition isDuplicateNotice (x : Ws * Frame) : bool :=
  match snd x with
  | DuplicateConnection _ _ => true
  | _ => false
  end.

Definition isCloseTask (t : Timer) : bool :=
  match tm_task t with
  | TaskCloseDuplicate _ => true
  | _ => false
  end.

(** ** Concrete runs *)

Module Scenario.

Definition uaA : string := "Mozilla/5.0 (X11; Linux x86_64) Firefox/120".
Definition uaB : string := "Mozilla/5.0 (Windows NT 10.0) Chrome/120 Safari/537".
Definition uaPhone : string := "Mozilla/5.0 (iPhone; CPU iPhone OS 17_0) Safari/604".

(** A user agent that spells the device in capitals. *)
Definition uaCapitals : string := "Mozilla/5.0 (IPHONE; CPU OS 17_0) Safari/604".

Definition request (ua lang ip : string) : Identity.Request :=
  {| Identity.user_agent := Some ua; Identity.accept_language := Some lang;
     Identity.x_forwarded_for := None; Identity.remoteAddress := Some ip |}.

Definition reqA : Identity.Request := request uaA "de" "10.0.0.1".
Definition reqB : Identity.Request := request uaB "en" "10.0.0.2".

Definition idA : string := Identity.generateStableDeviceId uaA reqA.
Definition idB : string := Identity.generateStableDeviceId uaB reqB.

Definition file : FileMeta := {| f_name := "x.txt"; f_size := 9; f_type := Some "text/plain" |}.

(** Two devices connect; the first creates the room "Foo", the second joins
    it as " foo ". *)
Definition meet : list Event :=
  [EvConnection 1%nat reqA 1000; EvConnection 2%nat reqB 1001;
   EvMessage 1%nat (Some (CreateRoom (Some "Foo") None)) 1002 "abc";
   EvMessage 2%nat (Some (JoinRoom (Some " foo ") None)) 1003 ""].

Definition paired : State := run (initialState false) meet.

Definition roomFoo : string := generateRoomId 1002 "abc".

(** The first device offers [file] to the second as transfer "t1". *)
Definition offer : Event :=
  EvMessage 1%nat (Some (FileTransfer idB [file] (Some "t1"))) 1004 "r".

Definition offeredState : State := step paired offer.

(** The record the offer leaves in the transfer map. *)
Definition offeredTransfer : Transfer :=
  {| t_files := [file]; t_fromDevice := "Linux PC (Firefox)"; t_fromDeviceId := idA;
     t_targetDeviceId := idB; t_timestamp := 1004; t_totalSize := 9; t_status := Pending;
     t_chunks := Some []; t_receivedChunks := 0; t_startTime := None; t_endTime := None |}.

Definition chunk (i : nat) (data : string) : Event :=
  EvMessage 1%nat (Some (FileChunk "t1" i 3 data 9)) 1006 "".

(** Chunks 0 and 2 of three have arrived. *)
Definition partial : State := run offeredState [chunk 0 "YWJj"; chunk 2 "Z2hp"].

Definition cancel : Event := EvMessage 1%nat (Some (FileCancel "t1")) 1008 "".

(** Two devices connect and the first creates the room "Foo". *)
Definition alone : list Event :=
  [EvConnection 1%nat reqA 1000; EvConnection 2%nat reqB 1001;
   EvMessage 1%nat (Some (CreateRoom (Some "Foo") None)) 1002 "abc"].

Definition created : State := run (initialState false) alone.

Definition roomBar : string := generateRoomId 1003 "def".

(** Then the second creates the room "Bar". *)
Definition twoRooms : State :=
  step created (EvMessage 2%nat (Some (CreateRoom (Some "Bar") None)) 1003 "def").

(** The same client connects twice. *)
Definition twice : State :=
  run (initialState false) [EvConnection 1%nat reqA 1000; EvConnection 2%nat reqA 2000].



(** The second device of [paired] connects on a third channel, which
    closes; it then asks on its first channel to leave the room, and that
    channel closes too. *)
Definition outOfStep : State :=
  run paired [EvConnection 3%nat reqB 1500; EvClose 3%nat 1600;
              EvMessage 2%nat (Some LeaveRoom) 1700 ""; EvClose 2%nat 1800].

(** The worker stops there without its [SIGINT] handler running, and the
    next one starts on the files. *)
Definition restarted : State := restart outOfStep.

Definition roomBarLater : string := generateRoomId 5001 "def".

(** The second device comes back and creates the room "Bar". *)
Definition comeBack : list Event :=
  [EvConnection 4%nat reqB 5000;
   EvMessage 4%nat (Some (CreateRoom (Some "Bar") None)) 5001 "def"].

Definition inTwoRooms : State := run restarted comeBack.

(** Long after, the janitor of the new worker runs. *)
Definition swept : State := step restarted (EvJanitor 100000000).

End Scenario.

(** * Vocabulary of the proofs *)

(** The error a read of the undeclared [MAX_MEMORY_USAGE] raises. *)
Definition referenceError : Exn := ReferenceError "MAX_MEMORY_USAGE".

(** The state after the counter moved by [delta] and nothing else did. *)
Definition charged (delta : Z) (st : State) : State :=
  set_currentMemoryUsage (currentMemoryUsage st + delta) st.

(** A relation between the state before and the state after that every
    step of a handler respects, whatever the outcome. *)
Definition keeps (R : State -> State -> Prop) {A} (m : M A) : Prop :=
  forall st, R st (snd (m st)).

(** Computations that always return. *)
Definition returns {A} (m : M A) : Prop := forall st, exists a, fst (m st) = Ret a.

(** The transfers and the counter are left alone. *)
Definition sameTransfers (st st' : State) : Prop :=
  fileTransfers st' = fileTransfers st /\ currentMemoryUsage st' = currentMemoryUsage st.

(** The record a chunk leaves behind: the payload stored at its index and
    one more chunk counted. *)
Definition storeChunk (chunkIndex : nat) (chunkData : string) (t : Transfer) : Transfer :=
  set_t_receivedChunks (S (t_receivedChunks t))
    (set_t_chunks (Some (arraySet chunkIndex (cleanChunk chunkData) (chunksOf t))) t).

(** The record once its last chunk has arrived. *)
Definition markCompleted (now : Z) (t : Transfer) : Transfer :=
  set_t_endTime (Some now) (set_t_status Completed t).

(** Sender and receiver of a transfer are registered and their channels
    are OPEN. *)
Record linked (st : State) (t : Transfer) (sender rcv : Device) (wsS wsR : Ws) : Prop := {
  lk_sender : sget (t_fromDeviceId t) (devices st) = Some sender;
  lk_receiver : sget (t_targetDeviceId t) (devices st) = Some rcv;
  lk_sender_ws : d_ws sender = Some wsS;
  lk_receiver_ws : d_ws rcv = Some wsR;
  lk_sender_open : readyStateOf st wsS = OPEN;
  lk_receiver_open : readyStateOf st wsR = OPEN
}.

(** The frames a chunk makes the server write. *)
Definition chunkFrames (transferId : string) (totalChunks : nat) (t' : Transfer)
    (rcv : Device) (wsS wsR : Ws) : list (Ws * Frame) :=
  (wsS, UploadProgress transferId (t_receivedChunks t') totalChunks)
  :: if Nat.eqb (t_receivedChunks t') totalChunks then
       match t_files t' with
       | file0 :: _ =>
           [(wsR, FileComplete transferId (f_name file0)
                    (JS.orElse (f_type file0) "application/octet-stream")
                    (f_size file0) (arrayJoin (chunksOf t')) (t_fromDevice t'));
            (wsS, TransferComplete transferId (f_name file0) (displayName rcv))]
       | [] => [(wsS, TransferError (Some transferId) "Fehler beim Verarbeiten der Datei")]
       end
     else [].


(** The record an offer stores. *)
Definition offered (now : Z) (senderId targetDeviceId : string) (files : list FileMeta)
    (file0 : FileMeta) (sender : Device) : Transfer :=
  {| t_files := files;
     t_fromDevice := displayName sender;
     t_fromDeviceId := senderId;
     t_targetDeviceId := targetDeviceId;
     t_timestamp := now;
     t_totalSize := f_size file0;
     t_status := Pending;
     t_chunks := Some [];
     t_receivedChunks := 0;
     t_startTime := None;
     t_endTime := None |}.

(** The record bound to [transferId] keeps its buffers and counters, and
    the governor's counter stays. *)
Definition keepsRecord (transferId : string) (st st' : State) : Prop :=
  currentMemoryUsage st' = currentMemoryUsage st
  /\ forall t, sget transferId (fileTransfers st) = Some t ->
       exists t', sget transferId (fileTransfers st') = Some t'
                  /\ t_chunks t' = t_chunks t
                  /\ t_receivedChunks t' = t_receivedChunks t
                  /\ t_files t' = t_files t.

(** [triple P m Q E]: from a state in [P], [m] ends in [Q] when it returns
    and in [E] when it throws. *)
Definition triple {A} (P : State -> Prop) (m : M A) (Q : A -> State -> Prop)
    (E : State -> Prop) : Prop :=
  forall st, P st ->
    match m st with
    | (Ret a, st') => Q a st'
    | (Throw _, st') => E st'
    end.

(** Nothing but the outbox changes, and the outbox only grows. *)
Definition writesOnly (st st' : State) : Prop :=
  exists fr, st' = set_outbox (outbox st ++ fr) st.

(** The rooms are untouched and every device keeps its [roomId]; the set
    of registered devices is the same. *)
Definition sameRooms (st st' : State) : Prop :=
  rooms st' = rooms st
  /\ forall id, option_map d_roomId (sget id (devices st'))
                = option_map d_roomId (sget id (devices st)).

(** The rooms after a device left room [A]. *)
Definition leaveRooms (d A : string) (rs : list (string * Room)) : list (string * Room) :=
  match sget A rs with
  | Some r =>
      match setDelete d (r_devices r) with
      | [] => sdelete A rs
      | m => sset A (set_r_devices m r) rs
      end
  | None => rs
  end.

(** The state is [st0]. *)
Definition at_ (st0 : State) : State -> Prop := fun st => st = st0.

(** The state after the room part of [handleLeaveRoom]: the rooms after the
    leave, and the frames written to the members that stay. *)
Definition afterRoomPart (d A : string) (st0 st : State) : Prop :=
  exists fr, st = set_outbox (outbox st0 ++ fr) (set_rooms (leaveRooms d A (rooms st0)) st0).

(** The computation keeps [P] on every exit. *)
Definition preserves (P : State -> Prop) {A} (m : M A) : Prop :=
  triple P m (fun _ => P) P.

(** The rooms after the leave that precedes a join or a creation: the
    device leaves the room its [roomId] names, if it names one. *)
Definition priorLeave (d : string) (D : Device) (rs : list (string * Room))
    : list (string * Room) :=
  match d_roomId D with
  | Some A => if JS.truthy A then leaveRooms d A rs else rs
  | None => rs
  end.

(** The frames of that leave: they end with [roomLeft] on the device's
    channel, and there are none when the device had no room. *)
Definition leftFrames (w : Ws) (D : Device) (fr : list (Ws * Frame)) : Prop :=
  if JS.truthyOpt (d_roomId D) then exists fr', fr = (fr' ++ [(w, RoomLeft)])%list
  else fr = [].

(** The state after that leave. *)
Definition afterLeave (d : string) (D : Device) (w : Ws) (st0 st1 : State) : Prop :=
  rooms st1 = priorLeave d D (rooms st0)
  /\ (exists D1, sget d (devices st1) = Some D1)
  /\ sockets st1 = sockets st0
  /\ exists fr, outbox st1 = (outbox st0 ++ fr)%list /\ leftFrames w D fr.

(** What is left of a room once the device is out of it: nothing when it
    was the last member. *)
Definition remainderOf (d : string) (r : Room) : option Room :=
  match setDelete d (r_devices r) with
  | [] => None
  | m => Some (set_r_devices m r)
  end.

(** Room ids are bound once, names are not blank, and no two rooms have the
    same name up to case. *)
Definition roomsNamed (rs : list (string * Room)) : Prop :=
  NoDup (map fst rs)
  /\ (forall B r, sget B rs = Some r -> r_name r <> "")
  /\ (forall B1 r1 B2 r2,
        sget B1 rs = Some r1 -> sget B2 rs = Some r2 ->
        JS.toLowerCase (r_name r1) = JS.toLowerCase (r_name r2) -> B1 = B2).

(** The rooms after members came and went: no id was bound anew. *)
Inductive reshaped (rs : list (string * Room)) : list (string * Room) -> Prop :=
| reshaped_refl : reshaped rs rs
| reshaped_members rs' A r m :
    reshaped rs rs' -> sget A rs' = Some r ->
    reshaped rs (sset A (set_r_devices m r) rs')
| reshaped_delete rs' A :
    reshaped rs rs' -> reshaped rs (sdelete A rs').

(** A step that reshapes the rooms. *)
Definition reshapes (st st' : State) : Prop := reshaped (rooms st) (rooms st').

(** The rooms of the state are [roomsNamed]. *)
Definition namedRooms (st : State) : Prop := roomsNamed (rooms st).

(** ** Vocabulary of the further properties *)

(** Every character of the string passes [p]. *)
Fixpoint allChars (p : ascii -> bool) (s : string) : bool :=
  match s with
  | EmptyString => true
  | String c r => p c && allChars p r
  end.

(** A decimal digit. *)
Definition isDigit (c : ascii) : bool :=
  let n := N_of_ascii c in ((48 <=? n) && (n <=? 57))%N.

(** The part [f] of the state is the same before and after. *)
Definition fixes {X} (f : State -> X) (st st' : State) : Prop := f st' = f st.

(** The events that may change a room or the room a device names: the three
    room messages and the janitor. *)
Definition touchesRooms (ev : Event) : bool :=
  match ev with
  | EvMessage _ (Some (JoinRoom _ _)) _ _ => true
  | EvMessage _ (Some (CreateRoom _ _)) _ _ => true
  | EvMessage _ (Some LeaveRoom) _ _ => true
  | EvJanitor _ => true
  | _ => false
  end.

(** The rooms are the same, and every registered device is still registered
    and names the same room. *)
Definition membershipKept (st st' : State) : Prop :=
  rooms st' = rooms st
  /\ forall id D, sget id (devices st) = Some D ->
       exists D', sget id (devices st') = Some D' /\ d_roomId D' = d_roomId D.

(** The rooms and the device registry, together. *)
Definition registries (st : State) : list (string * Room) * list (string * Device) :=
  (rooms st, devices st).

(** The update of [lastActivity] at the start of the message handler. *)
Definition touch (ws : Ws) (now : Z) (st : State) : State :=
  match wget ws (activeConnections st) with
  | Some info =>
      set_activeConnections (wset ws (set_ci_lastActivity now info) (activeConnections st)) st
  | None => st
  end.

(** The frame a handler writes when the channel is OPEN. *)
Definition answered (ws : option Ws) (f : Frame) (st : State) : State :=
  match ws with
  | Some w =>
      if isOpen (readyStateOf st w) then set_outbox (outbox st ++ [(w, f)]) st else st
  | None => st
  end.

(** The channels [broadcastToRoom] writes to: for the members of the room,
    in the order in which they joined, except the excluded one, the channel
    of each member that is registered, online and OPEN. *)
Definition recipients (st : State) (roomId : string) (excludeDeviceId : option string)
    : list Ws :=
  match sget roomId (rooms st) with
  | None => []
  | Some r =>
      flat_map (fun deviceId =>
        if match excludeDeviceId with
           | Some x => String.eqb deviceId x
           | None => false
           end
        then []
        else
          match sget deviceId (devices st) with
          | Some D =>
              match d_ws D with
              | Some w => if d_online D && isOpen (readyStateOf st w) then [w] else []
              | None => []
              end
          | None => []
          end) (r_devices r)
  end.





(** The device a [transferRejected] message is reported to: the one the
    message names as sender, when it is registered and online. *)
Definition rejectionChannel (st : State) (fromDeviceId : string) : option Ws :=
  match sget fromDeviceId (devices st) with
  | Some D => if d_online D then d_ws D else None
  | None => None
  end.

(** The janitor's test on a device: not seen for longer than its timeout
    (a day when pinned, half an hour otherwise), and offline. *)
Definition expired (now : Z) (D : Device) : bool :=
  (if d_pinned D then now - d_lastSeen D >? pinnedDeviceTimeout
   else now - d_lastSeen D >? deviceTimeout) && negb (d_online D).

(** The registry after the janitor's turn for the device [k]. *)
Definition afterTurn (now : Z) (k : string) (ds : list (string * Device))
    : list (string * Device) :=
  match sget k ds with
  | Some dev => if expired now dev then sdelete k ds else ds
  | None => ds
  end.

(** The record [client_identify] leaves for a device. *)
Definition identified (now : Z) (clientId sessionId userAgent language : option string)
    (D : Device) : Device :=
  set_d_lastSeen now (set_d_language language (set_d_sessionId sessionId
    (set_d_clientId clientId
       (match userAgent with
        | Some ua =>
            if JS.truthy ua then
              set_d_userAgent ua
                (set_d_browser (snd (Platform.detectPlatform ua))
                   (set_d_platform (fst (Platform.detectPlatform ua)) D))
            else D
        | None => D
        end)))).

(** The user agent the connection handler works with. *)
Definition agentOf (req : Identity.Request) : string :=
  JS.orElse (Identity.user_agent req) "Unbekannt".

(** The test for the instant welcome: [isIOS && isSafari]. *)
Definition instant (req : Identity.Request) : bool :=
  Identity.matchesIPhoneIPadIPod (agentOf req)
  && String.eqb (snd (Platform.detectPlatform (agentOf req))) "Safari".

(** The record of a known device after it connected again. *)
Definition reconnected (ws : Ws) (req : Identity.Request) (now : Z) (D : Device) : Device :=
  set_d_ip (Identity.remoteAddress req)
    (set_d_browser (snd (Platform.detectPlatform (agentOf req)))
       (set_d_platform (fst (Platform.detectPlatform (agentOf req)))
          (set_d_userAgent (agentOf req)
             (set_d_lastSeen now (set_d_online true (set_d_ws (Some ws) D)))))).

(** The timer a connection leaves: the heartbeat of an iOS Safari client,
    the welcome timeout of any other. *)
Definition connectionTimer (ws : Ws) (req : Identity.Request) : Timer :=
  if instant req then
    {| tm_delay := 10000; tm_repeat := true; tm_task := TaskIOSHeartbeat ws |}
  else
    {| tm_delay := 100; tm_repeat := false;
       tm_task :=
         TaskWelcome ws (Identity.generateStableDeviceId (agentOf req) req)
           (laterWelcomeInfo (fst (Platform.detectPlatform (agentOf req)))
              (snd (Platform.detectPlatform (agentOf req)))) |}.

(** The record a connection leaves for its device: the known record with
    the new channel, or a new one. *)
Definition registered (ws : Ws) (req : Identity.Request) (now : Z) (old : option Device)
    : Device :=
  match old with
  | Some D => reconnected ws req now D
  | None =>
      {| d_ws := Some ws;
         d_name := Platform.generateDeviceName (fst (Platform.detectPlatform (agentOf req)))
                     (snd (Platform.detectPlatform (agentOf req)));
         d_customName := None;
         d_type := Platform.getDeviceType (fst (Platform.detectPlatform (agentOf req)));
         d_platform := fst (Platform.detectPlatform (agentOf req));
         d_browser := snd (Platform.detectPlatform (agentOf req));
         d_userAgent := agentOf req;
         d_pinned := false;
         d_online := true;
         d_lastSeen := now;
         d_roomId := None;
         d_connectionStrength := "good";
         d_ip := Identity.remoteAddress req;
         d_clientId := None;
         d_sessionId := None;
         d_language := None |}
  end.

(** A phone connects with Safari. *)
Definition phoneConnected : State :=
  step (initialState false)
    (EvConnection 1%nat (Scenario.request Scenario.uaPhone "de" "10.0.0.9") 1000).

(** * Facts about the string primitives *)

Lemma startsWith_toLowerCase (p s : string) :
  JS.startsWith p s = true ->
  JS.startsWith (JS.toLowerCase p) (JS.toLowerCase s) = true.
Proof.
  revert s. induction p as [|a p IH]; intros s H; simpl; [reflexivity|].
  destruct s as [|b s]; simpl in *; [discriminate|].
  apply andb_true_iff in H. destruct H as [Hab Hps].
  apply Ascii.eqb_eq in Hab. subst b.
  rewrite Ascii.eqb_refl. simpl. apply IH, Hps.
Qed.

Lemma includes_toLowerCase (p s : string) :
  JS.includes p s = true ->
  JS.includes (JS.toLowerCase p) (JS.toLowerCase s) = true.
Proof.
  induction s as [|b s IH]; simpl; intros H.
  - apply orb_true_iff in H. destruct H as [H|H]; [|discriminate].
    apply startsWith_toLowerCase in H. simpl in H. rewrite H. reflexivity.
  - apply orb_true_iff in H. destruct H as [H|H].
    + apply startsWith_toLowerCase in H. simpl in H. rewrite H. reflexivity.
    + rewrite (IH H). apply orb_true_r.
Qed.

Lemma startsWith_append (p s : string) : JS.startsWith p (p ++ s) = true.
Proof.
  induction p as [|a p IH]; simpl; [reflexivity|].
  rewrite Ascii.eqb_refl. exact IH.
Qed.

Lemma append_inj_l (p a b : string) : (p ++ a)%string = (p ++ b)%string -> a = b.
Proof.
  induction p as [|c p IH]; simpl; intros H; [exact H|].
  injection H as H. apply IH, H.
Qed.

(** * Facts about 32-bit arithmetic and base 36 *)

Lemma ToInt32_range (z : Z) : - 2 ^ 31 <= JS.ToInt32 z < 2 ^ 31.
Proof.
  unfold JS.ToInt32.
  pose proof (Z.mod_pos_bound (z + 2 ^ 31) (2 ^ 32) ltac:(lia)). lia.
Qed.

Lemma ToInt32_eqm (z : Z) : (JS.ToInt32 z - z) mod 2 ^ 32 = 0.
Proof.
  unfold JS.ToInt32.
  replace ((z + 2 ^ 31) mod 2 ^ 32 - 2 ^ 31 - z)
    with ((z + 2 ^ 31) mod 2 ^ 32 - (z + 2 ^ 31)) by lia.
  rewrite Zminus_mod, Z.mod_mod by lia.
  rewrite Z.sub_diag. reflexivity.
Qed.

Lemma ToInt32_small (z : Z) : - 2 ^ 31 <= z < 2 ^ 31 -> JS.ToInt32 z = z.
Proof.
  intros H. unfold JS.ToInt32. rewrite Z.mod_small by lia. lia.
Qed.

(** The loop body is multiplication by 31 plus the character, modulo 2^32. *)
Lemma hashStep_eqm (h c : Z) : (Identity.hashStep h c - (31 * h + c)) mod 2 ^ 32 = 0.
Proof.
  unfold Identity.hashStep, JS.band, JS.shl.
  rewrite Z.land_diag, Z.shiftl_mul_pow2 by lia.
  set (x := JS.ToInt32 (JS.ToInt32 h * 2 ^ 5) - h + c).
  pose proof (ToInt32_range x) as Hr.
  rewrite (ToInt32_small (JS.ToInt32 x)) by exact Hr.
  pose proof (ToInt32_eqm x) as H1.
  pose proof (ToInt32_eqm (JS.ToInt32 h * 2 ^ 5)) as H2.
  pose proof (ToInt32_eqm h) as H3.
  apply Z.mod_divide in H1; [|lia]. apply Z.mod_divide in H2; [|lia].
  apply Z.mod_divide in H3; [|lia].
  destruct H1 as [k1 H1]. destruct H2 as [k2 H2]. destruct H3 as [k3 H3].
  apply Z.mod_divide; [lia|].
  exists (k1 + k2 + 32 * k3). unfold x in *.
  change (2 ^ 5) with 32 in *. change (2 ^ 32) with 4294967296 in *. lia.
Qed.

(** 31 is odd, so the loop body loses nothing of the hash so far. *)
Lemma hashStep_inj_eqm (h1 h2 c : Z) :
  (Identity.hashStep h1 c - Identity.hashStep h2 c) mod 2 ^ 32 = 0 ->
  (h1 - h2) mod 2 ^ 32 = 0.
Proof.
  intros H.
  pose proof (hashStep_eqm h1 c) as H1. pose proof (hashStep_eqm h2 c) as H2.
  apply Z.mod_divide in H; [|lia]. apply Z.mod_divide in H1; [|lia].
  apply Z.mod_divide in H2; [|lia].
  destruct H as [k Hk]. destruct H1 as [k1 Hk1]. destruct H2 as [k2 Hk2].
  assert (Hd : (2 ^ 32 | 31 * (h1 - h2))).
  { exists (k - k1 + k2). change (2 ^ 32) with 4294967296 in *. lia. }
  apply Z.mod_divide; [lia|].
  apply Z.gauss with (m := 31); [exact Hd | reflexivity].
Qed.

Lemma fold_left_inj_eqm (f : Z -> Z -> Z) (m : Z) :
  (forall h1 h2 c, (f h1 c - f h2 c) mod m = 0 -> (h1 - h2) mod m = 0) ->
  forall (cs : list Z) (h1 h2 : Z),
    (fold_left f cs h1 - fold_left f cs h2) mod m = 0 -> (h1 - h2) mod m = 0.
Proof.
  intros Hf. induction cs as [|c cs IH]; intros h1 h2 H; [exact H|].
  apply (Hf h1 h2 c). apply IH. exact H.
Qed.

Lemma fold_hashStep_inj_eqm (cs : list Z) (h1 h2 : Z) :
  (fold_left Identity.hashStep cs h1 - fold_left Identity.hashStep cs h2) mod 2 ^ 32 = 0 ->
  (h1 - h2) mod 2 ^ 32 = 0.
Proof. apply (fold_left_inj_eqm Identity.hashStep (2 ^ 32) hashStep_inj_eqm). Qed.

Lemma charCodes_app (a b : string) :
  JS.charCodes (a ++ b) = (JS.charCodes a ++ JS.charCodes b)%list.
Proof. induction a as [|c a IH]; simpl; [reflexivity|]. rewrite IH. reflexivity. Qed.

Lemma digitValue_digit36 (d : Z) : 0 <= d < 36 -> JS.digitValue (JS.digit36 d) = d.
Proof.
  intros H.
  assert (Hall : forallb (fun x => JS.digitValue (JS.digit36 x) =? x)
                   (map Z.of_nat (seq 0 36)) = true) by (vm_compute; reflexivity).
  rewrite forallb_forall in Hall.
  apply Z.eqb_eq, Hall.
  replace d with (Z.of_nat (Z.to_nat d)) by lia.
  apply in_map, in_seq. lia.
Qed.

Lemma append_assoc' (a b c : string) : ((a ++ b) ++ c)%string = (a ++ (b ++ c))%string.
Proof. induction a as [|x a IH]; simpl; [reflexivity|]. rewrite IH. reflexivity. Qed.

Lemma toString36_loop_acc (fuel : nat) (n : Z) (acc : string) :
  JS.toString36_loop fuel n acc = (JS.toString36_loop fuel n EmptyString ++ acc)%string.
Proof.
  revert n acc. induction fuel as [|f IH]; intros n acc; simpl; [reflexivity|].
  destruct (n / 36 =? 0); [reflexivity|].
  rewrite IH. rewrite (IH _ (String _ EmptyString)).
  rewrite append_assoc'. reflexivity.
Qed.

Lemma parse36_from_app (v : Z) (a b : string) :
  JS.parse36_from v (a ++ b) = JS.parse36_from (JS.parse36_from v a) b.
Proof. revert v. induction a as [|c a IH]; intros v; simpl; [reflexivity|]. apply IH. Qed.

Lemma parse36_toString36_loop (fuel : nat) (n : Z) :
  0 <= n < 2 ^ (Z.of_nat fuel + 1) ->
  JS.parse36 (JS.toString36_loop fuel n EmptyString) = n.
Proof.
  revert n. induction fuel as [|f IH]; intros n Hn.
  - simpl in *. unfold JS.parse36. simpl.
    rewrite Z.mod_small by lia. rewrite digitValue_digit36 by lia. lia.
  - cbn [JS.toString36_loop].
    destruct (Z.eqb_spec (n / 36) 0) as [Hz|Hz].
    + assert (n < 36).
      { destruct (Z.lt_ge_cases n 36) as [|Hge]; [assumption|].
        pose proof (Z.div_le_mono 36 n 36 ltac:(lia) Hge) as Hd.
        rewrite Z.div_same in Hd by lia. lia. }
      unfold JS.parse36. simpl.
      rewrite Z.mod_small by lia. rewrite digitValue_digit36 by lia. lia.
    + rewrite toString36_loop_acc. unfold JS.parse36.
      rewrite parse36_from_app. fold (JS.parse36 (JS.toString36_loop f (n / 36) EmptyString)).
      rewrite IH.
      * simpl. rewrite digitValue_digit36 by (apply Z.mod_pos_bound; lia).
        pose proof (Z.div_mod n 36 ltac:(lia)). lia.
      * split; [apply Z.div_pos; lia|].
        apply Z.div_lt_upper_bound; [lia|].
        replace (Z.of_nat (S f) + 1) with (Z.succ (Z.of_nat f + 1)) in Hn by lia.
        rewrite Z.pow_succ_r in Hn by lia. lia.
Qed.

(** Reading back the base-36 rendering of a non-negative integer gives the
    integer, so the rendering is injective. *)
Lemma parse36_toString36 (n : Z) : 0 <= n -> JS.parse36 (JS.toString36 n) = n.
Proof.
  intros Hn. unfold JS.toString36. apply parse36_toString36_loop.
  split; [exact Hn|].
  destruct (Z.eq_dec n 0) as [->|Hne]; [simpl; lia|].
  rewrite Z2Nat.id by apply Z.log2_nonneg.
  replace (Z.log2 n + 1) with (Z.succ (Z.log2 n)) by lia.
  apply Z.log2_spec. lia.
Qed.

Lemma toString36_inj (a b : Z) :
  0 <= a -> 0 <= b -> JS.toString36 a = JS.toString36 b -> a = b.
Proof.
  intros Ha Hb H.
  rewrite <- (parse36_toString36 a Ha), <- (parse36_toString36 b Hb), H. reflexivity.
Qed.

(** * The identity hasher *)

Lemma hashSeed_with_address (ua ip lang : string) :
  Identity.hashSeed (ua ++ ip ++ lang) =
  fold_left Identity.hashStep (JS.charCodes lang)
    (fold_left Identity.hashStep (JS.charCodes ip)
       (fold_left Identity.hashStep (JS.charCodes ua) 0)).
Proof.
  unfold Identity.hashSeed. rewrite !charCodes_app, !fold_left_app. reflexivity.
Qed.

(** After the same prefix, two different next characters give different
    hashes, whatever follows. *)
Lemma hash_differs_on_char (h0 c1 c2 : Z) (rest : list Z) :
  0 < Z.abs (c1 - c2) < 2 ^ 32 ->
  fold_left Identity.hashStep rest (Identity.hashStep h0 c1)
  <> fold_left Identity.hashStep rest (Identity.hashStep h0 c2).
Proof.
  intros Hc Heq.
  assert (H : (Identity.hashStep h0 c1 - Identity.hashStep h0 c2) mod 2 ^ 32 = 0).
  { apply fold_hashStep_inj_eqm with (cs := rest). rewrite Heq, Z.sub_diag. reflexivity. }
  pose proof (hashStep_eqm h0 c1) as H1. pose proof (hashStep_eqm h0 c2) as H2.
  apply Z.mod_divide in H; [|lia]. apply Z.mod_divide in H1; [|lia].
  apply Z.mod_divide in H2; [|lia].
  destruct H as [k Hk]. destruct H1 as [k1 Hk1]. destruct H2 as [k2 Hk2].
  change (2 ^ 32) with 4294967296 in *.
  assert (c1 - c2 = (k - k1 + k2) * 4294967296) by lia.
  assert (k - k1 + k2 = 0) by nia. lia.
Qed.

Lemma generateStableDeviceId_address_sensitive (ua : string) (req : Identity.Request) :
  Identity.isIOS ua = false ->
  exists ip1 ip2,
    Identity.generateStableDeviceId ua (Identity.withAddress req ip1)
    <> Identity.generateStableDeviceId ua (Identity.withAddress req ip2).
Proof.
  intros Hios.
  set (lang := JS.orElse (Identity.accept_language req) "").
  set (h0 := fold_left Identity.hashStep (JS.charCodes ua) 0).
  set (F := fun c => fold_left Identity.hashStep (JS.charCodes lang) (Identity.hashStep h0 c)).
  assert (Hid : forall (a : ascii),
             Identity.generateStableDeviceId ua (Identity.withAddress req (String a EmptyString))
             = ("device-" ++ JS.toString36 (Z.abs (F (Z.of_N (N_of_ascii a)))))%string).
  { intros a. unfold Identity.generateStableDeviceId. rewrite Hios.
    unfold Identity.deviceSeed, Identity.clientAddress, Identity.withAddress.
    cbn [Identity.x_forwarded_for Identity.remoteAddress Identity.accept_language
         JS.orOpt JS.orElse JS.truthy].
    fold lang. rewrite hashSeed_with_address. reflexivity. }
  assert (Hab : F 97 <> F 98) by (apply hash_differs_on_char; simpl; lia).
  assert (Hac : F 97 <> F 99) by (apply hash_differs_on_char; simpl; lia).
  assert (Hbc : F 98 <> F 99) by (apply hash_differs_on_char; simpl; lia).
  assert (Hd : Z.abs (F 97) <> Z.abs (F 98) \/ Z.abs (F 97) <> Z.abs (F 99)) by lia.
  destruct Hd as [Hd|Hd].
  - exists "a", "b". rewrite (Hid "a"%char), (Hid "b"%char). simpl N_of_ascii. simpl Z.of_N.
    intros Heq. apply append_inj_l in Heq. apply toString36_inj in Heq; lia.
  - exists "a", "c". rewrite (Hid "a"%char), (Hid "c"%char). simpl N_of_ascii. simpl Z.of_N.
    intros Heq. apply append_inj_l in Heq. apply toString36_inj in Heq; lia.
Qed.

(** C5 - identity hasher: the device id is a function of the user agent, the
    client address and the accept-language header alone; when the user agent
    contains iphone, ipad or ipod in any letter case (the hasher's test, on
    the lower-cased agent, which every user agent matching iPhone|iPad|iPod
    passes) the id does not depend on the address and starts with "ios-";
    every other user agent gets an id that starts with "device-", is the
    base-36 rendering of the hash of the seed that contains the address, and
    differs between some two addresses. *)
Theorem generateStableDeviceId_deterministic_ios_address_free :
  forall (ua : string) (r1 r2 : Identity.Request),
    Identity.accept_language r1 = Identity.accept_language r2 ->
    (Identity.clientAddress r1 = Identity.clientAddress r2 ->
     Identity.generateStableDeviceId ua r1 = Identity.generateStableDeviceId ua r2)
    /\ (Identity.matchesIPhoneIPadIPod ua = true -> Identity.isIOS ua = true)
    /\ (Identity.isIOS ua = true ->
        Identity.generateStableDeviceId ua r1 = Identity.generateStableDeviceId ua r2
        /\ JS.startsWith "ios-" (Identity.generateStableDeviceId ua r1) = true)
    /\ (Identity.isIOS ua = false ->
        JS.startsWith "device-" (Identity.generateStableDeviceId ua r1) = true
        /\ Identity.generateStableDeviceId ua r1 =
           ("device-" ++ JS.toString36 (Z.abs (Identity.hashSeed
              (ua ++ JS.orElse (Identity.clientAddress r1) ""
                  ++ JS.orElse (Identity.accept_language r1) ""))))%string
        /\ exists ip1 ip2,
             Identity.generateStableDeviceId ua (Identity.withAddress r1 ip1)
             <> Identity.generateStableDeviceId ua (Identity.withAddress r1 ip2)).
Proof.
  intros ua r1 r2 Hlang. repeat split.
  - intros Haddr. unfold Identity.generateStableDeviceId, Identity.iosSeed, Identity.deviceSeed.
    rewrite Hlang, Haddr. reflexivity.
  - unfold Identity.matchesIPhoneIPadIPod, Identity.isIOS. intros H.
    apply orb_true_iff in H. destruct H as [H|H]; [apply orb_true_iff in H; destruct H as [H|H]|].
    + apply includes_toLowerCase in H.
      change (JS.toLowerCase "iPhone") with "iphone" in H. rewrite H. reflexivity.
    + apply includes_toLowerCase in H.
      change (JS.toLowerCase "iPad") with "ipad" in H. rewrite H. apply orb_true_iff. left. apply orb_true_r.
    + apply includes_toLowerCase in H.
      change (JS.toLowerCase "iPod") with "ipod" in H. rewrite H. apply orb_true_r.
  - unfold Identity.generateStableDeviceId, Identity.iosSeed. rewrite H, Hlang. reflexivity.
  - unfold Identity.generateStableDeviceId. rewrite H. apply startsWith_append.
  - unfold Identity.generateStableDeviceId. rewrite H. apply startsWith_append.
  - unfold Identity.generateStableDeviceId, Identity.deviceSeed. rewrite H. reflexivity.
  - apply generateStableDeviceId_address_sensitive, H.
Qed.

(** * Facts about maps in insertion order *)

Section AssocFacts.
Context {K V : Type} (eqb : K -> K -> bool).
Hypothesis eqb_eq : forall a b, eqb a b = true <-> a = b.

Lemma eqb_refl' (a : K) : eqb a a = true.
Proof. apply eqb_eq. reflexivity. Qed.

Lemma eqb_neq' (a b : K) : a <> b -> eqb a b = false.
Proof.
  intros H. destruct (eqb a b) eqn:E; [|reflexivity].
  apply eqb_eq in E. contradiction.
Qed.

Lemma mapGet_mapSet_eq (k : K) (v : V) (m : list (K * V)) :
  mapGet eqb k (mapSet eqb k v m) = Some v.
Proof.
  induction m as [|[k' v'] m IH]; simpl.
  - rewrite eqb_refl'. reflexivity.
  - destruct (eqb k k') eqn:E; simpl.
    + rewrite eqb_refl'. reflexivity.
    + rewrite E. exact IH.
Qed.

Lemma mapGet_mapSet_ne (k k' : K) (v : V) (m : list (K * V)) :
  k <> k' -> mapGet eqb k' (mapSet eqb k v m) = mapGet eqb k' m.
Proof.
  intros Hne. induction m as [|[k0 v0] m IH]; simpl.
  - rewrite eqb_neq' by congruence. reflexivity.
  - destruct (eqb k k0) eqn:E; simpl.
    + apply eqb_eq in E. subst k0. rewrite !eqb_neq' by congruence. reflexivity.
    + destruct (eqb k' k0); [reflexivity|exact IH].
Qed.

Lemma mapSet_mapSet (k : K) (v1 v2 : V) (m : list (K * V)) :
  mapSet eqb k v2 (mapSet eqb k v1 m) = mapSet eqb k v2 m.
Proof.
  induction m as [|[k0 v0] m IH]; simpl.
  - rewrite eqb_refl'. reflexivity.
  - destruct (eqb k k0) eqn:E; simpl.
    + rewrite eqb_refl'. reflexivity.
    + rewrite E, IH. reflexivity.
Qed.

Lemma mapGet_mapDelete_eq (k : K) (m : list (K * V)) :
  mapGet eqb k (mapDelete eqb k m) = None.
Proof.
  induction m as [|[k0 v0] m IH]; simpl; [reflexivity|].
  destruct (eqb k k0) eqn:E; simpl; [exact IH|].
  rewrite E. exact IH.
Qed.

Lemma mapGet_mapDelete_ne (k k' : K) (m : list (K * V)) :
  k <> k' -> mapGet eqb k' (mapDelete eqb k m) = mapGet eqb k' m.
Proof.
  intros Hne. induction m as [|[k0 v0] m IH]; simpl; [reflexivity|].
  destruct (eqb k k0) eqn:E; simpl.
  - apply eqb_eq in E. subst k0. rewrite eqb_neq' by congruence. exact IH.
  - destruct (eqb k' k0); [reflexivity|exact IH].
Qed.

Lemma mapGet_In_keys (k : K) (v : V) (m : list (K * V)) :
  mapGet eqb k m = Some v -> In k (map fst m).
Proof.
  induction m as [|[k0 v0] m IH]; simpl; [discriminate|].
  destruct (eqb k k0) eqn:E.
  - apply eqb_eq in E. auto.
  - intros H. right. apply IH, H.
Qed.

End AssocFacts.

Lemma sget_sset_eq {V} (k : string) (v : V) m : sget k (sset k v m) = Some v.
Proof. apply mapGet_mapSet_eq, String.eqb_eq. Qed.

Lemma sget_sset_ne {V} (k k' : string) (v : V) m :
  k <> k' -> sget k' (sset k v m) = sget k' m.
Proof. apply mapGet_mapSet_ne, String.eqb_eq. Qed.

Lemma sset_sset {V} (k : string) (v1 v2 : V) m : sset k v2 (sset k v1 m) = sset k v2 m.
Proof. apply mapSet_mapSet, String.eqb_eq. Qed.

Lemma sget_sdelete_eq {V} (k : string) (m : list (string * V)) : sget k (sdelete k m) = None.
Proof. apply mapGet_mapDelete_eq. Qed.

Lemma sget_sdelete_ne {V} (k k' : string) (m : list (string * V)) :
  k <> k' -> sget k' (sdelete k m) = sget k' m.
Proof. apply mapGet_mapDelete_ne, String.eqb_eq. Qed.

Lemma sget_In_keys {V} (k : string) (v : V) m : sget k m = Some v -> In k (map fst m).
Proof. apply mapGet_In_keys, String.eqb_eq. Qed.

Lemma wget_wset_eq {V} (k : Ws) (v : V) m : wget k (wset k v m) = Some v.
Proof. apply mapGet_mapSet_eq, Nat.eqb_eq. Qed.

Lemma wget_wset_ne {V} (k k' : Ws) (v : V) m :
  k <> k' -> wget k' (wset k v m) = wget k' m.
Proof. apply mapGet_mapSet_ne, Nat.eqb_eq. Qed.

(** * The memory governor *)

Lemma updateMemoryUsage_throws (depth : nat) (now delta : Z) (st : State) :
  updateMemoryUsage depth now delta st = (Throw referenceError, charged delta st).
Proof. destruct depth; reflexivity. Qed.

Lemma sweep_loop_throws (now : Z) (transferId : string) (t : Transfer) c
    (keys : list string) (st : State) :
  In transferId keys ->
  sget transferId (fileTransfers st) = Some t ->
  t_chunks t = Some c ->
  now - t_timestamp t > transferTimeout ->
  exists st',
    forEach keys (fun transferId =>
      cur <- getTransfer transferId ;;
      match cur with
      | None => ret tt
      | Some transfer =>
          if now - t_timestamp transfer >? transferTimeout then
            match t_chunks transfer with
            | Some _ => updateMemoryUsage callDepth now (- t_totalSize transfer)
            | None => ret tt
            end ;;
            deleteTransfer transferId
          else ret tt
      end) st = (Throw referenceError, st')
    /\ sget transferId (fileTransfers st') = Some t.
Proof.
  intros Hin Ht Hc Hexp. revert st Hin Ht.
  induction keys as [|k keys IH]; intros st Hin Ht; [destruct Hin|].
  cbn [forEach]. unfold bind at 1. unfold bind at 1. unfold getTransfer at 1, gets at 1.
  destruct (String.eqb_spec k transferId) as [->|Hne].
  - rewrite Ht.
    destruct (Z.gtb_spec (now - t_timestamp t) transferTimeout) as [_|Hle]; [|lia].
    rewrite Hc. unfold bind. rewrite updateMemoryUsage_throws.
    eexists. split; [reflexivity|]. exact Ht.
  - assert (Hin' : In transferId keys) by (destruct Hin; [congruence|assumption]).
    destruct (sget k (fileTransfers st)) as [t'|] eqn:Hk.
    + destruct (now - t_timestamp t' >? transferTimeout).
      * destruct (t_chunks t') eqn:Hc'.
        -- unfold bind. rewrite updateMemoryUsage_throws.
           eexists. split; [reflexivity|]. exact Ht.
        -- unfold bind at 1. unfold ret at 1. unfold deleteTransfer, modify.
           apply IH; [exact Hin'|]. simpl. rewrite sget_sdelete_ne by exact Hne. exact Ht.
      * unfold ret at 1. apply IH; assumption.
    + unfold ret at 1. apply IH; assumption.
Qed.

(** * Reasoning about handlers *)

Section Keeps.
Variable R : State -> State -> Prop.
Hypothesis R_refl : forall st, R st st.
Hypothesis R_trans : forall a b c, R a b -> R b c -> R a c.

Lemma keeps_ret {A} (a : A) : keeps R (ret a).
Proof. intros st. apply R_refl. Qed.

Lemma keeps_throw {A} (e : Exn) : keeps R (@throw A e).
Proof. intros st. apply R_refl. Qed.

Lemma keeps_gets {A} (f : State -> A) : keeps R (gets f).
Proof. intros st. apply R_refl. Qed.

Lemma keeps_bind {A B} (m : M A) (k : A -> M B) :
  keeps R m -> (forall a, keeps R (k a)) -> keeps R (bind m k).
Proof.
  intros Hm Hk st. unfold bind. specialize (Hm st).
  destruct (m st) as [[a|e] st1]; simpl in *; [|exact Hm].
  eapply R_trans; [exact Hm|]. apply Hk.
Qed.

Lemma keeps_tryCatch {A} (m : M A) (h : Exn -> M A) :
  keeps R m -> (forall e, keeps R (h e)) -> keeps R (tryCatch m h).
Proof.
  intros Hm Hh st. unfold tryCatch. specialize (Hm st).
  destruct (m st) as [[a|e] st1]; simpl in *; [exact Hm|].
  eapply R_trans; [exact Hm|]. apply Hh.
Qed.

Lemma keeps_forEach {A} (l : list A) (f : A -> M unit) :
  (forall x, keeps R (f x)) -> keeps R (forEach l f).
Proof.
  intros Hf. induction l as [|x l IH]; simpl; [apply keeps_ret|].
  apply keeps_bind; [apply Hf|]. intros _. exact IH.
Qed.

Lemma keeps_modify (f : State -> State) :
  (forall st, R st (f st)) -> keeps R (modify f).
Proof. intros Hf st. apply Hf. Qed.

Lemma keeps_property {A} (what : string) (o : option A) : keeps R (property what o).
Proof. destruct o; [apply keeps_ret|apply keeps_throw]. Qed.

Lemma keeps_getDevice id : keeps R (getDevice id).
Proof. apply keeps_gets. Qed.

Lemma keeps_getRoom id : keeps R (getRoom id).
Proof. apply keeps_gets. Qed.


Lemma keeps_wsOpen ws : keeps R (wsOpen ws).
Proof. apply keeps_gets. Qed.

Lemma keeps_openOpt ws : keeps R (openOpt ws).
Proof. destruct ws; [apply keeps_wsOpen|apply keeps_ret]. Qed.


(** What the relation must allow for the catalogs on disk. *)
Hypothesis R_devicesFile : forall st f, R st (set_devicesFile f st).
Hypothesis R_roomsFile : forall st f, R st (set_roomsFile f st).

Lemma keeps_saveDevices : keeps R saveDevices.
Proof. apply keeps_modify. intros st. apply R_devicesFile. Qed.

Lemma keeps_saveRooms : keeps R saveRooms.
Proof. apply keeps_modify. intros st. apply R_roomsFile. Qed.

(** What the relation must allow for the channel primitives. *)
Hypothesis R_outbox : forall st o, R st (set_outbox o st).
Hypothesis R_sockets : forall st s, R st (set_sockets s st).

Lemma keeps_wsSend ws f : keeps R (wsSend ws f).
Proof.
  intros st. unfold wsSend.
  destruct (isOpen (readyStateOf st ws)); simpl; [apply R_outbox|].
  destruct (wsSendThrows st); apply R_refl.
Qed.

Lemma keeps_sendTo ws f : keeps R (sendTo ws f).
Proof. destruct ws; [apply keeps_wsSend|apply keeps_throw]. Qed.

Lemma keeps_notify d f : keeps R (notify d f).
Proof.
  destruct d as [d|]; simpl; [|apply keeps_ret].
  destruct (d_ws d); [apply keeps_wsSend|apply keeps_ret].
Qed.

Lemma keeps_notifyOnline d f : keeps R (notifyOnline d f).
Proof.
  destruct d as [d|]; simpl; [|apply keeps_ret].
  destruct (d_online d); [apply (keeps_notify (Some d))|apply keeps_ret].
Qed.

Lemma keeps_wsClose ws code reason : keeps R (wsClose ws code reason).
Proof.
  intros st. unfold wsClose.
  destruct (isOpen (readyStateOf st ws)); simpl; [|apply R_refl].
  eapply R_trans; [apply R_outbox|]. apply R_sockets.
Qed.

Lemma keeps_broadcastToRoom roomId f ex : keeps R (broadcastToRoom roomId f ex).
Proof.
  unfold broadcastToRoom. apply keeps_bind; [apply keeps_getRoom|].
  intros [r|]; [|apply keeps_ret].
  apply keeps_forEach. intros deviceId.
  destruct (match ex with Some x => (deviceId =? x)%string | None => false end);
    [apply keeps_ret|].
  apply keeps_bind; [apply keeps_getDevice|]. intros [d|]; [|apply keeps_ret].
  apply keeps_bind; [apply keeps_openOpt|]. intros o.
  destruct (d_online d && o); [|apply keeps_ret].
  apply keeps_tryCatch; [apply keeps_sendTo|]. intros _. apply keeps_ret.
Qed.

Lemma keeps_broadcastDeviceList roomId : keeps R (broadcastDeviceList roomId).
Proof.
  unfold broadcastDeviceList. apply keeps_bind; [apply keeps_getRoom|].
  intros [r|]; [|apply keeps_ret].
  apply keeps_bind; [apply keeps_gets|]. intros l. apply keeps_broadcastToRoom.
Qed.

End Keeps.

Lemma returns_ret {A} (a : A) : returns (ret a).
Proof. intros st. exists a. reflexivity. Qed.

Lemma returns_gets {A} (f : State -> A) : returns (gets f).
Proof. intros st. eexists. reflexivity. Qed.

Lemma returns_modify (f : State -> State) : returns (modify f).
Proof. intros st. exists tt. reflexivity. Qed.

Lemma returns_bind {A B} (m : M A) (k : A -> M B) :
  returns m -> (forall a, returns (k a)) -> returns (bind m k).
Proof.
  intros Hm Hk st. unfold bind. destruct (Hm st) as [a Ha].
  destruct (m st) as [[a'|e] st1]; simpl in Ha; [|discriminate].
  apply Hk.
Qed.

Lemma returns_forEach {A} (l : list A) (f : A -> M unit) :
  (forall x, returns (f x)) -> returns (forEach l f).
Proof.
  intros Hf. induction l as [|x l IH]; simpl; [apply returns_ret|].
  apply returns_bind; [apply Hf|]. intros _. exact IH.
Qed.

Lemma returns_wsClose ws code reason : returns (wsClose ws code reason).
Proof.
  intros st. unfold wsClose. destruct (isOpen (readyStateOf st ws)); exists tt; reflexivity.
Qed.

Lemma returns_openOpt ws : returns (openOpt ws).
Proof. destruct ws; [apply returns_gets|apply returns_ret]. Qed.

Lemma returns_sweepConnections now : returns (sweepConnections now).
Proof.
  unfold sweepConnections. apply returns_bind; [apply returns_gets|]. intros keys.
  apply returns_forEach. intros ws.
  apply returns_bind; [apply returns_gets|]. intros [info|]; [|apply returns_ret].
  destruct (now - ci_lastActivity info >? connectionTimeout); [|apply returns_ret].
  apply returns_bind; [apply returns_wsClose|]. intros _. apply returns_modify.
Qed.

Lemma returns_sweepDevices now : returns (sweepDevices now).
Proof.
  unfold sweepDevices. apply returns_bind; [apply returns_gets|]. intros keys.
  apply returns_forEach. intros deviceId.
  apply returns_bind; [apply returns_gets|]. intros [device|]; [|apply returns_ret].
  match goal with |- returns (if ?b then _ else _) => destruct b end; [|apply returns_ret].
  apply returns_bind.
  - destruct (d_roomId device) as [roomId|]; [|apply returns_ret].
    destruct (JS.truthy roomId); [|apply returns_ret].
    apply returns_bind; [apply returns_gets|]. intros [r|]; [|apply returns_ret].
    apply returns_bind; [apply returns_modify|]. intros _.
    destruct (setDelete deviceId (r_devices r)); [apply returns_modify|apply returns_ret].
  - intros _. apply returns_bind; [apply returns_openOpt|]. intros o.
    apply returns_bind; [|intros _; apply returns_modify].
    destruct (d_ws device); [|apply returns_ret].
    destruct o; [apply returns_wsClose|apply returns_ret].
Qed.

Lemma sameTransfers_refl st : sameTransfers st st.
Proof. split; reflexivity. Qed.

Lemma sameTransfers_trans a b c : sameTransfers a b -> sameTransfers b c -> sameTransfers a c.
Proof. intros [H1 H2] [H3 H4]. split; congruence. Qed.

Lemma sameTransfers_updateRoom id f : keeps sameTransfers (updateRoom id f).
Proof.
  apply keeps_modify. intros st. destruct (sget id (rooms st)); split; reflexivity.
Qed.

Lemma sameTransfers_updateDevice id f : keeps sameTransfers (updateDevice id f).
Proof.
  apply keeps_modify. intros st. destruct (sget id (devices st)); split; reflexivity.
Qed.

Ltac same_tr :=
  repeat first
    [ apply keeps_ret; exact sameTransfers_refl
    | apply keeps_gets; exact sameTransfers_refl
    | apply (keeps_wsClose sameTransfers sameTransfers_refl sameTransfers_trans);
        intros; split; reflexivity
    | apply (keeps_openOpt sameTransfers sameTransfers_refl)
    | apply sameTransfers_updateRoom
    | apply sameTransfers_updateDevice
    | apply keeps_modify; intros; split; reflexivity
    | apply (keeps_forEach sameTransfers sameTransfers_refl sameTransfers_trans); intros
    | apply (keeps_bind sameTransfers sameTransfers_trans); [|intros]
    | match goal with
      | |- keeps _ (match ?x with _ => _ end) => destruct x
      end ].

Lemma sameTransfers_sweepConnections now : keeps sameTransfers (sweepConnections now).
Proof. unfold sweepConnections. same_tr. Qed.

Lemma sameTransfers_sweepDevices now : keeps sameTransfers (sweepDevices now).
Proof. unfold sweepDevices. same_tr. Qed.

Lemma janitor_throws (now : Z) (transferId : string) (t : Transfer) c (st : State) :
  sget transferId (fileTransfers st) = Some t ->
  t_chunks t = Some c ->
  now - t_timestamp t > transferTimeout ->
  exists st',
    janitor now st = (Throw referenceError, st')
    /\ sget transferId (fileTransfers st') = Some t.
Proof.
  intros Ht Hc Hexp. unfold janitor. unfold bind at 1. unfold gets at 1.
  destruct (returns_sweepConnections now st) as [[] H1].
  pose proof (sameTransfers_sweepConnections now st) as [K1 _].
  unfold bind at 1. destruct (sweepConnections now st) as [[[]|e] st1]; [|discriminate].
  simpl in K1.
  destruct (returns_sweepDevices now st1) as [[] H2].
  pose proof (sameTransfers_sweepDevices now st1) as [K2 _].
  unfold bind at 1. destruct (sweepDevices now st1) as [[[]|e] st2]; [|discriminate].
  simpl in K2.
  assert (Ht2 : sget transferId (fileTransfers st2) = Some t) by (rewrite K2, K1; exact Ht).
  unfold sweepTransfers. unfold bind at 1. unfold bind at 1. unfold gets at 1.
  destruct (sweep_loop_throws now transferId t c (map fst (fileTransfers st2)) st2
              (sget_In_keys _ _ _ Ht2) Ht2 Hc Hexp) as [st' [Hrun Hst']].
  rewrite Hrun. exists st'. split; [reflexivity|exact Hst'].
Qed.

(** C9 - the memory-release helper always throws: a call of
    [updateMemoryUsage] adds its delta to the counter and raises a
    ReferenceError for MAX_MEMORY_USAGE; so fileCancel, fileComplete,
    transferComplete and the janitor sweep, on a transfer whose chunks field
    is set, stop at that call and the transfer is still in the map. *)
Theorem updateMemoryUsage_always_throws :
  forall (now : Z) (st : State),
    (forall depth delta,
        updateMemoryUsage depth now delta st = (Throw referenceError, charged delta st))
    /\ (forall transferId deviceId t c,
          sget transferId (fileTransfers st) = Some t ->
          t_chunks t = Some c ->
          let st' := charged (- t_totalSize t) st in
          handleFileCancel now deviceId transferId st = (Throw referenceError, st')
          /\ handleFileComplete now deviceId transferId st = (Throw referenceError, st')
          /\ handleTransferComplete now transferId st = (Throw referenceError, st')
          /\ sget transferId (fileTransfers st') = Some t
          /\ (now - t_timestamp t > transferTimeout ->
              exists st'',
                janitor now st = (Throw referenceError, st'')
                /\ sget transferId (fileTransfers st'') = Some t)).
Proof.
  intros now st. split.
  - intros depth delta. apply updateMemoryUsage_throws.
  - intros transferId deviceId t c Ht Hc st'. subst st'.
    repeat split.
    + unfold handleFileCancel, bind, getTransfer, gets.
      rewrite Ht, Hc, updateMemoryUsage_throws. reflexivity.
    + unfold handleFileComplete, bind, getTransfer, gets.
      rewrite Ht, Hc, updateMemoryUsage_throws. reflexivity.
    + unfold handleTransferComplete, bind, getTransfer, gets.
      rewrite Ht, Hc, updateMemoryUsage_throws. reflexivity.
    + exact Ht.
    + intros Hexp. eapply janitor_throws; eassumption.
Qed.

(** * The transfer engine *)

Lemma wsSend_open ws f st :
  readyStateOf st ws = OPEN ->
  wsSend ws f st = (Ret tt, set_outbox (outbox st ++ [(ws, f)]) st).
Proof. intros H. unfold wsSend. rewrite H. reflexivity. Qed.

Lemma handleFileChunk_linked (now : Z) (deviceId transferId : string)
    (chunkIndex totalChunks : nat) (chunkData : string) (fileSize : Z)
    (st : State) (t : Transfer) c sender rcv wsS wsR :
  sget transferId (fileTransfers st) = Some t ->
  t_chunks t = Some c ->
  linked st t sender rcv wsS wsR ->
  let t1 := storeChunk chunkIndex chunkData t in
  let t2 := if Nat.eqb (t_receivedChunks t1) totalChunks then
              match t_files t with _ :: _ => markCompleted now t1 | [] => t1 end
            else t1 in
  handleFileChunk now deviceId transferId chunkIndex totalChunks chunkData fileSize st
  = (Ret tt,
     set_fileTransfers (sset transferId t2 (fileTransfers st))
       (set_outbox (outbox st ++ chunkFrames transferId totalChunks t1 rcv wsS wsR) st)).
Proof.
  intros Ht Hc [Hs Hr Hsw Hrw Hso Hro] t1 t2.
  unfold handleFileChunk.
  unfold bind at 1. unfold getTransfer at 1, gets at 1. rewrite Ht, Hc.
  unfold bind at 1. unfold ret at 1.
  unfold bind at 1. unfold updateTransfer at 1, modify at 1. rewrite Ht.
  fold (storeChunk chunkIndex chunkData t). fold t1.
  unfold bind at 1. unfold getDevice at 1, gets at 1. cbn [devices set_fileTransfers set_devicesFile set_roomsFile].
  rewrite Hs.
  unfold bind at 1. unfold getTransfer at 1, gets at 1. cbn [fileTransfers set_fileTransfers set_devicesFile set_roomsFile].
  rewrite sget_sset_eq.
  unfold bind at 1. unfold property at 1, ret at 1.
  unfold bind at 1. unfold notify at 1. rewrite Hsw.
  rewrite wsSend_open by exact Hso.
  unfold chunkFrames. subst t2.
  destruct (Nat.eqb (t_receivedChunks t1) totalChunks) eqn:Hdone.
  - unfold tryCatch, deliverFile.
    unfold bind at 1. unfold getDevice at 1, gets at 1. cbn [devices set_fileTransfers set_outbox set_devicesFile set_roomsFile].
    replace (t_targetDeviceId t1) with (t_targetDeviceId t) by reflexivity.
    rewrite Hr. rewrite Hrw.
    unfold bind at 1. unfold openOpt, wsOpen, gets at 1.
    replace (readyStateOf _ wsR) with (readyStateOf st wsR) by reflexivity.
    rewrite Hro. cbn [isOpen].
    replace (t_files t1) with (t_files t) by reflexivity.
    destruct (t_files t) as [|file0 files] eqn:Hf.
    + cbn [nth_error property]. unfold bind at 1. unfold throw at 1.
      unfold bind at 1. unfold getDevice at 1, gets at 1. cbn [devices set_fileTransfers set_outbox set_devicesFile set_roomsFile].
      replace (t_fromDeviceId t1) with (t_fromDeviceId t) by reflexivity.
      rewrite Hs. unfold notify. rewrite Hsw.
      rewrite wsSend_open by exact Hso.
      cbn [outbox set_outbox set_fileTransfers set_devicesFile set_roomsFile]. rewrite <- app_assoc. reflexivity.
    + cbn [nth_error property]. unfold bind at 1. unfold ret at 1.
      unfold bind at 1. unfold sendTo at 1.
      rewrite wsSend_open by exact Hro.
      unfold bind at 1. unfold notify at 1. rewrite Hsw.
      rewrite wsSend_open by exact Hso.
      unfold updateTransfer, modify. cbn [fileTransfers set_fileTransfers set_outbox set_devicesFile set_roomsFile].
      rewrite sget_sset_eq.
      cbn [outbox set_outbox set_fileTransfers fileTransfers set_devicesFile set_roomsFile].
      rewrite <- !app_assoc. cbn [app].
      rewrite sset_sset. reflexivity.
  - unfold ret. reflexivity.
Qed.

(** ** Arrays with holes *)

Lemma nth_error_arraySet_eq {A} (i : nat) (x : A) (a : list (option A)) :
  nth_error (arraySet i x a) i = Some (Some x).
Proof.
  revert a. induction i as [|i IH]; intros [|y a]; simpl; try reflexivity; apply IH.
Qed.

Lemma arrayGet_arraySet_eq {A} (i : nat) (x : A) (a : list (option A)) :
  arrayGet i (arraySet i x a) = Some x.
Proof. unfold arrayGet. rewrite nth_error_arraySet_eq. reflexivity. Qed.

Lemma arrayGet_arraySet_ne {A} (i j : nat) (x : A) (a : list (option A)) :
  i <> j -> arrayGet j (arraySet i x a) = arrayGet j a.
Proof.
  revert j a. induction i as [|i IH]; intros [|j] [|y a] Hne; try congruence;
    unfold arrayGet in *; simpl; try reflexivity.
  - destruct j; reflexivity.
  - specialize (IH j [] ltac:(congruence)). rewrite IH. destruct j; reflexivity.
  - apply IH. congruence.
Qed.










(** ** Clean-up of a strict payload *)

Lemma keepBase64_strict (s : string) : allBase64 s = true -> keepBase64 s = s.
Proof.
  induction s as [|c s IH]; simpl; intros H; [reflexivity|].
  apply andb_true_iff in H. destruct H as [Hc Hs].
  rewrite Hc, IH by exact Hs. reflexivity.
Qed.

Lemma strict_no_data_prefix (s : string) :
  allBase64 s = true -> JS.startsWith "data:" s = false.
Proof.
  intros H. destruct (JS.startsWith "data:" s) eqn:E; [|reflexivity].
  destruct s as [|c1 [|c2 [|c3 [|c4 [|c5 r]]]]]; cbn [JS.startsWith] in E;
    repeat (apply andb_true_iff in E; destruct E as [? E]); try discriminate.
  match goal with Hc : Ascii.eqb ":" c5 = true |- _ => apply Ascii.eqb_eq in Hc; subst c5 end.
  cbn [allBase64] in H. repeat (apply andb_true_iff in H; destruct H as [? H]).
  match goal with Hc : isBase64Char ":" = true |- _ => vm_compute in Hc; discriminate end.
Qed.

Lemma cleanChunk_strict (s : string) : allBase64 s = true -> cleanChunk s = s.
Proof.
  intros H. unfold cleanChunk. rewrite strict_no_data_prefix by exact H.
  apply keepBase64_strict, H.
Qed.

Lemma tryCatch_ret {A} (m : M A) (h : Exn -> M A) (st st' : State) (a : A) :
  m st = (Ret a, st') -> tryCatch m h st = (Ret a, st').
Proof. intros H. unfold tryCatch. rewrite H. reflexivity. Qed.

(** ** The offer *)

Lemma handleFileTransfer_ok (now : Z) (rnd senderId targetDeviceId : string)
    (files : list FileMeta) (file0 : FileMeta) rest (dataTransferId : option string)
    (st : State) sender rcv wsS wsR :
  sget senderId (devices st) = Some sender ->
  sget targetDeviceId (devices st) = Some rcv ->
  optEqb (d_roomId sender) (d_roomId rcv) = true ->
  d_ws sender = Some wsS -> readyStateOf st wsS = OPEN ->
  d_ws rcv = Some wsR -> d_online rcv = true -> readyStateOf st wsR = OPEN ->
  files = file0 :: rest ->
  let transferId := JS.orElse dataTransferId (generateTransferId now rnd) in
  handleFileTransfer now rnd senderId targetDeviceId files dataTransferId st
  = (Ret tt,
     set_outbox
       (outbox st ++
        [(wsR, IncomingFile files (displayName sender) senderId transferId (f_size file0));
         (wsS, TransferStarted (displayName rcv) transferId)])
       (set_fileTransfers
          (sset transferId (offered now senderId targetDeviceId files file0 sender)
             (fileTransfers st)) st)).
Proof.
  intros Hs Hr Hroom Hsw Hso Hrw Hon Hro Hf transferId.
  unfold handleFileTransfer.
  unfold bind at 1. unfold getDevice at 1, gets at 1. rewrite Hs.
  unfold bind at 1. unfold getDevice at 1, gets at 1. rewrite Hr.
  unfold bind at 1. unfold property at 1, ret at 1.
  rewrite Hroom. cbn [negb].
  fold transferId. subst files. cbn [nth_error].
  unfold bind at 1. unfold property at 1, ret at 1.
  unfold bind at 1. unfold modify at 1.
  unfold bind at 1. rewrite Hrw. unfold openOpt, wsOpen, gets at 1.
  replace (readyStateOf _ wsR) with (readyStateOf st wsR) by reflexivity.
  rewrite Hro, Hon. cbn [isOpen andb].
  unfold bind at 1. unfold sendTo at 1. rewrite wsSend_open by exact Hro.
  rewrite Hsw. unfold sendTo. rewrite wsSend_open by exact Hso.
  cbn [outbox set_outbox set_fileTransfers set_devicesFile set_roomsFile]. rewrite <- app_assoc. reflexivity.
Qed.

(** ** A stream of chunks *)




(** ** What a chunk does to the record, whatever happens to the frames *)

Lemma keepsRecord_refl tid st : keepsRecord tid st st.
Proof. split; [reflexivity|]. intros t Ht. exists t. auto. Qed.

Lemma keepsRecord_trans tid a b c :
  keepsRecord tid a b -> keepsRecord tid b c -> keepsRecord tid a c.
Proof.
  intros [H1 K1] [H2 K2]. split; [congruence|].
  intros t Ht. destruct (K1 t Ht) as (t1 & Ht1 & ? & ? & ?).
  destruct (K2 t1 Ht1) as (t2 & Ht2 & ? & ? & ?).
  exists t2. repeat split; congruence.
Qed.

Lemma keepsRecord_outbox tid st o : keepsRecord tid st (set_outbox o st).
Proof. split; [reflexivity|]. intros t Ht. exists t. auto. Qed.

Lemma keepsRecord_markCompleted tid id now :
  keeps (keepsRecord tid)
    (updateTransfer id (fun t => set_t_endTime (Some now) (set_t_status Completed t))).
Proof.
  apply keeps_modify. intros st. split; [destruct (sget id (fileTransfers st)); reflexivity|].
  intros t Ht. destruct (sget id (fileTransfers st)) as [t0|] eqn:Hid; [|eauto].
  cbn [fileTransfers set_fileTransfers set_devicesFile set_roomsFile].
  destruct (String.eqb_spec id tid) as [->|Hne].
  - rewrite sget_sset_eq. eexists. split; [reflexivity|].
    assert (t0 = t) by congruence. subst t0. auto.
  - rewrite sget_sset_ne by exact Hne. exists t. auto.
Qed.

Ltac keeps_record tid :=
  repeat first
    [ apply keeps_ret; exact (keepsRecord_refl tid)
    | apply keeps_throw; exact (keepsRecord_refl tid)
    | apply keeps_gets; exact (keepsRecord_refl tid)
    | apply (keeps_property (keepsRecord tid) (keepsRecord_refl tid))
    | apply (keeps_openOpt (keepsRecord tid) (keepsRecord_refl tid))
    | apply (keeps_notify (keepsRecord tid) (keepsRecord_refl tid) (keepsRecord_outbox tid))
    | apply (keeps_sendTo (keepsRecord tid) (keepsRecord_refl tid) (keepsRecord_outbox tid))
    | apply keepsRecord_markCompleted
    | apply (keeps_tryCatch (keepsRecord tid) (keepsRecord_trans tid)); [|intros]
    | apply (keeps_bind (keepsRecord tid) (keepsRecord_trans tid)); [|intros]
    | match goal with
      | |- keeps _ (match ?x with _ => _ end) => destruct x
      end ].

(** The guarded answer of the two [catch] blocks always returns. *)
Lemma guarded_send_returns (ws : option Ws) (f : Frame) (st : State) :
  exists st', (o <- openOpt ws ;; if o then sendTo ws f else ret tt) st = (Ret tt, st').
Proof.
  unfold bind. destruct ws as [w|]; simpl; [|eexists; reflexivity].
  unfold wsOpen, gets. destruct (isOpen (readyStateOf st w)) eqn:E.
  - unfold wsSend. rewrite E. eexists. reflexivity.
  - eexists. reflexivity.
Qed.

Lemma handleMessage_returns now rnd deviceId data : returns (handleMessage now rnd deviceId data).
Proof.
  intros st. unfold handleMessage, tryCatch.
  destruct (dispatch now rnd deviceId data st) as [[[]|e] st1]; [exists tt; reflexivity|].
  unfold bind at 1. unfold getDevice, gets. destruct (sget deviceId (devices st1)) as [d|].
  - destruct (guarded_send_returns (d_ws d) (ErrorFrame "Interner Server Fehler") st1) as [st2 H].
    rewrite H. exists tt. reflexivity.
  - exists tt. reflexivity.
Qed.

Lemma handleMessage_chunk_record (now : Z) (rnd deviceId transferId : string)
    (chunkIndex totalChunks : nat) (chunkData : string) (fileSize : Z)
    (st : State) (t : Transfer) arr :
  sget transferId (fileTransfers st) = Some t ->
  t_chunks t = Some arr ->
  let st' := exec (handleMessage now rnd deviceId
                     (FileChunk transferId chunkIndex totalChunks chunkData fileSize)) st in
  currentMemoryUsage st' = currentMemoryUsage st
  /\ exists t', sget transferId (fileTransfers st') = Some t'
       /\ t_chunks t' = Some (arraySet chunkIndex (cleanChunk chunkData) arr)
       /\ t_receivedChunks t' = S (t_receivedChunks t)
       /\ t_files t' = t_files t.
Proof.
  intros Ht Hc st'.
  set (st1 := set_fileTransfers
                (sset transferId (storeChunk chunkIndex chunkData t) (fileTransfers st)) st).
  assert (Hk : keepsRecord transferId st1 st').
  { subst st'. unfold exec, handleMessage, tryCatch. cbn [dispatch].
    unfold handleFileChunk.
    unfold bind at 1. unfold getTransfer at 1, gets at 1. rewrite Ht, Hc.
    unfold bind at 1. unfold ret at 1.
    unfold bind at 1. unfold updateTransfer at 1, modify at 1. rewrite Ht.
    fold (storeChunk chunkIndex chunkData t). fold st1.
    match goal with
    | |- keepsRecord _ _ (snd (match ?m st1 with _ => _ end)) =>
        assert (Hm : keeps (keepsRecord transferId) m)
    end.
    { keeps_record transferId. }
    specialize (Hm st1).
    match goal with
    | |- keepsRecord _ _ (snd (match ?m st1 with _ => _ end)) => destruct (m st1) as [[[]|e] st2]
    end; [exact Hm|].
    simpl in Hm. eapply keepsRecord_trans; [exact Hm|].
    assert (Hh : keeps (keepsRecord transferId)
                   (device <- getDevice deviceId ;;
                    match device with
                    | Some d =>
                        o <- openOpt (d_ws d) ;;
                        if o then sendTo (d_ws d) (ErrorFrame "Interner Server Fehler")
                        else ret tt
                    | None => ret tt
                    end)).
    { keeps_record transferId. }
    apply Hh. }
  destruct Hk as [Hmem Hrec]. split; [exact Hmem|].
  destruct (Hrec (storeChunk chunkIndex chunkData t)) as (t' & Ht' & Hch & Hrc & Hfl).
  { subst st1. cbn [fileTransfers set_fileTransfers set_devicesFile set_roomsFile]. apply sget_sset_eq. }
  exists t'. split; [exact Ht'|]. rewrite Hch, Hrc, Hfl.
  unfold storeChunk, chunksOf, set_t_receivedChunks, set_t_chunks. cbn [t_chunks t_receivedChunks t_files].
  rewrite Hc. auto.
Qed.

(** ** Counting chunks *)

Lemma isBuffered_arrayGet (a : list (option string)) (i : nat) :
  isBuffered a i = match arrayGet i a with Some _ => true | None => false end.
Proof. unfold isBuffered, arrayGet. destruct (nth_error a i) as [[x|]|]; reflexivity. Qed.

Lemma isBuffered_arraySet (a : list (option string)) (i j : nat) (x : string) :
  isBuffered (arraySet i x a) j = Nat.eqb j i || isBuffered a j.
Proof.
  rewrite !isBuffered_arrayGet. destruct (Nat.eqb_spec j i) as [->|Hne].
  - rewrite arrayGet_arraySet_eq. reflexivity.
  - rewrite arrayGet_arraySet_ne by congruence. reflexivity.
Qed.

Lemma bufferedCount_arraySet_fresh (a : list (option string)) (i : nat) (x : string) :
  isBuffered a i = false -> bufferedCount (arraySet i x a) = S (bufferedCount a).
Proof.
  revert a. induction i as [|i IH]; intros [|y a] H; simpl.
  - reflexivity.
  - unfold isBuffered in H. simpl in H. destruct y; [discriminate|reflexivity].
  - rewrite IH; [reflexivity|]. unfold isBuffered. destruct i; reflexivity.
  - unfold isBuffered in H. simpl in H. destruct y; simpl; rewrite IH; auto.
Qed.

Lemma bufferedCount_le (a : list (option string)) (n : nat) :
  (forall i, isBuffered a i = true -> (i < n)%nat) -> (bufferedCount a <= n)%nat.
Proof.
  revert n. induction a as [|y a IH]; intros n H; simpl; [lia|].
  assert (Hshift : forall i, isBuffered a i = true -> (S i < n)%nat).
  { intros i Hi. apply H. exact Hi. }
  destruct y as [s|].
  - specialize (H 0%nat eq_refl). destruct n as [|n']; [lia|].
    specialize (IH n'). assert (bufferedCount a <= n')%nat; [|lia].
    apply IH. intros i Hi. specialize (Hshift i Hi). lia.
  - destruct n as [|n'].
    + specialize (IH 0%nat). apply IH. intros i Hi. specialize (Hshift i Hi). lia.
    + specialize (IH n'). assert (bufferedCount a <= n')%nat; [|lia].
      apply IH. intros i Hi. specialize (Hshift i Hi). lia.
Qed.

Lemma exec_forEach_cons {A} (f : A -> M unit) (x : A) (l : list A) (st : State) :
  returns (f x) -> exec (forEach (x :: l) f) st = exec (forEach l f) (exec (f x) st).
Proof.
  intros Hr. unfold exec. cbn [forEach]. unfold bind.
  destruct (Hr st) as [a Ha]. destruct (f x st) as [[[]|e] st1]; simpl in Ha; [|discriminate].
  reflexivity.
Qed.

(** A stream of chunks whose indices are pairwise different and not yet
    buffered: each one is stored, counted and buffered once. *)
Lemma sendChunks_records (senderId transferId : string) (N : nat) (cs : list ChunkFrame) :
  forall (st : State) (t : Transfer) (arr : list (option string)),
    sget transferId (fileTransfers st) = Some t ->
    t_chunks t = Some arr ->
    NoDup (map c_index cs) ->
    (forall c, In c cs -> isBuffered arr (c_index c) = false) ->
    exists t' arr',
      sget transferId (fileTransfers (exec (sendChunks senderId transferId N cs) st)) = Some t'
      /\ t_chunks t' = Some arr'
      /\ t_receivedChunks t' = (t_receivedChunks t + List.length cs)%nat
      /\ bufferedCount arr' = (bufferedCount arr + List.length cs)%nat
      /\ (forall i, isBuffered arr' i = isBuffered arr i || existsb (Nat.eqb i) (map c_index cs)).
Proof.
  induction cs as [|c cs IH]; intros st t arr Ht Hc Hnd Hfresh.
  - exists t, arr. unfold exec, sendChunks. simpl. repeat split; auto.
    intros i. rewrite orb_false_r. reflexivity.
  - unfold sendChunks. rewrite exec_forEach_cons by apply handleMessage_returns.
    fold (sendChunks senderId transferId N cs).
    pose proof (handleMessage_chunk_record (c_now c) "" senderId transferId (c_index c) N
                  (c_data c) (c_fileSize c) st t arr Ht Hc) as Hstep.
    cbv zeta in Hstep. destruct Hstep as (_ & t1 & Ht1 & Hc1 & Hr1 & _).
    inversion Hnd as [|? ? Hnotin Hnd']; subst.
    destruct (IH _ t1 _ Ht1 Hc1 Hnd') as (t' & arr' & Ht' & Hc' & Hr' & Hb' & Hi').
    + intros c' Hc'in. rewrite isBuffered_arraySet.
      rewrite (Hfresh c' (or_intror Hc'in)), orb_false_r.
      apply Nat.eqb_neq. intros Heq. apply Hnotin. rewrite <- Heq. apply in_map, Hc'in.
    + exists t', arr'. split; [exact Ht'|]. split; [exact Hc'|].
      split; [rewrite Hr', Hr1; simpl; lia|].
      split.
      * rewrite Hb', bufferedCount_arraySet_fresh by (apply Hfresh; left; reflexivity).
        simpl. lia.
      * intros i. rewrite Hi', isBuffered_arraySet. simpl.
        destruct (Nat.eqb i (c_index c)), (isBuffered arr i); reflexivity.
Qed.

(** C8 - chunk-count invariant for well-behaved streams:
    when a record's receivedChunks equals the number of its buffered chunks
    and every buffered index is below totalChunks (as after the offer), and
    the sender then sends chunks whose indices are pairwise different, below
    totalChunks and not yet buffered, then after the stream receivedChunks is
    at most totalChunks, equals the number of buffered chunks, and every
    buffered index is below totalChunks. *)
Theorem chunk_count_invariant_distinct_indices :
  forall (st : State) (senderId transferId : string) (N : nat) (t : Transfer)
    (arr : list (option string)) (cs : list ChunkFrame),
    sget transferId (fileTransfers st) = Some t ->
    t_chunks t = Some arr ->
    t_receivedChunks t = bufferedCount arr ->
    (forall i, isBuffered arr i = true -> (i < N)%nat) ->
    NoDup (map c_index cs) ->
    (forall c, In c cs -> (c_index c < N)%nat /\ isBuffered arr (c_index c) = false) ->
    exists t' arr',
      sget transferId (fileTransfers (exec (sendChunks senderId transferId N cs) st)) = Some t'
      /\ t_chunks t' = Some arr'
      /\ (t_receivedChunks t' <= N)%nat
      /\ t_receivedChunks t' = bufferedCount arr'
      /\ (forall i, isBuffered arr' i = true -> (i < N)%nat).
Proof.
  intros st senderId transferId N t arr cs Ht Hc Hcount Hrange Hnd Hcs.
  destruct (sendChunks_records senderId transferId N cs st t arr Ht Hc Hnd)
    as (t' & arr' & Ht' & Hc' & Hr' & Hb' & Hi').
  { intros c Hin. apply Hcs, Hin. }
  assert (Hrange' : forall i, isBuffered arr' i = true -> (i < N)%nat).
  { intros i Hi. rewrite Hi' in Hi. apply orb_true_iff in Hi. destruct Hi as [Hi|Hi].
    - apply Hrange, Hi.
    - apply existsb_exists in Hi. destruct Hi as (j & Hj & Heq).
      apply Nat.eqb_eq in Heq. subst j. apply in_map_iff in Hj.
      destruct Hj as (c & <- & Hin). apply Hcs, Hin. }
  exists t', arr'. split; [exact Ht'|]. split; [exact Hc'|].
  assert (Heq : t_receivedChunks t' = bufferedCount arr') by lia.
  split; [rewrite Heq; apply bufferedCount_le, Hrange'|].
  split; [exact Heq|exact Hrange'].
Qed.

(** C2 - what a chunk does to the governor and the
    buffers: handling a fileChunk for a transfer whose chunk array exists (an
    offer creates it) leaves the governor's counter unchanged, stores the
    cleaned payload at its index and counts it; and when that makes
    receivedChunks equal totalChunks, with sender and receiver channels OPEN
    and a file in the offer, the record is marked completed and stays in the
    map with all its buffers. *)
Theorem fileChunk_keeps_counter_and_buffers :
  forall (now : Z) (deviceId transferId : string) (chunkIndex totalChunks : nat)
    (chunkData : string) (fileSize : Z) (st : State) (t : Transfer)
    (arr : list (option string)),
    sget transferId (fileTransfers st) = Some t ->
    t_chunks t = Some arr ->
    let st' := exec (handleMessage now "" deviceId
                       (FileChunk transferId chunkIndex totalChunks chunkData fileSize)) st in
    currentMemoryUsage st' = currentMemoryUsage st
    /\ (exists t', sget transferId (fileTransfers st') = Some t'
          /\ t_chunks t' = Some (arraySet chunkIndex (cleanChunk chunkData) arr)
          /\ t_receivedChunks t' = S (t_receivedChunks t))
    /\ (forall sender rcv wsS wsR file0 rest,
          linked st t sender rcv wsS wsR ->
          t_files t = file0 :: rest ->
          S (t_receivedChunks t) = totalChunks ->
          sget transferId (fileTransfers st')
          = Some (markCompleted now (storeChunk chunkIndex chunkData t))).
Proof.
  intros now deviceId transferId chunkIndex totalChunks chunkData fileSize st t arr Ht Hc st'.
  pose proof (handleMessage_chunk_record now "" deviceId transferId chunkIndex totalChunks
                chunkData fileSize st t arr Ht Hc) as Hrec.
  cbv zeta in Hrec. fold st' in Hrec. destruct Hrec as (Hmem & t' & Ht' & Hc' & Hr' & _).
  split; [exact Hmem|]. split; [exists t'; auto|].
  intros sender rcv wsS wsR file0 rest Hl Hf Hdone.
  pose proof (handleFileChunk_linked now deviceId transferId chunkIndex totalChunks chunkData
                fileSize st t arr sender rcv wsS wsR Ht Hc Hl) as Hstep.
  cbv zeta in Hstep.
  replace (t_receivedChunks (storeChunk chunkIndex chunkData t)) with (S (t_receivedChunks t))
    in Hstep by reflexivity.
  rewrite Hdone, Nat.eqb_refl, Hf in Hstep.
  subst st'. unfold exec, handleMessage. cbn [dispatch].
  rewrite (tryCatch_ret _ _ _ _ _ Hstep). cbn [snd fileTransfers set_fileTransfers set_devicesFile set_roomsFile].
  apply sget_sset_eq.
Qed.

(** ** Missing-chunk recovery *)

Lemma resend_loop (ws : Ws) (requester transferId : string) (totalChunks : nat)
    (t : Transfer) (s : Device) (file0 : FileMeta) rest (missing : list nat) :
  d_ws s = Some ws ->
  t_files t = file0 :: rest ->
  forall st,
    readyStateOf st ws = OPEN ->
    forEach missing (fun chunkIndex =>
      match arrayGet chunkIndex (chunksOf t) with
      | Some data =>
          if JS.truthy data then
            file0 <- property "files[0]" (nth_error (t_files t) 0) ;;
            sendTo (d_ws s)
              (FileChunkOut requester transferId 0 chunkIndex totalChunks data (f_size file0))
          else ret tt
      | None => ret tt
      end) st
    = (Ret tt,
       set_outbox
         (outbox st ++ resendFrames ws requester transferId totalChunks (f_size file0)
                         (chunksOf t) missing) st).
Proof.
  intros Hws Hf.
  set (body := fun chunkIndex : nat => _).
  assert (Hbody : forall i st, readyStateOf st ws = OPEN ->
            body i st = (Ret tt,
              set_outbox (outbox st ++ resendFrames ws requester transferId totalChunks
                                         (f_size file0) (chunksOf t) [i]) st)).
  { intros i st Hopen. unfold body, resendFrames. cbn [flat_map]. rewrite app_nil_r.
    destruct (arrayGet i (chunksOf t)) as [data|].
    - destruct (JS.truthy data).
      + rewrite Hf. cbn [nth_error property]. unfold bind, ret.
        rewrite Hws. unfold sendTo. rewrite wsSend_open by exact Hopen. reflexivity.
      + unfold ret. rewrite app_nil_r. destruct st; reflexivity.
    - unfold ret. rewrite app_nil_r. destruct st; reflexivity. }
  clearbody body.
  induction missing as [|i missing IH]; intros st Hopen.
  - simpl. unfold ret. rewrite app_nil_r. destruct st; reflexivity.
  - cbn [forEach]. unfold bind. rewrite Hbody by exact Hopen.
    rewrite IH by exact Hopen. cbn [outbox set_outbox set_devicesFile set_roomsFile].
    rewrite <- app_assoc. unfold resendFrames. cbn [flat_map]. rewrite app_nil_r.
    reflexivity.
Qed.

Lemma resendFrames_In (ws : Ws) (requester transferId : string) (totalChunks : nat)
    (fileSize : Z) (a : list (option string)) (missing : list nat) (x : Ws * Frame) :
  In x (resendFrames ws requester transferId totalChunks fileSize a missing) <->
  exists i data,
    In i missing /\ arrayGet i a = Some data /\ data <> EmptyString
    /\ x = (ws, FileChunkOut requester transferId 0 i totalChunks data fileSize).
Proof.
  unfold resendFrames. rewrite in_flat_map. split.
  - intros (i & Hi & Hx). destruct (arrayGet i a) as [data|] eqn:Hg; [|destruct Hx].
    destruct data as [|c r]; simpl in Hx; [destruct Hx|].
    destruct Hx as [<-|[]]. exists i, (String c r). repeat split; auto. discriminate.
  - intros (i & data & Hi & Hg & Hne & ->). exists i. split; [exact Hi|].
    rewrite Hg. destruct data; [congruence|]. left. reflexivity.
Qed.

(** C3 - missing-chunk recovery: for a transfer whose
    sender is registered with an OPEN channel, the server answers
    requestMissingChunks with one fileChunk frame per listed index whose slot
    holds a non-empty payload, in list order, each naming the requester as
    targetDeviceId and each written to the SENDER's channel; indices that are
    not buffered produce no frame, and nothing else changes. *)
Theorem requestMissingChunks_resends_on_sender_channel :
  forall (st : State) (requester transferId : string) (missing : list nat)
    (totalChunks : nat) (t : Transfer) (s : Device) (ws : Ws) (file0 : FileMeta) rest,
    sget transferId (fileTransfers st) = Some t ->
    sget (t_fromDeviceId t) (devices st) = Some s ->
    d_ws s = Some ws ->
    readyStateOf st ws = OPEN ->
    t_files t = file0 :: rest ->
    let frames := resendFrames ws requester transferId totalChunks (f_size file0)
                    (chunksOf t) missing in
    handleRequestMissingChunks requester transferId missing totalChunks st
      = (Ret tt, set_outbox (outbox st ++ frames) st)
    /\ (forall x, In x frames <->
          exists i data,
            In i missing /\ arrayGet i (chunksOf t) = Some data /\ data <> EmptyString
            /\ x = (ws, FileChunkOut requester transferId 0 i totalChunks data (f_size file0)))
    /\ (forall i, In i missing -> isBuffered (chunksOf t) i = false ->
          forall x, In x frames ->
            match snd x with
            | FileChunkOut _ _ _ j _ _ _ => j <> i
            | _ => True
            end).
Proof.
  intros st requester transferId missing totalChunks t s ws file0 rest Ht Hs Hws Hopen Hf frames.
  split; [|split].
  - unfold handleRequestMissingChunks.
    unfold bind at 1. unfold getTransfer at 1, gets at 1. rewrite Ht.
    unfold bind at 1. unfold getDevice at 1, gets at 1. rewrite Hs.
    unfold bind at 1. rewrite Hws. unfold openOpt, wsOpen, gets at 1. rewrite Hopen.
    cbn [isOpen]. rewrite <- Hws.
    apply (resend_loop ws requester transferId totalChunks t s file0 rest missing Hws Hf st Hopen).
  - intros x. apply resendFrames_In.
  - intros i Hi Hnot x Hx. apply resendFrames_In in Hx.
    destruct Hx as (j & data & Hj & Hg & _ & ->). simpl.
    intros ->. rewrite isBuffered_arrayGet, Hg in Hnot. discriminate.
Qed.

(** * Concrete runs *)


(** C2 - the first chunk of an offered transfer does not
    move the governor's counter by the advertised fileSize (9), and after
    the last chunk the completed transfer is still in the map with its three
    buffers. *)
Lemma first_chunk_does_not_charge_and_completion_keeps_buffers :
  let st := Scenario.offeredState in
  let st1 := step st (Scenario.chunk 0 "YWJj") in
  let st3 := run st1 [Scenario.chunk 1 "ZGVm"; Scenario.chunk 2 "Z2hp"] in
  option_map t_receivedChunks (sget "t1" (fileTransfers st)) = Some 0%nat
  /\ currentMemoryUsage st1 <> currentMemoryUsage st + 9
  /\ option_map t_status (sget "t1" (fileTransfers st3)) = Some Completed
  /\ option_map t_receivedChunks (sget "t1" (fileTransfers st3)) = Some 3%nat
  /\ option_map t_chunks (sget "t1" (fileTransfers st3))
     = Some (Some [Some "YWJj"; Some "ZGVm"; Some "Z2hp"])
  /\ currentMemoryUsage st3 = 0.
Proof. vm_compute. repeat split; try reflexivity. discriminate. Qed.

(** C3 - the receiver (channel 2) asks for the buffered
    chunk 2: the frame is written to the sender's channel 1 and nothing is
    written to the receiver's channel. *)
Lemma missing_chunk_goes_to_sender_channel :
  let st := run Scenario.offeredState [Scenario.chunk 0 "YWJj"; Scenario.chunk 2 "Z2hp"] in
  let st' := step st (EvMessage 2%nat (Some (RequestMissingChunks "t1" [2%nat] 3)) 1007 "") in
  option_map (fun t => isBuffered (chunksOf t) 2) (sget "t1" (fileTransfers st)) = Some true
  /\ outbox st' = (outbox st ++ [(1%nat, FileChunkOut Scenario.idB "t1" 0 2 3 "Z2hp" 9)])%list
  /\ filter (sentTo 2%nat) (skipn (List.length (outbox st)) (outbox st')) = [].
Proof. vm_compute. repeat split; reflexivity. Qed.

(** C8 - a re-sent index is counted again, an index outside
    the declared range is buffered, and a fourth chunk makes receivedChunks
    exceed totalChunks = 3. *)
Lemma resent_and_out_of_range_chunks_break_the_count :
  let twice := run Scenario.offeredState [Scenario.chunk 0 "YWJj"; Scenario.chunk 0 "YWJj"] in
  let far := step Scenario.offeredState (Scenario.chunk 7 "YWJj") in
  let four := run twice [Scenario.chunk 0 "YWJj"; Scenario.chunk 0 "YWJj"] in
  option_map (fun t => (t_receivedChunks t, bufferedCount (chunksOf t)))
    (sget "t1" (fileTransfers twice)) = Some (2%nat, 1%nat)
  /\ option_map (fun t => isBuffered (chunksOf t) 7) (sget "t1" (fileTransfers far)) = Some true
  /\ option_map t_receivedChunks (sget "t1" (fileTransfers four)) = Some 4%nat.
Proof. vm_compute. repeat split; reflexivity. Qed.

(** C4 - the same client connects on channel 1 and then on channel 2: the
    connection handler binds the device to channel 2 and writes no
    duplicate_connection frame, schedules no close, and leaves channel 1
    OPEN and registered; the function that would do all this,
    [checkForDuplicateConnections], is never called. *)
Theorem second_connection_sends_no_duplicate_notice :
  let st := Scenario.twice in
  connections st = [(1%nat, Scenario.idA); (2%nat, Scenario.idA)]
  /\ option_map d_ws (sget Scenario.idA (devices st)) = Some (Some 2%nat)
  /\ filter isDuplicateNotice (outbox st) = []
  /\ filter (sentTo 1%nat) (outbox st) = []
  /\ filter isCloseTask (timers st) = []
  /\ readyStateOf st 1%nat = OPEN
  /\ (let st' := exec (checkForDuplicateConnections Scenario.idA 2%nat) st in
      outbox st' =
        [(1%nat, DuplicateConnection
                   "Neue Verbindung erkannt - diese Verbindung wird geschlossen" false);
         (2%nat, DuplicateConnection "Ältere Verbindung wurde geschlossen" true)]
      /\ filter isCloseTask (timers st')
         = [{| tm_delay := 1000; tm_repeat := false; tm_task := TaskCloseDuplicate 1%nat |}]).
Proof. vm_compute. repeat split; reflexivity. Qed.

(** C7 - fileCancel on an offered transfer: the governor's counter drops by
    the transfer's size, the handler stops at the ReferenceError, and the
    transfer stays in the map; a second fileCancel drops the counter again,
    and a later fileChunk for the same id is still buffered. *)
Theorem fileCancel_leaves_the_transfer_and_charges_again :
  let st := Scenario.offeredState in
  let st1 := step st Scenario.cancel in
  let st2 := step st1 Scenario.cancel in
  let st3 := step st2 (Scenario.chunk 0 "YWJj") in
  fst (handleFileCancel 1008 Scenario.idA "t1" st) = Throw (ReferenceError "MAX_MEMORY_USAGE")
  /\ map fst (fileTransfers st1) = ["t1"]
  /\ currentMemoryUsage st1 = currentMemoryUsage st - 9
  /\ map fst (fileTransfers st2) = ["t1"]
  /\ currentMemoryUsage st2 = currentMemoryUsage st - 18
  /\ option_map t_chunks (sget "t1" (fileTransfers st3)) = Some (Some [Some "YWJj"]).
Proof. vm_compute. repeat split; reflexivity. Qed.

(** * Hoare triples for handlers

    [triple P m Q E]: from a state satisfying [P], [m] either returns a
    value and a state satisfying [Q], or throws in a state satisfying [E]. *)

Lemma triple_ret {A} (P : State -> Prop) (a : A) (Q : A -> State -> Prop) E :
  (forall st, P st -> Q a st) -> triple P (ret a) Q E.
Proof. intros H st HP. apply H, HP. Qed.

Lemma triple_throw {A} (P : State -> Prop) (e : Exn) (Q : A -> State -> Prop)
    (E : State -> Prop) :
  (forall st, P st -> E st) -> triple P (throw e) Q E.
Proof. intros H st HP. apply H, HP. Qed.

Lemma triple_bind {A B} (P : State -> Prop) (m : M A) (k : A -> M B)
    (Q1 : A -> State -> Prop) (Q : B -> State -> Prop) (E : State -> Prop) :
  triple P m Q1 E -> (forall a, triple (Q1 a) (k a) Q E) -> triple P (bind m k) Q E.
Proof.
  intros Hm Hk st HP. unfold bind. specialize (Hm st HP).
  destruct (m st) as [[a|e] st1]; [|exact Hm]. apply Hk, Hm.
Qed.

Lemma triple_conseq {A} (P P' : State -> Prop) (m : M A) (Q Q' : A -> State -> Prop)
    (E E' : State -> Prop) :
  triple P' m Q' E' ->
  (forall st, P st -> P' st) ->
  (forall a st, Q' a st -> Q a st) ->
  (forall st, E' st -> E st) ->
  triple P m Q E.
Proof.
  intros Hm HP HQ HE st Hst. specialize (Hm st (HP st Hst)).
  destruct (m st) as [[a|e] st1]; auto.
Qed.

Lemma triple_gets {A} (P : State -> Prop) (f : State -> A) E :
  triple P (gets f) (fun a st => P st /\ a = f st) E.
Proof. intros st HP. simpl. auto. Qed.

Lemma triple_modify (P : State -> Prop) (f : State -> State) (Q : State -> Prop) E :
  (forall st, P st -> Q (f st)) -> triple P (modify f) (fun _ => Q) E.
Proof. intros H st HP. simpl. auto. Qed.

Lemma triple_tryCatch {A} (P : State -> Prop) (m : M A) (h : Exn -> M A)
    (Q : A -> State -> Prop) (E1 E : State -> Prop) :
  triple P m Q E1 -> (forall e, triple E1 (h e) Q E) -> triple P (tryCatch m h) Q E.
Proof.
  intros Hm Hh st HP. unfold tryCatch. specialize (Hm st HP).
  destruct (m st) as [[a|e] st1]; [exact Hm|]. apply Hh, Hm.
Qed.

Lemma triple_forEach {A} (I : State -> Prop) (l : list A) (f : A -> M unit) E :
  (forall x, triple I (f x) (fun _ => I) E) -> triple I (forEach l f) (fun _ => I) E.
Proof.
  intros Hf. induction l as [|x l IH]; simpl.
  - apply triple_ret. auto.
  - eapply triple_bind; [apply Hf|]. intros u. exact IH.
Qed.

(** An assertion that survives every step related by [R] is kept by a
    computation that keeps [R]. *)
Lemma triple_keeps {A} (R : State -> State -> Prop) (P : State -> Prop) (m : M A) :
  keeps R m -> (forall st st', P st -> R st st' -> P st') ->
  triple P m (fun _ => P) P.
Proof.
  intros Hk Hst st HP. specialize (Hk st).
  destruct (m st) as [[a|e] st1]; simpl in Hk; eauto.
Qed.

(** ** Steps that only write frames *)

Lemma set_outbox_same (st : State) : set_outbox (outbox st) st = st.
Proof. destruct st; reflexivity. Qed.

Lemma writesOnly_refl st : writesOnly st st.
Proof. exists []. rewrite app_nil_r. symmetry. apply set_outbox_same. Qed.

Lemma writesOnly_trans a b c : writesOnly a b -> writesOnly b c -> writesOnly a c.
Proof.
  intros [f1 H1] [f2 H2]. exists (f1 ++ f2)%list. rewrite H2, H1. cbn [outbox set_outbox set_devicesFile set_roomsFile].
  rewrite app_assoc. reflexivity.
Qed.

Lemma writesOnly_wsSend ws f : keeps writesOnly (wsSend ws f).
Proof.
  intros st. unfold wsSend. destruct (isOpen (readyStateOf st ws)); simpl.
  - exists [(ws, f)]. reflexivity.
  - destruct (wsSendThrows st); apply writesOnly_refl.
Qed.

Lemma writesOnly_sendTo ws f : keeps writesOnly (sendTo ws f).
Proof. destruct ws; [apply writesOnly_wsSend|apply keeps_throw, writesOnly_refl]. Qed.

Lemma writesOnly_broadcastToRoom roomId f ex : keeps writesOnly (broadcastToRoom roomId f ex).
Proof.
  unfold broadcastToRoom.
  apply (keeps_bind _ writesOnly_trans); [apply keeps_gets, writesOnly_refl|].
  intros [r|]; [|apply keeps_ret, writesOnly_refl].
  apply (keeps_forEach _ writesOnly_refl writesOnly_trans). intros deviceId.
  destruct (match ex with Some x => (deviceId =? x)%string | None => false end);
    [apply keeps_ret, writesOnly_refl|].
  apply (keeps_bind _ writesOnly_trans); [apply keeps_gets, writesOnly_refl|].
  intros [d|]; [|apply keeps_ret, writesOnly_refl].
  apply (keeps_bind _ writesOnly_trans);
    [apply (keeps_openOpt _ writesOnly_refl)|].
  intros o. destruct (d_online d && o); [|apply keeps_ret, writesOnly_refl].
  apply (keeps_tryCatch _ writesOnly_trans); [apply writesOnly_sendTo|].
  intros _. apply keeps_ret, writesOnly_refl.
Qed.

Lemma writesOnly_broadcastDeviceList roomId : keeps writesOnly (broadcastDeviceList roomId).
Proof.
  unfold broadcastDeviceList.
  apply (keeps_bind _ writesOnly_trans); [apply keeps_gets, writesOnly_refl|].
  intros [r|]; [|apply keeps_ret, writesOnly_refl].
  apply (keeps_bind _ writesOnly_trans); [apply keeps_gets, writesOnly_refl|].
  intros l. apply writesOnly_broadcastToRoom.
Qed.

Lemma returns_tryCatch_ret (m : M unit) : returns (tryCatch m (fun _ => ret tt)).
Proof.
  intros st. unfold tryCatch. destruct (m st) as [[[]|e] st1]; exists tt; reflexivity.
Qed.

Lemma returns_broadcastToRoom roomId f ex : returns (broadcastToRoom roomId f ex).
Proof.
  unfold broadcastToRoom. apply returns_bind; [apply returns_gets|].
  intros [r|]; [|apply returns_ret].
  apply returns_forEach. intros deviceId.
  destruct (match ex with Some x => (deviceId =? x)%string | None => false end);
    [apply returns_ret|].
  apply returns_bind; [apply returns_gets|]. intros [d|]; [|apply returns_ret].
  apply returns_bind; [apply returns_openOpt|]. intros o.
  destruct (d_online d && o); [|apply returns_ret].
  apply returns_tryCatch_ret.
Qed.

Lemma returns_broadcastDeviceList roomId : returns (broadcastDeviceList roomId).
Proof.
  unfold broadcastDeviceList. apply returns_bind; [apply returns_gets|].
  intros [r|]; [|apply returns_ret].
  apply returns_bind; [apply returns_gets|]. intros l. apply returns_broadcastToRoom.
Qed.

(** * Room membership *)

Lemma sameRooms_refl st : sameRooms st st.
Proof. split; auto. Qed.

Lemma sameRooms_trans a b c : sameRooms a b -> sameRooms b c -> sameRooms a c.
Proof. intros [H1 K1] [H2 K2]. split; [congruence|]. intros id. rewrite K2. apply K1. Qed.

Lemma sameRooms_outbox st o : sameRooms st (set_outbox o st).
Proof. split; auto. Qed.

Lemma sameRooms_sockets st s : sameRooms st (set_sockets s st).
Proof. split; auto. Qed.

Lemma roomsConsistent_sameRooms st st' :
  roomsConsistent st -> sameRooms st st' -> roomsConsistent st'.
Proof.
  intros [Hm He] [Hr Hd]. split; [|rewrite Hr; exact He].
  intros rid R d HR Hin. rewrite Hr in HR. destruct (Hm rid R d HR Hin) as (D & HD & Hroom).
  specialize (Hd d). rewrite HD in Hd. simpl in Hd.
  destruct (sget d (devices st')) as [D'|]; [|discriminate].
  exists D'. split; [reflexivity|]. simpl in Hd. congruence.
Qed.

Lemma sameRooms_updateDevice id f :
  (forall d, d_roomId (f d) = d_roomId d) -> keeps sameRooms (updateDevice id f).
Proof.
  intros Hf. apply keeps_modify. intros st.
  destruct (sget id (devices st)) as [d|] eqn:Hd; [|apply sameRooms_refl].
  split; [reflexivity|]. intros id'. cbn [devices set_devices set_devicesFile set_roomsFile].
  destruct (String.eqb_spec id id') as [<-|Hne].
  - rewrite sget_sset_eq, Hd. simpl. rewrite Hf. reflexivity.
  - rewrite sget_sset_ne by exact Hne. reflexivity.
Qed.

Lemma sameRooms_updateTransfer id f : keeps sameRooms (updateTransfer id f).
Proof.
  apply keeps_modify. intros st. destruct (sget id (fileTransfers st)); split; auto.
Qed.

Lemma sameRooms_updateMemoryUsage depth now delta :
  keeps sameRooms (updateMemoryUsage depth now delta).
Proof. intros st. rewrite updateMemoryUsage_throws. split; auto. Qed.

Ltac same_rooms :=
  repeat first
    [ apply keeps_ret; exact sameRooms_refl
    | apply keeps_throw; exact sameRooms_refl
    | apply keeps_gets; exact sameRooms_refl
    | apply (keeps_property sameRooms sameRooms_refl)
    | apply (keeps_openOpt sameRooms sameRooms_refl)
    | apply (keeps_notify sameRooms sameRooms_refl sameRooms_outbox)
    | apply (keeps_notifyOnline sameRooms sameRooms_refl sameRooms_outbox)
    | apply (keeps_sendTo sameRooms sameRooms_refl sameRooms_outbox)
    | apply (keeps_wsSend sameRooms sameRooms_refl sameRooms_outbox)
    | apply (keeps_wsClose sameRooms sameRooms_refl sameRooms_trans sameRooms_outbox
               sameRooms_sockets)
    | apply (keeps_broadcastDeviceList sameRooms sameRooms_refl sameRooms_trans
               sameRooms_outbox)
    | apply (keeps_broadcastToRoom sameRooms sameRooms_refl sameRooms_trans sameRooms_outbox)
    | apply sameRooms_updateMemoryUsage
    | apply sameRooms_updateTransfer
    | apply sameRooms_updateDevice; intros; reflexivity
    | apply keeps_modify; intros; split; reflexivity
    | apply (keeps_saveDevices sameRooms); intros; split; reflexivity
    | apply (keeps_saveRooms sameRooms); intros; split; reflexivity
    | apply (keeps_tryCatch sameRooms sameRooms_trans); [|intros]
    | apply (keeps_forEach sameRooms sameRooms_refl sameRooms_trans); intros
    | apply (keeps_bind sameRooms sameRooms_trans); [|intros]
    | match goal with
      | |- keeps _ (match ?x with _ => _ end) => destruct x
      | |- keeps _ (let '(_, _) := ?x in _) => destruct x
      end ].

Lemma sameRooms_handleClientIdentify now d a b c e f :
  keeps sameRooms (handleClientIdentify now d a b c e f).
Proof. unfold handleClientIdentify. same_rooms. Qed.

Lemma sameRooms_handleDeviceInfo now d a b c : keeps sameRooms (handleDeviceInfo now d a b c).
Proof. unfold handleDeviceInfo. same_rooms. Qed.

Lemma sameRooms_handleUpdateDeviceName now d n : keeps sameRooms (handleUpdateDeviceName now d n).
Proof. unfold handleUpdateDeviceName. same_rooms. Qed.

Lemma sameRooms_handleFileProgress d a b c e : keeps sameRooms (handleFileProgress d a b c e).
Proof. unfold handleFileProgress. same_rooms. Qed.

Lemma sameRooms_handleFileDownload d a b c : keeps sameRooms (handleFileDownload d a b c).
Proof. unfold handleFileDownload. same_rooms. Qed.

Lemma sameRooms_handleTransferRejected d a b : keeps sameRooms (handleTransferRejected d a b).
Proof. unfold handleTransferRejected, deleteTransfer. same_rooms. Qed.

Lemma sameRooms_handleTransferAccepted d a b : keeps sameRooms (handleTransferAccepted d a b).
Proof. unfold handleTransferAccepted. same_rooms. Qed.

Lemma sameRooms_handleTogglePinDevice d a : keeps sameRooms (handleTogglePinDevice d a).
Proof. unfold handleTogglePinDevice. same_rooms. Qed.

Lemma sameRooms_handlePing now d a b : keeps sameRooms (handlePing now d a b).
Proof. unfold handlePing. same_rooms. Qed.

Lemma sameRooms_handleFileTransfer now rnd d a b c :
  keeps sameRooms (handleFileTransfer now rnd d a b c).
Proof. unfold handleFileTransfer. same_rooms. Qed.

Lemma sameRooms_handleFileChunk now d a b c e f :
  keeps sameRooms (handleFileChunk now d a b c e f).
Proof. unfold handleFileChunk, deliverFile. same_rooms. Qed.

Lemma sameRooms_handleRequestMissingChunks d a b c :
  keeps sameRooms (handleRequestMissingChunks d a b c).
Proof. unfold handleRequestMissingChunks. same_rooms. Qed.

Lemma sameRooms_handleFileComplete now d a : keeps sameRooms (handleFileComplete now d a).
Proof. unfold handleFileComplete, deleteTransfer. same_rooms. Qed.

Lemma sameRooms_handleTransferComplete now a : keeps sameRooms (handleTransferComplete now a).
Proof. unfold handleTransferComplete, deleteTransfer. same_rooms. Qed.

Lemma sameRooms_handleFileCancel now d a : keeps sameRooms (handleFileCancel now d a).
Proof. unfold handleFileCancel, deleteTransfer. same_rooms. Qed.

Lemma In_setDelete (x d : string) (l : list string) :
  In x (setDelete d l) <-> In x l /\ x <> d.
Proof.
  unfold setDelete. rewrite filter_In. split.
  - intros [Hin Hne]. split; [exact Hin|]. intros ->. rewrite String.eqb_refl in Hne. discriminate.
  - intros [Hin Hne]. split; [exact Hin|].
    destruct (String.eqb_spec d x); [congruence|reflexivity].
Qed.

Lemma In_setAdd (x d : string) (l : list string) :
  In x (setAdd d l) <-> x = d \/ In x l.
Proof.
  unfold setAdd. destruct (existsb (String.eqb d) l) eqn:E.
  - split; [auto|]. intros [->|H]; [|exact H].
    apply existsb_exists in E. destruct E as (y & Hy & Heq).
    apply String.eqb_eq in Heq. subst y. exact Hy.
  - rewrite in_app_iff. simpl. split; intros [H|H]; auto.
    + destruct H as [H|[]]. auto.
Qed.

Lemma leaveRooms_get (d A rid : string) (rs : list (string * Room)) (R : Room) :
  sget rid (leaveRooms d A rs) = Some R ->
  (rid <> A /\ sget rid rs = Some R)
  \/ (rid = A /\ exists r, sget A rs = Some r
                 /\ r_devices R = setDelete d (r_devices r) /\ r_name R = r_name r).
Proof.
  unfold leaveRooms. destruct (sget A rs) as [r|] eqn:HA.
  - destruct (setDelete d (r_devices r)) as [|x m] eqn:Hm.
    + destruct (String.eqb_spec A rid) as [<-|Hne].
      * rewrite sget_sdelete_eq. discriminate.
      * rewrite sget_sdelete_ne by exact Hne. intros H. left. split; [congruence|exact H].
    + destruct (String.eqb_spec A rid) as [<-|Hne].
      * rewrite sget_sset_eq. intros H. injection H as <-. right. split; [reflexivity|].
        exists r. repeat split; auto.
      * rewrite sget_sset_ne by exact Hne. intros H. left. split; [congruence|exact H].
  - intros H. left. split; [|exact H]. intros ->. congruence.
Qed.

Lemma leaveRooms_other (d A rid : string) (rs : list (string * Room)) :
  rid <> A -> sget rid (leaveRooms d A rs) = sget rid rs.
Proof.
  intros Hne. unfold leaveRooms. destruct (sget A rs) as [r|]; [|reflexivity].
  destruct (setDelete d (r_devices r)).
  - apply sget_sdelete_ne. congruence.
  - apply sget_sset_ne. congruence.
Qed.

(** Leaving keeps the rooms consistent and takes the device out of every
    room, once its [roomId] is cleared. *)
Lemma leave_consistent (st st' : State) (d A : string) (D : Device) :
  roomsConsistent st ->
  sget d (devices st) = Some D ->
  d_roomId D = Some A ->
  rooms st' = leaveRooms d A (rooms st) ->
  (forall x, x <> d -> sget x (devices st') = sget x (devices st)) ->
  (forall D', sget d (devices st') = Some D' -> d_roomId D' = Some A \/ d_roomId D' = None) ->
  roomsConsistent st' /\ inNoRoom d st'.
Proof.
  intros [Hm He] HD HA Hrooms Hothers Hself.
  assert (Hfree : inNoRoom d st').
  { intros rid R HR Hin. rewrite Hrooms in HR. apply leaveRooms_get in HR.
    destruct HR as [[Hne HR]|[-> (r & Hr & Hdev & _)]].
    - destruct (Hm rid R d HR Hin) as (D0 & HD0 & Hroom).
      rewrite HD in HD0. injection HD0 as <-. rewrite HA in Hroom. injection Hroom as <-.
      apply Hne. reflexivity.
    - rewrite Hdev in Hin. apply In_setDelete in Hin. tauto. }
  split; [|exact Hfree]. split.
  - intros rid R x HR Hin.
    assert (Hx : x <> d) by (intros ->; exact (Hfree rid R HR Hin)).
    rewrite Hothers by exact Hx. rewrite Hrooms in HR. apply leaveRooms_get in HR.
    destruct HR as [[Hne HR]|[-> (r & Hr & Hdev & _)]].
    + exact (Hm rid R x HR Hin).
    + rewrite Hdev in Hin. apply In_setDelete in Hin. exact (Hm A r x Hr (proj1 Hin)).
  - rewrite Hrooms. destruct (sget "" (leaveRooms d A (rooms st))) as [R|] eqn:HR; [|reflexivity].
    apply leaveRooms_get in HR. destruct HR as [[_ HR]|[Heq (r & Hr & _)]]; [congruence|].
    rewrite <- Heq in Hr. congruence.
Qed.

(** A device whose [roomId] names no room is in no room. *)
Lemma consistent_inNoRoom (st : State) (d : string) (D : Device) :
  roomsConsistent st -> sget d (devices st) = Some D ->
  JS.truthyOpt (d_roomId D) = false -> inNoRoom d st.
Proof.
  intros [Hm He] HD Hfalsy rid R HR Hin.
  destruct (Hm rid R d HR Hin) as (D0 & HD0 & Hroom).
  assert (D0 = D) by congruence. subst D0. rewrite Hroom in Hfalsy. simpl in Hfalsy.
  destruct rid; [congruence|discriminate].
Qed.

(** ** Stepping a handler from a known state *)

Lemma triple_at {A} (P : State -> Prop) (m : M A) Q E :
  (forall st0, P st0 -> triple (at_ st0) m Q E) -> triple P m Q E.
Proof. intros H st HP. apply (H st HP). reflexivity. Qed.

Lemma step_gets {A B} (st0 : State) (f : State -> A) (k : A -> M B) Q E :
  triple (at_ st0) (k (f st0)) Q E -> triple (at_ st0) (bind (gets f) k) Q E.
Proof. intros H st ->. unfold bind, gets. apply H. reflexivity. Qed.

Lemma step_modify {B} (st0 : State) (f : State -> State) (k : unit -> M B) Q E :
  triple (at_ (f st0)) (k tt) Q E -> triple (at_ st0) (bind (modify f) k) Q E.
Proof. intros H st ->. unfold bind, modify. apply H. reflexivity. Qed.

Lemma step_ret {A B} (st0 : State) (a : A) (k : A -> M B) Q E :
  triple (at_ st0) (k a) Q E -> triple (at_ st0) (bind (ret a) k) Q E.
Proof. intros H st ->. unfold bind, ret. apply H. reflexivity. Qed.

Lemma step_throw {A B} (st0 : State) (e : Exn) (k : A -> M B) (Q : B -> State -> Prop)
    (E : State -> Prop) :
  E st0 -> triple (at_ st0) (bind (throw e) k) Q E.
Proof. intros H st ->. exact H. Qed.

Lemma step_writes {A B} (st0 : State) (m : M A) (k : A -> M B) Q (E : State -> Prop) :
  keeps writesOnly m ->
  (forall fr, E (set_outbox (outbox st0 ++ fr) st0)) ->
  (forall fr a, triple (at_ (set_outbox (outbox st0 ++ fr) st0)) (k a) Q E) ->
  triple (at_ st0) (bind m k) Q E.
Proof.
  intros Hk HE Hcont st ->. unfold bind. destruct (Hk st0) as [fr Hfr].
  destruct (m st0) as [[a|e] st1]; simpl in Hfr; subst st1.
  - apply (Hcont fr a). reflexivity.
  - apply HE.
Qed.

Lemma done_ret {A} (st0 : State) (a : A) (Q : A -> State -> Prop) E :
  Q a st0 -> triple (at_ st0) (ret a) Q E.
Proof. intros H st ->. exact H. Qed.

Lemma done_modify (st0 : State) (f : State -> State) (Q : unit -> State -> Prop)
    (E : State -> Prop) :
  Q tt (f st0) -> triple (at_ st0) (modify f) Q E.
Proof. intros H st ->. exact H. Qed.

(** After a save: what the assertions read of the state is what it was
    before. *)
Ltac saved :=
  cbv beta;
  cbn [rooms devices connections activeConnections fileTransfers currentMemoryUsage
       activeTransferCount sockets wsSendThrows outbox timers
       set_devicesFile set_roomsFile].

Lemma done_throw {A} (st0 : State) (e : Exn) (Q : A -> State -> Prop) (E : State -> Prop) :
  E st0 -> triple (at_ st0) (throw e) Q E.
Proof. intros H st ->. exact H. Qed.

Lemma done_writes {A} (st0 : State) (m : M A) (Q : A -> State -> Prop) (E : State -> Prop) :
  keeps writesOnly m ->
  (forall fr, E (set_outbox (outbox st0 ++ fr) st0)) ->
  (forall fr a, Q a (set_outbox (outbox st0 ++ fr) st0)) ->
  triple (at_ st0) m Q E.
Proof.
  intros Hk HE HQ st ->. destruct (Hk st0) as [fr Hfr].
  destruct (m st0) as [[a|e] st1]; simpl in Hfr; subst st1; auto.
Qed.

(** ** Leaving a room *)

Lemma sdelete_sset {V} (k : string) (v : V) (m : list (string * V)) :
  sdelete k (sset k v m) = sdelete k m.
Proof.
  induction m as [|[k0 v0] m IH]; simpl.
  - rewrite String.eqb_refl. reflexivity.
  - destruct (String.eqb k k0) eqn:E; simpl.
    + rewrite String.eqb_refl. simpl. reflexivity.
    + rewrite E. simpl. rewrite IH. reflexivity.
Qed.

Lemma leave_room_part (d A : string) (D : Device) (st0 : State) (E : State -> Prop) :
  triple (at_ st0)
    (match sget A (rooms st0) with
     | Some r =>
         let members := setDelete d (r_devices r) in
         updateRoom A (set_r_devices members) ;;
         match members with
         | [] => modify (fun st => set_rooms (sdelete A (rooms st)) st)
         | _ :: _ =>
             broadcastToRoom A
               (DeviceLeft d (displayName D) (Z.of_nat (List.length members)) None) (Some d)
         end
     | None => ret tt
     end)
    (fun _ => afterRoomPart d A st0) E.
Proof.
  destruct (sget A (rooms st0)) as [r|] eqn:Hr.
  - cbv zeta. unfold updateRoom. apply step_modify. cbv beta. rewrite Hr.
    destruct (setDelete d (r_devices r)) as [|x m] eqn:Hm.
    + intros st ->. unfold modify. cbn [rooms set_rooms set_devicesFile set_roomsFile].
      exists []. rewrite app_nil_r. unfold leaveRooms. rewrite Hr, Hm, sdelete_sset.
      destruct st0; reflexivity.
    + intros st ->.
      destruct (writesOnly_broadcastToRoom A
                  (DeviceLeft d (displayName D) (Z.of_nat (List.length (x :: m))) None) (Some d)
                  (set_rooms (sset A (set_r_devices (x :: m) r) (rooms st0)) st0)) as [fr Hfr].
      destruct (returns_broadcastToRoom A
                  (DeviceLeft d (displayName D) (Z.of_nat (List.length (x :: m))) None) (Some d)
                  (set_rooms (sset A (set_r_devices (x :: m) r) (rooms st0)) st0)) as [[] Hret].
      destruct (broadcastToRoom _ _ _ _) as [[[]|e] st1]; simpl in *; [|discriminate].
      subst st1. exists fr. unfold leaveRooms. rewrite Hr, Hm. reflexivity.
  - apply done_ret. exists []. rewrite app_nil_r. unfold leaveRooms. rewrite Hr.
    destruct st0; reflexivity.
Qed.

(** [handleLeaveRoom] from a consistent state: when it returns, the rooms
    are consistent, the device is in no room and is still registered with
    its channel; when it throws, the rooms are consistent. *)
Lemma handleLeaveRoom_consistent (d : string) (D : Device) (st0 : State) :
  roomsConsistent st0 ->
  sget d (devices st0) = Some D ->
  triple (at_ st0) (handleLeaveRoom d)
    (fun _ st =>
       roomsConsistent st /\ inNoRoom d st
       /\ (exists D', sget d (devices st) = Some D' /\ d_ws D' = d_ws D)
       /\ (forall rid, Some rid <> d_roomId D -> sget rid (rooms st) = sget rid (rooms st0)))
    roomsConsistent.
Proof.
  intros Hinv HD. unfold handleLeaveRoom, getDevice.
  apply step_gets. rewrite HD. cbn [property]. apply step_ret.
  destruct (d_roomId D) as [A|] eqn:HA.
  - destruct (JS.truthy A) eqn:Htruthy; cbn [negb].
    + unfold getRoom. apply step_gets.
      eapply triple_bind; [apply (leave_room_part d A D st0 roomsConsistent)|].
      intros []. apply triple_at. intros st1 [fr ->].
      unfold updateDevice. apply step_modify. cbn [devices set_outbox set_rooms set_devicesFile set_roomsFile]. rewrite HD.
      set (st2 := set_devices _ _).
      assert (Hst2 : forall fr', roomsConsistent (set_outbox (outbox st2 ++ fr') st2)
                                 /\ inNoRoom d (set_outbox (outbox st2 ++ fr') st2)).
      { intros fr'. apply (leave_consistent st0 _ d A D Hinv HD HA).
        - reflexivity.
        - intros x Hx. subst st2. cbn [devices set_outbox set_devices set_rooms set_devicesFile set_roomsFile].
          apply sget_sset_ne. congruence.
        - intros D'. subst st2. cbn [devices set_outbox set_devices set_rooms set_devicesFile set_roomsFile].
          rewrite sget_sset_eq. intros H. injection H as <-. right. reflexivity. }
      apply step_writes; [apply writesOnly_sendTo|intros fr'; apply Hst2|].
      intros fr' []. unfold saveDevices, saveRooms. apply step_modify. apply done_modify. saved.
      destruct (Hst2 fr') as [H1 H2]. split; [exact H1|]. split; [exact H2|]. split.
      * subst st2. cbn [devices set_outbox set_devices set_rooms set_devicesFile set_roomsFile]. rewrite sget_sset_eq.
        eexists. split; [reflexivity|]. reflexivity.
      * intros rid Hrid. subst st2. cbn [rooms set_outbox set_devices set_rooms set_devicesFile set_roomsFile].
        apply leaveRooms_other. congruence.
    + apply done_ret. split; [exact Hinv|]. split.
      * apply (consistent_inNoRoom st0 d D Hinv HD). rewrite HA. simpl. exact Htruthy.
      * split; [exists D; auto|]. auto.
  - apply done_ret. split; [exact Hinv|]. split.
    + apply (consistent_inNoRoom st0 d D Hinv HD). rewrite HA. reflexivity.
    + split; [exists D; auto|]. auto.
Qed.

(** ** Entering and creating a room *)

(** Changing only the record of a device that is in no room keeps the
    rooms consistent. *)
Lemma consistent_change_free_device (st st' : State) (d : string) :
  roomsConsistent st -> inNoRoom d st ->
  rooms st' = rooms st ->
  (forall x, x <> d -> sget x (devices st') = sget x (devices st)) ->
  roomsConsistent st'.
Proof.
  intros [Hm He] Hfree Hr Hd. split; [|rewrite Hr; exact He].
  intros rid R x HR Hin. rewrite Hr in HR.
  assert (Hx : x <> d) by (intros ->; exact (Hfree rid R HR Hin)).
  rewrite Hd by exact Hx. exact (Hm rid R x HR Hin).
Qed.

Lemma enter_consistent (st st' : State) (d B : string) (D : Device) :
  roomsConsistent st -> inNoRoom d st ->
  sget d (devices st) = Some D ->
  devices st' = sset d (set_d_roomId (Some B) D) (devices st) ->
  rooms st' = match sget B (rooms st) with
              | Some r => sset B (set_r_devices (setAdd d (r_devices r)) r) (rooms st)
              | None => rooms st
              end ->
  roomsConsistent st'.
Proof.
  intros [Hm He] Hfree HD Hdev Hrooms.
  assert (Hunchanged : forall x, x <> d -> sget x (devices st') = sget x (devices st)).
  { intros x Hx. rewrite Hdev. apply sget_sset_ne. congruence. }
  destruct (sget B (rooms st)) as [r|] eqn:HB.
  - assert (HBne : B <> "") by (intros ->; congruence).
    split.
    + intros rid R x HR Hin. rewrite Hrooms in HR.
      destruct (String.eqb_spec B rid) as [<-|Hne].
      * rewrite sget_sset_eq in HR. injection HR as <-. cbn [r_devices set_r_devices] in Hin.
        apply In_setAdd in Hin. destruct Hin as [->|Hin].
        -- rewrite Hdev, sget_sset_eq. eexists. split; reflexivity.
        -- assert (Hx : x <> d) by (intros ->; exact (Hfree B r HB Hin)).
           rewrite Hunchanged by exact Hx. exact (Hm B r x HB Hin).
      * rewrite sget_sset_ne in HR by exact Hne.
        assert (Hx : x <> d) by (intros ->; exact (Hfree rid R HR Hin)).
        rewrite Hunchanged by exact Hx. exact (Hm rid R x HR Hin).
    + rewrite Hrooms, sget_sset_ne by exact HBne. exact He.
  - apply (consistent_change_free_device st st' d); auto. split; assumption.
Qed.

Lemma create_consistent (st st' : State) (d rid0 : string) (D : Device) (room : Room) :
  roomsConsistent st -> inNoRoom d st ->
  sget d (devices st) = Some D ->
  rid0 <> "" ->
  r_devices room = [d] ->
  rooms st' = sset rid0 room (rooms st) ->
  devices st' = sset d (set_d_roomId (Some rid0) D) (devices st) ->
  roomsConsistent st'.
Proof.
  intros [Hm He] Hfree HD Hne Hmem Hrooms Hdev.
  assert (Hunchanged : forall x, x <> d -> sget x (devices st') = sget x (devices st)).
  { intros x Hx. rewrite Hdev. apply sget_sset_ne. congruence. }
  split.
  - intros rid R x HR Hin. rewrite Hrooms in HR.
    destruct (String.eqb_spec rid0 rid) as [<-|Hne'].
    + rewrite sget_sset_eq in HR. injection HR as <-. rewrite Hmem in Hin.
      destruct Hin as [<-|[]]. rewrite Hdev, sget_sset_eq. eexists. split; reflexivity.
    + rewrite sget_sset_ne in HR by exact Hne'.
      assert (Hx : x <> d) by (intros ->; exact (Hfree rid R HR Hin)).
      rewrite Hunchanged by exact Hx. exact (Hm rid R x HR Hin).
  - rewrite Hrooms, sget_sset_ne by exact Hne. exact He.
Qed.

(** [if (device.roomId) handleLeaveRoom(deviceId)] from a consistent state. *)
Lemma leave_if_in_room (d : string) (D : Device) (st0 : State) :
  roomsConsistent st0 ->
  sget d (devices st0) = Some D ->
  triple (at_ st0)
    (if JS.truthyOpt (d_roomId D) then handleLeaveRoom d else ret tt)
    (fun _ st =>
       roomsConsistent st /\ inNoRoom d st
       /\ (exists D', sget d (devices st) = Some D' /\ d_ws D' = d_ws D))
    roomsConsistent.
Proof.
  intros Hinv HD. destruct (JS.truthyOpt (d_roomId D)) eqn:Htruthy.
  - eapply triple_conseq; [apply (handleLeaveRoom_consistent d D st0 Hinv HD)| | |]; auto.
    intros [] st (H1 & H2 & H3 & _). auto.
  - apply done_ret. split; [exact Hinv|]. split.
    + apply (consistent_inNoRoom st0 d D Hinv HD Htruthy).
    + exists D. auto.
Qed.

Lemma handleJoinRoom_consistent (d : string) (roomName roomId : option string) :
  triple roomsConsistent (handleJoinRoom d roomName roomId)
    (fun _ => roomsConsistent) roomsConsistent.
Proof.
  apply triple_at. intros st0 Hinv. unfold handleJoinRoom, getDevice.
  apply step_gets.
  assert (Hanswer : forall f,
            triple (at_ st0)
              (device <- property "device" (sget d (devices st0)) ;; sendTo (d_ws device) f)
              (fun _ => roomsConsistent) roomsConsistent).
  { intros f. destruct (sget d (devices st0)) as [D|]; cbn [property].
    - apply step_ret. apply done_writes; [apply writesOnly_sendTo| |]; intros; exact Hinv.
    - apply step_throw. exact Hinv. }
  match goal with |- triple _ (if ?b then _ else _) _ _ => destruct b end; [apply Hanswer|].
  apply step_gets.
  destruct (findRoomByName _ (rooms st0)) as [[B RB]|]; [|apply Hanswer].
  destruct (sget d (devices st0)) as [D|] eqn:HD; cbn [property];
    [apply step_ret|apply step_throw; exact Hinv].
  eapply triple_bind; [apply (leave_if_in_room d D st0 Hinv HD)|].
  intros []. apply triple_at. intros st1 (Hinv1 & Hfree1 & D' & HD' & Hws).
  unfold updateDevice. apply step_modify. cbv beta. rewrite HD'.
  unfold getRoom. apply step_gets. unfold updateRoom. apply step_modify.
  cbn [rooms devices set_devices set_rooms set_devicesFile set_roomsFile].
  set (st2 := match sget B (rooms st1) with Some _ => _ | None => _ end).
  assert (Hinv2 : roomsConsistent st2).
  { apply (enter_consistent st1 st2 d B D' Hinv1 Hfree1 HD').
    - subst st2. destruct (sget B (rooms st1)); reflexivity.
    - subst st2. destruct (sget B (rooms st1)); reflexivity. }
  clearbody st2.
  apply step_writes; [apply writesOnly_sendTo|intros; exact Hinv2|]. intros fr1 [].
  apply step_writes; [apply writesOnly_broadcastDeviceList|intros; exact Hinv2|]. intros fr2 [].
  apply step_writes; [apply writesOnly_broadcastToRoom|intros; exact Hinv2|]. intros fr3 [].
  unfold saveDevices, saveRooms. apply step_modify. apply done_modify. saved. exact Hinv2.
Qed.

Lemma generateRoomId_nonempty now rnd : generateRoomId now rnd <> "".
Proof. unfold generateRoomId. simpl. discriminate. Qed.

Lemma handleCreateRoom_consistent (now : Z) (rnd d : string) (roomName roomId : option string) :
  triple roomsConsistent (handleCreateRoom now rnd d roomName roomId)
    (fun _ => roomsConsistent) roomsConsistent.
Proof.
  apply triple_at. intros st0 Hinv. unfold handleCreateRoom, getDevice.
  apply step_gets.
  assert (Hanswer : forall f,
            triple (at_ st0)
              (device <- property "device" (sget d (devices st0)) ;; sendTo (d_ws device) f)
              (fun _ => roomsConsistent) roomsConsistent).
  { intros f. destruct (sget d (devices st0)) as [D|]; cbn [property].
    - apply step_ret. apply done_writes; [apply writesOnly_sendTo| |]; intros; exact Hinv.
    - apply step_throw. exact Hinv. }
  match goal with |- triple _ (if ?b then _ else _) _ _ => destruct b end; [apply Hanswer|].
  apply step_gets.
  destruct (findRoomByName _ (rooms st0)) as [[B RB]|]; [apply Hanswer|].
  destruct (sget d (devices st0)) as [D|] eqn:HD; cbn [property];
    [apply step_ret|apply step_throw; exact Hinv].
  eapply triple_bind; [apply (leave_if_in_room d D st0 Hinv HD)|].
  intros []. apply triple_at. intros st1 (Hinv1 & Hfree1 & D' & HD' & Hws).
  cbv zeta. apply step_modify. unfold updateDevice. apply step_modify.
  cbn [rooms devices set_devices set_rooms set_devicesFile set_roomsFile]. rewrite HD'.
  set (st2 := set_devices _ _).
  assert (Hinv2 : roomsConsistent st2).
  { eapply (create_consistent st1 st2 d (generateRoomId now rnd) D').
    - exact Hinv1.
    - exact Hfree1.
    - exact HD'.
    - apply generateRoomId_nonempty.
    - shelve.
    - reflexivity.
    - reflexivity.
    Unshelve. reflexivity. }
  clearbody st2.
  apply step_writes; [apply writesOnly_sendTo|intros; exact Hinv2|]. intros fr1 [].
  apply step_writes; [apply writesOnly_broadcastDeviceList|intros; exact Hinv2|]. intros fr2 [].
  unfold saveDevices, saveRooms. apply step_modify. apply done_modify. saved. exact Hinv2.
Qed.

Lemma handleLeaveRoom_keeps_consistent (d : string) :
  triple roomsConsistent (handleLeaveRoom d) (fun _ => roomsConsistent) roomsConsistent.
Proof.
  apply triple_at. intros st0 Hinv.
  destruct (sget d (devices st0)) as [D|] eqn:HD.
  - eapply triple_conseq; [apply (handleLeaveRoom_consistent d D st0 Hinv HD)| | |]; auto.
    intros [] st (H1 & _). exact H1.
  - unfold handleLeaveRoom, getDevice. apply step_gets. rewrite HD. cbn [property].
    apply step_throw. exact Hinv.
Qed.

(** ** Invariants of the rooms, event by event *)

Section Events.

Variable P : State -> Prop.

Lemma preserves_bind {A B} (m : M A) (k : A -> M B) :
  preserves P m -> (forall a, preserves P (k a)) -> preserves P (bind m k).
Proof. intros Hm Hk. eapply triple_bind; [exact Hm|exact Hk]. Qed.

Lemma preserves_tryCatch {A} (m : M A) (h : Exn -> M A) :
  preserves P m -> (forall e, preserves P (h e)) -> preserves P (tryCatch m h).
Proof. intros Hm Hh. eapply triple_tryCatch; [exact Hm|exact Hh]. Qed.

(** [P] only looks at the rooms and at the room each device names. *)
Hypothesis P_sameRooms : forall st st', P st -> sameRooms st st' -> P st'.

Lemma preserves_sameRooms {A} (m : M A) : keeps sameRooms m -> preserves P m.
Proof. intros Hk. apply (triple_keeps sameRooms); [exact Hk|exact P_sameRooms]. Qed.

(** The handlers that change rooms, or register and drop devices. *)
Hypothesis P_join : forall d roomName roomId, preserves P (handleJoinRoom d roomName roomId).
Hypothesis P_create : forall now rnd d roomName roomId,
  preserves P (handleCreateRoom now rnd d roomName roomId).
Hypothesis P_leave : forall d, preserves P (handleLeaveRoom d).
Hypothesis P_onConnection : forall ws req now, preserves P (onConnection ws req now).
Hypothesis P_sweepDevices : forall now, preserves P (sweepDevices now).

Lemma preserves_dispatch now rnd deviceId data :
  preserves P (dispatch now rnd deviceId data).
Proof.
  destruct data; cbn [dispatch].
  - apply preserves_sameRooms, sameRooms_handleClientIdentify.
  - apply preserves_sameRooms. unfold handleDeviceInfo. same_rooms.
  - apply preserves_sameRooms, sameRooms_handleDeviceInfo.
  - apply preserves_sameRooms, sameRooms_handleFileTransfer.
  - apply preserves_sameRooms, sameRooms_handleFileChunk.
  - apply preserves_sameRooms, sameRooms_handleFileComplete.
  - apply preserves_sameRooms, sameRooms_handleUpdateDeviceName.
  - apply preserves_sameRooms, sameRooms_handleFileProgress.
  - apply preserves_sameRooms, sameRooms_handlePing.
  - apply preserves_sameRooms, sameRooms_handleTransferComplete.
  - apply preserves_sameRooms, sameRooms_handleFileDownload.
  - apply preserves_sameRooms, sameRooms_handleRequestMissingChunks.
  - apply preserves_sameRooms, sameRooms_handleTransferRejected.
  - apply preserves_sameRooms, sameRooms_handleTransferAccepted.
  - apply preserves_sameRooms, sameRooms_handleTogglePinDevice.
  - apply P_join.
  - apply P_create.
  - apply P_leave.
  - apply preserves_sameRooms, sameRooms_handleFileCancel.
  - apply preserves_sameRooms. same_rooms.
Qed.

Lemma preserves_handleMessage now rnd deviceId data :
  preserves P (handleMessage now rnd deviceId data).
Proof.
  unfold handleMessage. apply preserves_tryCatch; [apply preserves_dispatch|].
  intros e. apply preserves_sameRooms. same_rooms.
Qed.

Lemma preserves_onMessage ws deviceId message now rnd :
  preserves P (onMessage ws deviceId message now rnd).
Proof.
  unfold onMessage. apply preserves_tryCatch.
  - apply preserves_bind.
    + apply preserves_sameRooms. apply keeps_modify. intros st.
      destruct (wget ws (activeConnections st)); split; reflexivity.
    + intros []. apply preserves_bind; [apply preserves_sameRooms; same_rooms|].
      intros data. apply preserves_handleMessage.
  - intros e. apply preserves_sameRooms. unfold wsOpen. same_rooms.
Qed.

Lemma preserves_onClose ws deviceId now : preserves P (onClose ws deviceId now).
Proof. apply preserves_sameRooms. unfold onClose, clearHeartbeat. same_rooms. Qed.

Lemma preserves_fireTimer i now : preserves P (fireTimer i now).
Proof.
  apply preserves_sameRooms. unfold fireTimer, runTask, clearHeartbeat, wsOpen. same_rooms.
Qed.

Lemma preserves_janitor now : preserves P (janitor now).
Proof.
  unfold janitor.
  apply preserves_bind; [apply preserves_sameRooms; same_rooms|]. intros before.
  apply preserves_bind;
    [apply preserves_sameRooms; unfold sweepConnections; same_rooms|]. intros [].
  apply preserves_bind; [apply P_sweepDevices|]. intros [].
  apply preserves_bind;
    [apply preserves_sameRooms; unfold sweepTransfers, deleteTransfer; same_rooms|].
  intros []. apply preserves_bind; [apply preserves_sameRooms; same_rooms|]. intros after.
  apply preserves_sameRooms. same_rooms.
Qed.

Lemma preserves_handle ev : preserves P (handle ev).
Proof.
  destruct ev; cbn [handle].
  - apply preserves_bind; [apply preserves_sameRooms; same_rooms|]. intros [s|].
    + apply preserves_sameRooms; same_rooms.
    + apply preserves_bind; [apply preserves_sameRooms; same_rooms|]. intros [].
      apply P_onConnection.
  - apply preserves_bind; [apply preserves_sameRooms; same_rooms|]. intros [deviceId|].
    + apply preserves_onMessage.
    + apply preserves_sameRooms; same_rooms.
  - apply preserves_bind; [apply preserves_sameRooms; same_rooms|]. intros [deviceId|].
    + apply preserves_bind; [apply preserves_sameRooms; same_rooms|]. intros [].
      apply preserves_onClose.
    + apply preserves_sameRooms; same_rooms.
  - apply preserves_sameRooms. same_rooms.
  - apply preserves_fireTimer.
  - apply preserves_janitor.
  - apply preserves_sameRooms. unfold httpDeleteTransfer, deleteTransfer. same_rooms.
Qed.

Lemma preserves_step (st : State) (ev : Event) : P st -> P (step st ev).
Proof.
  intros Hinv. unfold step, exec. pose proof (preserves_handle ev st Hinv) as H.
  destruct (handle ev st) as [[a|e] st']; exact H.
Qed.

(** An invariant of the events that holds of the empty server holds of
    every state the server reaches. *)
Lemma preserves_reachable (sendThrows : bool) (st : State) :
  P (initialState sendThrows) -> reachable sendThrows st -> P st.
Proof.
  intros H0. induction 1 as [|st ev _ IH]; [exact H0|apply preserves_step, IH].
Qed.

End Events.

(** ** The members of every room are registered and name it *)

(** Registering a device that was unknown: it is in no room, because the
    members of every room are registered. *)
Lemma register_consistent (st : State) (d : string) (D : Device) :
  roomsConsistent st -> sget d (devices st) = None ->
  roomsConsistent (set_devices (sset d D (devices st)) st).
Proof.
  intros Hinv HD.
  apply (consistent_change_free_device st _ d Hinv); [|reflexivity|].
  - intros rid R HR Hin. destruct Hinv as [Hm _].
    destruct (Hm rid R d HR Hin) as (D0 & HD0 & _). congruence.
  - intros x Hx. cbn [devices set_devices set_devicesFile set_roomsFile]. apply sget_sset_ne. congruence.
Qed.

Lemma consistent_sameRooms {A} (m : M A) :
  keeps sameRooms m -> preserves roomsConsistent m.
Proof. apply preserves_sameRooms. exact roomsConsistent_sameRooms. Qed.

Lemma consistent_onConnection ws req now : preserves roomsConsistent (onConnection ws req now).
Proof.
  unfold onConnection.
  destruct (Platform.detectPlatform _) as [platform browser].
  apply preserves_bind; [apply consistent_sameRooms; same_rooms|]. intros [].
  apply preserves_bind; [apply consistent_sameRooms; same_rooms|]. intros [].
  unfold getDevice. apply triple_at. intros st0 Hinv. apply step_gets.
  eapply triple_bind with (Q1 := fun _ => roomsConsistent).
  - destruct (sget _ (devices st0)) as [D|] eqn:HD.
    + intros st ->. apply (consistent_sameRooms (updateDevice _ _)); [|exact Hinv].
      apply sameRooms_updateDevice. intros d. reflexivity.
    + intros st ->. unfold modify. apply register_consistent; assumption.
  - intros []. apply consistent_sameRooms. unfold setupIOSHeartbeat, addTimer. same_rooms.
Qed.

Lemma inNoRoom_sameRooms (d : string) (st st' : State) :
  inNoRoom d st -> sameRooms st st' -> inNoRoom d st'.
Proof. intros H [Hr _] rid R HR. rewrite Hr in HR. exact (H rid R HR). Qed.

(** The room part of the sweep of an expired device takes it out of the
    room its [roomId] names, hence out of every room. *)
Lemma sweep_room_part (d : string) (D : Device) (st0 : State) :
  roomsConsistent st0 -> sget d (devices st0) = Some D ->
  triple (at_ st0)
    (match d_roomId D with
     | Some roomId =>
         if JS.truthy roomId then
           room <- getRoom roomId ;;
           match room with
           | Some r =>
               let members := setDelete d (r_devices r) in
               updateRoom roomId (set_r_devices members) ;;
               match members with
               | [] => modify (fun st => set_rooms (sdelete roomId (rooms st)) st)
               | _ :: _ => ret tt
               end
           | None => ret tt
           end
         else ret tt
     | None => ret tt
     end)
    (fun _ st => roomsConsistent st /\ inNoRoom d st) roomsConsistent.
Proof.
  intros Hinv HD.
  assert (Hfalsy : JS.truthyOpt (d_roomId D) = false ->
                   roomsConsistent st0 /\ inNoRoom d st0).
  { intros H. split; [exact Hinv|]. apply (consistent_inNoRoom st0 d D Hinv HD H). }
  destruct (d_roomId D) as [A|] eqn:HA; [|apply done_ret, Hfalsy; reflexivity].
  destruct (JS.truthy A) eqn:Htruthy; [|apply done_ret, Hfalsy; exact Htruthy].
  clear Hfalsy. unfold getRoom. apply step_gets.
  assert (Hleave : forall st', rooms st' = leaveRooms d A (rooms st0) ->
                     devices st' = devices st0 ->
                     roomsConsistent st' /\ inNoRoom d st').
  { intros st' Hr Hd. apply (leave_consistent st0 st' d A D Hinv HD HA Hr).
    - intros x _. rewrite Hd. reflexivity.
    - intros D'. rewrite Hd, HD. intros H. injection H as <-. left. exact HA. }
  destruct (sget A (rooms st0)) as [r|] eqn:Hr.
  - cbv zeta. unfold updateRoom. apply step_modify. cbv beta. rewrite Hr.
    destruct (setDelete d (r_devices r)) as [|x m] eqn:Hm.
    + intros st ->. unfold modify. apply Hleave; [|reflexivity].
      cbn [rooms set_rooms set_devicesFile set_roomsFile]. unfold leaveRooms. rewrite Hr, Hm, sdelete_sset. reflexivity.
    + apply done_ret. apply Hleave; [|reflexivity].
      cbn [rooms set_rooms set_devicesFile set_roomsFile]. unfold leaveRooms. rewrite Hr, Hm. reflexivity.
  - apply done_ret. apply Hleave; [|reflexivity].
    unfold leaveRooms. rewrite Hr. reflexivity.
Qed.

Lemma consistent_sweepDevices now : preserves roomsConsistent (sweepDevices now).
Proof.
  unfold sweepDevices. apply preserves_bind; [apply consistent_sameRooms; same_rooms|].
  intros keys. apply triple_forEach. intros d.
  apply triple_at. intros st0 Hinv. unfold getDevice. apply step_gets.
  destruct (sget d (devices st0)) as [D|] eqn:HD; [|apply done_ret, Hinv].
  cbv zeta.
  destruct ((if d_pinned D then _ else _) && negb (d_online D))%bool;
    [|apply done_ret, Hinv].
  eapply triple_bind; [apply (sweep_room_part d D st0 Hinv HD)|]. intros [].
  eapply triple_bind with (Q1 := fun _ st => roomsConsistent st /\ inNoRoom d st).
  - eapply triple_conseq with (E' := fun st => roomsConsistent st /\ inNoRoom d st);
      [apply (triple_keeps sameRooms)| | |].
    + unfold openOpt. same_rooms.
    + intros st st' [H1 H2] HR. split.
      * apply (roomsConsistent_sameRooms st st' H1 HR).
      * apply (inNoRoom_sameRooms d st st' H2 HR).
    + auto.
    + auto.
    + intros st [H _]. exact H.
  - intros o.
    eapply triple_bind with (Q1 := fun _ st => roomsConsistent st /\ inNoRoom d st).
    + eapply triple_conseq with (E' := fun st => roomsConsistent st /\ inNoRoom d st);
        [apply (triple_keeps sameRooms)| | |].
      * same_rooms.
      * intros st st' [H1 H2] HR. split.
        -- apply (roomsConsistent_sameRooms st st' H1 HR).
        -- apply (inNoRoom_sameRooms d st st' H2 HR).
      * auto.
      * auto.
      * intros st [H _]. exact H.
    + intros []. apply triple_modify. intros st [H1 H2].
      apply (consistent_change_free_device st _ d H1 H2); [reflexivity|].
      intros x Hx. cbn [devices set_devices set_devicesFile set_roomsFile]. apply sget_sdelete_ne. congruence.
Qed.

Lemma initial_consistent (sendThrows : bool) : roomsConsistent (initialState sendThrows).
Proof. split; [|reflexivity]. intros rid R d H. discriminate. Qed.

Lemma reachable_consistent (sendThrows : bool) (st : State) :
  reachable sendThrows st -> roomsConsistent st.
Proof.
  apply (preserves_reachable roomsConsistent).
  - exact roomsConsistent_sameRooms.
  - exact handleJoinRoom_consistent.
  - exact handleCreateRoom_consistent.
  - exact handleLeaveRoom_keeps_consistent.
  - exact consistent_onConnection.
  - exact consistent_sweepDevices.
  - apply initial_consistent.
Qed.

(** ** Joining and creating, run from a state where the channel is OPEN *)

Lemma sget_leaveRooms_self (d A : string) (rs : list (string * Room)) (rA : Room) :
  sget A rs = Some rA -> sget A (leaveRooms d A rs) = remainderOf d rA.
Proof.
  intros HA. unfold leaveRooms, remainderOf. rewrite HA.
  destruct (setDelete d (r_devices rA)).
  - apply sget_sdelete_eq.
  - apply sget_sset_eq.
Qed.

Lemma step_send {B} (st0 : State) (w : Ws) (f : Frame) (k : unit -> M B) Q E :
  readyStateOf st0 w = OPEN ->
  triple (at_ (set_outbox (outbox st0 ++ [(w, f)]) st0)) (k tt) Q E ->
  triple (at_ st0) (bind (sendTo (Some w) f) k) Q E.
Proof.
  intros Ho H st ->. unfold bind, sendTo. rewrite (wsSend_open _ _ _ Ho).
  apply H. reflexivity.
Qed.

Lemma step_writes_returns {A B} (st0 : State) (m : M A) (k : A -> M B) Q
    (E : State -> Prop) :
  keeps writesOnly m -> returns m ->
  (forall fr a, triple (at_ (set_outbox (outbox st0 ++ fr) st0)) (k a) Q E) ->
  triple (at_ st0) (bind m k) Q E.
Proof.
  intros Hk Hr Hcont st ->. unfold bind. destruct (Hk st0) as [fr Hfr].
  destruct (Hr st0) as [a Ha].
  destruct (m st0) as [[a'|e] st1]; simpl in Hfr, Ha; [|discriminate].
  subst st1. apply (Hcont fr a'). reflexivity.
Qed.

(** A computation that never throws from [st0] returns there. *)
Lemma triple_run {A} (st0 : State) (m : M A) (Q : A -> State -> Prop) :
  triple (at_ st0) m Q (fun _ => False) ->
  exists a st', m st0 = (Ret a, st') /\ Q a st'.
Proof.
  intros H. specialize (H st0 eq_refl).
  destruct (m st0) as [[a|e] st']; [|contradiction]. exists a, st'. auto.
Qed.

Lemma leave_phase (d : string) (D : Device) (w : Ws) (st0 : State) :
  sget d (devices st0) = Some D -> d_ws D = Some w -> readyStateOf st0 w = OPEN ->
  triple (at_ st0)
    (if JS.truthyOpt (d_roomId D) then handleLeaveRoom d else ret tt)
    (fun _ => afterLeave d D w st0) (fun _ => False).
Proof.
  intros HD Hw Hopen.
  destruct (JS.truthyOpt (d_roomId D)) eqn:Htr.
  - unfold handleLeaveRoom, getDevice. apply step_gets. rewrite HD. cbn [property].
    apply step_ret.
    destruct (d_roomId D) as [A|] eqn:HA; [|discriminate]. cbn [JS.truthyOpt] in Htr.
    rewrite Htr. cbn [negb]. unfold getRoom. apply step_gets.
    eapply triple_bind; [apply (leave_room_part d A D st0 (fun _ => False))|].
    intros []. apply triple_at. intros st1 [fr ->].
    unfold updateDevice. apply step_modify. cbn [devices set_outbox set_rooms set_devicesFile set_roomsFile].
    rewrite HD, Hw. apply step_send; [exact Hopen|].
    unfold saveDevices, saveRooms. apply step_modify. apply done_modify. saved.
    unfold afterLeave, priorLeave, leftFrames.
    cbn [rooms devices sockets outbox set_outbox set_devices set_rooms set_devicesFile set_roomsFile].
    rewrite HA, Htr. cbn [JS.truthyOpt]. rewrite Htr.
    split; [reflexivity|]. split; [rewrite sget_sset_eq; eauto|].
    split; [reflexivity|]. exists (fr ++ [(w, RoomLeft)])%list.
    split; [rewrite app_assoc; reflexivity|]. exists fr. reflexivity.
  - apply done_ret. unfold afterLeave, priorLeave, leftFrames. rewrite Htr.
    assert (Hrs : match d_roomId D with
                  | Some A => if JS.truthy A then leaveRooms d A (rooms st0) else rooms st0
                  | None => rooms st0
                  end = rooms st0).
    { destruct (d_roomId D) as [A|]; [|reflexivity]. cbn [JS.truthyOpt] in Htr.
      rewrite Htr. reflexivity. }
    rewrite Hrs. split; [reflexivity|]. split; [eauto|]. split; [reflexivity|].
    exists []. rewrite app_nil_r. auto.
Qed.

Lemma sget_priorLeave_other (d B : string) (D : Device) (rs : list (string * Room)) :
  d_roomId D <> Some B -> sget B (priorLeave d D rs) = sget B rs.
Proof.
  intros Hne. unfold priorLeave. destruct (d_roomId D) as [A|]; [|reflexivity].
  destruct (JS.truthy A); [|reflexivity]. apply leaveRooms_other. congruence.
Qed.

Lemma nonblank_truthy (s : string) : JS.trim s <> "" -> JS.truthy s = true.
Proof. destruct s; [intros H; exfalso; apply H; reflexivity|reflexivity]. Qed.

Lemma nonblank_test (s : string) :
  JS.trim s <> "" -> (negb (JS.truthy s) || String.eqb (JS.trim s) "")%bool = false.
Proof.
  intros H. rewrite (nonblank_truthy s H). cbn [negb orb].
  apply String.eqb_neq. exact H.
Qed.

(** A join whose name finds room [B], by a device whose channel is OPEN,
    when [B] is still bound, to [rB], after the leave. *)
Lemma handleJoinRoom_run (d : string) (D : Device) (w : Ws) (B : string) (r0 rB : Room)
    (roomName roomId : option string) (st0 : State) :
  sget d (devices st0) = Some D -> d_ws D = Some w -> readyStateOf st0 w = OPEN ->
  JS.trim (JS.orElse (JS.orOpt roomName roomId) "") <> "" ->
  findRoomByName (JS.trim (JS.toLowerCase (JS.orElse (JS.orOpt roomName roomId) "")))
    (rooms st0) = Some (B, r0) ->
  sget B (priorLeave d D (rooms st0)) = Some rB ->
  exists st' fr0 fr2,
    handleJoinRoom d roomName roomId st0 = (Ret tt, st')
    /\ leftFrames w D fr0
    /\ outbox st'
       = (outbox st0 ++ fr0
          ++ [(w, RoomJoined B (r_name rB) (List.length (setAdd d (r_devices rB))))]
          ++ fr2)%list
    /\ rooms st'
       = sset B (set_r_devices (setAdd d (r_devices rB)) rB) (priorLeave d D (rooms st0))
    /\ option_map d_roomId (sget d (devices st')) = Some (Some B).
Proof.
  intros HD Hw Hopen Hname Hfind HB.
  assert (Hrun : triple (at_ st0) (handleJoinRoom d roomName roomId)
            (fun _ st' => exists fr0 fr2,
               leftFrames w D fr0
               /\ outbox st'
                  = (outbox st0 ++ fr0
                     ++ [(w, RoomJoined B (r_name rB)
                               (List.length (setAdd d (r_devices rB))))]
                     ++ fr2)%list
               /\ rooms st'
                  = sset B (set_r_devices (setAdd d (r_devices rB)) rB)
                      (priorLeave d D (rooms st0))
               /\ option_map d_roomId (sget d (devices st')) = Some (Some B))
            (fun _ => False)).
  { unfold handleJoinRoom, getDevice. apply step_gets. cbv zeta.
    rewrite (nonblank_test _ Hname). apply step_gets. rewrite Hfind, HD.
    cbn [property]. apply step_ret.
    eapply triple_bind; [apply (leave_phase d D w st0 HD Hw Hopen)|].
    intros []. apply triple_at.
    intros st1 (Hrooms & [D1 HD1] & Hsock & fr0 & Hout & Hfr0).
    unfold updateDevice. apply step_modify. rewrite HD1.
    unfold getRoom. apply step_gets. cbn [rooms set_devices set_devicesFile set_roomsFile].
    rewrite Hrooms, HB.
    unfold updateRoom. apply step_modify. cbn [rooms set_devices set_devicesFile set_roomsFile].
    rewrite Hrooms, HB.
    rewrite Hw. apply step_send.
    { unfold readyStateOf. cbn [sockets set_rooms set_devices set_devicesFile set_roomsFile]. rewrite Hsock.
      exact Hopen. }
    apply step_writes_returns;
      [apply writesOnly_broadcastDeviceList|apply returns_broadcastDeviceList|].
    intros fr1 [].
    apply step_writes_returns;
      [apply writesOnly_broadcastToRoom|apply returns_broadcastToRoom|].
    intros fr2 []. unfold saveDevices, saveRooms. apply step_modify. apply done_modify. saved.
    exists fr0, (fr1 ++ fr2)%list.
    cbn [rooms devices outbox set_outbox set_rooms set_devices set_devicesFile set_roomsFile].
    split; [exact Hfr0|]. split.
    - rewrite Hout. rewrite <- !app_assoc. reflexivity.
    - split; [reflexivity|]. rewrite sget_sset_eq. reflexivity. }
  destruct (triple_run st0 _ _ Hrun) as ([] & st' & Heq & fr0 & fr2 & H).
  exists st', fr0, fr2. split; [exact Heq|exact H].
Qed.

(** A creation under a name no room has, by a device whose channel is
    OPEN. *)
Lemma handleCreateRoom_run (now : Z) (rnd : string) (d : string) (D : Device) (w : Ws)
    (roomName roomId : option string) (st0 : State) :
  sget d (devices st0) = Some D -> d_ws D = Some w -> readyStateOf st0 w = OPEN ->
  JS.trim (JS.orElse (JS.orOpt roomName roomId) "") <> "" ->
  findRoomByName (JS.trim (JS.toLowerCase (JS.orElse (JS.orOpt roomName roomId) "")))
    (rooms st0) = None ->
  exists st' fr0 fr2,
    handleCreateRoom now rnd d roomName roomId st0 = (Ret tt, st')
    /\ leftFrames w D fr0
    /\ outbox st'
       = (outbox st0 ++ fr0
          ++ [(w, RoomCreated (generateRoomId now rnd)
                    (JS.trim (JS.orElse (JS.orOpt roomName roomId) "")))]
          ++ fr2)%list
    /\ rooms st'
       = sset (generateRoomId now rnd)
           {| r_name := JS.trim (JS.orElse (JS.orOpt roomName roomId) "");
              r_created := now; r_createdBy := d; r_devices := [d] |}
           (priorLeave d D (rooms st0))
    /\ option_map d_roomId (sget d (devices st')) = Some (Some (generateRoomId now rnd)).
Proof.
  intros HD Hw Hopen Hname Hfind.
  assert (Hrun : triple (at_ st0) (handleCreateRoom now rnd d roomName roomId)
            (fun _ st' => exists fr0 fr2,
               leftFrames w D fr0
               /\ outbox st'
                  = (outbox st0 ++ fr0
                     ++ [(w, RoomCreated (generateRoomId now rnd)
                               (JS.trim (JS.orElse (JS.orOpt roomName roomId) "")))]
                     ++ fr2)%list
               /\ rooms st'
                  = sset (generateRoomId now rnd)
                      {| r_name := JS.trim (JS.orElse (JS.orOpt roomName roomId) "");
                         r_created := now; r_createdBy := d; r_devices := [d] |}
                      (priorLeave d D (rooms st0))
               /\ option_map d_roomId (sget d (devices st'))
                  = Some (Some (generateRoomId now rnd)))
            (fun _ => False)).
  { unfold handleCreateRoom, getDevice. apply step_gets. cbv zeta.
    rewrite (nonblank_test _ Hname). apply step_gets. rewrite Hfind, HD.
    cbn [property]. apply step_ret.
    eapply triple_bind; [apply (leave_phase d D w st0 HD Hw Hopen)|].
    intros []. apply triple_at.
    intros st1 (Hrooms & [D1 HD1] & Hsock & fr0 & Hout & Hfr0).
    apply step_modify. unfold updateDevice. apply step_modify.
    cbn [devices set_rooms set_devicesFile set_roomsFile]. rewrite HD1.
    rewrite Hw. apply step_send.
    { unfold readyStateOf. cbn [sockets set_rooms set_devices set_devicesFile set_roomsFile]. rewrite Hsock.
      exact Hopen. }
    apply step_writes_returns;
      [apply writesOnly_broadcastDeviceList|apply returns_broadcastDeviceList|].
    intros fr1 []. unfold saveDevices, saveRooms. apply step_modify. apply done_modify. saved.
    exists fr0, fr1.
    cbn [rooms devices outbox set_outbox set_rooms set_devices set_devicesFile set_roomsFile].
    split; [exact Hfr0|]. split.
    - rewrite Hout. rewrite <- !app_assoc. reflexivity.
    - split; [rewrite Hrooms; reflexivity|]. rewrite sget_sset_eq. reflexivity. }
  destruct (triple_run st0 _ _ Hrun) as ([] & st' & Heq & fr0 & fr2 & H).
  exists st', fr0, fr2. split; [exact Heq|exact H].
Qed.

(** ** Room names *)

Lemma isSpace_lowerChar (c : ascii) : JS.isSpace (JS.lowerChar c) = JS.isSpace c.
Proof. destruct c as [[] [] [] [] [] [] [] []]; reflexivity. Qed.

Lemma trimStart_toLowerCase (s : string) :
  JS.trimStart (JS.toLowerCase s) = JS.toLowerCase (JS.trimStart s).
Proof.
  induction s as [|c r IH]; [reflexivity|].
  cbn [JS.toLowerCase JS.trimStart]. rewrite isSpace_lowerChar.
  destruct (JS.isSpace c); [exact IH|reflexivity].
Qed.

Lemma trimEnd_toLowerCase (s : string) :
  JS.trimEnd (JS.toLowerCase s) = JS.toLowerCase (JS.trimEnd s).
Proof.
  induction s as [|c r IH]; [reflexivity|].
  cbn [JS.toLowerCase JS.trimEnd]. rewrite IH, isSpace_lowerChar.
  destruct (JS.trimEnd r); cbn [JS.toLowerCase]; [|reflexivity].
  destruct (JS.isSpace c); reflexivity.
Qed.

(** Trimming and lower-casing commute: no letter is white space. *)
Lemma trim_toLowerCase (s : string) :
  JS.trim (JS.toLowerCase s) = JS.toLowerCase (JS.trim s).
Proof. unfold JS.trim. rewrite trimStart_toLowerCase. apply trimEnd_toLowerCase. Qed.

Lemma toLowerCase_empty (s : string) : JS.toLowerCase s = "" -> s = "".
Proof. destruct s; [reflexivity|discriminate]. Qed.

Section AssocKeys.

Context {V : Type}.
Implicit Types (m : list (string * V)) (k : string) (v : V).

Lemma sget_In k v m : sget k m = Some v -> In (k, v) m.
Proof.
  induction m as [|[k0 v0] m IH]; simpl; [discriminate|].
  destruct (String.eqb_spec k k0) as [->|Hne].
  - intros H. injection H as ->. left. reflexivity.
  - intros H. right. apply IH, H.
Qed.

Lemma In_sget k v m : NoDup (map fst m) -> In (k, v) m -> sget k m = Some v.
Proof.
  induction m as [|[k0 v0] m IH]; simpl; [contradiction|].
  intros Hnd [Heq|Hin].
  - injection Heq as -> ->. rewrite String.eqb_refl. reflexivity.
  - inversion Hnd as [|x l Hnot Hnd']; subst.
    destruct (String.eqb_spec k k0) as [->|Hne]; [|apply IH; assumption].
    exfalso. apply Hnot. apply (in_map fst) in Hin. exact Hin.
Qed.

Lemma In_sset (p : string * V) k v m : In p (sset k v m) -> p = (k, v) \/ In p m.
Proof.
  induction m as [|[k0 v0] m IH]; simpl.
  - intros [H|[]]. left. symmetry. exact H.
  - destruct (String.eqb k k0); simpl.
    + intros [H|H]; [left; symmetry; exact H|right; right; exact H].
    + intros [H|H]; [right; left; exact H|].
      destruct (IH H) as [H1|H1]; [left; exact H1|right; right; exact H1].
Qed.

Lemma NoDup_keys_sset k v m : NoDup (map fst m) -> NoDup (map fst (sset k v m)).
Proof.
  induction m as [|[k0 v0] m IH]; simpl; intros Hnd.
  - constructor; [intros []|constructor].
  - inversion Hnd as [|x l Hnot Hnd']; subst.
    destruct (String.eqb_spec k k0) as [->|Hne]; simpl.
    + constructor; assumption.
    + constructor; [|apply IH, Hnd'].
      intros Hin. apply in_map_iff in Hin. destruct Hin as ([k1 v1] & Hk & Hin).
      simpl in Hk. subst k1. apply In_sset in Hin. destruct Hin as [Heq|Hin].
      * injection Heq as -> ->. apply Hne. reflexivity.
      * apply Hnot. apply (in_map fst) in Hin. exact Hin.
Qed.

Lemma NoDup_keys_sdelete k m : NoDup (map fst m) -> NoDup (map fst (sdelete k m)).
Proof.
  unfold mapDelete. induction m as [|[k0 v0] m IH]; simpl; intros Hnd; [constructor|].
  inversion Hnd as [|x l Hnot Hnd']; subst.
  destruct (negb (String.eqb k k0)); simpl; [|apply IH, Hnd'].
  constructor; [|apply IH, Hnd'].
  intros Hin. apply Hnot. apply in_map_iff in Hin. destruct Hin as (p & Hp & Hin).
  apply filter_In in Hin. destruct Hin as [Hin _]. rewrite <- Hp.
  apply (in_map fst), Hin.
Qed.

Lemma sget_sset_cases k k' v v' m :
  sget k' (sset k v m) = Some v' ->
  (k' = k /\ v' = v) \/ (k' <> k /\ sget k' m = Some v').
Proof.
  destruct (String.eqb_spec k k') as [<-|Hne].
  - rewrite sget_sset_eq. intros H. injection H as <-. left. auto.
  - rewrite sget_sset_ne by exact Hne. intros H. right. split; [congruence|exact H].
Qed.

Lemma sget_sdelete_cases k k' v' m :
  sget k' (sdelete k m) = Some v' -> k' <> k /\ sget k' m = Some v'.
Proof.
  destruct (String.eqb_spec k k') as [<-|Hne].
  - rewrite sget_sdelete_eq. discriminate.
  - rewrite sget_sdelete_ne by exact Hne. intros H. split; [congruence|exact H].
Qed.

End AssocKeys.

Lemma findRoomByName_Some (l : string) (rs : list (string * Room)) (B : string) (r : Room) :
  findRoomByName l rs = Some (B, r) -> In (B, r) rs /\ JS.toLowerCase (r_name r) = l.
Proof.
  induction rs as [|[id room] rs IH]; simpl; [discriminate|].
  destruct (String.eqb_spec (JS.toLowerCase (r_name room)) l) as [He|Hne].
  - intros H. injection H as <- <-. split; [left; reflexivity|exact He].
  - intros H. destruct (IH H) as [H1 H2]. split; [right; exact H1|exact H2].
Qed.

Lemma findRoomByName_In (l : string) (rs : list (string * Room)) (B : string) (r : Room) :
  In (B, r) rs -> JS.toLowerCase (r_name r) = l -> findRoomByName l rs <> None.
Proof.
  induction rs as [|[id room] rs IH]; simpl; [contradiction|].
  intros Hin Hl. destruct (String.eqb_spec (JS.toLowerCase (r_name room)) l) as [He|Hne].
  - discriminate.
  - destruct Hin as [Heq|Hin]; [|apply IH; assumption].
    injection Heq as -> ->. contradiction.
Qed.

Lemma findRoomByName_None (l : string) (rs : list (string * Room)) :
  (forall B r, In (B, r) rs -> JS.toLowerCase (r_name r) <> l) ->
  findRoomByName l rs = None.
Proof.
  intros H. destruct (findRoomByName l rs) as [[B r]|] eqn:E; [|reflexivity].
  apply findRoomByName_Some in E. destruct E as [Hin Hl]. exfalso. exact (H B r Hin Hl).
Qed.

(** Under [roomsNamed] the lookup by name finds the room of that name. *)
Lemma roomsNamed_find (rs : list (string * Room)) (B : string) (rB : Room) :
  roomsNamed rs -> sget B rs = Some rB ->
  findRoomByName (JS.toLowerCase (r_name rB)) rs = Some (B, rB).
Proof.
  intros (Hnd & _ & Huniq) HB.
  destruct (findRoomByName (JS.toLowerCase (r_name rB)) rs) as [[B' r']|] eqn:E.
  - destruct (findRoomByName_Some _ _ _ _ E) as [Hin Hl].
    pose proof (In_sget _ _ _ Hnd Hin) as HB'.
    assert (B' = B) by (apply (Huniq B' r' B rB HB' HB Hl)). subst B'.
    congruence.
  - exfalso. apply (findRoomByName_In _ rs B rB (sget_In _ _ _ HB) eq_refl). exact E.
Qed.

Lemma roomsNamed_members (rs : list (string * Room)) (A : string) (r : Room)
    (m : list string) :
  roomsNamed rs -> sget A rs = Some r -> roomsNamed (sset A (set_r_devices m r) rs).
Proof.
  intros (Hnd & Hne & Huniq) HA. split; [apply NoDup_keys_sset, Hnd|]. split.
  - intros B r' H. apply sget_sset_cases in H. destruct H as [[-> ->]|[_ H]].
    + apply (Hne A r HA).
    + apply (Hne B r' H).
  - intros B1 r1 B2 r2 H1 H2 Hl.
    apply sget_sset_cases in H1. apply sget_sset_cases in H2.
    destruct H1 as [[-> ->]|[Hn1 H1]], H2 as [[-> ->]|[Hn2 H2]].
    + reflexivity.
    + apply (Huniq A r B2 r2 HA H2 Hl).
    + apply (Huniq B1 r1 A r H1 HA Hl).
    + apply (Huniq B1 r1 B2 r2 H1 H2 Hl).
Qed.

Lemma roomsNamed_delete (rs : list (string * Room)) (A : string) :
  roomsNamed rs -> roomsNamed (sdelete A rs).
Proof.
  intros (Hnd & Hne & Huniq). split; [apply NoDup_keys_sdelete, Hnd|]. split.
  - intros B r H. apply sget_sdelete_cases in H. apply (Hne B r (proj2 H)).
  - intros B1 r1 B2 r2 H1 H2 Hl.
    apply sget_sdelete_cases in H1. apply sget_sdelete_cases in H2.
    apply (Huniq B1 r1 B2 r2 (proj2 H1) (proj2 H2) Hl).
Qed.

(** A room created under a name the lookup does not find. *)
Lemma roomsNamed_create (rs : list (string * Room)) (B name d : string) (now : Z) :
  roomsNamed rs -> JS.trim name <> "" ->
  findRoomByName (JS.trim (JS.toLowerCase name)) rs = None ->
  roomsNamed
    (sset B {| r_name := JS.trim name; r_created := now; r_createdBy := d;
               r_devices := [d] |} rs).
Proof.
  intros (Hnd & Hne & Huniq) Hname Hfind.
  assert (Hfresh : forall B' r', sget B' rs = Some r' ->
                     JS.toLowerCase (JS.trim name) <> JS.toLowerCase (r_name r')).
  { intros B' r' H Hl.
    apply (findRoomByName_In (JS.trim (JS.toLowerCase name)) rs B' r' (sget_In _ _ _ H)).
    - rewrite trim_toLowerCase. symmetry. exact Hl.
    - exact Hfind. }
  split; [apply NoDup_keys_sset, Hnd|]. split.
  - intros B' r' H. apply sget_sset_cases in H. destruct H as [[-> ->]|[_ H]].
    + exact Hname.
    + apply (Hne B' r' H).
  - intros B1 r1 B2 r2 H1 H2 Hl.
    apply sget_sset_cases in H1. apply sget_sset_cases in H2.
    destruct H1 as [[-> ->]|[Hn1 H1]], H2 as [[-> ->]|[Hn2 H2]].
    + reflexivity.
    + exfalso. apply (Hfresh B2 r2 H2). exact Hl.
    + exfalso. apply (Hfresh B1 r1 H1). symmetry. exact Hl.
    + apply (Huniq B1 r1 B2 r2 H1 H2 Hl).
Qed.

Lemma reshaped_trans (rs1 rs2 rs3 : list (string * Room)) :
  reshaped rs1 rs2 -> reshaped rs2 rs3 -> reshaped rs1 rs3.
Proof.
  intros H12 H23. induction H23 as [|rs' A r m _ IH HA|rs' A _ IH].
  - exact H12.
  - apply reshaped_members; assumption.
  - apply reshaped_delete; assumption.
Qed.

Lemma reshaped_roomsNamed (rs rs' : list (string * Room)) :
  reshaped rs rs' -> roomsNamed rs -> roomsNamed rs'.
Proof.
  intros H Hn. induction H as [|rs' A r m _ IH HA|rs' A _ IH].
  - exact Hn.
  - apply roomsNamed_members; assumption.
  - apply roomsNamed_delete; assumption.
Qed.

Lemma reshaped_In_name (rs rs' : list (string * Room)) :
  reshaped rs rs' ->
  forall B r, In (B, r) rs' -> exists B0 r0, In (B0, r0) rs /\ r_name r0 = r_name r.
Proof.
  intros H. induction H as [|rs' A r m _ IH HA|rs' A _ IH]; intros B r' Hin.
  - exists B, r'. auto.
  - apply In_sset in Hin. destruct Hin as [Heq|Hin]; [|apply (IH B r' Hin)].
    injection Heq as -> ->. apply (IH A r). apply sget_In, HA.
  - unfold mapDelete in Hin. apply filter_In in Hin. apply (IH B r' (proj1 Hin)).
Qed.

Lemma reshaped_find_None (l : string) (rs rs' : list (string * Room)) :
  reshaped rs rs' -> findRoomByName l rs = None -> findRoomByName l rs' = None.
Proof.
  intros H Hnone. apply findRoomByName_None. intros B r Hin Hl.
  destruct (reshaped_In_name rs rs' H B r Hin) as (B0 & r0 & Hin0 & Hname).
  apply (findRoomByName_In l rs B0 r0 Hin0); [rewrite Hname; exact Hl|exact Hnone].
Qed.

Lemma reshapes_refl st : reshapes st st.
Proof. apply reshaped_refl. Qed.

Lemma reshapes_trans st1 st2 st3 : reshapes st1 st2 -> reshapes st2 st3 -> reshapes st1 st3.
Proof. apply reshaped_trans. Qed.

Lemma reshapes_outbox st o : reshapes st (set_outbox o st).
Proof. apply reshaped_refl. Qed.

Lemma reshapes_sockets st s : reshapes st (set_sockets s st).
Proof. apply reshaped_refl. Qed.

Lemma reshapes_sameRooms st st' : sameRooms st st' -> reshapes st st'.
Proof. intros [H _]. unfold reshapes. rewrite H. apply reshaped_refl. Qed.

Lemma reshapes_updateDevice id f : keeps reshapes (updateDevice id f).
Proof.
  apply keeps_modify. intros st. destruct (sget id (devices st)); apply reshaped_refl.
Qed.

Lemma reshapes_updateRoom id m : keeps reshapes (updateRoom id (set_r_devices m)).
Proof.
  apply keeps_modify. intros st. destruct (sget id (rooms st)) as [r|] eqn:E.
  - unfold reshapes. cbn [rooms set_rooms set_devicesFile set_roomsFile]. apply reshaped_members; [apply reshaped_refl|exact E].
  - apply reshaped_refl.
Qed.

Lemma reshapes_deleteRoom id :
  keeps reshapes (modify (fun st => set_rooms (sdelete id (rooms st)) st)).
Proof.
  apply keeps_modify. intros st. unfold reshapes. cbn [rooms set_rooms set_devicesFile set_roomsFile].
  apply reshaped_delete, reshaped_refl.
Qed.

Ltac reshapes :=
  repeat first
    [ apply keeps_ret; exact reshapes_refl
    | apply keeps_throw; exact reshapes_refl
    | apply keeps_gets; exact reshapes_refl
    | apply (keeps_property reshapes reshapes_refl)
    | apply (keeps_openOpt reshapes reshapes_refl)
    | apply (keeps_sendTo reshapes reshapes_refl reshapes_outbox)
    | apply (keeps_wsSend reshapes reshapes_refl reshapes_outbox)
    | apply (keeps_wsClose reshapes reshapes_refl reshapes_trans reshapes_outbox
               reshapes_sockets)
    | apply (keeps_broadcastDeviceList reshapes reshapes_refl reshapes_trans
               reshapes_outbox)
    | apply (keeps_broadcastToRoom reshapes reshapes_refl reshapes_trans reshapes_outbox)
    | apply reshapes_updateDevice
    | apply reshapes_updateRoom
    | apply reshapes_deleteRoom
    | apply keeps_modify; intros; exact (reshaped_refl _)
    | apply (keeps_saveDevices reshapes); intros; exact (reshaped_refl _)
    | apply (keeps_saveRooms reshapes); intros; exact (reshaped_refl _)
    | apply (keeps_tryCatch reshapes reshapes_trans); [|intros]
    | apply (keeps_forEach reshapes reshapes_refl reshapes_trans); intros
    | apply (keeps_bind reshapes reshapes_trans); [|intros]
    | match goal with
      | |- keeps _ (match ?x with _ => _ end) => destruct x
      | |- keeps _ (let '(_, _) := ?x in _) => destruct x
      end ].

Lemma reshapes_handleLeaveRoom d : keeps reshapes (handleLeaveRoom d).
Proof. unfold handleLeaveRoom, getDevice, getRoom. reshapes. Qed.

Lemma reshapes_handleJoinRoom d roomName roomId :
  keeps reshapes (handleJoinRoom d roomName roomId).
Proof.
  unfold handleJoinRoom, getDevice, getRoom. reshapes; apply reshapes_handleLeaveRoom.
Qed.

Lemma reshapes_sweepDevices now : keeps reshapes (sweepDevices now).
Proof. unfold sweepDevices, getDevice, getRoom. reshapes. Qed.

Lemma reshapes_onConnection ws req now : keeps reshapes (onConnection ws req now).
Proof. unfold onConnection, getDevice, setupIOSHeartbeat, addTimer. reshapes. Qed.

Lemma namedRooms_reshapes st st' : namedRooms st -> reshapes st st' -> namedRooms st'.
Proof. intros Hn H. apply (reshaped_roomsNamed _ _ H Hn). Qed.

Lemma named_reshapes {A} (m : M A) : keeps reshapes m -> preserves namedRooms m.
Proof. intros Hk. apply (triple_keeps reshapes); [exact Hk|exact namedRooms_reshapes]. Qed.

(** From a known state, a computation that reshapes the rooms ends in a
    state whose rooms are a reshaping of those it started from. *)
Lemma at_keeps {A} (R : State -> State -> Prop) (st0 : State) (m : M A) :
  keeps R m -> triple (at_ st0) m (fun _ => R st0) (R st0).
Proof.
  intros Hk st ->. specialize (Hk st0). destruct (m st0) as [[a|e] st1]; exact Hk.
Qed.

Lemma named_handleCreateRoom now rnd d roomName roomId :
  preserves namedRooms (handleCreateRoom now rnd d roomName roomId).
Proof.
  apply triple_at. intros st0 Hinv.
  assert (Hkeep : forall A (m : M A), keeps reshapes m ->
            triple (at_ st0) m (fun _ => namedRooms) namedRooms).
  { intros A m Hk. eapply triple_conseq; [apply (at_keeps reshapes st0 m Hk)| | |].
    - auto.
    - intros u st. apply namedRooms_reshapes, Hinv.
    - intros st. apply namedRooms_reshapes, Hinv. }
  unfold handleCreateRoom, getDevice. apply step_gets. cbv zeta.
  set (name := JS.orElse (JS.orOpt roomName roomId) "").
  destruct (negb (JS.truthy name) || String.eqb (JS.trim name) "")%bool eqn:Hblank;
    [apply Hkeep; reshapes|].
  apply Bool.orb_false_iff in Hblank. destruct Hblank as [_ Hblank].
  apply String.eqb_neq in Hblank.
  apply step_gets.
  destruct (findRoomByName (JS.trim (JS.toLowerCase name)) (rooms st0)) as [p|] eqn:Hfind;
    [apply Hkeep; reshapes|].
  destruct (sget d (devices st0)) as [D|]; cbn [property];
    [apply step_ret|apply step_throw, Hinv].
  eapply triple_bind with
    (Q1 := fun _ st => namedRooms st
                       /\ findRoomByName (JS.trim (JS.toLowerCase name)) (rooms st) = None).
  - eapply triple_conseq;
      [apply (at_keeps reshapes st0
                (if JS.truthyOpt (d_roomId D) then handleLeaveRoom d else ret tt))| | |].
    + destruct (JS.truthyOpt (d_roomId D)); [apply reshapes_handleLeaveRoom|reshapes].
    + auto.
    + intros u st H. split; [apply (namedRooms_reshapes st0 st Hinv H)|].
      apply (reshaped_find_None _ _ _ H Hfind).
    + intros st. apply namedRooms_reshapes, Hinv.
  - intros []. apply triple_at. intros st1 [Hn1 Hnone]. apply step_modify.
    set (st2 := set_rooms _ st1).
    assert (Hn2 : namedRooms st2).
    { unfold namedRooms, st2. cbn [rooms set_rooms set_devicesFile set_roomsFile]. apply roomsNamed_create; assumption. }
    eapply triple_conseq; [apply (at_keeps reshapes st2)| | |].
    + reshapes.
    + auto.
    + intros u st. apply namedRooms_reshapes, Hn2.
    + intros st. apply namedRooms_reshapes, Hn2.
Qed.

(** In every state the server reaches, room names are not blank and are
    unique up to case. *)
Lemma reachable_named (sendThrows : bool) (st : State) :
  reachable sendThrows st -> roomsNamed (rooms st).
Proof.
  apply (preserves_reachable namedRooms).
  - intros s s' H Hs. apply (namedRooms_reshapes s s' H), reshapes_sameRooms, Hs.
  - intros. apply named_reshapes, reshapes_handleJoinRoom.
  - apply named_handleCreateRoom.
  - intros. apply named_reshapes, reshapes_handleLeaveRoom.
  - intros. apply named_reshapes, reshapes_onConnection.
  - intros. apply named_reshapes, reshapes_sweepDevices.
  - split; [constructor|]. split; intros; discriminate.
Qed.

Lemma reachable_run (sendThrows : bool) (st : State) (evs : list Event) :
  reachable sendThrows st -> reachable sendThrows (run st evs).
Proof.
  revert st. induction evs as [|ev evs IH]; intros st H; [exact H|].
  apply IH. apply reachable_step, H.
Qed.

(** ** Rooms: the claims *)

Lemma member_roomId (st : State) (d A : string) (D : Device) (rA : Room) :
  roomsConsistent st -> sget A (rooms st) = Some rA -> In d (r_devices rA) ->
  sget d (devices st) = Some D ->
  d_roomId D = Some A /\ JS.truthy A = true.
Proof.
  intros [Hm He] HA Hin HD. destruct (Hm A rA d HA Hin) as (D0 & HD0 & Hroom).
  split; [congruence|]. destruct A; [congruence|reflexivity].
Qed.

Lemma priorLeave_member (d A : string) (D : Device) (rs : list (string * Room)) :
  d_roomId D = Some A -> JS.truthy A = true -> priorLeave d D rs = leaveRooms d A rs.
Proof. intros H1 H2. unfold priorLeave. rewrite H1, H2. reflexivity. Qed.

Lemma leftFrames_member (w : Ws) (A : string) (D : Device) (fr : list (Ws * Frame)) :
  d_roomId D = Some A -> JS.truthy A = true -> leftFrames w D fr ->
  exists fr', fr = (fr' ++ [(w, RoomLeft)])%list.
Proof.
  intros H1 H2. unfold leftFrames. rewrite H1. cbn [JS.truthyOpt]. rewrite H2. auto.
Qed.

Lemma across_run (sendThrows : bool) (st : State) (evs : list Event) :
  reachableAcrossRestarts sendThrows st -> reachableAcrossRestarts sendThrows (run st evs).
Proof.
  revert st. induction evs as [|ev evs IH]; intros st H; [exact H|].
  apply IH. apply across_step, H.
Qed.

(** C10 - the automatic leave, and where it is missed.  In every state of a
    worker started on an empty data directory the members of a room are
    registered devices whose [roomId] names that room; and when a member of
    room [A] whose channel is OPEN joins a different room [B] found by name,
    or creates a room under a name no room has, the handler returns, the
    device gets [roomLeft] and right after it [roomJoined] or [roomCreated],
    room [A] is left without the device, deleted when the device was its
    last member, the device is a member of the new room and its [roomId]
    names it.  But the leave is run on the device's [roomId], not on the
    member sets, and the two are saved apart.  In [Scenario.outOfStep] a
    [leaveRoom] throws at [device.ws.send] after the maps are changed and
    before the saves, and the close handler then saves the devices alone:
    the files say that the second device is in no room and that "Foo" lists
    it.  The worker that starts on these files lets the device create "Bar"
    without a leave: no [roomLeft] is written, "Foo" and "Bar" both list the
    device, and its [roomId] names "Bar".  Had the old worker been stopped by
    [SIGINT], the files would agree. *)
Theorem restart_puts_a_device_in_two_rooms :
  (forall (sendThrows : bool) (st : State),
     reachable sendThrows st ->
     (forall rid R d,
         sget rid (rooms st) = Some R -> In d (r_devices R) ->
         exists D, sget d (devices st) = Some D /\ d_roomId D = Some rid)
     /\ (forall d D w A rA,
           sget A (rooms st) = Some rA -> In d (r_devices rA) ->
           sget d (devices st) = Some D -> d_ws D = Some w -> readyStateOf st w = OPEN ->
           (forall roomName roomId B rB,
               JS.trim (JS.orElse (JS.orOpt roomName roomId) "") <> "" ->
               findRoomByName
                 (JS.trim (JS.toLowerCase (JS.orElse (JS.orOpt roomName roomId) "")))
                 (rooms st) = Some (B, rB) ->
               sget B (rooms st) = Some rB -> B <> A ->
               exists st' fr1 fr2,
                 handleJoinRoom d roomName roomId st = (Ret tt, st')
                 /\ outbox st'
                    = (outbox st ++ fr1
                       ++ [(w, RoomLeft);
                           (w, RoomJoined B (r_name rB)
                                 (List.length (setAdd d (r_devices rB))))]
                       ++ fr2)%list
                 /\ sget A (rooms st') = remainderOf d rA
                 /\ sget B (rooms st') = Some (set_r_devices (setAdd d (r_devices rB)) rB)
                 /\ option_map d_roomId (sget d (devices st')) = Some (Some B))
           /\ (forall now rnd roomName roomId,
               JS.trim (JS.orElse (JS.orOpt roomName roomId) "") <> "" ->
               findRoomByName
                 (JS.trim (JS.toLowerCase (JS.orElse (JS.orOpt roomName roomId) "")))
                 (rooms st) = None ->
               generateRoomId now rnd <> A ->
               exists st' fr1 fr2,
                 handleCreateRoom now rnd d roomName roomId st = (Ret tt, st')
                 /\ outbox st'
                    = (outbox st ++ fr1
                       ++ [(w, RoomLeft);
                           (w, RoomCreated (generateRoomId now rnd)
                                 (JS.trim (JS.orElse (JS.orOpt roomName roomId) "")))]
                       ++ fr2)%list
                 /\ sget A (rooms st') = remainderOf d rA
                 /\ sget (generateRoomId now rnd) (rooms st')
                    = Some {| r_name := JS.trim (JS.orElse (JS.orOpt roomName roomId) "");
                              r_created := now; r_createdBy := d; r_devices := [d] |}
                 /\ option_map d_roomId (sget d (devices st'))
                    = Some (Some (generateRoomId now rnd)))))
  /\ reachable false Scenario.outOfStep
  /\ map (fun sd => (sd_id sd, sd_roomId sd)) (devicesFile Scenario.outOfStep)
     = [(Scenario.idA, Some Scenario.roomFoo); (Scenario.idB, None)]
  /\ map (fun sr => (sr_id sr, sr_devices sr)) (roomsFile Scenario.outOfStep)
     = [(Scenario.roomFoo, [Scenario.idA; Scenario.idB])]
  /\ reachableAcrossRestarts false Scenario.inTwoRooms
  /\ (let st := Scenario.inTwoRooms in
      option_map r_devices (sget Scenario.roomFoo (rooms st))
      = Some [Scenario.idA; Scenario.idB]
      /\ option_map r_devices (sget Scenario.roomBarLater (rooms st)) = Some [Scenario.idB]
      /\ option_map d_roomId (sget Scenario.idB (devices st))
         = Some (Some Scenario.roomBarLater)
      /\ filter isRoomLeft (outbox st) = []
      /\ nth_error (filter (sentTo 4%nat) (outbox st)) 0
         = Some (4%nat, RoomCreated Scenario.roomBarLater "Bar")
      /\ List.length (filter (sentTo 4%nat) (outbox st)) = 2%nat)
  /\ option_map r_devices
       (sget Scenario.roomFoo (rooms (restart (exec onSigint Scenario.outOfStep))))
     = Some [Scenario.idA].
Proof.
  split.
  { intros sendThrows st Hreach.
    pose proof (reachable_consistent sendThrows st Hreach) as Hinv.
    split; [exact (proj1 Hinv)|].
    intros d D w A rA HA Hin HD Hw Hopen.
    destruct (member_roomId st d A D rA Hinv HA Hin HD) as [Hroom Htruthy].
    split.
    - intros roomName roomId B rB Hname Hfind HB Hne.
      assert (HB' : sget B (priorLeave d D (rooms st)) = Some rB).
      { rewrite sget_priorLeave_other; [exact HB|congruence]. }
      destruct (handleJoinRoom_run d D w B rB rB roomName roomId st HD Hw Hopen Hname Hfind HB')
        as (st' & fr0 & fr2 & Heq & Hfr0 & Hout & Hrooms & Hdev).
      destruct (leftFrames_member w A D fr0 Hroom Htruthy Hfr0) as [fr1 ->].
      exists st', fr1, fr2. split; [exact Heq|]. split.
      { rewrite Hout. rewrite <- !app_assoc. reflexivity. }
      rewrite Hrooms, (priorLeave_member d A D _ Hroom Htruthy). split.
      { rewrite sget_sset_ne by exact Hne. apply sget_leaveRooms_self, HA. }
      split; [apply sget_sset_eq|exact Hdev].
    - intros now rnd roomName roomId Hname Hfind Hne.
      destruct (handleCreateRoom_run now rnd d D w roomName roomId st HD Hw Hopen Hname Hfind)
        as (st' & fr0 & fr2 & Heq & Hfr0 & Hout & Hrooms & Hdev).
      destruct (leftFrames_member w A D fr0 Hroom Htruthy Hfr0) as [fr1 ->].
      exists st', fr1, fr2. split; [exact Heq|]. split.
      { rewrite Hout. rewrite <- !app_assoc. reflexivity. }
      rewrite Hrooms, (priorLeave_member d A D _ Hroom Htruthy). split.
      { rewrite sget_sset_ne by exact Hne. apply sget_leaveRooms_self, HA. }
      split; [apply sget_sset_eq|exact Hdev]. }
  split.
  { unfold Scenario.outOfStep, Scenario.paired. apply reachable_run, reachable_run.
    apply reachable_init. }
  split; [vm_compute; reflexivity|]. split; [vm_compute; reflexivity|].
  split.
  { unfold Scenario.inTwoRooms, Scenario.restarted, Scenario.outOfStep, Scenario.paired.
    apply across_run, across_restart, across_run, across_run, across_init. }
  split; [|vm_compute; reflexivity].
  vm_compute. repeat split; reflexivity.
Qed.

(** C6 - a join that carries the id the server minted for
    the room is answered with "Raum nicht gefunden" and the rooms are as
    they were. *)
Lemma join_by_minted_id_finds_no_room :
  sget Scenario.roomFoo (rooms Scenario.created)
  = Some {| r_name := "Foo"; r_created := 1002; r_createdBy := Scenario.idA;
            r_devices := [Scenario.idA] |}
  /\ option_map d_ws (sget Scenario.idB (devices Scenario.created)) = Some (Some 2%nat)
  /\ readyStateOf Scenario.created 2%nat = OPEN
  /\ handleJoinRoom Scenario.idB None (Some Scenario.roomFoo) Scenario.created
     = (Ret tt,
        set_outbox (outbox Scenario.created ++ [(2%nat, RoomError "Raum nicht gefunden")])
          Scenario.created)
  /\ (let st := step Scenario.created
                  (EvMessage 2%nat (Some (JoinRoom None (Some Scenario.roomFoo))) 1003 "") in
      rooms st = rooms Scenario.created
      /\ filter (sentTo 2%nat) (skipn (List.length (outbox Scenario.created)) (outbox st))
         = [(2%nat, RoomError "Raum nicht gefunden")]).
Proof. vm_compute. repeat split. Qed.

(** C6 - in every state the server reaches, for every room [B], a
    join by a registered device whose channel is OPEN succeeds when the
    name it carries is the room's display name up to case and surrounding
    white space, unless the device is the only member of [B] itself: the
    handler returns, [roomJoined] for [B] is written to the device's
    channel, the device is in the member set of [B] and its [roomId]
    names [B]. *)
Theorem joinRoom_by_display_name (sendThrows : bool) (st : State)
    (d : string) (D : Device) (w : Ws) (B : string) (rB : Room)
    (roomName roomId : option string) :
  reachable sendThrows st ->
  sget B (rooms st) = Some rB ->
  sget d (devices st) = Some D -> d_ws D = Some w -> readyStateOf st w = OPEN ->
  JS.trim (JS.toLowerCase (JS.orElse (JS.orOpt roomName roomId) ""))
  = JS.toLowerCase (r_name rB) ->
  (d_roomId D = Some B -> setDelete d (r_devices rB) <> []) ->
  exists st' fr1 fr2 R',
    handleJoinRoom d roomName roomId st = (Ret tt, st')
    /\ outbox st'
       = (outbox st ++ fr1
          ++ [(w, RoomJoined B (r_name rB) (List.length (r_devices R')))] ++ fr2)%list
    /\ sget B (rooms st') = Some R'
    /\ In d (r_devices R')
    /\ option_map d_roomId (sget d (devices st')) = Some (Some B).
Proof.
  intros Hreach HB HD Hw Hopen Hmatch Hsole.
  pose proof (reachable_consistent sendThrows st Hreach) as Hinv.
  pose proof (reachable_named sendThrows st Hreach) as Hnamed.
  set (requested := JS.orElse (JS.orOpt roomName roomId) "") in *.
  assert (Hname : JS.trim requested <> "").
  { intros Hblank. rewrite trim_toLowerCase, Hblank in Hmatch.
    symmetry in Hmatch. apply toLowerCase_empty in Hmatch.
    destruct Hnamed as (_ & Hne & _). exact (Hne B rB HB Hmatch). }
  assert (Hfind : findRoomByName (JS.trim (JS.toLowerCase requested)) (rooms st)
                  = Some (B, rB)).
  { rewrite Hmatch. apply roomsNamed_find; assumption. }
  assert (Hbound : exists rB', sget B (priorLeave d D (rooms st)) = Some rB'
                               /\ r_name rB' = r_name rB).
  { destruct (d_roomId D) as [A|] eqn:HA.
    - destruct (String.eqb_spec A B) as [->|Hne].
      + assert (Htruthy : JS.truthy B = true).
        { destruct B; [|reflexivity]. destruct Hinv as [_ He]. congruence. }
        rewrite (priorLeave_member d B D _ HA Htruthy), (sget_leaveRooms_self d B _ rB HB).
        unfold remainderOf. specialize (Hsole eq_refl).
        destruct (setDelete d (r_devices rB)) as [|x m]; [contradiction|].
        eexists. split; reflexivity.
      + exists rB. split; [|reflexivity].
        rewrite sget_priorLeave_other; [exact HB|congruence].
    - exists rB. split; [|reflexivity].
      rewrite sget_priorLeave_other; [exact HB|congruence]. }
  destruct Hbound as (rB' & HB' & Hsame).
  destruct (handleJoinRoom_run d D w B rB rB' roomName roomId st HD Hw Hopen Hname Hfind HB')
    as (st' & fr0 & fr2 & Heq & _ & Hout & Hrooms & Hdev).
  exists st', fr0, fr2, (set_r_devices (setAdd d (r_devices rB')) rB').
  split; [exact Heq|]. split; [rewrite Hout, Hsame; reflexivity|].
  split; [rewrite Hrooms; apply sget_sset_eq|].
  split; [apply In_setAdd; left; reflexivity|exact Hdev].
Qed.

(** The second device joins "Foo" as " foo ". *)
Lemma joinRoom_by_display_name_witness :
  exists st' fr1 fr2 R',
    handleJoinRoom Scenario.idB (Some " foo ") None Scenario.created = (Ret tt, st')
    /\ outbox st'
       = (outbox Scenario.created ++ fr1
          ++ [(2%nat, RoomJoined Scenario.roomFoo "Foo" (List.length (r_devices R')))]
          ++ fr2)%list
    /\ sget Scenario.roomFoo (rooms st') = Some R'
    /\ In Scenario.idB (r_devices R')
    /\ option_map d_roomId (sget Scenario.idB (devices st')) = Some (Some Scenario.roomFoo).
Proof.
  edestruct joinRoom_by_display_name
    with (sendThrows := false) (st := Scenario.created) (d := Scenario.idB) (w := 2%nat)
         (B := Scenario.roomFoo) (roomName := Some " foo ") (roomId := @None string)
    as (st' & fr1 & fr2 & R' & Heq & Hout & HB & Hin & Hd).
  - apply reachable_run, reachable_init.
  - vm_compute. reflexivity.
  - vm_compute. reflexivity.
  - vm_compute. reflexivity.
  - vm_compute. reflexivity.
  - vm_compute. reflexivity.
  - vm_compute. discriminate.
  - exists st', fr1, fr2, R'. split; [exact Heq|]. split; [exact Hout|].
    split; [exact HB|]. split; [exact Hin|exact Hd].
Defined.

(** ** The theorems at concrete inputs *)


(** The only chunk of an offered one-chunk stream. *)
Lemma fileChunk_keeps_counter_and_buffers_witness :
  currentMemoryUsage
    (exec (handleMessage 1006 "" Scenario.idA (FileChunk "t1" 0 1 "QUJD" 9))
       Scenario.offeredState)
  = currentMemoryUsage Scenario.offeredState
  /\ sget "t1"
       (fileTransfers
          (exec (handleMessage 1006 "" Scenario.idA (FileChunk "t1" 0 1 "QUJD" 9))
             Scenario.offeredState))
     = Some (markCompleted 1006 (storeChunk 0 "QUJD" Scenario.offeredTransfer)).
Proof.
  destruct (fileChunk_keeps_counter_and_buffers 1006 Scenario.idA "t1" 0 1 "QUJD" 9
              Scenario.offeredState Scenario.offeredTransfer [])
    as (Hcounter & _ & Hdone).
  - vm_compute. reflexivity.
  - reflexivity.
  - split; [exact Hcounter|].
    eapply Hdone with (wsS := 1%nat) (wsR := 2%nat) (file0 := Scenario.file)
                      (rest := @nil FileMeta).
    + constructor; vm_compute; reflexivity.
    + reflexivity.
    + reflexivity.
Defined.

(** The receiver asks for the chunks 0, 1, 2 and 5 of [Scenario.partial],
    where 0 and 2 are buffered. *)
Lemma requestMissingChunks_resends_on_sender_channel_witness :
  handleRequestMissingChunks Scenario.idB "t1" [0; 1; 2; 5]%nat 3 Scenario.partial
  = (Ret tt,
     set_outbox
       (outbox Scenario.partial
        ++ [(1%nat, FileChunkOut Scenario.idB "t1" 0 0 3 "YWJj" 9);
            (1%nat, FileChunkOut Scenario.idB "t1" 0 2 3 "Z2hp" 9)])
       Scenario.partial).
Proof.
  edestruct requestMissingChunks_resends_on_sender_channel
    with (st := Scenario.partial) (requester := Scenario.idB) (transferId := "t1")
         (missing := [0; 1; 2; 5]%nat) (totalChunks := 3%nat) (ws := 1%nat)
         (t := set_t_receivedChunks 2
                 (set_t_chunks (Some [Some "YWJj"; None; Some "Z2hp"])
                    Scenario.offeredTransfer))
         (file0 := Scenario.file) (rest := @nil FileMeta)
    as (Hrun & _ & _).
  - vm_compute. reflexivity.
  - vm_compute. reflexivity.
  - vm_compute. reflexivity.
  - vm_compute. reflexivity.
  - reflexivity.
  - exact Hrun.
Defined.

(** C5 - a user agent that spells the device IPHONE does not match
    iPhone|iPad|iPod, yet its id starts with "ios-", not with "device-", and
    is the same at two addresses. *)
Lemma capitals_agent_gets_an_address_free_ios_id :
  Identity.matchesIPhoneIPadIPod Scenario.uaCapitals = false
  /\ Identity.generateStableDeviceId Scenario.uaCapitals
       (Scenario.request Scenario.uaCapitals "de" "10.0.0.1")
     = Identity.generateStableDeviceId Scenario.uaCapitals
         (Scenario.request Scenario.uaCapitals "de" "192.168.1.7")
  /\ JS.startsWith "ios-"
       (Identity.generateStableDeviceId Scenario.uaCapitals
          (Scenario.request Scenario.uaCapitals "de" "10.0.0.1")) = true
  /\ JS.startsWith "device-"
       (Identity.generateStableDeviceId Scenario.uaCapitals
          (Scenario.request Scenario.uaCapitals "de" "10.0.0.1")) = false.
Proof. vm_compute. repeat split; reflexivity. Qed.

(** A phone at two addresses, and a desktop. *)
Lemma generateStableDeviceId_deterministic_ios_address_free_witness :
  (Identity.generateStableDeviceId Scenario.uaPhone
     (Scenario.request Scenario.uaPhone "de" "10.0.0.1")
   = Identity.generateStableDeviceId Scenario.uaPhone
       (Scenario.request Scenario.uaPhone "de" "192.168.1.7")
   /\ JS.startsWith "ios-"
        (Identity.generateStableDeviceId Scenario.uaPhone
           (Scenario.request Scenario.uaPhone "de" "10.0.0.1")) = true)
  /\ JS.startsWith "device-" (Identity.generateStableDeviceId Scenario.uaA Scenario.reqA)
     = true.
Proof.
  split.
  - destruct (generateStableDeviceId_deterministic_ios_address_free Scenario.uaPhone
                (Scenario.request Scenario.uaPhone "de" "10.0.0.1")
                (Scenario.request Scenario.uaPhone "de" "192.168.1.7") eq_refl)
      as (_ & Hmatch & Hios & _).
    apply Hios, Hmatch. vm_compute. reflexivity.
  - destruct (generateStableDeviceId_deterministic_ios_address_free Scenario.uaA
                Scenario.reqA Scenario.reqA eq_refl) as (_ & _ & _ & Hdev).
    apply Hdev. vm_compute. reflexivity.
Defined.

(** Chunks 2 and 0 of three, after the offer. *)
Lemma chunk_count_invariant_distinct_indices_witness :
  exists t' arr',
    sget "t1"
      (fileTransfers
         (exec (sendChunks Scenario.idA "t1" 3
                  [mkChunkFrame 2 "R0hJ" 9 1006; mkChunkFrame 0 "QUJD" 9 1005])
            Scenario.offeredState)) = Some t'
    /\ t_chunks t' = Some arr'
    /\ (t_receivedChunks t' <= 3)%nat
    /\ t_receivedChunks t' = bufferedCount arr'
    /\ (forall i, isBuffered arr' i = true -> (i < 3)%nat).
Proof.
  apply (chunk_count_invariant_distinct_indices Scenario.offeredState Scenario.idA "t1" 3
           Scenario.offeredTransfer []
           [mkChunkFrame 2 "R0hJ" 9 1006; mkChunkFrame 0 "QUJD" 9 1005]).
  - vm_compute. reflexivity.
  - reflexivity.
  - reflexivity.
  - intros [|i] H; discriminate H.
  - repeat constructor; simpl; intuition discriminate.
  - intros c [<-|[<-|[]]]; split; simpl; try lia; reflexivity.
Defined.

(** The offered transfer, an hour and more after the offer. *)
Lemma updateMemoryUsage_always_throws_witness :
  updateMemoryUsage 3 3700000 (-9) Scenario.offeredState
  = (Throw referenceError, charged (-9) Scenario.offeredState)
  /\ handleFileCancel 3700000 Scenario.idA "t1" Scenario.offeredState
     = (Throw referenceError, charged (-9) Scenario.offeredState)
  /\ sget "t1" (fileTransfers (charged (-9) Scenario.offeredState))
     = Some Scenario.offeredTransfer
  /\ exists st'',
       janitor 3700000 Scenario.offeredState = (Throw referenceError, st'')
       /\ sget "t1" (fileTransfers st'') = Some Scenario.offeredTransfer.
Proof.
  destruct (updateMemoryUsage_always_throws 3700000 Scenario.offeredState)
    as [Hthrows Hhandlers].
  split; [apply Hthrows|].
  destruct (Hhandlers "t1" Scenario.idA Scenario.offeredTransfer [])
    as (Hcancel & _ & _ & Hkept & Hjanitor).
  - vm_compute. reflexivity.
  - reflexivity.
  - split; [exact Hcancel|]. split; [exact Hkept|].
    apply Hjanitor. vm_compute. reflexivity.
Defined.

(** * Further properties of the server *)

(** * Names of uploaded files *)

Lemma isSafeChar_underscore : Upload.isSafeChar "_"%char = true.
Proof. reflexivity. Qed.

Lemma safeFileName_length (s : string) :
  String.length (Upload.safeFileName s) = String.length s.
Proof. induction s as [|c r IH]; simpl; [reflexivity|]. rewrite IH. reflexivity. Qed.

Lemma allChars_app p (a b : string) :
  allChars p (a ++ b) = allChars p a && allChars p b.
Proof.
  induction a as [|c r IH]; simpl; [reflexivity|]. rewrite IH. apply andb_assoc.
Qed.

Lemma allChars_impl (p q : ascii -> bool) (s : string) :
  (forall c, p c = true -> q c = true) -> allChars p s = true -> allChars q s = true.
Proof.
  intros Hpq. induction s as [|c r IH]; simpl; [reflexivity|].
  intros H. apply andb_true_iff in H. destruct H as [H1 H2].
  rewrite (Hpq c H1), (IH H2). reflexivity.
Qed.

Lemma safeFileName_safe (s : string) :
  allChars Upload.isSafeChar (Upload.safeFileName s) = true.
Proof.
  induction s as [|c r IH]; simpl; [reflexivity|]. rewrite IH, andb_true_r.
  destruct (Upload.isSafeChar c) eqn:E; [exact E|reflexivity].
Qed.

Lemma safeFileName_fixed (s : string) :
  allChars Upload.isSafeChar s = true -> Upload.safeFileName s = s.
Proof.
  induction s as [|c r IH]; simpl; [reflexivity|].
  intros H. apply andb_true_iff in H. destruct H as [H1 H2].
  rewrite H1, (IH H2). reflexivity.
Qed.

Lemma string_of_uint_digits (u : Decimal.uint) :
  allChars isDigit (DecimalString.NilEmpty.string_of_uint u) = true.
Proof. induction u; simpl; try reflexivity; exact IHu. Qed.

(** A number that is not negative is written with digits only. *)
Lemma decimal_digits (z : Z) : 0 <= z -> allChars isDigit (decimal z) = true.
Proof.
  intros Hz. unfold decimal. destruct z as [|p|p]; [reflexivity| |lia].
  unfold Z.to_int, DecimalString.NilZero.string_of_int, DecimalString.NilZero.string_of_uint.
  destruct (Pos.to_uint p) eqn:E; try apply string_of_uint_digits. reflexivity.
Qed.

Lemma append_empty_r (s : string) : (s ++ "")%string = s.
Proof. induction s as [|c r IH]; simpl; [reflexivity|]. rewrite IH. reflexivity. Qed.

Lemma splitFrom_piece (sep : ascii) (cur piece rest : string) :
  allChars (fun c => negb (Ascii.eqb c sep)) piece = true ->
  Upload.splitFrom sep cur (piece ++ String sep rest)
  = (cur ++ piece) :: Upload.splitFrom sep EmptyString rest.
Proof.
  revert cur. induction piece as [|c r IH]; intros cur H; simpl.
  - rewrite Ascii.eqb_refl. rewrite append_empty_r. reflexivity.
  - simpl in H. apply andb_true_iff in H. destruct H as [H1 H2].
    apply negb_true_iff in H1. rewrite H1. rewrite (IH _ H2).
    rewrite append_assoc'. reflexivity.
Qed.

Lemma splitFrom_nonempty (sep : ascii) (cur s : string) : Upload.splitFrom sep cur s <> [].
Proof.
  revert cur. induction s as [|c r IH]; intros cur; simpl; [discriminate|].
  destruct (Ascii.eqb c sep); [discriminate|apply IH].
Qed.

(** Joining the pieces of a split with the separator gives the string back. *)
Lemma join_splitFrom (sep : ascii) (cur s : string) :
  Upload.join (String sep EmptyString) (Upload.splitFrom sep cur s) = (cur ++ s)%string.
Proof.
  revert cur. induction s as [|c r IH]; intros cur.
  - simpl. rewrite append_empty_r. reflexivity.
  - cbn [Upload.splitFrom]. destruct (Ascii.eqb_spec c sep) as [->|Hne].
    + pose proof (splitFrom_nonempty sep EmptyString r) as Hne.
      pose proof (IH EmptyString) as IH0.
      destruct (Upload.splitFrom sep EmptyString r) as [|y l]; [contradiction|].
      change (Upload.join (String sep EmptyString) (cur :: y :: l))
        with (cur ++ String sep EmptyString
                ++ Upload.join (String sep EmptyString) (y :: l))%string.
      rewrite IH0. reflexivity.
    + rewrite IH. rewrite append_assoc'. reflexivity.
Qed.

Lemma digit_not_dash (c : ascii) : isDigit c = true -> negb (Ascii.eqb c "-") = true.
Proof.
  intros H. destruct (Ascii.eqb_spec c "-") as [->|Hne]; [discriminate H|reflexivity].
Qed.

(** X1 - the download route recovers the sanitised name from the name the
    upload stored: for a time stamp and a random number that are not
    negative, [filename.split('-').slice(2).join('-')] of the stored name is
    the upload's [safeFileName], dashes in the name included. *)
Theorem originalNameOf_storedFileName (now rnd : Z) (originalname : string) :
  0 <= now -> 0 <= rnd ->
  Upload.originalNameOf (Upload.storedFileName now rnd originalname)
  = Upload.safeFileName originalname.
Proof.
  intros Hnow Hrnd. unfold Upload.originalNameOf, Upload.storedFileName, Upload.split.
  assert (Hd : forall z, 0 <= z ->
                 allChars (fun c => negb (Ascii.eqb c "-")) (decimal z) = true).
  { intros z Hz. apply (allChars_impl isDigit); [exact digit_not_dash|].
    apply decimal_digits, Hz. }
  rewrite !append_assoc'.
  change ("-" ++ decimal rnd ++ "-" ++ Upload.safeFileName originalname)%string
    with (String "-" (decimal rnd ++ String "-" (Upload.safeFileName originalname))).
  rewrite (splitFrom_piece "-" EmptyString (decimal now) _ (Hd now Hnow)).
  rewrite (splitFrom_piece "-" EmptyString (decimal rnd) _ (Hd rnd Hrnd)).
  cbn [skipn]. apply (join_splitFrom "-" EmptyString).
Qed.

Lemma originalNameOf_storedFileName_witness :
  Upload.storedFileName 1700000000000 123456789 "my-file (1).tar.gz"
  = "1700000000000-123456789-my-file__1_.tar.gz"
  /\ Upload.originalNameOf (Upload.storedFileName 1700000000000 123456789 "my-file (1).tar.gz")
     = "my-file__1_.tar.gz".
Proof.
  split; [vm_compute; reflexivity|].
  rewrite (originalNameOf_storedFileName 1700000000000 123456789 "my-file (1).tar.gz");
    [vm_compute; reflexivity|lia|lia].
Defined.

Lemma digit_is_safe (c : ascii) : isDigit c = true -> Upload.isSafeChar c = true.
Proof.
  unfold isDigit, Upload.isSafeChar. cbv zeta. intros H. rewrite H.
  rewrite orb_true_r. reflexivity.
Qed.

(** A string whose characters all pass [p] does not contain a character
    that fails it. *)
Lemma allChars_excludes (p : ascii -> bool) (c : ascii) (s : string) :
  p c = false -> allChars p s = true -> JS.includes (String c EmptyString) s = false.
Proof.
  intros Hc. induction s as [|x r IH]; intros H; [reflexivity|].
  simpl in H. apply andb_true_iff in H. destruct H as [H1 H2].
  cbn [JS.includes JS.startsWith]. rewrite (IH H2), orb_false_r.
  destruct (Ascii.eqb_spec c x) as [->|Hne]; [congruence|reflexivity].
Qed.

(** X2 - stored names are made of letters, digits, dots, dashes and
    underscores only, whatever the client sent as file name: no path
    separator and no control character reaches the upload directory; the
    name keeps its length, and a name that is already safe is kept as it
    is. *)
Theorem storedFileName_is_safe (now rnd : Z) (originalname : string) :
  0 <= now -> 0 <= rnd ->
  allChars Upload.isSafeChar (Upload.storedFileName now rnd originalname) = true
  /\ String.length (Upload.safeFileName originalname) = String.length originalname
  /\ (allChars Upload.isSafeChar originalname = true ->
      Upload.safeFileName originalname = originalname)
  /\ JS.includes "/" (Upload.storedFileName now rnd originalname) = false.
Proof.
  intros Hnow Hrnd.
  assert (Hsafe : allChars Upload.isSafeChar (Upload.storedFileName now rnd originalname)
                  = true).
  { unfold Upload.storedFileName. rewrite !allChars_app.
    rewrite (allChars_impl _ _ _ digit_is_safe (decimal_digits now Hnow)).
    rewrite (allChars_impl _ _ _ digit_is_safe (decimal_digits rnd Hrnd)).
    rewrite safeFileName_safe. reflexivity. }
  split; [exact Hsafe|]. split; [apply safeFileName_length|].
  split; [apply safeFileName_fixed|].
  apply (allChars_excludes Upload.isSafeChar "/"%char); [reflexivity|exact Hsafe].
Qed.

Lemma storedFileName_is_safe_witness :
  Upload.storedFileName 1700000000000 42 "../../etc/passwd"
  = "1700000000000-42-.._.._etc_passwd"
  /\ JS.includes "/" (Upload.storedFileName 1700000000000 42 "../../etc/passwd") = false.
Proof.
  split; [vm_compute; reflexivity|].
  apply (storedFileName_is_safe 1700000000000 42 "../../etc/passwd"); lia.
Defined.

(** * Platform, device name and device id *)

Lemma startsWith_ios_device (s : string) : JS.startsWith "ios-" ("device-" ++ s) = false.
Proof. reflexivity. Qed.

(** X3 - the id scheme and the platform detection agree: the id of a client
    starts with "ios-" exactly when [detectPlatform] calls its platform iOS
    or iPadOS. *)
Theorem ios_id_iff_ios_platform (userAgent : string) (req : Identity.Request) :
  JS.startsWith "ios-" (Identity.generateStableDeviceId userAgent req) = true
  <-> (fst (Platform.detectPlatform userAgent) = "iOS"
       \/ fst (Platform.detectPlatform userAgent) = "iPadOS").
Proof.
  unfold Identity.generateStableDeviceId, Identity.isIOS, Platform.detectPlatform.
  cbv zeta. cbn [fst].
  destruct (JS.includes "iphone" (JS.toLowerCase userAgent));
    destruct (JS.includes "ipod" (JS.toLowerCase userAgent));
    destruct (JS.includes "ipad" (JS.toLowerCase userAgent));
    cbn [orb]; try (split; [intros _; auto|intros _; apply startsWith_append]).
  rewrite startsWith_ios_device. split; [discriminate|].
  repeat match goal with
         | |- context [if ?b then _ else _] => destruct b
         end; intros [H|H]; discriminate H.
Qed.

Lemma detectPlatform_platforms (userAgent : string) :
  In (fst (Platform.detectPlatform userAgent))
     ["iOS"; "iPadOS"; "Android"; "Windows"; "macOS"; "Linux"; "Unknown"].
Proof.
  unfold Platform.detectPlatform. cbv zeta. cbn [fst].
  repeat match goal with
         | |- context [if ?b then _ else _] => destruct b
         end; simpl; auto 10.
Qed.

(** X4 - a client whose platform is not recognised is registered as
    "Unknown (<browser>)" of type "unknown": [detectPlatform] answers
    "Unknown", for which the name table has no entry (its entry for
    unrecognised platforms is under "Unbekannt"), so that no client is ever
    named "Unbekanntes Gerät". *)
Theorem unrecognised_platform_name (userAgent : string) :
  (fst (Platform.detectPlatform userAgent) = "Unknown" ->
   Platform.generateDeviceName (fst (Platform.detectPlatform userAgent))
     (snd (Platform.detectPlatform userAgent))
   = "Unknown (" ++ snd (Platform.detectPlatform userAgent) ++ ")"
   /\ Platform.getDeviceType (fst (Platform.detectPlatform userAgent)) = "unknown")
  /\ Platform.tableGet (fst (Platform.detectPlatform userAgent)) Platform.platformNames
     <> Some "Unbekanntes Gerät"
  /\ (Platform.getDeviceType (fst (Platform.detectPlatform userAgent)) = "unknown" ->
      fst (Platform.detectPlatform userAgent) = "Unknown").
Proof.
  pose proof (detectPlatform_platforms userAgent) as Hin.
  destruct (Platform.detectPlatform userAgent) as [platform browser]. cbn [fst snd] in *.
  simpl in Hin.
  repeat (destruct Hin as [<-|Hin]); try contradiction;
    (split; [intros H; try discriminate H; split; reflexivity|]);
    (split; [discriminate|]); intros H; try discriminate H; reflexivity.
Qed.

Lemma unrecognised_platform_name_witness :
  Platform.generateDeviceName (fst (Platform.detectPlatform "curl/8.4.0"))
    (snd (Platform.detectPlatform "curl/8.4.0")) = "Unknown (Unknown)"
  /\ Platform.getDeviceType (fst (Platform.detectPlatform "curl/8.4.0")) = "unknown".
Proof.
  destruct (unrecognised_platform_name "curl/8.4.0") as [H _].
  destruct H as [H1 H2]; [vm_compute; reflexivity|].
  split; [rewrite H1; vm_compute; reflexivity|exact H2].
Defined.

(** * A part of the state that a handler leaves alone *)

Lemma fixes_refl {X} (f : State -> X) st : fixes f st st.
Proof. reflexivity. Qed.

Lemma fixes_trans {X} (f : State -> X) a b c : fixes f a b -> fixes f b c -> fixes f a c.
Proof. unfold fixes. congruence. Qed.

Lemma triple_exec {A} (st0 : State) (m : M A) (P : State -> Prop) :
  triple (at_ st0) m (fun _ => P) P -> P (exec m st0).
Proof.
  intros H. specialize (H st0 eq_refl). unfold exec.
  destruct (m st0) as [[a|e] st1]; exact H.
Qed.

Lemma keeps_exec {A} (R : State -> State -> Prop) (m : M A) (st : State) :
  keeps R m -> R st (exec m st).
Proof. intros H. apply H. Qed.

Lemma keeps_weaken {A} (R R' : State -> State -> Prop) (m : M A) :
  (forall st st', R st st' -> R' st st') -> keeps R m -> keeps R' m.
Proof. intros H Hk st. apply H, Hk. Qed.

(** Steps of a [keeps] proof for a relation with the given proofs of
    reflexivity, transitivity and indifference to frames and channel
    states; [leaf] closes the assignments. *)
Ltac keeps_steps Rrefl Rtrans Routbox Rsockets leaf :=
  repeat first
    [ apply keeps_ret; exact Rrefl
    | apply keeps_throw; exact Rrefl
    | apply keeps_gets; exact Rrefl
    | apply keeps_property; exact Rrefl
    | apply keeps_openOpt; exact Rrefl
    | apply keeps_wsOpen; exact Rrefl
    | progress unfold saveDevices
    | progress unfold saveRooms
    | apply keeps_notify; [exact Rrefl|exact Routbox]
    | apply keeps_notifyOnline; [exact Rrefl|exact Routbox]
    | apply keeps_sendTo; [exact Rrefl|exact Routbox]
    | apply keeps_wsSend; [exact Rrefl|exact Routbox]
    | apply keeps_wsClose; [exact Rrefl|exact Rtrans|exact Routbox|exact Rsockets]
    | apply keeps_broadcastDeviceList; [exact Rrefl|exact Rtrans|exact Routbox]
    | apply keeps_broadcastToRoom; [exact Rrefl|exact Rtrans|exact Routbox]
    | leaf
    | apply keeps_tryCatch; [exact Rtrans| |intros]
    | apply keeps_forEach; [exact Rrefl|exact Rtrans|intros]
    | apply keeps_bind; [exact Rtrans| |intros]
    | match goal with
      | |- keeps _ (match ?x with _ => _ end) => destruct x
      | |- keeps _ (let '(_, _) := ?x in _) => destruct x
      end ].

(** An assignment that leaves [f] alone. *)
Ltac fixes_leaf :=
  apply keeps_modify; intros; unfold fixes;
  repeat match goal with
         | |- context [match ?x with _ => _ end] => destruct x
         end; reflexivity.

Ltac fixes_steps f :=
  keeps_steps (fixes_refl f) (fixes_trans f)
    (fun st o => eq_refl : fixes f st (set_outbox o st))
    (fun st s => eq_refl : fixes f st (set_sockets s st))
    fixes_leaf.

Lemma fixes_rooms_sameRooms {A} (m : M A) : keeps sameRooms m -> keeps (fixes rooms) m.
Proof. apply keeps_weaken. intros st st' [H _]. exact H. Qed.

Lemma fixes_rooms_onConnection ws req now : keeps (fixes rooms) (onConnection ws req now).
Proof.
  unfold onConnection, getDevice, updateDevice, setupIOSHeartbeat, addTimer.
  fixes_steps rooms.
Qed.

(** Steps of a proof that a handler returns. *)
Ltac returns_steps :=
  repeat first
    [ apply returns_ret
    | apply returns_gets
    | apply returns_modify
    | apply returns_openOpt
    | apply returns_wsClose
    | apply returns_broadcastToRoom
    | apply returns_broadcastDeviceList
    | apply returns_tryCatch_ret
    | apply returns_forEach; intros
    | apply returns_bind; [|intros]
    | match goal with
      | |- returns (match ?x with _ => _ end) => destruct x
      end ].

(** From a known state, a handler that keeps [R] and returns. *)
Lemma at_keeps_returns {A} (R : State -> State -> Prop) (st0 : State) (m : M A)
    (E : State -> Prop) :
  keeps R m -> returns m -> triple (at_ st0) m (fun _ => R st0) E.
Proof.
  intros Hk Hr st ->. specialize (Hk st0). destruct (Hr st0) as [a Ha].
  destruct (m st0) as [[a'|e] st1]; [exact Hk|discriminate Ha].
Qed.

(** * Who changes the room registry *)

Lemma membershipKept_sameRooms st st' : sameRooms st st' -> membershipKept st st'.
Proof.
  intros [Hr Hd]. split; [exact Hr|]. intros id D HD. specialize (Hd id).
  rewrite HD in Hd. destruct (sget id (devices st')) as [D'|]; [|discriminate].
  exists D'. split; [reflexivity|]. simpl in Hd. congruence.
Qed.

Lemma membershipKept_trans a b c :
  membershipKept a b -> membershipKept b c -> membershipKept a c.
Proof.
  intros [H1 H2] [H3 H4]. split; [congruence|]. intros id D HD.
  destruct (H2 id D HD) as (D1 & HD1 & E1). destruct (H4 id D1 HD1) as (D2 & HD2 & E2).
  exists D2. split; [exact HD2|congruence].
Qed.

Lemma membershipKept_registries st st' : fixes registries st st' -> membershipKept st st'.
Proof.
  unfold fixes, registries. intros H. injection H as Hr Hd. split; [exact Hr|].
  intros id D HD. exists D. rewrite Hd. auto.
Qed.

Lemma membershipKept_onConnection ws req now st :
  membershipKept st (exec (onConnection ws req now) st).
Proof.
  apply triple_exec. unfold onConnection.
  destruct (Platform.detectPlatform _) as [platform browser].
  set (deviceId := Identity.generateStableDeviceId _ req).
  assert (Hkeep : forall A (m : M A) st1, membershipKept st st1 ->
            keeps (fixes registries) m ->
            triple (at_ st1) m (fun _ => membershipKept st) (membershipKept st)).
  { intros A m st1 H1 Hk. eapply triple_conseq; [apply (at_keeps _ st1 m Hk)| | |].
    - auto.
    - intros u s Hs. apply (membershipKept_trans _ st1); [exact H1|].
      apply membershipKept_registries, Hs.
    - intros s Hs. apply (membershipKept_trans _ st1); [exact H1|].
      apply membershipKept_registries, Hs. }
  eapply triple_bind; [apply (Hkeep _ _ st); [apply membershipKept_registries; reflexivity|]|].
  { fixes_steps registries. }
  intros []. eapply triple_bind with (Q1 := fun _ => membershipKept st).
  { apply triple_at. intros st1 H1. apply (Hkeep _ _ st1 H1). fixes_steps registries. }
  intros []. apply triple_at. intros st1 H1. unfold getDevice. apply step_gets.
  eapply triple_bind with (Q1 := fun _ => membershipKept st).
  { destruct (sget deviceId (devices st1)) as [D0|] eqn:HD0.
    - unfold updateDevice. intros s ->. unfold modify. cbv beta. rewrite HD0.
      apply (membershipKept_trans _ st1); [exact H1|]. split; [reflexivity|].
      intros id D HD. cbn [devices set_devices set_devicesFile set_roomsFile].
      destruct (String.eqb_spec deviceId id) as [<-|Hne].
      + rewrite sget_sset_eq. eexists. split; [reflexivity|]. cbn. congruence.
      + rewrite sget_sset_ne by exact Hne. exists D. auto.
    - intros s ->. unfold modify.
      apply (membershipKept_trans _ st1); [exact H1|]. split; [reflexivity|].
      intros id D HD. cbn [devices set_devices set_devicesFile set_roomsFile].
      rewrite sget_sset_ne by congruence. exists D. auto. }
  intros []. apply triple_at. intros st2 H2. apply (Hkeep _ _ st2 H2).
  unfold setupIOSHeartbeat, addTimer. fixes_steps registries.
Qed.

Lemma sameRooms_dispatch now rnd deviceId data :
  touchesRooms (EvMessage 0%nat (Some data) now rnd) = false ->
  keeps sameRooms (dispatch now rnd deviceId data).
Proof.
  destruct data; cbn [touchesRooms dispatch]; intros H; try discriminate H.
  - apply sameRooms_handleClientIdentify.
  - unfold handleDeviceInfo. same_rooms.
  - apply sameRooms_handleDeviceInfo.
  - apply sameRooms_handleFileTransfer.
  - apply sameRooms_handleFileChunk.
  - apply sameRooms_handleFileComplete.
  - apply sameRooms_handleUpdateDeviceName.
  - apply sameRooms_handleFileProgress.
  - apply sameRooms_handlePing.
  - apply sameRooms_handleTransferComplete.
  - apply sameRooms_handleFileDownload.
  - apply sameRooms_handleRequestMissingChunks.
  - apply sameRooms_handleTransferRejected.
  - apply sameRooms_handleTransferAccepted.
  - apply sameRooms_handleTogglePinDevice.
  - apply sameRooms_handleFileCancel.
  - same_rooms.
Qed.

(** X5 - membership changes only by [joinRoom], [createRoom], [leaveRoom]
    and the janitor: every other event (a connection, a close, any other
    message, also one that fails, a timer, the DELETE route) leaves the rooms
    as they are and every registered device registered and naming the same
    room. *)
Theorem only_room_events_change_membership (st : State) (ev : Event) :
  touchesRooms ev = false ->
  rooms (step st ev) = rooms st
  /\ forall id D, sget id (devices st) = Some D ->
       exists D', sget id (devices (step st ev)) = Some D' /\ d_roomId D' = d_roomId D.
Proof.
  intros Hev. change (membershipKept st (step st ev)).
  destruct ev as [ws req now|ws message now rnd|ws now|ws|i now|now|transferId now];
    try discriminate Hev; unfold step; cbn [handle].
  - unfold exec, bind, gets. destruct (wget ws (sockets st)) as [s|].
    + apply membershipKept_sameRooms, sameRooms_refl.
    + unfold modify. cbn [fst snd].
      apply (membershipKept_trans _ (set_sockets (wset ws OPEN (sockets st)) st)).
      * apply membershipKept_sameRooms, sameRooms_sockets.
      * apply membershipKept_onConnection.
  - apply membershipKept_sameRooms. apply keeps_exec.
    apply (keeps_bind sameRooms sameRooms_trans); [same_rooms|]. intros [deviceId|]; [|same_rooms].
    unfold onMessage. apply (keeps_tryCatch sameRooms sameRooms_trans).
    + apply (keeps_bind sameRooms sameRooms_trans).
      * apply keeps_modify. intros s.
        destruct (wget ws (activeConnections s)); split; reflexivity.
      * intros []. destruct message as [data|]; cbn [property].
        -- change (keeps sameRooms (handleMessage now rnd deviceId data)).
           unfold handleMessage. apply (keeps_tryCatch sameRooms sameRooms_trans).
           ++ apply sameRooms_dispatch. destruct data; try discriminate Hev; reflexivity.
           ++ intros e. same_rooms.
        -- same_rooms.
    + intros e. unfold wsOpen. same_rooms.
  - apply membershipKept_sameRooms. apply keeps_exec.
    unfold onClose, clearHeartbeat. same_rooms.
  - apply membershipKept_sameRooms. apply keeps_exec. unfold clearHeartbeat. same_rooms.
  - apply membershipKept_sameRooms. apply keeps_exec.
    unfold fireTimer, runTask, clearHeartbeat, wsOpen. same_rooms.
  - apply membershipKept_sameRooms. apply keeps_exec.
    unfold httpDeleteTransfer, deleteTransfer. same_rooms.
Qed.

Lemma only_room_events_change_membership_witness :
  rooms (step Scenario.paired (EvClose 2%nat 1010)) = rooms Scenario.paired
  /\ option_map d_roomId (sget Scenario.idB (devices (step Scenario.paired (EvClose 2%nat 1010))))
     = Some (Some Scenario.roomFoo).
Proof.
  destruct (only_room_events_change_membership Scenario.paired (EvClose 2%nat 1010) eq_refl)
    as [Hrooms Hdevices].
  split; [exact Hrooms|].
  edestruct Hdevices with (id := Scenario.idB) as (D' & HD' & Hroom).
  - vm_compute. reflexivity.
  - rewrite HD'. cbn [option_map]. rewrite Hroom. vm_compute. reflexivity.
Defined.

(** * Closing a channel *)

Lemma wget_wdelete_eq {V} (k : Ws) (m : list (Ws * V)) : wget k (wdelete k m) = None.
Proof. apply mapGet_mapDelete_eq. Qed.

(** X6 - the close of a channel marks the device it was accepted for as
    offline and clears the device's channel, whichever channel the device is
    bound to at that time: when the client has reconnected on another
    channel that is still OPEN, the close of the old one leaves the device
    offline and without channel. *)
Theorem close_marks_the_device_offline (st : State) (ws : Ws) (now : Z)
    (d : string) (D : Device) :
  wget ws (connections st) = Some d ->
  sget d (devices st) = Some D ->
  sget d (devices (step st (EvClose ws now)))
  = Some (set_d_ws None (set_d_lastSeen now (set_d_online false D)))
  /\ wget ws (connections (step st (EvClose ws now))) = None
  /\ wget ws (activeConnections (step st (EvClose ws now))) = None.
Proof.
  intros Hconn HD. unfold step. cbn [handle].
  apply (triple_exec st _
           (fun s => sget d (devices s)
                     = Some (set_d_ws None (set_d_lastSeen now (set_d_online false D)))
                     /\ wget ws (connections s) = None
                     /\ wget ws (activeConnections s) = None)).
  apply step_gets. rewrite Hconn. apply step_modify.
  unfold onClose, getDevice. apply step_gets. cbn [devices set_sockets set_devicesFile set_roomsFile]. rewrite HD.
  eapply triple_bind with
    (Q1 := fun _ s => sget d (devices s)
                      = Some (set_d_ws None (set_d_lastSeen now (set_d_online false D)))).
  - unfold updateDevice. apply step_modify. cbn [devices set_sockets set_devicesFile set_roomsFile]. rewrite HD.
    set (st2 := set_devices _ _).
    eapply triple_conseq; [apply (at_keeps_returns (fixes devices) st2)| | |].
    + unfold getRoom. fixes_steps devices.
    + unfold getRoom. returns_steps.
    + auto.
    + intros u s Hs. rewrite Hs. unfold st2. cbn [devices set_devices set_devicesFile set_roomsFile]. apply sget_sset_eq.
    + intros s Hs. exact Hs.
  - intros []. apply triple_at. intros s Hs. apply step_modify. apply step_modify.
    unfold saveDevices. apply step_modify. unfold clearHeartbeat. intros s' ->. unfold modify.
    cbn [devices connections activeConnections set_timers set_connections
         set_activeConnections set_devicesFile set_roomsFile].
    split; [exact Hs|]. split; apply wget_wdelete_eq.
Qed.

(** The client of [Scenario.twice] is bound to channel 2 when its first
    channel closes. *)
Lemma close_marks_the_device_offline_witness :
  option_map d_ws (sget Scenario.idA (devices Scenario.twice)) = Some (Some 2%nat)
  /\ readyStateOf Scenario.twice 2%nat = OPEN
  /\ option_map (fun D => (d_ws D, d_online D))
       (sget Scenario.idA (devices (step Scenario.twice (EvClose 1%nat 3000))))
     = Some (None, false).
Proof.
  split; [vm_compute; reflexivity|]. split; [vm_compute; reflexivity|].
  edestruct close_marks_the_device_offline
    with (st := Scenario.twice) (ws := 1%nat) (now := 3000) (d := Scenario.idA)
    as (Hdev & _ & _).
  - vm_compute. reflexivity.
  - vm_compute. reflexivity.
  - rewrite Hdev. reflexivity.
Defined.

(** * Failures and replies of the socket handlers *)

Lemma returns_onMessage ws deviceId message now rnd :
  returns (onMessage ws deviceId message now rnd).
Proof.
  intros st. unfold onMessage, tryCatch.
  match goal with |- context [?m st] =>
    match m with bind _ _ => destruct (m st) as [[[]|e] st1] end end;
    [exists tt; reflexivity|].
  unfold bind, wsOpen, gets, wsSend. cbv beta iota.
  destruct (isOpen (readyStateOf st1 ws)) eqn:E; cbv beta iota; rewrite ?E;
    exists tt; reflexivity.
Qed.

Lemma returns_onConnection ws req now : returns (onConnection ws req now).
Proof.
  unfold onConnection. destruct (Platform.detectPlatform _) as [platform browser].
  unfold getDevice, updateDevice, setupIOSHeartbeat, addTimer. returns_steps.
Qed.

Lemma returns_onClose ws deviceId now : returns (onClose ws deviceId now).
Proof.
  unfold onClose, getDevice, getRoom, updateDevice, saveDevices, clearHeartbeat.
  returns_steps.
Qed.

(** X7 - the three socket handlers never throw: whatever the state and the
    input (a text that is not JSON, an unknown type, a message whose handler
    fails, a device that is not registered, a closed channel), the
    connection handler, the message handler and the close handler return. *)
Theorem socket_handlers_never_throw (st : State) :
  (forall ws req now, fst (onConnection ws req now st) = Ret tt)
  /\ (forall ws deviceId message now rnd,
        fst (onMessage ws deviceId message now rnd st) = Ret tt)
  /\ (forall ws deviceId now, fst (onClose ws deviceId now st) = Ret tt).
Proof.
  split; [|split]; intros.
  - destruct (returns_onConnection ws req now st) as [[] H]. exact H.
  - destruct (returns_onMessage ws deviceId message now rnd st) as [[] H]. exact H.
  - destruct (returns_onClose ws deviceId now st) as [[] H]. exact H.
Qed.

(** X8 - a handler that throws is answered on the device's channel: when
    the handler of a message throws, in a state where the device is
    registered with an OPEN channel, [handleMessage] returns and the only
    thing it adds to what the handler had done is the frame
    [error "Interner Server Fehler"] for that channel. *)
Theorem handler_failure_is_answered (now : Z) (rnd deviceId : string) (data : Msg)
    (st st1 : State) (e : Exn) (D : Device) (w : Ws) :
  dispatch now rnd deviceId data st = (Throw e, st1) ->
  sget deviceId (devices st1) = Some D -> d_ws D = Some w ->
  readyStateOf st1 w = OPEN ->
  handleMessage now rnd deviceId data st
  = (Ret tt, set_outbox (outbox st1 ++ [(w, ErrorFrame "Interner Server Fehler")]) st1).
Proof.
  intros Hthrow HD Hw Hopen. unfold handleMessage, tryCatch. rewrite Hthrow.
  unfold bind, getDevice, gets. rewrite HD, Hw. cbn [openOpt]. unfold wsOpen, gets.
  rewrite Hopen. cbn [isOpen sendTo]. apply wsSend_open, Hopen.
Qed.

(** A [fileCancel] for the offered transfer fails in [updateMemoryUsage]. *)
Lemma handler_failure_is_answered_witness :
  handleMessage 1008 "" Scenario.idA (FileCancel "t1") Scenario.offeredState
  = (Ret tt,
     set_outbox
       (outbox (charged (-9) Scenario.offeredState)
        ++ [(1%nat, ErrorFrame "Interner Server Fehler")])
       (charged (-9) Scenario.offeredState)).
Proof.
  eapply (handler_failure_is_answered 1008 "" Scenario.idA (FileCancel "t1")
            Scenario.offeredState (charged (-9) Scenario.offeredState)).
  - vm_compute. reflexivity.
  - vm_compute. reflexivity.
  - vm_compute. reflexivity.
  - vm_compute. reflexivity.
Defined.

(** X9 - messages the server cannot read: a text that is not JSON is
    answered with [error "Nachrichtenfehler"] on the channel it came in on,
    and a message of a type the server does not know with
    [error "Unbekannter Nachrichtentyp: <type>"] on the channel of the
    device; in both cases only when that channel is OPEN, and nothing else
    changes but the [lastActivity] of the channel. *)
Theorem unreadable_messages_are_answered (ws : Ws) (deviceId : string) (now : Z)
    (rnd : string) (st : State) :
  onMessage ws deviceId None now rnd st
  = (Ret tt, answered (Some ws) (ErrorFrame "Nachrichtenfehler") (touch ws now st))
  /\ forall type,
       onMessage ws deviceId (Some (UnknownType type)) now rnd st
       = (Ret tt,
          answered
            (match sget deviceId (devices st) with Some D => d_ws D | None => None end)
            (ErrorFrame ("Unbekannter Nachrichtentyp: " ++ type)) (touch ws now st)).
Proof.
  split.
  - unfold onMessage, tryCatch, bind, modify, property, throw, wsOpen, gets, wsSend, answered.
    fold (touch ws now st).
    cbv beta iota.
    destruct (isOpen (readyStateOf (touch ws now st) ws)) eqn:E; cbv beta iota;
      rewrite ?E; reflexivity.
  - intros type.
    unfold onMessage, handleMessage, dispatch, tryCatch, bind, modify, property, getDevice,
      gets, ret, answered.
    fold (touch ws now st).
    assert (Hd : devices (touch ws now st) = devices st).
    { unfold touch. destruct (wget ws (activeConnections st)); reflexivity. }
    rewrite Hd. destruct (sget deviceId (devices st)) as [D|]; [|reflexivity].
    destruct (d_ws D) as [w|]; cbn [openOpt]; [|reflexivity].
    unfold wsOpen, gets, sendTo, wsSend.
    cbv beta iota.
    destruct (isOpen (readyStateOf (touch ws now st) w)) eqn:E; cbv beta iota;
      rewrite ?E; reflexivity.
Qed.

(** * Rooms: names, refusals and leaving *)

(** X10 - room names stay unique: in every state the server reaches no two
    rooms have the same name up to case, no room has an empty name, and no
    room id is bound twice. *)
Theorem room_names_stay_unique (sendThrows : bool) (st : State) :
  reachable sendThrows st ->
  NoDup (map fst (rooms st))
  /\ (forall B r, sget B (rooms st) = Some r -> r_name r <> "")
  /\ (forall B1 r1 B2 r2,
        sget B1 (rooms st) = Some r1 -> sget B2 (rooms st) = Some r2 ->
        JS.toLowerCase (r_name r1) = JS.toLowerCase (r_name r2) -> B1 = B2).
Proof. intros H. exact (reachable_named sendThrows st H). Qed.

Lemma room_names_stay_unique_witness :
  NoDup (map fst (rooms Scenario.twoRooms))
  /\ (forall B r, sget B (rooms Scenario.twoRooms) = Some r -> r_name r <> "")
  /\ (forall B1 r1 B2 r2,
        sget B1 (rooms Scenario.twoRooms) = Some r1 ->
        sget B2 (rooms Scenario.twoRooms) = Some r2 ->
        JS.toLowerCase (r_name r1) = JS.toLowerCase (r_name r2) -> B1 = B2).
Proof.
  apply (room_names_stay_unique false Scenario.twoRooms).
  apply reachable_step, reachable_run, reachable_init.
Defined.

Lemma blank_test (s : string) :
  JS.trim s = "" -> (negb (JS.truthy s) || String.eqb (JS.trim s) "")%bool = true.
Proof. intros H. rewrite H. apply orb_true_r. Qed.

(** The answer to a room request that is refused: one [roomError] frame on
    the device's channel. *)
Lemma room_refusal (st : State) (w : Ws) (message : string) :
  readyStateOf st w = OPEN ->
  sendTo (Some w) (RoomError message) st
  = (Ret tt, set_outbox (outbox st ++ [(w, RoomError message)]) st).
Proof. intros H. apply wsSend_open, H. Qed.

(** X11 - a room name that is taken is refused: when a room exists whose
    name equals the requested one up to case and surrounding white space,
    [createRoom] answers [roomError "Raum existiert bereits"] and changes
    nothing: no room is created and the device stays where it is. *)
Theorem createRoom_refuses_a_taken_name (now : Z) (rnd d : string) (D : Device) (w : Ws)
    (roomName roomId : option string) (B : string) (rB : Room) (st : State) :
  sget d (devices st) = Some D -> d_ws D = Some w -> readyStateOf st w = OPEN ->
  JS.trim (JS.orElse (JS.orOpt roomName roomId) "") <> "" ->
  sget B (rooms st) = Some rB ->
  JS.toLowerCase (r_name rB)
  = JS.trim (JS.toLowerCase (JS.orElse (JS.orOpt roomName roomId) "")) ->
  handleCreateRoom now rnd d roomName roomId st
  = (Ret tt, set_outbox (outbox st ++ [(w, RoomError "Raum existiert bereits")]) st).
Proof.
  intros HD Hw Hopen Hname HB Hsame.
  unfold handleCreateRoom, bind, getDevice, gets. cbv zeta.
  rewrite (nonblank_test _ Hname).
  destruct (findRoomByName _ (rooms st)) as [p|] eqn:Hfind.
  - rewrite HD. cbn [property ret]. rewrite Hw. apply room_refusal, Hopen.
  - exfalso. apply (findRoomByName_In _ (rooms st) B rB (sget_In _ _ _ HB) Hsame Hfind).
Qed.

(** The second device asks for a room " FOO " while "Foo" exists. *)
Lemma createRoom_refuses_a_taken_name_witness :
  handleCreateRoom 1005 "xyz" Scenario.idB (Some " FOO ") None Scenario.created
  = (Ret tt,
     set_outbox (outbox Scenario.created ++ [(2%nat, RoomError "Raum existiert bereits")])
       Scenario.created).
Proof.
  eapply (createRoom_refuses_a_taken_name 1005 "xyz" Scenario.idB _ 2%nat (Some " FOO ") None
            Scenario.roomFoo _ Scenario.created).
  - vm_compute. reflexivity.
  - vm_compute. reflexivity.
  - vm_compute. reflexivity.
  - vm_compute. discriminate.
  - vm_compute. reflexivity.
  - vm_compute. reflexivity.
Defined.

(** X12 - a blank room name is refused: when the name a [joinRoom] or a
    [createRoom] carries is absent, empty or white space only, the answer is
    [roomError "Raumname darf nicht leer sein"] and nothing else changes. *)
Theorem blank_room_name_is_refused (now : Z) (rnd d : string) (D : Device) (w : Ws)
    (roomName roomId : option string) (st : State) :
  sget d (devices st) = Some D -> d_ws D = Some w -> readyStateOf st w = OPEN ->
  JS.trim (JS.orElse (JS.orOpt roomName roomId) "") = "" ->
  handleJoinRoom d roomName roomId st
  = (Ret tt, set_outbox (outbox st ++ [(w, RoomError "Raumname darf nicht leer sein")]) st)
  /\ handleCreateRoom now rnd d roomName roomId st
     = (Ret tt,
        set_outbox (outbox st ++ [(w, RoomError "Raumname darf nicht leer sein")]) st).
Proof.
  intros HD Hw Hopen Hblank. split.
  - unfold handleJoinRoom, bind, getDevice, gets. cbv zeta.
    rewrite (blank_test _ Hblank), HD. cbn [property ret]. rewrite Hw.
    apply room_refusal, Hopen.
  - unfold handleCreateRoom, bind, getDevice, gets. cbv zeta.
    rewrite (blank_test _ Hblank), HD. cbn [property ret]. rewrite Hw.
    apply room_refusal, Hopen.
Qed.

Lemma blank_room_name_is_refused_witness :
  handleJoinRoom Scenario.idB (Some "   ") None Scenario.created
  = (Ret tt,
     set_outbox
       (outbox Scenario.created ++ [(2%nat, RoomError "Raumname darf nicht leer sein")])
       Scenario.created)
  /\ handleCreateRoom 0 "" Scenario.idB (Some "   ") None Scenario.created
     = (Ret tt,
        set_outbox
          (outbox Scenario.created ++ [(2%nat, RoomError "Raumname darf nicht leer sein")])
          Scenario.created).
Proof.
  eapply (blank_room_name_is_refused 0 "" Scenario.idB _ 2%nat (Some "   ") None
            Scenario.created).
  - vm_compute. reflexivity.
  - vm_compute. reflexivity.
  - vm_compute. reflexivity.
  - vm_compute. reflexivity.
Defined.

Lemma handleLeaveRoom_no_room (d : string) (D : Device) (st : State) :
  sget d (devices st) = Some D -> JS.truthyOpt (d_roomId D) = false ->
  handleLeaveRoom d st = (Ret tt, st).
Proof.
  intros HD Hroom. unfold handleLeaveRoom, bind, getDevice, gets. rewrite HD.
  cbn [property ret]. destruct (d_roomId D) as [A|]; [|reflexivity].
  cbn [JS.truthyOpt] in Hroom. rewrite Hroom. reflexivity.
Qed.

Lemma handleLeaveRoom_leaves (d : string) (st : State) :
  triple (at_ st) (handleLeaveRoom d)
    (fun _ s => exists D', sget d (devices s) = Some D'
                           /\ JS.truthyOpt (d_roomId D') = false)
    (fun _ => True).
Proof.
  unfold handleLeaveRoom, getDevice. apply step_gets.
  destruct (sget d (devices st)) as [D|] eqn:HD; cbn [property];
    [apply step_ret|apply step_throw; exact I].
  destruct (d_roomId D) as [A|] eqn:HA.
  - destruct (JS.truthy A) eqn:Htruthy; cbn [negb].
    + unfold getRoom. apply step_gets.
      eapply triple_bind; [apply (leave_room_part d A D st (fun _ => True))|].
      intros []. apply triple_at. intros st1 [fr ->].
      unfold updateDevice. apply step_modify. cbn [devices set_outbox set_rooms set_devicesFile set_roomsFile].
      rewrite HD.
      apply step_writes; [apply writesOnly_sendTo|intros; exact I|].
      intros fr' []. unfold saveDevices, saveRooms. apply step_modify. apply done_modify. saved.
      cbn [devices set_outbox set_devices set_devicesFile set_roomsFile]. rewrite sget_sset_eq.
      eexists. split; reflexivity.
    + apply done_ret. exists D. rewrite HA. auto.
  - apply done_ret. exists D. rewrite HA. auto.
Qed.

(** X13 - leaving is idempotent: after a [leaveRoom] that returned, the
    device names no room, and a second [leaveRoom] writes no frame and
    changes nothing. *)
Theorem leaveRoom_twice (d : string) (st st1 : State) :
  handleLeaveRoom d st = (Ret tt, st1) ->
  (exists D', sget d (devices st1) = Some D' /\ JS.truthyOpt (d_roomId D') = false)
  /\ handleLeaveRoom d st1 = (Ret tt, st1).
Proof.
  intros Hrun. pose proof (handleLeaveRoom_leaves d st st eq_refl) as H.
  rewrite Hrun in H. destruct H as (D' & HD' & Hroom).
  split; [exists D'; auto|]. apply (handleLeaveRoom_no_room d D' st1 HD' Hroom).
Qed.

Lemma leaveRoom_twice_witness :
  exists st1,
    handleLeaveRoom Scenario.idB Scenario.paired = (Ret tt, st1)
    /\ option_map d_roomId (sget Scenario.idB (devices Scenario.paired))
       = Some (Some Scenario.roomFoo)
    /\ handleLeaveRoom Scenario.idB st1 = (Ret tt, st1).
Proof.
  exists (snd (handleLeaveRoom Scenario.idB Scenario.paired)).
  assert (Hrun : handleLeaveRoom Scenario.idB Scenario.paired
                 = (Ret tt, snd (handleLeaveRoom Scenario.idB Scenario.paired))).
  { vm_compute. reflexivity. }
  split; [exact Hrun|]. split; [vm_compute; reflexivity|].
  exact (proj2 (leaveRoom_twice _ _ _ Hrun)).
Defined.

(** A join whose name finds room [B], by a device whose channel is OPEN,
    when the leave that precedes it has deleted [B]. *)
Lemma handleJoinRoom_deleted (d : string) (D : Device) (w : Ws) (B : string) (r0 : Room)
    (roomName roomId : option string) (st0 : State) :
  sget d (devices st0) = Some D -> d_ws D = Some w -> readyStateOf st0 w = OPEN ->
  JS.trim (JS.orElse (JS.orOpt roomName roomId) "") <> "" ->
  findRoomByName (JS.trim (JS.toLowerCase (JS.orElse (JS.orOpt roomName roomId) "")))
    (rooms st0) = Some (B, r0) ->
  sget B (priorLeave d D (rooms st0)) = None ->
  exists st' fr0 fr2,
    handleJoinRoom d roomName roomId st0 = (Ret tt, st')
    /\ leftFrames w D fr0
    /\ outbox st'
       = (outbox st0 ++ fr0
          ++ [(w, RoomJoined B (r_name r0)
                    (List.length (setAdd d (setDelete d (r_devices r0)))))]
          ++ fr2)%list
    /\ rooms st' = priorLeave d D (rooms st0)
    /\ option_map d_roomId (sget d (devices st')) = Some (Some B).
Proof.
  intros HD Hw Hopen Hname Hfind HB.
  assert (Hrun : triple (at_ st0) (handleJoinRoom d roomName roomId)
            (fun _ st' => exists fr0 fr2,
               leftFrames w D fr0
               /\ outbox st'
                  = (outbox st0 ++ fr0
                     ++ [(w, RoomJoined B (r_name r0)
                               (List.length (setAdd d (setDelete d (r_devices r0)))))]
                     ++ fr2)%list
               /\ rooms st' = priorLeave d D (rooms st0)
               /\ option_map d_roomId (sget d (devices st')) = Some (Some B))
            (fun _ => False)).
  { unfold handleJoinRoom, getDevice. apply step_gets. cbv zeta.
    rewrite (nonblank_test _ Hname). apply step_gets. rewrite Hfind, HD.
    cbn [property]. apply step_ret.
    eapply triple_bind; [apply (leave_phase d D w st0 HD Hw Hopen)|].
    intros []. apply triple_at.
    intros st1 (Hrooms & [D1 HD1] & Hsock & fr0 & Hout & Hfr0).
    unfold updateDevice. apply step_modify. rewrite HD1.
    unfold getRoom. apply step_gets. cbn [rooms set_devices set_devicesFile set_roomsFile].
    rewrite Hrooms, HB.
    unfold updateRoom. apply step_modify. cbn [rooms set_devices set_devicesFile set_roomsFile].
    rewrite Hrooms, HB.
    rewrite Hw. apply step_send.
    { unfold readyStateOf. cbn [sockets set_rooms set_devices set_devicesFile set_roomsFile]. rewrite Hsock.
      exact Hopen. }
    apply step_writes_returns;
      [apply writesOnly_broadcastDeviceList|apply returns_broadcastDeviceList|].
    intros fr1 [].
    apply step_writes_returns;
      [apply writesOnly_broadcastToRoom|apply returns_broadcastToRoom|].
    intros fr2 []. unfold saveDevices, saveRooms. apply step_modify. apply done_modify. saved.
    exists fr0, (fr1 ++ fr2)%list.
    cbn [rooms devices outbox set_outbox set_rooms set_devices r_devices r_name
         set_r_devices set_devicesFile set_roomsFile].
    split; [exact Hfr0|]. split.
    - rewrite Hout. rewrite <- !app_assoc. reflexivity.
    - split; [exact Hrooms|]. rewrite sget_sset_eq. reflexivity. }
  destruct (triple_run st0 _ _ Hrun) as ([] & st' & Heq & fr0 & fr2 & H).
  exists st', fr0, fr2. split; [exact Heq|exact H].
Qed.

(** X14 - a device whose [roomId] names a room of which it is the only
    member, and which joins that room by a name that finds it: the leave that
    precedes every join deletes the room, the join then works on the deleted
    room, and the device is told [roomLeft] and [roomJoined] with a count of
    1, names the room in its [roomId], and the room is gone from the
    registry. *)
Theorem rejoining_one_s_own_room_deletes_it (st : State)
    (d : string) (D : Device) (w : Ws) (B : string) (rB : Room)
    (roomName roomId : option string) :
  sget B (rooms st) = Some rB -> r_devices rB = [d] ->
  sget d (devices st) = Some D -> d_roomId D = Some B -> B <> "" ->
  d_ws D = Some w -> readyStateOf st w = OPEN ->
  JS.trim (JS.orElse (JS.orOpt roomName roomId) "") <> "" ->
  findRoomByName (JS.trim (JS.toLowerCase (JS.orElse (JS.orOpt roomName roomId) "")))
    (rooms st) = Some (B, rB) ->
  exists st' fr1 fr2,
    handleJoinRoom d roomName roomId st = (Ret tt, st')
    /\ outbox st'
       = (outbox st ++ fr1 ++ [(w, RoomLeft); (w, RoomJoined B (r_name rB) 1)] ++ fr2)%list
    /\ sget B (rooms st') = None
    /\ option_map d_roomId (sget d (devices st')) = Some (Some B).
Proof.
  intros HB Hsole HD Hroom Hid Hw Hopen Hname Hfind.
  assert (Htruthy : JS.truthy B = true) by (destruct B; [congruence|reflexivity]).
  assert (Hgone : sget B (priorLeave d D (rooms st)) = None).
  { rewrite (priorLeave_member d B D _ Hroom Htruthy), (sget_leaveRooms_self d B _ rB HB).
    unfold remainderOf, setDelete. rewrite Hsole. cbn [filter].
    rewrite String.eqb_refl. reflexivity. }
  destruct (handleJoinRoom_deleted d D w B rB roomName roomId st HD Hw Hopen Hname Hfind
              Hgone) as (st' & fr0 & fr2 & Heq & Hfr0 & Hout & Hrooms & Hdev).
  destruct (leftFrames_member w B D fr0 Hroom Htruthy Hfr0) as [fr1 ->].
  exists st', fr1, fr2. split; [exact Heq|]. split.
  { rewrite Hout, Hsole. unfold setDelete, setAdd. cbn [filter].
    rewrite String.eqb_refl. cbn [negb existsb app List.length].
    rewrite <- !app_assoc. reflexivity. }
  split; [rewrite Hrooms; exact Hgone|exact Hdev].
Qed.

(** The first device, alone in "Foo", joins "foo". *)
Lemma rejoining_one_s_own_room_deletes_it_witness :
  exists st' fr1 fr2,
    handleJoinRoom Scenario.idA (Some "foo") None Scenario.created = (Ret tt, st')
    /\ outbox st'
       = (outbox Scenario.created ++ fr1
          ++ [(1%nat, RoomLeft); (1%nat, RoomJoined Scenario.roomFoo "Foo" 1)] ++ fr2)%list
    /\ sget Scenario.roomFoo (rooms st') = None
    /\ option_map d_roomId (sget Scenario.idA (devices st')) = Some (Some Scenario.roomFoo).
Proof.
  edestruct rejoining_one_s_own_room_deletes_it
    with (st := Scenario.created) (d := Scenario.idA) (w := 1%nat)
         (B := Scenario.roomFoo) (roomName := Some "foo") (roomId := @None string)
    as (st' & fr1 & fr2 & Heq & Hout & Hgone & Hd).
  - vm_compute. reflexivity.
  - vm_compute. reflexivity.
  - vm_compute. reflexivity.
  - vm_compute. reflexivity.
  - vm_compute. discriminate.
  - vm_compute. reflexivity.
  - vm_compute. reflexivity.
  - vm_compute. discriminate.
  - vm_compute. reflexivity.
  - exists st', fr1, fr2. split; [exact Heq|]. split; [exact Hout|].
    split; [exact Hgone|exact Hd].
Defined.

(** * Who gets a broadcast *)

Lemma broadcast_loop (st : State) (message : Frame) (excludeDeviceId : option string)
    (members : list string) (sent : list (Ws * Frame)) :
  forEach members (fun deviceId =>
    if match excludeDeviceId with
       | Some x => String.eqb deviceId x
       | None => false
       end
    then ret tt
    else
      device <- getDevice deviceId ;;
      match device with
      | Some d =>
          o <- openOpt (d_ws d) ;;
          if d_online d && o then
            tryCatch (sendTo (d_ws d) message) (fun _ => ret tt)
          else ret tt
      | None => ret tt
      end) (set_outbox (outbox st ++ sent) st)
  = (Ret tt,
     set_outbox
       (outbox st ++ sent
        ++ map (fun w => (w, message))
             (flat_map (fun deviceId =>
                if match excludeDeviceId with
                   | Some x => String.eqb deviceId x
                   | None => false
                   end
                then []
                else
                  match sget deviceId (devices st) with
                  | Some D =>
                      match d_ws D with
                      | Some w =>
                          if d_online D && isOpen (readyStateOf st w) then [w] else []
                      | None => []
                      end
                  | None => []
                  end) members)) st).
Proof.
  revert sent. induction members as [|x members IH]; intros sent.
  - cbn [forEach flat_map map]. rewrite app_nil_r. reflexivity.
  - cbn [forEach flat_map]. unfold bind at 1.
    destruct (match excludeDeviceId with
              | Some x0 => String.eqb x x0
              | None => false
              end).
    + cbn [ret app]. apply IH.
    + unfold bind at 1. unfold getDevice, gets. cbn [devices set_outbox set_devicesFile set_roomsFile].
      destruct (sget x (devices st)) as [D|]; [|cbn [ret app]; apply IH].
      unfold bind at 1. destruct (d_ws D) as [w|] eqn:Hw.
      * cbn [openOpt]. unfold wsOpen, gets.
        replace (readyStateOf (set_outbox (outbox st ++ sent) st) w)
          with (readyStateOf st w) by reflexivity.
        destruct (d_online D && isOpen (readyStateOf st w))%bool eqn:Hgo.
        -- apply andb_true_iff in Hgo. destruct Hgo as [_ Hopen].
           unfold tryCatch, sendTo.
           assert (Ho : readyStateOf (set_outbox (outbox st ++ sent) st) w = OPEN).
           { change (readyStateOf st w = OPEN).
             destruct (readyStateOf st w); try discriminate Hopen. reflexivity. }
           rewrite (wsSend_open w message _ Ho). cbn [outbox set_outbox set_devicesFile set_roomsFile].
           replace (set_outbox ((outbox st ++ sent) ++ [(w, message)])
                      (set_outbox (outbox st ++ sent) st))
             with (set_outbox (outbox st ++ (sent ++ [(w, message)])) st)
             by (rewrite app_assoc; destruct st; reflexivity).
           rewrite IH. cbn [app map]. rewrite <- !app_assoc. reflexivity.
        -- cbn [ret app]. apply IH.
      * cbn [openOpt ret andb]. rewrite andb_false_r. cbn [app]. apply IH.
Qed.

Lemma In_recipients (st : State) (roomId : string) (excludeDeviceId : option string)
    (w : Ws) :
  In w (recipients st roomId excludeDeviceId) ->
  exists r id D,
    sget roomId (rooms st) = Some r /\ In id (r_devices r)
    /\ excludeDeviceId <> Some id
    /\ sget id (devices st) = Some D /\ d_ws D = Some w
    /\ d_online D = true /\ readyStateOf st w = OPEN.
Proof.
  unfold recipients. destruct (sget roomId (rooms st)) as [r|]; [|intros []].
  intros Hin. apply in_flat_map in Hin. destruct Hin as (id & Hid & Hin).
  exists r, id.
  destruct (match excludeDeviceId with
            | Some x => String.eqb id x
            | None => false
            end) eqn:Hex; [destruct Hin|].
  destruct (sget id (devices st)) as [D|]; [|destruct Hin].
  destruct (d_ws D) as [w'|] eqn:Hw; [|destruct Hin].
  destruct (d_online D && isOpen (readyStateOf st w'))%bool eqn:Hgo; [|destruct Hin].
  destruct Hin as [<-|[]]. apply andb_true_iff in Hgo. destruct Hgo as [Hon Hopen].
  exists D. repeat split; auto.
  - intros Heq. subst excludeDeviceId. rewrite String.eqb_refl in Hex. discriminate.
  - destruct (readyStateOf st w'); try discriminate Hopen. reflexivity.
Qed.

(** X15 - who gets a broadcast: [broadcastToRoom] returns, changes nothing
    but the outbox, and writes the message once for each member of the room,
    in the order of joining, that is registered, online and bound to an OPEN
    channel, the excluded device apart; so no frame of a broadcast goes to a
    channel that is not OPEN, to a device outside the room or to the
    excluded device, and a room that does not exist gets nothing. *)
Theorem broadcastToRoom_writes_to_the_open_members (roomId : string) (message : Frame)
    (excludeDeviceId : option string) (st : State) :
  broadcastToRoom roomId message excludeDeviceId st
  = (Ret tt,
     set_outbox
       (outbox st ++ map (fun w => (w, message)) (recipients st roomId excludeDeviceId)) st)
  /\ (forall w, In w (recipients st roomId excludeDeviceId) ->
        exists r id D,
          sget roomId (rooms st) = Some r /\ In id (r_devices r)
          /\ excludeDeviceId <> Some id
          /\ sget id (devices st) = Some D /\ d_ws D = Some w
          /\ d_online D = true /\ readyStateOf st w = OPEN)
  /\ (sget roomId (rooms st) = None -> recipients st roomId excludeDeviceId = []).
Proof.
  split; [|split; [apply In_recipients|]].
  - unfold broadcastToRoom, bind, getRoom, gets, recipients.
    destruct (sget roomId (rooms st)) as [r|].
    + pose proof (broadcast_loop st message excludeDeviceId (r_devices r) []) as H.
      rewrite app_nil_r, set_outbox_same in H. cbn [app] in H. exact H.
    + cbn [map ret]. rewrite app_nil_r, set_outbox_same. reflexivity.
  - intros H. unfold recipients. rewrite H. reflexivity.
Qed.

(** * Offers *)

(** X16 - an offer is refused, with one [transferError] frame to the sender
    and nothing else, when the target is not registered ("Zielgerät nicht
    gefunden") and when sender and target do not name the same room ("Gerät
    nicht im selben Raum"): no transfer is stored and the target gets no
    frame.  Two devices that name no room pass the test: the offer between
    them is stored and announced. *)
Theorem offer_needs_the_same_room (now : Z) (rnd senderId targetDeviceId : string)
    (files : list FileMeta) (dataTransferId : option string) (st : State)
    (sender : Device) (wsS : Ws) :
  sget senderId (devices st) = Some sender ->
  d_ws sender = Some wsS -> readyStateOf st wsS = OPEN ->
  (sget targetDeviceId (devices st) = None ->
   handleFileTransfer now rnd senderId targetDeviceId files dataTransferId st
   = (Ret tt,
      set_outbox (outbox st ++ [(wsS, TransferError None "Zielgerät nicht gefunden")]) st))
  /\ (forall rcv,
        sget targetDeviceId (devices st) = Some rcv ->
        optEqb (d_roomId sender) (d_roomId rcv) = false ->
        handleFileTransfer now rnd senderId targetDeviceId files dataTransferId st
        = (Ret tt,
           set_outbox
             (outbox st ++ [(wsS, TransferError None "Gerät nicht im selben Raum")]) st))
  /\ (forall rcv wsR file0 rest,
        sget targetDeviceId (devices st) = Some rcv ->
        d_roomId sender = None -> d_roomId rcv = None ->
        d_ws rcv = Some wsR -> d_online rcv = true -> readyStateOf st wsR = OPEN ->
        files = file0 :: rest ->
        handleFileTransfer now rnd senderId targetDeviceId files dataTransferId st
        = (Ret tt,
           set_outbox
             (outbox st ++
              [(wsR, IncomingFile files (displayName sender) senderId
                       (JS.orElse dataTransferId (generateTransferId now rnd))
                       (f_size file0));
               (wsS, TransferStarted (displayName rcv)
                       (JS.orElse dataTransferId (generateTransferId now rnd)))])
             (set_fileTransfers
                (sset (JS.orElse dataTransferId (generateTransferId now rnd))
                   (offered now senderId targetDeviceId files file0 sender)
                   (fileTransfers st)) st))).
Proof.
  intros Hs Hw Hopen. split; [|split].
  - intros Hr. unfold handleFileTransfer, bind, getDevice, gets. rewrite Hs, Hr.
    cbn [property ret]. rewrite Hw. apply wsSend_open, Hopen.
  - intros rcv Hr Hroom. unfold handleFileTransfer, bind, getDevice, gets. rewrite Hs, Hr.
    cbn [property ret]. rewrite Hroom. cbn [negb]. rewrite Hw. apply wsSend_open, Hopen.
  - intros rcv wsR file0 rest Hr Hsroom Hrroom Hrw Hon Hro Hfiles.
    apply (handleFileTransfer_ok now rnd senderId targetDeviceId files file0 rest
             dataTransferId st sender rcv wsS wsR); auto.
    rewrite Hsroom, Hrroom. reflexivity.
Qed.

(** The second device of [Scenario.created] is in no room, the first is in
    "Foo". *)
Lemma offer_needs_the_same_room_witness :
  handleFileTransfer 1004 "r" Scenario.idA Scenario.idB [Scenario.file] (Some "t1")
    Scenario.created
  = (Ret tt,
     set_outbox
       (outbox Scenario.created
        ++ [(1%nat, TransferError None "Gerät nicht im selben Raum")]) Scenario.created).
Proof.
  edestruct offer_needs_the_same_room
    with (now := 1004) (rnd := "r") (senderId := Scenario.idA)
         (targetDeviceId := Scenario.idB) (files := [Scenario.file])
         (dataTransferId := Some "t1") (st := Scenario.created) (wsS := 1%nat)
    as (_ & Hrefused & _).
  - vm_compute. reflexivity.
  - vm_compute. reflexivity.
  - vm_compute. reflexivity.
  - eapply Hrefused.
    + vm_compute. reflexivity.
    + vm_compute. reflexivity.
Defined.

(** X17 - an offer to a device that is offline, or whose channel is not
    OPEN, is answered with [transferError "Zielgerät ist offline"], and the
    transfer is stored all the same: the record is in the transfer map,
    pending, with an empty chunk array. *)
Theorem offer_to_an_offline_device_is_stored (now : Z) (rnd senderId targetDeviceId : string)
    (files : list FileMeta) (file0 : FileMeta) (rest : list FileMeta)
    (dataTransferId : option string) (st : State) (sender rcv : Device) (wsS : Ws) :
  sget senderId (devices st) = Some sender ->
  d_ws sender = Some wsS -> readyStateOf st wsS = OPEN ->
  sget targetDeviceId (devices st) = Some rcv ->
  optEqb (d_roomId sender) (d_roomId rcv) = true ->
  files = file0 :: rest ->
  (d_online rcv = false
   \/ d_ws rcv = None
   \/ exists wsR, d_ws rcv = Some wsR /\ isOpen (readyStateOf st wsR) = false) ->
  handleFileTransfer now rnd senderId targetDeviceId files dataTransferId st
  = (Ret tt,
     set_outbox (outbox st ++ [(wsS, TransferError None "Zielgerät ist offline")])
       (set_fileTransfers
          (sset (JS.orElse dataTransferId (generateTransferId now rnd))
             (offered now senderId targetDeviceId files file0 sender)
             (fileTransfers st)) st)).
Proof.
  intros Hs Hw Hopen Hr Hroom Hfiles Hoff.
  unfold handleFileTransfer.
  unfold bind at 1. unfold getDevice at 1, gets at 1. rewrite Hs.
  unfold bind at 1. unfold getDevice at 1, gets at 1. rewrite Hr.
  unfold bind at 1. unfold property at 1, ret at 1.
  rewrite Hroom. cbn [negb]. subst files. cbn [nth_error].
  unfold bind at 1. unfold property at 1, ret at 1.
  unfold bind at 1. unfold modify at 1.
  unfold bind at 1.
  assert (Hgo : forall s, sockets s = sockets st ->
            exists o, openOpt (d_ws rcv) s = (Ret o, s) /\ (d_online rcv && o)%bool = false).
  { intros s Hsock. destruct Hoff as [Hoff|[Hoff|(wsR & Hoff & Hclosed)]].
    - destruct (d_ws rcv) as [wsR|]; cbn [openOpt]; eexists; (split; [reflexivity|]);
        rewrite Hoff; reflexivity.
    - rewrite Hoff. exists false. split; [reflexivity|apply andb_false_r].
    - rewrite Hoff. cbn [openOpt]. unfold wsOpen, gets. eexists. split; [reflexivity|].
      unfold readyStateOf in *. rewrite Hsock, Hclosed. apply andb_false_r. }
  destruct (Hgo (set_fileTransfers
                   (sset (JS.orElse dataTransferId (generateTransferId now rnd))
                      {| t_files := file0 :: rest;
                         t_fromDevice := displayName sender;
                         t_fromDeviceId := senderId;
                         t_targetDeviceId := targetDeviceId;
                         t_timestamp := now;
                         t_totalSize := f_size file0;
                         t_status := Pending;
                         t_chunks := Some [];
                         t_receivedChunks := 0;
                         t_startTime := None;
                         t_endTime := None |} (fileTransfers st)) st) eq_refl)
    as (o & Ho & Hoffline).
  rewrite Ho, Hoffline. rewrite Hw. unfold sendTo. rewrite wsSend_open by exact Hopen.
  reflexivity.
Qed.

(** The receiver of [Scenario.paired] after its channel closed. *)
Lemma offer_to_an_offline_device_is_stored_witness :
  option_map t_status
    (sget "t9"
       (fileTransfers
          (snd (handleFileTransfer 2000 "r" Scenario.idA Scenario.idB [Scenario.file]
                  (Some "t9") (step Scenario.paired (EvClose 2%nat 1500))))))
  = Some Pending.
Proof.
  erewrite (offer_to_an_offline_device_is_stored 2000 "r" Scenario.idA Scenario.idB
              [Scenario.file] Scenario.file [] (Some "t9")
              (step Scenario.paired (EvClose 2%nat 1500)) _ _ 1%nat).
  - cbn [snd fileTransfers set_outbox set_fileTransfers JS.orElse JS.truthy set_devicesFile set_roomsFile].
    rewrite sget_sset_eq. reflexivity.
  - vm_compute. reflexivity.
  - vm_compute. reflexivity.
  - vm_compute. reflexivity.
  - vm_compute. reflexivity.
  - vm_compute. reflexivity.
  - reflexivity.
  - left. vm_compute. reflexivity.
Defined.

(** * What releases a transfer *)






















(** * A rejection *)

(** X19 - a rejection is not checked: a [transferRejected] message from any
    connected device deletes the transfer the message names, whoever its
    sender and its target are, and the frame [transferRejected] goes to the
    device the message names as sender, when that one is online with an OPEN
    channel.  (With a [send] that does not throw on a channel that is not
    OPEN.) *)
Theorem transferRejected_is_not_checked (ws : Ws) (deviceId fromDeviceId transferId : string)
    (now : Z) (rnd : string) (st : State) :
  wsSendThrows st = false ->
  onMessage ws deviceId (Some (TransferRejectedMsg fromDeviceId transferId)) now rnd st
  = (Ret tt,
     set_fileTransfers (sdelete transferId (fileTransfers st))
       (answered (rejectionChannel st fromDeviceId)
          (TransferRejected "Empfänger hat die Übertragung abgelehnt") (touch ws now st)))
  /\ sget transferId
       (fileTransfers
          (exec (onMessage ws deviceId (Some (TransferRejectedMsg fromDeviceId transferId))
                   now rnd) st)) = None.
Proof.
  intros Hsend.
  assert (Hd : devices (touch ws now st) = devices st).
  { unfold touch. destruct (wget ws (activeConnections st)); reflexivity. }
  assert (Hf : fileTransfers (touch ws now st) = fileTransfers st).
  { unfold touch. destruct (wget ws (activeConnections st)); reflexivity. }
  assert (Ht : wsSendThrows (touch ws now st) = false).
  { unfold touch. destruct (wget ws (activeConnections st)); exact Hsend. }
  assert (Hrun :
    onMessage ws deviceId (Some (TransferRejectedMsg fromDeviceId transferId)) now rnd st
    = (Ret tt,
       set_fileTransfers (sdelete transferId (fileTransfers st))
         (answered (rejectionChannel st fromDeviceId)
            (TransferRejected "Empfänger hat die Übertragung abgelehnt") (touch ws now st)))).
  { unfold onMessage, handleMessage, dispatch, handleTransferRejected, tryCatch, bind, modify,
      property, getDevice, gets, ret, answered, rejectionChannel, deleteTransfer.
    cbv beta. fold (touch ws now st). rewrite Hd.
    destruct (sget fromDeviceId (devices st)) as [D|]; cbn [notifyOnline];
      [|unfold ret, modify; cbv beta iota; rewrite Hf; reflexivity].
    destruct (d_online D); cbn [notify];
      [|unfold ret, modify; cbv beta iota; rewrite Hf; reflexivity].
    destruct (d_ws D) as [w|];
      [|unfold ret, modify; cbv beta iota; rewrite Hf; reflexivity].
    unfold wsSend, modify. cbv beta iota.
    destruct (isOpen (readyStateOf (touch ws now st) w)) eqn:E; cbv beta iota;
      rewrite ?E, ?Ht; cbv beta iota; cbn [fileTransfers set_outbox set_devicesFile set_roomsFile]; rewrite Hf;
      reflexivity. }
  split; [exact Hrun|].
  unfold exec. rewrite Hrun. cbn [snd fileTransfers set_fileTransfers set_devicesFile set_roomsFile].
  apply sget_sdelete_eq.
Qed.

(** The sender of the offer in [Scenario.offeredState] rejects it itself,
    naming a device that does not exist. *)
Lemma transferRejected_is_not_checked_witness :
  sget "t1"
    (fileTransfers
       (exec (onMessage 1%nat Scenario.idA (Some (TransferRejectedMsg "nobody" "t1"))
                1005 "") Scenario.offeredState)) = None.
Proof.
  apply (transferRejected_is_not_checked 1%nat Scenario.idA "nobody" "t1" 1005 ""
           Scenario.offeredState).
  vm_compute. reflexivity.
Defined.

(** * The janitor and the device registry *)

Lemma step_keeps_returns {A B} (R : State -> State -> Prop) (st0 : State) (m : M A)
    (k : A -> M B) Q (E : State -> Prop) :
  keeps R m -> returns m ->
  (forall a st1, R st0 st1 -> triple (at_ st1) (k a) Q E) ->
  triple (at_ st0) (bind m k) Q E.
Proof.
  intros Hk Hr Hcont st ->. unfold bind. specialize (Hk st0). destruct (Hr st0) as [a Ha].
  destruct (m st0) as [[a'|e] st1]; simpl in Hk, Ha; [|discriminate].
  apply (Hcont a' st1 Hk). reflexivity.
Qed.

Lemma sweepDevices_turn (now : Z) (k : string) (s : State) (E : State -> Prop) :
  triple (at_ s)
    (cur <- getDevice k ;;
     match cur with
     | None => ret tt
     | Some device =>
         let timeSinceLastSeen := now - d_lastSeen device in
         let isExpired :=
           if d_pinned device then timeSinceLastSeen >? pinnedDeviceTimeout
           else timeSinceLastSeen >? deviceTimeout in
         if isExpired && negb (d_online device) then
           match d_roomId device with
           | Some roomId =>
               if JS.truthy roomId then
                 room <- getRoom roomId ;;
                 match room with
                 | Some r =>
                     let members := setDelete k (r_devices r) in
                     updateRoom roomId (set_r_devices members) ;;
                     match members with
                     | [] => modify (fun st => set_rooms (sdelete roomId (rooms st)) st)
                     | _ :: _ => ret tt
                     end
                 | None => ret tt
                 end
               else ret tt
           | None => ret tt
           end ;;
           o <- openOpt (d_ws device) ;;
           match d_ws device with
           | Some w => if o then wsClose w None "" else ret tt
           | None => ret tt
           end ;;
           modify (fun st => set_devices (sdelete k (devices st)) st)
         else ret tt
     end)
    (fun _ s' => devices s' = afterTurn now k (devices s)) E.
Proof.
  unfold getDevice. apply step_gets. unfold afterTurn.
  destruct (sget k (devices s)) as [dev|]; [|apply done_ret; reflexivity].
  cbv zeta. fold (expired now dev).
  destruct (expired now dev); [|apply done_ret; reflexivity].
  apply (step_keeps_returns (fixes devices)).
  { unfold getRoom, updateRoom. fixes_steps devices. }
  { unfold getRoom, updateRoom. returns_steps. }
  intros [] s1 H1.
  apply (step_keeps_returns (fixes devices)).
  { fixes_steps devices. }
  { returns_steps. }
  intros o s2 H2.
  apply (step_keeps_returns (fixes devices)).
  { fixes_steps devices. }
  { returns_steps. }
  intros [] s3 H3 st ->. unfold modify. cbn [devices set_devices set_devicesFile set_roomsFile].
  unfold fixes in *. congruence.
Qed.

Lemma sget_afterTurn_other (now : Z) (k d : string) (ds : list (string * Device)) :
  k <> d -> sget d (afterTurn now k ds) = sget d ds.
Proof.
  intros Hne. unfold afterTurn. destruct (sget k ds) as [dev|]; [|reflexivity].
  destruct (expired now dev); [|reflexivity]. apply sget_sdelete_ne, Hne.
Qed.

Lemma sget_afterTurn_self (now : Z) (d : string) (D : Device) (ds : list (string * Device)) :
  sget d ds = Some D ->
  sget d (afterTurn now d ds) = if expired now D then None else Some D.
Proof.
  intros HD. unfold afterTurn. rewrite HD. destruct (expired now D); [|exact HD].
  apply sget_sdelete_eq.
Qed.

Section SweepLoop.

Variable now : Z.
Variable turn : string -> M unit.
Hypothesis turn_run : forall k s,
  triple (at_ s) (turn k) (fun _ s' => devices s' = afterTurn now k (devices s))
    (fun _ => False).

Lemma sweepDevices_loop_kept (d : string) (D : Device) (keys : list string)
    (E : State -> Prop) :
  expired now D = false ->
  triple (fun s => sget d (devices s) = Some D) (forEach keys turn)
    (fun _ s => sget d (devices s) = Some D) E.
Proof.
  intros Hfresh. apply triple_forEach. intros k. apply triple_at. intros s Hs.
  eapply triple_conseq; [apply (turn_run k s)| | |].
  - intros s0 Hs0. exact Hs0.
  - intros u s' ->. destruct (String.eqb_spec k d) as [->|Hne].
    + rewrite (sget_afterTurn_self now d D) by exact Hs. rewrite Hfresh. reflexivity.
    + rewrite sget_afterTurn_other by exact Hne. exact Hs.
  - intros s' [].
Qed.

Lemma sweepDevices_loop_dropped (d : string) (D : Device) (E : State -> Prop) :
  expired now D = true ->
  forall keys,
  triple (fun s => (sget d (devices s) = Some D /\ In d keys) \/ sget d (devices s) = None)
    (forEach keys turn) (fun _ s => sget d (devices s) = None) E.
Proof.
  intros Hold. induction keys as [|k keys IH]; cbn [forEach].
  - apply triple_ret. intros s [[_ []]|H]. exact H.
  - eapply triple_bind; [|intros u; exact IH].
    apply triple_at. intros s Hs.
    eapply triple_conseq; [apply (turn_run k s)| | |].
    + intros s0 Hs0. exact Hs0.
    + intros u s' ->. destruct (String.eqb_spec k d) as [->|Hne].
      * right. destruct Hs as [[Hs _]|Hs].
        -- rewrite (sget_afterTurn_self now d D) by exact Hs. rewrite Hold. reflexivity.
        -- unfold afterTurn. rewrite Hs. exact Hs.
      * rewrite sget_afterTurn_other by exact Hne.
        destruct Hs as [[Hs [Hk|Hin]]|Hs]; [contradiction|left; auto|right; exact Hs].
    + intros s' [].
Qed.

End SweepLoop.

(** X20 - what the janitor does to a device: a registered device is dropped
    from the registry by a janitor run exactly when it is offline and was
    last seen more than half an hour before (more than a day before, when it
    is pinned); every other device is in the registry afterwards, unchanged.
    An online device is never dropped, however long ago it was seen. *)
Theorem janitor_drops_the_offline_devices_it_has_not_seen (now : Z) (st : State)
    (d : string) (D : Device) :
  sget d (devices st) = Some D ->
  sget d (devices (step st (EvJanitor now)))
  = if expired now D then None else Some D.
Proof.
  intros HD. unfold step. cbn [handle]. apply triple_exec. unfold janitor.
  apply step_gets.
  apply (step_keeps_returns (fixes devices)).
  { unfold sweepConnections. fixes_steps devices. }
  { apply returns_sweepConnections. }
  intros [] s1 H1. unfold fixes in H1.
  eapply triple_bind
    with (Q1 := fun _ s => sget d (devices s) = if expired now D then None else Some D).
  - unfold sweepDevices. apply step_gets.
    destruct (expired now D) eqn:Hexp.
    + eapply triple_conseq;
        [apply (sweepDevices_loop_dropped now _
                  (fun k s => sweepDevices_turn now k s (fun _ => False))
                  d D (fun _ => False) Hexp)| |auto|].
      * intros s ->. left. rewrite H1. split; [exact HD|].
        apply (sget_In_keys d D). exact HD.
      * intros s [].
    + eapply triple_conseq;
        [apply (sweepDevices_loop_kept now _
                  (fun k s => sweepDevices_turn now k s (fun _ => False))
                  d D _ (fun _ => False) Hexp)| |auto|].
      * intros s ->. rewrite H1. exact HD.
      * intros s [].
  - intros []. apply (triple_keeps (fixes devices)).
    + apply keeps_bind; [apply fixes_trans| |intros []].
      * unfold sweepTransfers, getTransfer, deleteTransfer.
        fixes_steps devices.
      * fixes_steps devices.
    + unfold fixes. intros s s' Hs Hfix. rewrite Hfix. exact Hs.
Qed.

(** The second device of [Scenario.paired], an hour after its channel
    closed. *)
Lemma janitor_drops_the_offline_devices_it_has_not_seen_witness :
  sget Scenario.idB
    (devices (step (step Scenario.paired (EvClose 2%nat 1500)) (EvJanitor 3601500)))
  = None.
Proof.
  eapply eq_trans.
  - eapply (janitor_drops_the_offline_devices_it_has_not_seen 3601500
              (step Scenario.paired (EvClose 2%nat 1500)) Scenario.idB).
    vm_compute. reflexivity.
  - vm_compute. reflexivity.
Defined.

(** * The clean-up of a chunk's payload *)

Lemma allBase64_keepBase64 (s : string) : allBase64 (keepBase64 s) = true.
Proof.
  induction s as [|c s IH]; [reflexivity|]. cbn [keepBase64].
  destruct (isBase64Char c) eqn:Hc; [|exact IH].
  cbn [allBase64]. rewrite Hc, IH. reflexivity.
Qed.

Lemma afterComma_append (a b : string) :
  afterComma a = None -> afterComma (a ++ "," ++ b) = Some b.
Proof.
  induction a as [|c a IH]; cbn [afterComma append]; intros H.
  - reflexivity.
  - destruct (Ascii.eqb c ","); [discriminate H|]. apply IH, H.
Qed.

(** X21 - the payload the server stores for a chunk: whatever the client
    sends, it is in strict base64, and cleaning it again changes nothing; of
    a data URL [data:<type>,<payload>] the part after the first comma is
    kept; and a text that starts with [data:] and has no comma keeps the
    letters [data] of the prefix in front of its payload. *)
Theorem cleanChunk_stores_strict_base64 (chunkData : string) :
  allBase64 (cleanChunk chunkData) = true
  /\ cleanChunk (cleanChunk chunkData) = cleanChunk chunkData
  /\ (forall type payload,
        afterComma type = None ->
        chunkData = "data:" ++ type ++ "," ++ payload ->
        cleanChunk chunkData = keepBase64 payload)
  /\ (forall rest,
        afterComma rest = None ->
        chunkData = "data:" ++ rest ->
        cleanChunk chunkData = "data" ++ keepBase64 rest).
Proof.
  assert (Hstrict : allBase64 (cleanChunk chunkData) = true).
  { unfold cleanChunk. apply allBase64_keepBase64. }
  split; [exact Hstrict|]. split; [apply cleanChunk_strict, Hstrict|]. split.
  - intros type payload Htype ->. unfold cleanChunk.
    change ("data:" ++ type ++ "," ++ payload) with ("data:" ++ (type ++ "," ++ payload)).
    rewrite startsWith_append.
    change (afterComma ("data:" ++ (type ++ "," ++ payload)))
      with (afterComma (type ++ "," ++ payload)).
    rewrite afterComma_append by exact Htype. reflexivity.
  - intros rest Hrest ->. unfold cleanChunk. rewrite startsWith_append.
    change (afterComma ("data:" ++ rest)) with (afterComma rest).
    rewrite Hrest. reflexivity.
Qed.

Lemma cleanChunk_stores_strict_base64_witness :
  cleanChunk "data:text/plain;base64,YW Jj" = keepBase64 "YW Jj"
  /\ cleanChunk "data:YWJj" = "data" ++ keepBase64 "YWJj".
Proof.
  split.
  - apply (cleanChunk_stores_strict_base64 "data:text/plain;base64,YW Jj")
      with (type := "text/plain;base64"); reflexivity.
  - apply (cleanChunk_stores_strict_base64 "data:YWJj") with (rest := "YWJj"); reflexivity.
Defined.

(** * Pins and identification *)

(** X22 - pinning: [togglePinDevice] flips the [pinned] flag of the target
    when the requester and the target name the same room, two devices that
    name no room included, and changes nothing otherwise: not when the
    rooms differ, and not when the target is not registered. *)
Theorem togglePin_needs_the_same_room (deviceId targetDeviceId : string) (st : State)
    (D : Device) :
  sget deviceId (devices st) = Some D ->
  (sget targetDeviceId (devices st) = None ->
   handleTogglePinDevice deviceId targetDeviceId st = (Ret tt, st))
  /\ (forall T,
        sget targetDeviceId (devices st) = Some T ->
        optEqb (d_roomId D) (d_roomId T) = false ->
        handleTogglePinDevice deviceId targetDeviceId st = (Ret tt, st))
  /\ (forall T,
        sget targetDeviceId (devices st) = Some T ->
        optEqb (d_roomId D) (d_roomId T) = true ->
        devices (exec (handleTogglePinDevice deviceId targetDeviceId) st)
        = sset targetDeviceId (set_d_pinned (negb (d_pinned T)) T) (devices st)).
Proof.
  intros HD. split; [|split].
  - intros HT. unfold handleTogglePinDevice, bind, getDevice, gets. rewrite HT. reflexivity.
  - intros T HT Hroom. unfold handleTogglePinDevice, bind, getDevice, gets.
    rewrite HT, HD. cbn [property ret]. rewrite Hroom. reflexivity.
  - intros T HT Hroom. apply triple_exec. unfold handleTogglePinDevice, getDevice.
    apply step_gets. apply step_gets. rewrite HT, HD. cbn [property]. apply step_ret.
    rewrite Hroom. unfold updateDevice. apply step_modify. cbv beta. rewrite HT.
    eapply triple_conseq.
    + apply (at_keeps (fixes devices)). fixes_steps devices.
    + intros s0 Hs0. exact Hs0.
    + intros u s Hs. exact Hs.
    + intros s Hs. exact Hs.
Qed.

(** The second device of [Scenario.paired] pins the first. *)
Lemma togglePin_needs_the_same_room_witness :
  option_map d_pinned
    (sget Scenario.idA
       (devices (exec (handleTogglePinDevice Scenario.idB Scenario.idA) Scenario.paired)))
  = Some true.
Proof.
  edestruct togglePin_needs_the_same_room
    with (deviceId := Scenario.idB) (targetDeviceId := Scenario.idA) (st := Scenario.paired)
    as (_ & _ & Hpin).
  - vm_compute. reflexivity.
  - erewrite Hpin.
    2: { vm_compute. reflexivity. }
    + rewrite sget_sset_eq. vm_compute. reflexivity.
    + vm_compute. reflexivity.
Defined.

(** X23 - [client_identify] never renames a device: it records the client
    id, the session id, the language and, from the user agent of the
    message, the platform and the browser, and the name stays what it was,
    also when the platform it records is not the one the name was made
    from. *)
Theorem clientIdentify_keeps_the_name (now : Z) (deviceId : string)
    (clientId sessionId userAgent language previousSession : option string)
    (st : State) (D : Device) :
  sget deviceId (devices st) = Some D ->
  sget deviceId
    (devices (exec (handleClientIdentify now deviceId clientId sessionId userAgent
                      language previousSession) st))
  = Some (identified now clientId sessionId userAgent language D)
  /\ d_name (identified now clientId sessionId userAgent language D) = d_name D
  /\ d_customName (identified now clientId sessionId userAgent language D)
     = d_customName D.
Proof.
  intros HD. split.
  2: { unfold identified. destruct userAgent as [ua|]; [destruct (JS.truthy ua)|];
       destruct D; split; reflexivity. }
  apply triple_exec. unfold handleClientIdentify, getDevice at 1.
  apply step_gets. rewrite HD.
  set (D1 := match userAgent with
             | Some ua =>
                 if JS.truthy ua then
                   set_d_userAgent ua
                     (set_d_browser (snd (Platform.detectPlatform ua))
                        (set_d_platform (fst (Platform.detectPlatform ua)) D))
                 else D
             | None => D
             end).
  assert (Hlater : forall s, sget deviceId (devices s) = Some D1 ->
    triple (at_ s)
      (updateDevice deviceId
         (fun d => set_d_lastSeen now (set_d_language language
                     (set_d_sessionId sessionId (set_d_clientId clientId d)))) ;;
       device <- getDevice deviceId ;;
       d <- property "device" device ;;
       o <- openOpt (d_ws d) ;;
       (if o then sendTo (d_ws d) (Welcome deviceId welcomeInfo None) else ret tt) ;;
       match d_roomId d with
       | Some roomId => if JS.truthy roomId then broadcastDeviceList roomId else ret tt
       | None => ret tt
       end ;;
       saveDevices)
      (fun _ s' => sget deviceId (devices s')
                   = Some (identified now clientId sessionId userAgent language D))
      (fun s' => sget deviceId (devices s')
                 = Some (identified now clientId sessionId userAgent language D))).
  { intros s Hs. unfold updateDevice. apply step_modify. cbv beta. rewrite Hs.
    eapply triple_conseq.
    - apply (at_keeps (fixes devices)). unfold getDevice. fixes_steps devices.
    - intros s0 Hs0. exact Hs0.
    - intros u s' Hs'. unfold fixes in Hs'. rewrite Hs'. cbn [devices set_devices set_devicesFile set_roomsFile].
      rewrite sget_sset_eq. reflexivity.
    - intros s' Hs'. unfold fixes in Hs'. rewrite Hs'. cbn [devices set_devices set_devicesFile set_roomsFile].
      rewrite sget_sset_eq. reflexivity. }
  eapply triple_bind with (Q1 := fun _ s => sget deviceId (devices s) = Some D1).
  2: { intros []. apply triple_at. exact Hlater. }
  subst D1. destruct userAgent as [ua|]; [|apply done_ret; exact HD].
  destruct (JS.truthy ua); [|apply done_ret; exact HD].
  destruct (Platform.detectPlatform ua) as [platform browser]. cbn [fst snd].
  unfold updateDevice at 1. apply step_modify. cbv beta. rewrite HD.
  unfold getDevice. apply step_gets. cbn [devices set_devices set_devicesFile set_roomsFile]. rewrite sget_sset_eq.
  cbn [property]. apply step_ret.
  replace (String.eqb platform _) with true by (destruct D; cbn; symmetry; apply String.eqb_refl).
  cbn [negb]. apply done_ret. cbn [devices set_devices set_devicesFile set_roomsFile]. apply sget_sset_eq.
Qed.

(** The first device of [Scenario.paired], registered from a Linux user
    agent, identifies with the user agent of a phone. *)
Lemma clientIdentify_keeps_the_name_witness :
  option_map (fun d => (d_name d, d_platform d))
    (sget Scenario.idA
       (devices (exec (handleClientIdentify 1005 Scenario.idA (Some "c") (Some "s")
                         (Some Scenario.uaPhone) None None) Scenario.paired)))
  = Some ("Linux PC (Firefox)", "iOS").
Proof.
  edestruct clientIdentify_keeps_the_name
    with (now := 1005) (deviceId := Scenario.idA) (clientId := Some "c")
         (sessionId := Some "s") (userAgent := Some Scenario.uaPhone)
         (language := @None string) (previousSession := @None string)
         (st := Scenario.paired)
    as (Hrun & _ & _).
  - vm_compute. reflexivity.
  - rewrite Hrun. vm_compute. reflexivity.
Defined.

(** * What a connection does *)

Lemma step_run {A B} (st0 st1 : State) (m : M A) (a : A) (k : A -> M B) Q
    (E : State -> Prop) :
  m st0 = (Ret a, st1) ->
  triple (at_ st1) (k a) Q E -> triple (at_ st0) (bind m k) Q E.
Proof. intros Hm Hk st ->. unfold bind. rewrite Hm. apply Hk. reflexivity. Qed.

(** The parts of the state after a connection on a channel not seen
    before. *)
Lemma connection_run (ws : Ws) (req : Identity.Request) (now : Z) (st : State) :
  wget ws (sockets st) = None ->
  let deviceId := Identity.generateStableDeviceId (agentOf req) req in
  let st' := step st (EvConnection ws req now) in
  devices st'
  = sset deviceId (registered ws req now (sget deviceId (devices st))) (devices st)
  /\ connections st' = wset ws deviceId (connections st)
  /\ rooms st' = rooms st
  /\ sockets st' = wset ws OPEN (sockets st)
  /\ outbox st'
     = (outbox st
        ++ (if instant req then [(ws, Welcome deviceId iosWelcomeInfo (Some now))]
            else []))%list
  /\ timers st' = (timers st ++ [connectionTimer ws req])%list.
Proof.
  intros Hfresh deviceId st'. subst st'. unfold step. cbn [handle]. apply triple_exec.
  apply step_gets. rewrite Hfresh. apply step_modify.
  unfold onConnection, connectionTimer, registered, reconnected, instant.
  fold (agentOf req). cbv zeta. fold deviceId.
  destruct (Platform.detectPlatform (agentOf req)) as [platform browser].
  cbn [fst snd].
  set (ios := (Identity.matchesIPhoneIPadIPod (agentOf req) && String.eqb browser "Safari")%bool).
  set (st0 := set_sockets (wset ws OPEN (sockets st)) st).
  assert (Hopen : readyStateOf st0 ws = OPEN).
  { unfold readyStateOf, st0. cbn [sockets set_sockets set_devicesFile set_roomsFile]. rewrite wget_wset_eq. reflexivity. }
  apply step_run with (a := tt)
    (st1 := set_outbox
              (outbox st0 ++ (if ios then [(ws, Welcome deviceId iosWelcomeInfo (Some now))]
                              else [])) st0).
  { destruct ios.
    - unfold tryCatch. rewrite (wsSend_open _ _ _ Hopen). reflexivity.
    - unfold ret. rewrite app_nil_r, set_outbox_same. reflexivity. }
  apply step_modify. unfold getDevice. apply step_gets.
  subst st0. cbn [devices set_activeConnections set_outbox set_sockets set_devicesFile set_roomsFile].
  destruct (sget deviceId (devices st)) as [D|] eqn:HD.
  - unfold updateDevice. apply step_modify.
    cbn [devices set_activeConnections set_outbox set_sockets set_devicesFile set_roomsFile].
    rewrite HD. apply step_modify.
    unfold setupIOSHeartbeat, addTimer.
    destruct ios; cbn [negb].
    + apply step_ret. apply done_modify. cbn. repeat split; reflexivity.
    + apply step_modify. apply done_ret. cbn. repeat split; reflexivity.
  - apply step_modify. apply step_modify.
    unfold setupIOSHeartbeat, addTimer.
    destruct ios; cbn [negb].
    + apply step_ret. apply done_modify. cbn. repeat split; reflexivity.
    + apply step_modify. apply done_ret. cbn. repeat split; reflexivity.
Qed.

(** X24 - a device that connects again is the device it was: a connection
    whose id is registered keeps the record's name, custom name, type, pin
    and room, binds the new channel to it and marks it online; the rooms are
    as before, no other device changes, and the device's earlier channel is
    neither closed nor unbound. *)
Theorem reconnection_keeps_the_device (ws : Ws) (req : Identity.Request) (now : Z)
    (st : State) (D : Device) :
  wget ws (sockets st) = None ->
  sget (Identity.generateStableDeviceId (agentOf req) req) (devices st) = Some D ->
  let deviceId := Identity.generateStableDeviceId (agentOf req) req in
  let st' := step st (EvConnection ws req now) in
  (exists D',
     sget deviceId (devices st') = Some D'
     /\ d_ws D' = Some ws /\ d_online D' = true /\ d_lastSeen D' = now
     /\ d_name D' = d_name D /\ d_customName D' = d_customName D
     /\ d_type D' = d_type D /\ d_pinned D' = d_pinned D /\ d_roomId D' = d_roomId D)
  /\ wget ws (connections st') = Some deviceId
  /\ rooms st' = rooms st
  /\ (forall k, k <> deviceId -> sget k (devices st') = sget k (devices st))
  /\ (forall w, w <> ws ->
        wget w (connections st') = wget w (connections st)
        /\ readyStateOf st' w = readyStateOf st w).
Proof.
  intros Hfresh HD deviceId st'.
  destruct (connection_run ws req now st Hfresh) as (Hdev & Hconn & Hrooms & Hsock & _ & _).
  cbv zeta in Hdev. rewrite HD in Hdev. cbn [registered] in Hdev.
  fold deviceId in Hdev, Hconn. fold st' in Hdev, Hconn, Hrooms, Hsock.
  split; [|split; [|split; [|split]]].
  - exists (reconnected ws req now D). rewrite Hdev, sget_sset_eq.
    destruct D; cbn. repeat split; reflexivity.
  - rewrite Hconn. apply wget_wset_eq.
  - exact Hrooms.
  - intros k Hk. rewrite Hdev. apply sget_sset_ne. congruence.
  - intros w Hw. unfold readyStateOf. rewrite Hconn, Hsock.
    rewrite !wget_wset_ne by congruence. split; reflexivity.
Qed.

(** The second device of [Scenario.paired] connects on a third channel. *)
Lemma reconnection_keeps_the_device_witness :
  exists D',
    sget Scenario.idB
      (devices (step Scenario.paired (EvConnection 3%nat Scenario.reqB 2000))) = Some D'
    /\ d_ws D' = Some 3%nat /\ d_roomId D' = Some Scenario.roomFoo.
Proof.
  edestruct reconnection_keeps_the_device
    with (ws := 3%nat) (req := Scenario.reqB) (now := 2000) (st := Scenario.paired)
    as ((D' & HD' & Hws & _ & _ & _ & _ & _ & _ & Hroom) & _).
  - vm_compute. reflexivity.
  - vm_compute. reflexivity.
  - exists D'. split; [exact HD'|]. split; [exact Hws|]. rewrite Hroom.
    vm_compute. reflexivity.
Defined.

Lemma nth_error_last {A} (l : list A) (x : A) : nth_error (l ++ [x]) (List.length l) = Some x.
Proof. induction l as [|y l IH]; [reflexivity|exact IH]. Qed.

Lemma removeNth_last {A} (l : list A) (x : A) : removeNth (List.length l) (l ++ [x]) = l.
Proof. induction l as [|y l IH]; [reflexivity|]. cbn. rewrite IH. reflexivity. Qed.

(** X25 - every connection is welcomed once: an iOS Safari client gets its
    [welcome] frame at once and is left with the heartbeat; any other client
    gets none at once and is left with one timeout, which writes the
    [welcome] frame when it fires while the channel is OPEN and is then
    spent. *)
Theorem every_connection_is_welcomed_once (ws : Ws) (req : Identity.Request)
    (now later : Z) (st : State) :
  wget ws (sockets st) = None ->
  let deviceId := Identity.generateStableDeviceId (agentOf req) req in
  let st' := step st (EvConnection ws req now) in
  let st'' := step st' (EvTimer (List.length (timers st)) later) in
  (instant req = true ->
   outbox st' = (outbox st ++ [(ws, Welcome deviceId iosWelcomeInfo (Some now))])%list
   /\ timers st'
      = (timers st
         ++ [{| tm_delay := 10000; tm_repeat := true; tm_task := TaskIOSHeartbeat ws |}])%list)
  /\ (instant req = false ->
      outbox st' = outbox st
      /\ outbox st''
         = (outbox st
            ++ [(ws, Welcome deviceId
                       (laterWelcomeInfo (fst (Platform.detectPlatform (agentOf req)))
                          (snd (Platform.detectPlatform (agentOf req))))
                       (Some later))])%list
      /\ timers st'' = timers st).
Proof.
  intros Hfresh deviceId st' st''.
  destruct (connection_run ws req now st Hfresh) as (_ & _ & _ & Hsock & Hout & Htimers).
  fold deviceId in Hout. fold st' in Hsock, Hout, Htimers.
  unfold connectionTimer in Htimers. fold deviceId in Htimers.
  split; intros Hinstant; rewrite Hinstant in Hout, Htimers.
  - split; [exact Hout|exact Htimers].
  - rewrite app_nil_r in Hout. split; [exact Hout|].
    subst st''. unfold step. cbn [handle]. apply triple_exec.
    unfold fireTimer. apply step_gets. rewrite Htimers, nth_error_last. cbn [tm_repeat tm_task].
    apply step_modify. unfold runTask, wsOpen. apply step_gets.
    replace (readyStateOf _ ws) with OPEN.
    2: { unfold readyStateOf. cbn [sockets set_timers set_devicesFile set_roomsFile]. rewrite Hsock, wget_wset_eq.
         reflexivity. }
    cbn [isOpen]. intros s ->. rewrite wsSend_open.
    2: { unfold readyStateOf. cbn [sockets set_timers set_devicesFile set_roomsFile]. rewrite Hsock, wget_wset_eq.
         reflexivity. }
    cbn [outbox timers set_outbox set_timers set_devicesFile set_roomsFile]. rewrite Hout, Htimers, removeNth_last.
    split; reflexivity.
Qed.

(** The first connection of [Scenario.paired], from a desktop browser. *)
Lemma every_connection_is_welcomed_once_witness :
  outbox (step (initialState false) (EvConnection 1%nat Scenario.reqA 1000)) = []
  /\ timers
       (step (step (initialState false) (EvConnection 1%nat Scenario.reqA 1000))
          (EvTimer 0%nat 1100)) = [].
Proof.
  edestruct every_connection_is_welcomed_once
    with (ws := 1%nat) (req := Scenario.reqA) (now := 1000) (later := 1100)
         (st := initialState false)
    as (_ & Hlater).
  - reflexivity.
  - destruct Hlater as (Hout & _ & Htimers); [vm_compute; reflexivity|].
    split; [exact Hout|exact Htimers].
Defined.

(** * The device list of a room *)

Lemma deviceEntries_registered (devs : list (string * Device)) (ids : list string) :
  map e_id (deviceEntries devs ids) = filter (isRegistered devs) ids.
Proof.
  induction ids as [|id ids IH]; [reflexivity|]. cbn [deviceEntries filter].
  unfold isRegistered at 1. destruct (sget id devs) as [D|]; [|exact IH].
  cbn [map deviceEntry e_id]. rewrite IH. reflexivity.
Qed.

Lemma filter_all {A} (f : A -> bool) (l : list A) :
  (forall x, In x l -> f x = true) -> filter f l = l.
Proof.
  induction l as [|x l IH]; intros H; [reflexivity|]. cbn [filter].
  rewrite (H x (or_introl eq_refl)), IH; [reflexivity|].
  intros y Hy. apply H. right. exact Hy.
Qed.

(** X26 - the device list of a room names its registered members: the
    [deviceList] frame of a room has one entry for each member of the room
    that is registered, in the order of joining, offline members included,
    and its [deviceCount] is the number of these entries.  When every member
    is registered, as in every state of a worker started on an empty data
    directory, the entries are the members and the count is the size of the
    room. *)
Theorem deviceList_names_the_registered_members (st : State) (roomId : string) (r : Room) :
  sget roomId (rooms st) = Some r ->
  map e_id (deviceEntries (devices st) (r_devices r))
  = filter (isRegistered (devices st)) (r_devices r)
  /\ broadcastDeviceList roomId st
     = broadcastToRoom roomId
         (DeviceList (deviceEntries (devices st) (r_devices r)) roomId (r_name r)
            (List.length (filter (isRegistered (devices st)) (r_devices r)))) None st
  /\ ((forall id, In id (r_devices r) -> isRegistered (devices st) id = true) ->
      map e_id (deviceEntries (devices st) (r_devices r)) = r_devices r
      /\ List.length (deviceEntries (devices st) (r_devices r)) = List.length (r_devices r))
  /\ (forall sendThrows id,
        reachable sendThrows st -> In id (r_devices r) ->
        isRegistered (devices st) id = true).
Proof.
  intros Hroom.
  pose proof (deviceEntries_registered (devices st) (r_devices r)) as Hids.
  split; [exact Hids|]. split; [|split].
  - unfold broadcastDeviceList. unfold bind at 1. unfold getRoom at 1, gets at 1.
    rewrite Hroom. unfold bind at 1. unfold gets at 1.
    rewrite <- Hids, length_map. reflexivity.
  - intros Hall. rewrite (filter_all _ _ Hall) in Hids. split; [exact Hids|].
    rewrite <- Hids at 2. rewrite length_map. reflexivity.
  - intros sendThrows id Hreach Hid.
    destruct (reachable_consistent sendThrows st Hreach) as [Hmem _].
    destruct (Hmem roomId r id Hroom Hid) as (D & HD & _).
    unfold isRegistered. rewrite HD. reflexivity.
Qed.

(** The room "Foo" of [Scenario.swept] lists the second device, which the
    janitor has dropped from the registry. *)
Lemma deviceList_names_the_registered_members_witness :
  map e_id (deviceEntries (devices Scenario.swept) [Scenario.idB]) = [].
Proof.
  edestruct deviceList_names_the_registered_members
    with (st := Scenario.swept) (roomId := Scenario.roomFoo)
         (r := {| r_name := "Foo"; r_created := 1002; r_createdBy := Scenario.idA;
                  r_devices := [Scenario.idB] |})
    as (Hids & _).
  - vm_compute. reflexivity.
  - eapply eq_trans; [exact Hids|]. vm_compute. reflexivity.
Defined.

(** * Frames relayed between devices *)

(** X27 - the frames a device has relayed cross the rooms: [fileProgress]
    is written to the device the message names, and [transferAccepted] to
    the device it names as sender when that one is online, whatever room
    they and the device that sent the message are in, and whether or not a
    transfer between them exists. *)
Theorem relayed_frames_cross_rooms (deviceId targetDeviceId transferId : string)
    (progress fileIndex : Z) (st : State) (T : Device) (w : Ws) :
  sget targetDeviceId (devices st) = Some T ->
  d_ws T = Some w -> readyStateOf st w = OPEN ->
  handleFileProgress deviceId targetDeviceId transferId progress fileIndex st
  = (Ret tt,
     set_outbox (outbox st ++ [(w, TransferProgress transferId progress fileIndex)]) st)
  /\ (d_online T = true ->
      handleTransferAccepted deviceId targetDeviceId transferId st
      = (Ret tt,
         set_outbox
           (outbox st
            ++ [(w, TransferAccepted "Empfänger hat die Übertragung akzeptiert")]) st)).
Proof.
  intros HT Hw Hopen. split.
  - unfold handleFileProgress, bind, getDevice, gets. rewrite HT. cbn [notify]. rewrite Hw.
    apply wsSend_open, Hopen.
  - intros Hon. unfold handleTransferAccepted, bind, getDevice, gets. rewrite HT.
    cbn [notifyOnline]. rewrite Hon. cbn [notify]. rewrite Hw. apply wsSend_open, Hopen.
Qed.

(** In [Scenario.twoRooms] the devices are in two rooms. *)
Lemma relayed_frames_cross_rooms_witness :
  option_map d_roomId (sget Scenario.idA (devices Scenario.twoRooms))
  <> option_map d_roomId (sget Scenario.idB (devices Scenario.twoRooms))
  /\ handleFileProgress Scenario.idA Scenario.idB "none" 50 0 Scenario.twoRooms
     = (Ret tt,
        set_outbox (outbox Scenario.twoRooms ++ [(2%nat, TransferProgress "none" 50 0)])
          Scenario.twoRooms).
Proof.
  split; [vm_compute; discriminate|].
  eapply (relayed_frames_cross_rooms Scenario.idA Scenario.idB "none" 50 0
            Scenario.twoRooms).
  - vm_compute. reflexivity.
  - vm_compute. reflexivity.
  - vm_compute. reflexivity.
Defined.

(** X28 - a download request: for a transfer in the map whose sender is
    online with an OPEN channel, the request is passed to that sender as
    [sendFileData] with the id of the requester, whoever the requester is,
    with 20 MB as chunk size when the request gives none; for a transfer
    that is not in the map the requester gets [downloadError "Datei nicht
    gefunden"], and when the sender is not registered [downloadError "Sender
    nicht verfügbar"]. *)
Theorem download_request_goes_to_the_sender (deviceId transferId : string) (fileIndex : Z)
    (chunkSize : option Z) (st : State) (D : Device) (w : Ws) :
  sget deviceId (devices st) = Some D ->
  d_ws D = Some w -> readyStateOf st w = OPEN ->
  (sget transferId (fileTransfers st) = None ->
   handleFileDownload deviceId transferId fileIndex chunkSize st
   = (Ret tt, set_outbox (outbox st ++ [(w, DownloadError "Datei nicht gefunden")]) st))
  /\ (forall t,
        sget transferId (fileTransfers st) = Some t ->
        sget (t_fromDeviceId t) (devices st) = None ->
        handleFileDownload deviceId transferId fileIndex chunkSize st
        = (Ret tt,
           set_outbox (outbox st ++ [(w, DownloadError "Sender nicht verfügbar")]) st))
  /\ (forall t S wS,
        sget transferId (fileTransfers st) = Some t ->
        sget (t_fromDeviceId t) (devices st) = Some S ->
        d_online S = true -> d_ws S = Some wS -> readyStateOf st wS = OPEN ->
        handleFileDownload deviceId transferId fileIndex chunkSize st
        = (Ret tt,
           set_outbox
             (outbox st
              ++ [(wS, SendFileData deviceId transferId fileIndex
                         (match chunkSize with
                          | Some c => if c =? 0 then 20 * 1024 * 1024 else c
                          | None => 20 * 1024 * 1024
                          end))]) st)).
Proof.
  intros HD Hw Hopen. split; [|split].
  - intros Ht. unfold handleFileDownload, bind, getDevice, getTransfer, gets.
    rewrite HD, Ht. cbn [property ret]. rewrite Hw. apply wsSend_open, Hopen.
  - intros t Ht HS. unfold handleFileDownload, bind, getDevice, getTransfer, gets.
    rewrite HD, Ht, HS. cbn [openOpt ret property]. rewrite Hw. apply wsSend_open, Hopen.
  - intros t S wS Ht HS Hon HwS HopenS.
    unfold handleFileDownload, bind, getDevice, getTransfer, gets.
    rewrite HD, Ht, HS, HwS. cbn [openOpt]. unfold wsOpen, gets. rewrite HopenS, Hon.
    cbn [isOpen andb]. apply wsSend_open, HopenS.
Qed.

(** The first device of [Scenario.offeredState], the sender of "t1", asks
    for the download of its own offer. *)
Lemma download_request_goes_to_the_sender_witness :
  handleFileDownload Scenario.idA "t1" 0 None Scenario.offeredState
  = (Ret tt,
     set_outbox
       (outbox Scenario.offeredState
        ++ [(1%nat, SendFileData Scenario.idA "t1" 0 (20 * 1024 * 1024))])
       Scenario.offeredState).
Proof.
  edestruct download_request_goes_to_the_sender
    with (deviceId := Scenario.idA) (transferId := "t1") (fileIndex := 0)
         (chunkSize := @None Z) (st := Scenario.offeredState) (w := 1%nat)
    as (_ & _ & Hsent).
  - vm_compute. reflexivity.
  - vm_compute. reflexivity.
  - vm_compute. reflexivity.
  - eapply (Hsent Scenario.offeredTransfer).
    + vm_compute. reflexivity.
    + vm_compute. reflexivity.
    + vm_compute. reflexivity.
    + vm_compute. reflexivity.
    + vm_compute. reflexivity.
Defined.

(** * The heartbeat of a channel *)

Lemma filter_no_heartbeat (ws : Ws) (l : list Timer) :
  forall t, In t (filter (fun t => negb (isHeartbeatOf ws t)) l) -> isHeartbeatOf ws t = false.
Proof.
  intros t Hin. apply filter_In in Hin. destruct Hin as [_ H].
  destruct (isHeartbeatOf ws t); [discriminate H|reflexivity].
Qed.

(** X29 - the heartbeat ends with its channel: after the close of an
    accepted channel no heartbeat timer of that channel is pending; and a
    heartbeat that fires while its channel is not OPEN writes no frame and
    removes the heartbeat timers of the channel, while on an OPEN channel it
    writes one [ping] frame and stays pending. *)
Theorem heartbeat_ends_with_its_channel (st : State) (ws : Ws) (now : Z) :
  (forall d, wget ws (connections st) = Some d ->
     forall t, In t (timers (step st (EvClose ws now))) -> isHeartbeatOf ws t = false)
  /\ (forall i t,
        nth_error (timers st) i = Some t -> tm_repeat t = true ->
        tm_task t = TaskIOSHeartbeat ws ->
        (readyStateOf st ws <> OPEN ->
         step st (EvTimer i now)
         = set_timers (filter (fun t => negb (isHeartbeatOf ws t)) (timers st)) st)
        /\ (readyStateOf st ws = OPEN ->
            step st (EvTimer i now)
            = set_outbox (outbox st ++ [(ws, Ping now true)]) st)).
Proof.
  split.
  - intros d Hconn. unfold step. cbn [handle].
    apply (triple_exec st _
             (fun s => forall t, In t (timers s) -> isHeartbeatOf ws t = false)).
    apply step_gets. rewrite Hconn. apply step_modify.
    unfold onClose, getDevice. apply step_gets.
    apply (step_keeps_returns (fun _ _ => True)).
    { intros s. exact I. }
    { unfold getRoom, updateDevice. returns_steps. }
    intros [] s1 _. apply step_modify. apply step_modify.
    unfold saveDevices. apply step_modify. unfold clearHeartbeat. apply done_modify.
    cbn [timers set_timers set_devicesFile set_roomsFile]. apply filter_no_heartbeat.
  - intros i t Hi Hrep Htask. split; intros Hready.
    + unfold step, exec. cbn [handle]. unfold fireTimer, bind, gets. rewrite Hi, Hrep.
      cbn [ret]. rewrite Htask. cbn [runTask]. unfold bind, wsOpen, gets.
      destruct (readyStateOf st ws); try contradiction; reflexivity.
    + unfold step, exec. cbn [handle]. unfold fireTimer, bind, gets. rewrite Hi, Hrep.
      cbn [ret]. rewrite Htask. cbn [runTask]. unfold bind, wsOpen, gets. rewrite Hready.
      cbn [isOpen]. unfold tryCatch. rewrite (wsSend_open _ _ _ Hready). reflexivity.
Qed.

Lemma heartbeat_ends_with_its_channel_witness :
  step phoneConnected (EvTimer 0%nat 11000)
  = set_outbox (outbox phoneConnected ++ [(1%nat, Ping 11000 true)]) phoneConnected.
Proof.
  destruct (heartbeat_ends_with_its_channel phoneConnected 1%nat 11000) as [_ Hfire].
  edestruct (Hfire 0%nat) as [_ Hopen].
  - vm_compute. reflexivity.
  - vm_compute. reflexivity.
  - vm_compute. reflexivity.
  - apply Hopen. vm_compute. reflexivity.
Defined.
